(** * paq_aseprite.h: a shallow embedding of the Aseprite loader

    The development follows the order of [paq_aseprite.h]: machine
    integers, the I/O callbacks and the generic little-endian reads, the
    document header and chunk readers, the palette, layer, cel and tag
    builders, the zlib decoder borrowed from stb_image, the document
    assembler [ASE__decode_main], [ASE_free] and the convenience
    functions.  Theorems about the embedding come after the definitions. *)

From Stdlib Require Import ZArith List Lia Bool.
From stdpp Require Import gmap list functions.
Import ListNotations.
Open Scope Z_scope.

(** ** Machine integers

    C integers are modelled as [Z] with the conversions written out: a
    value stored into an unsigned [w]-bit object is reduced modulo [2^w];
    a value stored into a signed one is reduced to the two's complement
    range (what every compiler the header targets does for out-of-range
    conversions and what wrap-around arithmetic gives). *)

Definition u8 (x : Z) : Z := x mod 2^8.
Definition u16 (x : Z) : Z := x mod 2^16.
Definition u32 (x : Z) : Z := x mod 2^32.
Definition s16 (x : Z) : Z := (x + 2^15) mod 2^16 - 2^15.
Definition s32 (x : Z) : Z := (x + 2^31) mod 2^32 - 2^31.

Definition INT_MAX : Z := 2^31 - 1.
Definition INT_MIN : Z := - 2^31.

(** ** Flags and magic numbers *)

Definition ASE_FILE_MAGIC : Z := 0xA5E0.
Definition ASE_FILE_FRAME_MAGIC : Z := 0xF1FA.

Definition ASE_DEPTH_RGBA : Z := 32.
Definition ASE_DEPTH_GRAYSCALE : Z := 16.
Definition ASE_DEPTH_INDEXED : Z := 8.

Definition ASE_FILE_CHUNK_FLI_COLOR2 : Z := 4.
Definition ASE_FILE_CHUNK_FLI_COLOR : Z := 11.
Definition ASE_FILE_CHUNK_LAYER : Z := 0x2004.
Definition ASE_FILE_CHUNK_CEL : Z := 0x2005.
Definition ASE_FILE_CHUNK_CEL_EXTRA : Z := 0x2006.
Definition ASE_FILE_CHUNK_MASK : Z := 0x2016.
Definition ASE_FILE_CHUNK_PATH : Z := 0x2017.
Definition ASE_FILE_CHUNK_FRAME_TAGS : Z := 0x2018.
Definition ASE_FILE_CHUNK_PALETTE : Z := 0x2019.
Definition ASE_FILE_CHUNK_USER_DATA : Z := 0x2020.
Definition ASE_FILE_CHUNK_SLICES : Z := 0x2021.
Definition ASE_FILE_CHUNK_SLICE : Z := 0x2022.

Definition ASE_FILE_LAYER_IMAGE : Z := 0.
Definition ASE_FILE_LAYER_GROUP : Z := 1.

Definition ASE_FILE_RAW_CEL : Z := 0.
Definition ASE_FILE_LINK_CEL : Z := 1.
Definition ASE_FILE_COMPRESSED_CEL : Z := 2.

Definition ASE_PALETTE_FLAG_HAS_NAME : Z := 1.

Definition ASE_LAYER_VISIBLE : Z := 1.
Definition ASE_LAYER_BACKGROUND : Z := 8.

Definition ASE_LOOP_FORWARD : Z := 0.
Definition ASE_LOOP_REVERSE : Z := 1.
Definition ASE_LOOP_PINGPONG : Z := 2.

(** ** Primary API structs

    A [char *] or [uint8_t *] that owns a heap buffer is modelled by the
    buffer's contents, [None] standing for the null pointer.  An array
    together with its element count ([layers]/[nlayers], [frames]/[nframes],
    [cels]/[ncels], [tags]/[ntags]) is modelled by a list. *)

(** [ASE_Pixel32]: the union of [rgba] with the bytes [r,g,b,a]; [r] is the
    byte at the lowest address. *)
Record ASE_Pixel32 := mkPixel32 { px_r : Z; px_g : Z; px_b : Z; px_a : Z }.

Record ASE_Palette := mkPalette {
  ncolors : Z;                    (* uint8_t *)
  colors : list ASE_Pixel32       (* ASE_Pixel32 colors[256] *)
}.

Record ASE_Layer := mkLayer {
  layer_name : option (list Z);
  layer_flags : Z;
  layer_type : Z;
  layer_blendmode : Z;
  layer_opacity : Z;
  child_level : Z;
  parent : Z;
  visible : Z
}.

Record ASE_Cel := mkCel {
  cel_layer : Z;
  cel_x : Z;
  cel_y : Z;
  cel_w : Z;
  cel_h : Z;
  cel_opacity : Z;
  cel_data : option (list Z);
  is_linked : Z;
  cel_frame : Z
}.

Record ASE_Frame := mkFrame {
  duration : Z;
  cels : list ASE_Cel
}.

Record ASE_Tag := mkTag {
  tag_from : Z;
  tag_to : Z;
  tag_dir : Z;
  tag_name : option (list Z)
}.

Record ASE_Sprite := mkSprite {
  width : Z;
  height : Z;
  depth : Z;
  palette : ASE_Palette;
  layers : list ASE_Layer;
  frames : list ASE_Frame;
  tags : list ASE_Tag
}.

(** The zero-filled structs that [memset] and [= {0}] produce. *)
Definition zero_pixel : ASE_Pixel32 := mkPixel32 0 0 0 0.
Definition zero_palette : ASE_Palette := mkPalette 0 (replicate 256 zero_pixel).
Definition zero_layer : ASE_Layer := mkLayer None 0 0 0 0 0 0 0.
Definition zero_cel : ASE_Cel := mkCel 0 0 0 0 0 0 None 0 0.
Definition zero_frame : ASE_Frame := mkFrame 0 [].
Definition zero_tag : ASE_Tag := mkTag 0 0 0 None.
Definition zero_sprite : ASE_Sprite := mkSprite 0 0 0 zero_palette [] [] [].

(** ** Outcomes and the state monad

    A call returns ([Ret]), stops the process in [abort()] after a failed
    assertion ([Abort]), performs an access the C standard leaves undefined
    (a null or out-of-bounds access: [Undefined]), or does not return
    ([Diverge]).  Code that threads a cursor or a decoder state is written
    in the state monad [M St] over these outcomes. *)

Inductive outcome (A : Type) : Type :=
| Ret (a : A)
| Abort
| Undefined
| Diverge.
Arguments Ret {A} a.
Arguments Abort {A}.
Arguments Undefined {A}.
Arguments Diverge {A}.

Definition M (St A : Type) : Type := St -> outcome (A * St).

Definition ret {St A} (a : A) : M St A := fun s => Ret (a, s).

Definition bind {St A B} (m : M St A) (k : A -> M St B) : M St B :=
  fun s => match m s with
           | Ret (a, s') => k a s'
           | Abort => Abort
           | Undefined => Undefined
           | Diverge => Diverge
           end.

Definition get {St} : M St St := fun s => Ret (s, s).
Definition put {St} (s : St) : M St unit := fun _ => Ret (tt, s).
Definition fail_abort {St A} : M St A := fun _ => Abort.
Definition fail_undefined {St A} : M St A := fun _ => Undefined.
Definition fail_diverge {St A} : M St A := fun _ => Diverge.

(** The outcome of a run without its final state. *)
Definition run {St A} (m : M St A) (s : St) : outcome A :=
  match m s with
  | Ret (a, _) => Ret a
  | Abort => Abort
  | Undefined => Undefined
  | Diverge => Diverge
  end.

Declare Scope monad_scope.
Delimit Scope monad_scope with monad.
Notation "x <- c1 ;; c2" := (bind c1 (fun x => c2))
  (at level 100, c1 at next level, right associativity) : monad_scope.
Notation "c1 ;; c2" := (bind c1 (fun _ => c2))
  (at level 100, right associativity) : monad_scope.
Open Scope monad_scope.

(** [assert(e)]: with assertions compiled in ([asserts = true]) a false
    [e] aborts the process; with [NDEBUG] the check disappears. *)
Definition c_assert {St} (asserts : bool) (e : bool) : M St unit :=
  if asserts && negb e then fail_abort else ret tt.

(** ** I/O callbacks and the decoding context

    [ASE_Callbacks] is a struct of five function pointers taking the
    opaque [user] pointer; here they are functions of the user state [U].
    [cb_read u size] gives the bytes written to [out] (as many as the
    count it returns) and the new user state. *)

Record ASE_Callbacks (U : Type) := mkCallbacks {
  cb_read : U -> Z -> list Z * U;
  cb_skip : U -> Z -> U;
  cb_eof : U -> bool;
  cb_tell : U -> Z;
  cb_seek : U -> Z -> U
}.
Arguments mkCallbacks {U}.
Arguments cb_read {U}.
Arguments cb_skip {U}.
Arguments cb_eof {U}.
Arguments cb_tell {U}.
Arguments cb_seek {U}.

Record ASE__ctx (U : Type) := mkCtx {
  io : ASE_Callbacks U;
  udata : U
}.
Arguments mkCtx {U}.
Arguments io {U}.
Arguments udata {U}.

Definition io_read {U} (size : Z) : M (ASE__ctx U) (list Z) :=
  fun F => let '(bs, u) := cb_read (io F) (udata F) size in
           Ret (bs, mkCtx (io F) u).
Definition io_skip {U} (nbytes : Z) : M (ASE__ctx U) unit :=
  fun F => Ret (tt, mkCtx (io F) (cb_skip (io F) (udata F) nbytes)).
Definition io_tell {U} : M (ASE__ctx U) Z :=
  fun F => Ret (cb_tell (io F) (udata F), F).
Definition io_seek {U} (pos : Z) : M (ASE__ctx U) unit :=
  fun F => Ret (tt, mkCtx (io F) (cb_seek (io F) (udata F) pos)).

(** *** Memory interface

    The user state of the memory callbacks is the context's own cursor:
    [mem_orig] gives the byte at each offset from [buf_orig] (offsets in
    [0, mem_len) are the caller's buffer; the others are whatever
    surrounds it, which the unchecked [ASE__mem_seek] can reach), and
    [mem_buf] is [buf - buf_orig]. *)
Record ASE__mem := mkMem {
  mem_orig : Z -> Z;
  mem_len : Z;
  mem_buf : Z
}.

Fixpoint ASE__mem_read_loop (n : nat) (C : ASE__mem) : list Z * ASE__mem :=
  match n with
  | O => ([], C)
  | S n' =>
      if mem_buf C >=? mem_len C then ([], C)
      else
        let b := u8 (mem_orig C (mem_buf C)) in
        let '(bs, C') :=
          ASE__mem_read_loop n' (mkMem (mem_orig C) (mem_len C) (mem_buf C + 1)) in
        (b :: bs, C')
  end.

Definition ASE__mem_read (C : ASE__mem) (size : Z) : list Z * ASE__mem :=
  ASE__mem_read_loop (Z.to_nat size) C.

(** [for (; bytes; --bytes, ++C->buf) if (C->buf >= C->buf_end) break;]
    for a count of [n]. *)
Fixpoint ASE__mem_skip_loop (n : nat) (C : ASE__mem) : ASE__mem :=
  match n with
  | O => C
  | S n' =>
      if mem_buf C >=? mem_len C then C
      else ASE__mem_skip_loop n' (mkMem (mem_orig C) (mem_len C) (mem_buf C + 1))
  end.

(** A negative count is decremented away from 0: it would have to wrap
    around, [2^32 + bytes] rounds on, to end the loop before the end of
    the buffer does. *)
Definition ASE__mem_skip (C : ASE__mem) (bytes : Z) : ASE__mem :=
  if bytes <? 0
  then ASE__mem_skip_loop
         (Z.to_nat (Z.min (2^32 + bytes) (mem_len C - mem_buf C))) C
  else ASE__mem_skip_loop (Z.to_nat bytes) C.

Definition ASE__mem_eof (C : ASE__mem) : bool := mem_buf C >=? mem_len C.

Definition ASE__mem_tell (C : ASE__mem) : Z := s32 (mem_buf C).

Definition ASE__mem_seek (C : ASE__mem) (pos : Z) : ASE__mem :=
  mkMem (mem_orig C) (mem_len C) pos.

Definition ASE__mem_callbacks : ASE_Callbacks ASE__mem :=
  mkCallbacks ASE__mem_read ASE__mem_skip ASE__mem_eof ASE__mem_tell ASE__mem_seek.

(** [ASE__start_mem]: the buffer is given as the list of its bytes; the
    bytes around it read as [around]. *)
Definition ASE__start_mem_around (around : Z -> Z) (buf : list Z) : ASE__ctx ASE__mem :=
  mkCtx ASE__mem_callbacks
    (mkMem (fun i => if (0 <=? i) && (i <? Z.of_nat (length buf))
                     then nth (Z.to_nat i) buf 0 else around i)
           (Z.of_nat (length buf)) 0).

Definition ASE__start_mem (buf : list Z) : ASE__ctx ASE__mem :=
  ASE__start_mem_around (fun _ => 0) buf.

(** ** Generic reads *)

Definition ASE__read8 {U} : M (ASE__ctx U) Z :=
  v <- io_read 1 ;;
  match v with
  | [v0] => ret (u8 v0)
  | _ => ret 0
  end.

Definition ASE__read16 {U} : M (ASE__ctx U) Z :=
  v <- io_read 2 ;;
  match v with
  | [v0; v1] => ret (Z.lor (Z.shiftl (u8 v1) 8) (u8 v0))
  | _ => ret 0
  end.

(** The result is an [int]: a top byte of 128 or more gives a negative
    value. *)
Definition ASE__read32 {U} : M (ASE__ctx U) Z :=
  v <- io_read 4 ;;
  match v with
  | [v0; v1; v2; v3] =>
      ret (s32 (Z.lor (Z.lor (Z.lor (Z.shiftl (u8 v3) 24) (Z.shiftl (u8 v2) 16))
                             (Z.shiftl (u8 v1) 8)) (u8 v0)))
  | _ => ret 0
  end.

(** [n] successive [ASE__read8]. *)
Fixpoint ASE__read8s {U} (n : nat) : M (ASE__ctx U) (list Z) :=
  match n with
  | O => ret []
  | S n' => b <- ASE__read8 ;; bs <- ASE__read8s n' ;; ret (b :: bs)
  end.

(** ** Document types *)

Record ASE_DOC_Header := mkHeader {
  hdr_size : Z;
  hdr_magic : Z;
  hdr_frames : Z;
  hdr_width : Z;
  hdr_height : Z;
  hdr_depth : Z;
  hdr_flags : Z;
  hdr_speed : Z;
  hdr_next : Z;
  hdr_frit : Z;
  hdr_transparent_index : Z;
  hdr_ncolors : Z;
  hdr_pixel_w : Z;
  hdr_pixel_h : Z
}.

Record ASE_FrameHeader := mkFrameHeader {
  fh_size : Z;
  fh_magic : Z;
  fh_chunks : Z;
  fh_duration : Z
}.

Record ASE_DOC_ChunkHeader := mkChunkHeader {
  ch_size : Z;
  ch_type : Z;
  ch_start : Z
}.

Record ASE_LayerHeader := mkLayerHeader {
  lh_flags : Z;
  lh_type : Z;
  lh_child_level : Z;
  lh_default_w : Z;
  lh_default_h : Z;
  lh_blendmode : Z;
  lh_opacity : Z;
  lh_name : option (list Z)
}.

(** ** Document functions *)

(** [Length] is a [uint16_t], so [Length != EOF] always holds and the
    string is always allocated; the list is the string without its
    terminating zero. *)
Definition ASE_DOC_read_string {U} : M (ASE__ctx U) (option (list Z)) :=
  Length <- ASE__read16 ;;
  S <- ASE__read8s (Z.to_nat Length) ;;
  ret (Some S).

(** The field reads of [ASE_DOC_Header_read]. *)
Definition ASE_DOC_Header_fields {U} : M (ASE__ctx U) ASE_DOC_Header :=
  size <- ASE__read32 ;;
  magic <- ASE__read16 ;;
  frames <- ASE__read16 ;;
  width <- ASE__read16 ;;
  height <- ASE__read16 ;;
  depth <- ASE__read16 ;;
  flags <- ASE__read32 ;;
  speed <- ASE__read16 ;;
  next <- ASE__read32 ;;
  frit <- ASE__read32 ;;
  transparent_index <- ASE__read8 ;;
  io_skip 3 ;;
  ncolors <- ASE__read16 ;;
  pixel_h <- ASE__read8 ;;
  pixel_w <- ASE__read8 ;;
  ret (mkHeader (u32 size) magic frames width height depth (u32 flags) speed
                (u32 next) (u32 frit) transparent_index ncolors pixel_w pixel_h).

(** The checks and quirks of [ASE_DOC_Header_read] on the fields read:
    the [ASE_BOOL] it returns and the header it leaves in [*O]. *)
Definition ASE_DOC_Header_check (O : ASE_DOC_Header) : bool * ASE_DOC_Header :=
  if negb (hdr_magic O =? ASE_FILE_MAGIC) then (false, O)
  else if negb (hdr_depth O =? ASE_DEPTH_RGBA)
          && negb (hdr_depth O =? ASE_DEPTH_GRAYSCALE)
          && negb (hdr_depth O =? ASE_DEPTH_INDEXED) then (false, O)
  else
    let ncolors := if 0 =? hdr_ncolors O then 256 else hdr_ncolors O in
    let '(pixel_w, pixel_h) :=
      if (hdr_pixel_w O =? 0) || (hdr_pixel_h O =? 0) then (1, 1)
      else (hdr_pixel_w O, hdr_pixel_h O) in
    (true, mkHeader (hdr_size O) (hdr_magic O) (hdr_frames O) (hdr_width O)
                    (hdr_height O) (hdr_depth O) (hdr_flags O) (hdr_speed O)
                    (hdr_next O) (hdr_frit O) (hdr_transparent_index O)
                    ncolors pixel_w pixel_h).

(** [ASE_DOC_Header_read]: the stream is moved to [Pos + 128] only when
    the checks pass. *)
Definition ASE_DOC_Header_read {U} : M (ASE__ctx U) (bool * ASE_DOC_Header) :=
  Pos <- io_tell ;;
  O <- ASE_DOC_Header_fields ;;
  let r := ASE_DOC_Header_check O in
  if fst r then (io_seek (s32 (Pos + 128)) ;; ret r) else ret r.

Definition ASE_FrameHeader_read {U} : M (ASE__ctx U) ASE_FrameHeader :=
  size <- ASE__read32 ;;
  magic <- ASE__read16 ;;
  chunks <- ASE__read16 ;;
  duration <- ASE__read16 ;;
  io_skip 6 ;;
  ret (mkFrameHeader (u32 size) magic chunks duration).

(** ** Chunk reading *)

Definition ASE_DOC_ChunkHeader_read {U} : M (ASE__ctx U) ASE_DOC_ChunkHeader :=
  Pos <- io_tell ;;
  size <- ASE__read32 ;;
  type <- ASE__read16 ;;
  ret (mkChunkHeader (u32 size) type (Pos + 6)).

(** [ASE_Pixel32] from and to its [rgba] member (little-endian layout). *)
Definition ASE_Pixel32_of_rgba (rgba : Z) : ASE_Pixel32 :=
  mkPixel32 (u8 rgba) (u8 (Z.shiftr rgba 8)) (u8 (Z.shiftr rgba 16))
            (u8 (Z.shiftr rgba 24)).

(** The palette loop body, run once for each [i] in [From .. To].  The
    colour is stored at [R.colors[R.ncolors++]]; the swap that follows
    addresses [R.colors[R.ncolors-1]] with the incremented [uint8_t]
    counter, which after a wrap from 255 to 0 is index [-1], outside the
    array. *)
Definition ASE_Palette_read_entry {U} (R : ASE_Palette) : M (ASE__ctx U) ASE_Palette :=
  Flags <- ASE__read16 ;;
  rgba <- ASE__read32 ;;
  let idx := ncolors R in
  let n' := u8 (ncolors R + 1) in
  let cs := <[Z.to_nat idx := ASE_Pixel32_of_rgba (u32 rgba)]> (colors R) in
  if n' - 1 <? 0 then fail_undefined
  else
    let c := nth (Z.to_nat (n' - 1)) cs zero_pixel in
    let cs' := <[Z.to_nat (n' - 1) := mkPixel32 (px_b c) (px_g c) (px_r c) (px_a c)]> cs in
    (if negb (Z.land Flags ASE_PALETTE_FLAG_HAS_NAME =? 0)
     then (ASE_DOC_read_string ;; ret tt) else ret tt) ;;
    ret (mkPalette n' cs').

Fixpoint ASE_Palette_read_loop {U} (n : nat) (R : ASE_Palette) : M (ASE__ctx U) ASE_Palette :=
  match n with
  | O => ret R
  | S n' => R' <- ASE_Palette_read_entry R ;; ASE_Palette_read_loop n' R'
  end.

(** [for (int i=From; i <= To; ++i)] runs [To - From + 1] times when
    [From <= To].  With [To = INT_MAX] the condition never becomes false,
    and the 256th pass at the latest leaves the colour array. *)
Definition ASE_Palette_read {U} (Prev : ASE_Palette) : M (ASE__ctx U) ASE_Palette :=
  NewSize <- ASE__read32 ;;
  From <- ASE__read32 ;;
  To <- ASE__read32 ;;
  io_skip 8 ;;
  if To =? INT_MAX then (ASE_Palette_read_loop 256 Prev ;; fail_undefined)
  else ASE_Palette_read_loop (Z.to_nat (To - From + 1)) Prev.

(** ** Layers *)

(** [ASE_DOC_AddLayer]: the new element is the last one, index
    [nlayers - 1]. *)
Definition ASE_DOC_AddLayer (S : ASE_Sprite) : ASE_Sprite :=
  mkSprite (width S) (height S) (depth S) (palette S)
           (layers S ++ [zero_layer]) (frames S) (tags S).

Definition nlayers (S : ASE_Sprite) : Z := Z.of_nat (length (layers S)).

Definition set_layers (S : ASE_Sprite) (ls : list ASE_Layer) : ASE_Sprite :=
  mkSprite (width S) (height S) (depth S) (palette S) ls (frames S) (tags S).

(** The layer header, read field by field at the start of
    [ASE_Layer_read]. *)
Definition ASE_LayerHeader_read {U} : M (ASE__ctx U) ASE_LayerHeader :=
  flags <- ASE__read16 ;;
  type <- ASE__read16 ;;
  child_level <- ASE__read16 ;;
  default_w <- ASE__read16 ;;
  default_h <- ASE__read16 ;;
  blendmode <- ASE__read16 ;;
  opacity <- ASE__read8 ;;
  io_skip 3 ;;
  name <- ASE_DOC_read_string ;;
  ret (mkLayerHeader flags type child_level default_w default_h blendmode opacity name).

(** The local [Parent] of the walk-back branch after its [while
    (Levels--)] loop: at most [Levels] steps up the parent chain, stopping
    below a root.  [None] is an access outside the layer array. *)
Fixpoint ASE_Layer_walk (ls : list ASE_Layer) (Levels : nat) (Parent : Z) : option Z :=
  match Levels with
  | O => Some Parent
  | S Levels' =>
      if Parent <? 0 then None else
      match ls !! Z.to_nat Parent with
      | None => None
      | Some PL =>
          if parent PL =? -1 then Some Parent
          else ASE_Layer_walk ls Levels' (parent PL)
      end
  end.

(** The parent assignment of [ASE_Layer_read] for the new layer, the last
    element of [ls].  [PrevLayer] points into the layer array and is
    modelled by the index of its element; the elements keep their contents
    when [ASE_DOC_AddLayer] reallocates the array.  The result is the value
    left in [Layer->parent], which [ASE_DOC_AddLayer] has zeroed. *)
Definition ASE_Layer_parent (ls : list ASE_Layer) (PrevLayer : option nat)
    (CurrentLevel : Z) (child_level : Z) : outcome Z :=
  if 0 =? child_level then Ret (-1)
  else if CurrentLevel =? child_level then
    match PrevLayer with
    | None => Undefined
    | Some p => match ls !! p with
                | None => Undefined
                | Some PL => Ret (parent PL)
                end
    end
  else if child_level >? CurrentLevel then Ret (Z.of_nat (length ls) - 2)
  else if child_level <? CurrentLevel then
    match PrevLayer with
    | None => Undefined
    | Some p =>
        match ls !! p with
        | None => Undefined
        | Some PL =>
            let Parent := parent PL in
            if Parent >=? 0 then
              match ASE_Layer_walk ls (Z.to_nat (CurrentLevel - child_level)) Parent with
              | None => Undefined
              | Some Parent' => Ret 0
              end
            else Ret 0
        end
    end
  else Ret 0.

(** The part of [ASE_Layer_read] after the header has been read.  The
    result is the new layer's index ([None] for the null [Layer]), the
    sprite, [*PrevLayer] and [*CurrentLevel]. *)
Definition ASE_Layer_decode (H : ASE_LayerHeader) (Sprite : ASE_Sprite)
    (PrevLayer : option nat) (CurrentLevel : Z)
  : outcome (option nat * ASE_Sprite * option nat * Z) :=
  if (lh_type H =? ASE_FILE_LAYER_IMAGE) || (lh_type H =? ASE_FILE_LAYER_GROUP) then
    let Sprite1 := ASE_DOC_AddLayer Sprite in
    let Layer := length (layers Sprite) in
    let '(blendmode, opacity) :=
      if (lh_type H =? ASE_FILE_LAYER_IMAGE)
         && (Z.land (lh_flags H) ASE_LAYER_BACKGROUND =? 0)
      then (lh_blendmode H, lh_opacity H) else (0, 0) in
    match ASE_Layer_parent (layers Sprite1) PrevLayer CurrentLevel (lh_child_level H) with
    | Ret p =>
        let L := mkLayer (lh_name H) (lh_flags H) (lh_type H) blendmode opacity
                         (lh_child_level H) p
                         (Z.land (lh_flags H) ASE_LAYER_VISIBLE) in
        Ret (Some Layer, set_layers Sprite1 (<[Layer := L]> (layers Sprite1)),
             Some Layer, lh_child_level H)
    | Abort => Abort
    | Undefined => Undefined
    | Diverge => Diverge
    end
  else
    (* ASE_FREE(H.name) *)
    Ret (None, Sprite, PrevLayer, CurrentLevel).

Definition lift_outcome {St A} (o : outcome A) : M St A :=
  fun s => match o with
           | Ret a => Ret (a, s)
           | Abort => Abort
           | Undefined => Undefined
           | Diverge => Diverge
           end.

Definition ASE_Layer_read {U} (Sprite : ASE_Sprite) (PrevLayer : option nat)
    (CurrentLevel : Z)
  : M (ASE__ctx U) (option nat * ASE_Sprite * option nat * Z) :=
  H <- ASE_LayerHeader_read ;;
  lift_outcome (ASE_Layer_decode H Sprite PrevLayer CurrentLevel).

(** Consecutive layer chunks: [ASE_Layer_decode] on each header in turn,
    with the sprite, [*PrevLayer] and [*CurrentLevel] carried along. *)
Fixpoint ASE_Layer_decode_all (Hs : list ASE_LayerHeader) (Sprite : ASE_Sprite)
    (PrevLayer : option nat) (CurrentLevel : Z)
  : outcome (ASE_Sprite * option nat * Z) :=
  match Hs with
  | [] => Ret (Sprite, PrevLayer, CurrentLevel)
  | H :: Hs' =>
      match ASE_Layer_decode H Sprite PrevLayer CurrentLevel with
      | Ret (_, Sprite', PrevLayer', CurrentLevel') =>
          ASE_Layer_decode_all Hs' Sprite' PrevLayer' CurrentLevel'
      | Abort => Abort
      | Undefined => Undefined
      | Diverge => Diverge
      end
  end.

(** ** Frames *)

Definition ASE_DOC_AddFrame (S : ASE_Sprite) : ASE_Sprite :=
  mkSprite (width S) (height S) (depth S) (palette S) (layers S)
           (frames S ++ [zero_frame]) (tags S).

Definition set_frames (S : ASE_Sprite) (fs : list ASE_Frame) : ASE_Sprite :=
  mkSprite (width S) (height S) (depth S) (palette S) (layers S) fs (tags S).

(** ** ZLIB

    The zlib decoder borrowed from stb_image.  Fixed-size arrays of
    integers are functions from the index; the input is the list of the
    bytes from [zbuffer] to [zbuffer_end]; the output buffer is the list
    of the bytes from [zout_start] to [zout], with [zout_limit] for
    [zout_end - zout_start]. *)

Definition STBI__ZFAST_BITS : Z := 9.
Definition STBI__ZFAST_MASK : Z := 2^9 - 1.

Record stbi__zhuffman := mkZhuffman {
  zfast : Z -> Z;          (* stbi__uint16 fast[1 << STBI__ZFAST_BITS] *)
  firstcode : Z -> Z;      (* stbi__uint16 firstcode[16] *)
  maxcode : Z -> Z;        (* int maxcode[17] *)
  firstsymbol : Z -> Z;    (* stbi__uint16 firstsymbol[16] *)
  zsize : Z -> Z;          (* stbi_uc size[288] *)
  zvalue : Z -> Z          (* stbi__uint16 value[288] *)
}.

(** A table nothing has been stored in.  The tables of a fresh
    [stbi__zbuf] are uninitialised; [stbi__zbuild_huffman] runs on them
    before any entry is read. *)
Definition zhuffman_0 : stbi__zhuffman :=
  mkZhuffman (fun _ => 0) (fun _ => 0) (fun _ => 0) (fun _ => 0) (fun _ => 0) (fun _ => 0).

Definition stbi__bitreverse16 (n : Z) : Z :=
  let n := Z.lor (Z.shiftr (Z.land n 0xAAAA) 1) (Z.shiftl (Z.land n 0x5555) 1) in
  let n := Z.lor (Z.shiftr (Z.land n 0xCCCC) 2) (Z.shiftl (Z.land n 0x3333) 2) in
  let n := Z.lor (Z.shiftr (Z.land n 0xF0F0) 4) (Z.shiftl (Z.land n 0x0F0F) 4) in
  let n := Z.lor (Z.shiftr (Z.land n 0xFF00) 8) (Z.shiftl (Z.land n 0x00FF) 8) in
  n.

(** Callers pass [bits <= 16]. *)
Definition stbi__bit_reverse (v bits : Z) : Z :=
  Z.shiftr (stbi__bitreverse16 v) (16 - bits).

(** [++sizes[sizelist[i]]] over the symbols, then [sizes[0] = 0]. *)
Definition zbuild_sizes (sizelist : list Z) : Z -> Z :=
  <[0 := 0]> (fold_left (fun sizes s => <[s := sizes s + 1]> sizes) sizelist (fun _ => 0)).

(** The second [for (i=1; i < 16; ++i)] loop of [stbi__zbuild_huffman],
    from [i] on for [n] rounds; [None] is the "bad codelengths" return. *)
Fixpoint zbuild_codes (n : nat) (i : Z) (sizes : Z -> Z) (code k : Z)
    (next_code : Z -> Z) (z : stbi__zhuffman) : option ((Z -> Z) * stbi__zhuffman) :=
  match n with
  | O => Some (next_code, z)
  | S n' =>
      let next_code := <[i := code]> next_code in
      let z := mkZhuffman (zfast z) (<[i := u16 code]> (firstcode z)) (maxcode z)
                          (<[i := u16 k]> (firstsymbol z)) (zsize z) (zvalue z) in
      let code := code + sizes i in
      if negb (sizes i =? 0) && (code - 1 >=? Z.shiftl 1 i) then None
      else
        let z := mkZhuffman (zfast z) (firstcode z)
                            (<[i := Z.shiftl code (16 - i)]> (maxcode z))
                            (firstsymbol z) (zsize z) (zvalue z) in
        zbuild_codes n' (i + 1) sizes (Z.shiftl code 1) (k + sizes i) next_code z
  end.

(** [while (j < (1 << STBI__ZFAST_BITS)) { z->fast[j] = fastv; j += (1 << s); }];
    [j] starts non-negative and grows by at least 2, so 512 rounds
    exhaust the table. *)
Fixpoint zbuild_fast (n : nat) (fast : Z -> Z) (j step fastv : Z) : Z -> Z :=
  match n with
  | O => fast
  | S n' =>
      if j <? Z.shiftl 1 STBI__ZFAST_BITS
      then zbuild_fast n' (<[j := fastv]> fast) (j + step) step fastv
      else fast
  end.

(** The last loop of [stbi__zbuild_huffman], over the symbols [i], [i+1],
    ... with the code lengths [sizelist]. *)
Fixpoint zbuild_symbols (sizelist : list Z) (i : Z) (next_code : Z -> Z)
    (z : stbi__zhuffman) : stbi__zhuffman :=
  match sizelist with
  | [] => z
  | s :: rest =>
      if s =? 0 then zbuild_symbols rest (i + 1) next_code z
      else
        let c := next_code s - firstcode z s + firstsymbol z s in
        let fastv := u16 (Z.lor (Z.shiftl s 9) i) in
        let fast :=
          if s <=? STBI__ZFAST_BITS
          then zbuild_fast 512 (zfast z) (stbi__bit_reverse (next_code s) s)
                           (Z.shiftl 1 s) fastv
          else zfast z in
        let z := mkZhuffman fast (firstcode z) (maxcode z) (firstsymbol z)
                            (<[c := u8 s]> (zsize z)) (<[c := u16 i]> (zvalue z)) in
        zbuild_symbols rest (i + 1) (<[s := next_code s + 1]> next_code) z
  end.

(** [stbi__zbuild_huffman(z, sizelist, num)] with [num = length sizelist];
    [None] for the return value 0. *)
Definition stbi__zbuild_huffman (z : stbi__zhuffman) (sizelist : list Z)
  : option stbi__zhuffman :=
  let sizes := zbuild_sizes sizelist in
  let z := mkZhuffman (fun _ => 0) (firstcode z) (maxcode z) (firstsymbol z)
                      (zsize z) (zvalue z) in
  if existsb (fun i => sizes i >? Z.shiftl 1 i) (map Z.of_nat (seq 1 15)) then None
  else
    match zbuild_codes 15 1 sizes 0 0 (fun _ => 0) z with
    | None => None
    | Some (next_code, z) =>
        let z := mkZhuffman (zfast z) (firstcode z) (<[16 := 0x10000]> (maxcode z))
                            (firstsymbol z) (zsize z) (zvalue z) in
        Some (zbuild_symbols sizelist 0 next_code z)
    end.

Record stbi__zbuf := mkZbuf {
  zbuffer : list Z;
  num_bits : Z;
  code_buffer : Z;
  zout : list Z;
  zout_limit : Z;
  z_expandable : bool;
  z_length : stbi__zhuffman;
  z_distance : stbi__zhuffman
}.

Definition set_zbuffer (a : stbi__zbuf) (b : list Z) : stbi__zbuf :=
  mkZbuf b (num_bits a) (code_buffer a) (zout a) (zout_limit a) (z_expandable a)
         (z_length a) (z_distance a).
Definition set_bits (a : stbi__zbuf) (n c : Z) : stbi__zbuf :=
  mkZbuf (zbuffer a) n c (zout a) (zout_limit a) (z_expandable a)
         (z_length a) (z_distance a).
Definition set_zout (a : stbi__zbuf) (o : list Z) : stbi__zbuf :=
  mkZbuf (zbuffer a) (num_bits a) (code_buffer a) o (zout_limit a) (z_expandable a)
         (z_length a) (z_distance a).
Definition set_zout_limit (a : stbi__zbuf) (l : Z) : stbi__zbuf :=
  mkZbuf (zbuffer a) (num_bits a) (code_buffer a) (zout a) l (z_expandable a)
         (z_length a) (z_distance a).
Definition set_z_length (a : stbi__zbuf) (z : stbi__zhuffman) : stbi__zbuf :=
  mkZbuf (zbuffer a) (num_bits a) (code_buffer a) (zout a) (zout_limit a)
         (z_expandable a) z (z_distance a).
Definition set_z_distance (a : stbi__zbuf) (z : stbi__zhuffman) : stbi__zbuf :=
  mkZbuf (zbuffer a) (num_bits a) (code_buffer a) (zout a) (zout_limit a)
         (z_expandable a) (z_length a) z.

Definition stbi__zget8 : M stbi__zbuf Z :=
  fun z => match zbuffer z with
           | [] => Ret (0, z)
           | b :: rest => Ret (u8 b, set_zbuffer z rest)
           end.

Definition stbi__zlength_base : list Z :=
  [3;4;5;6;7;8;9;10;11;13;
   15;17;19;23;27;31;35;43;51;59;
   67;83;99;115;131;163;195;227;258;0;0].

Definition stbi__zlength_extra : list Z :=
  [0;0;0;0;0;0;0;0;1;1;1;1;2;2;2;2;3;3;3;3;4;4;4;4;5;5;5;5;0;0;0].

Definition stbi__zdist_base : list Z :=
  [1;2;3;4;5;7;9;13;17;25;33;49;65;97;129;193;
   257;385;513;769;1025;1537;2049;3073;4097;6145;8193;12289;16385;24577;0;0].

Definition stbi__zdist_extra : list Z :=
  [0;0;0;0;1;1;2;2;3;3;4;4;5;5;6;6;7;7;8;8;9;9;10;10;11;11;12;12;13;13;0;0].

Definition length_dezigzag : list Z :=
  [16;17;18;0;8;7;9;6;10;5;11;4;12;3;13;2;14;1;15].

(** [stbi__init_zdefaults] fills these two static arrays once. *)
Definition stbi__zdefault_length : list Z :=
  replicate 144 8 ++ replicate 112 9 ++ replicate 24 7 ++ replicate 8 8.
Definition stbi__zdefault_distance : list Z := replicate 32 5.

Section Decoder.

(** [asserts] says whether [assert] and [STBI_ASSERT] are compiled in
    (they are unless [NDEBUG] is defined). *)
Variable asserts : bool.

(** The loop body runs while [num_bits <= 24]; [num_bits] is never
    negative at a call, so four rounds are the most there can be, and a
    negative shift count is undefined. *)
Fixpoint stbi__fill_bits_loop (n : nat) : M stbi__zbuf unit :=
  match n with
  | O => fail_undefined
  | S n' =>
      z <- get ;;
      if num_bits z <? 0 then fail_undefined else
      c_assert asserts (code_buffer z <? Z.shiftl 1 (num_bits z)) ;;
      b <- stbi__zget8 ;;
      z <- get ;;
      put (set_bits z (num_bits z + 8)
                    (u32 (Z.lor (code_buffer z) (Z.shiftl b (num_bits z))))) ;;
      if num_bits z + 8 <=? 24 then stbi__fill_bits_loop n' else ret tt
  end.

Definition stbi__fill_bits : M stbi__zbuf unit := stbi__fill_bits_loop 4.

Definition stbi__zreceive (n : Z) : M stbi__zbuf Z :=
  z <- get ;;
  (if num_bits z <? n then stbi__fill_bits else ret tt) ;;
  z <- get ;;
  let k := Z.land (code_buffer z) (Z.shiftl 1 n - 1) in
  put (set_bits z (num_bits z - n) (Z.shiftr (code_buffer z) n)) ;;
  ret k.

(** [for (s=STBI__ZFAST_BITS+1; ; ++s) if (k < z->maxcode[s]) break;] from
    [s] on: the first [s] with [k < maxcode[s]], looked for up to
    [maxcode[16]], the last element of the array. *)
Fixpoint zslow_find (n : nat) (s k : Z) (z : stbi__zhuffman) : option Z :=
  match n with
  | O => None
  | S n' => if k <? maxcode z s then Some s else zslow_find n' (s + 1) k z
  end.

Definition stbi__zhuffman_decode_slowpath (z : stbi__zhuffman) : M stbi__zbuf Z :=
  a <- get ;;
  let k := stbi__bit_reverse (s32 (code_buffer a)) 16 in
  match zslow_find 7 (STBI__ZFAST_BITS + 1) k z with
  | None => fail_undefined
  | Some s =>
      if s =? 16 then ret (-1)
      else
        let b := Z.shiftr k (16 - s) - firstcode z s + firstsymbol z s in
        if (b <? 0) || (288 <=? b) then fail_undefined else
        c_assert asserts (zsize z b =? s) ;;
        put (set_bits a (num_bits a - s) (Z.shiftr (code_buffer a) s)) ;;
        ret (zvalue z b)
  end.

Definition stbi__zhuffman_decode (z : stbi__zhuffman) : M stbi__zbuf Z :=
  a <- get ;;
  (if num_bits a <? 16 then stbi__fill_bits else ret tt) ;;
  a <- get ;;
  let b := zfast z (Z.land (code_buffer a) STBI__ZFAST_MASK) in
  if negb (b =? 0) then
    let s := Z.shiftr b 9 in
    put (set_bits a (num_bits a - s) (Z.shiftr (code_buffer a) s)) ;;
    ret (Z.land b 511)
  else stbi__zhuffman_decode_slowpath z.

(** [while (cur + n > limit) limit *= 2;] on [int]s: a limit of 0 never
    grows, and a positive one overflows after at most 31 doublings. *)
Fixpoint zexpand_limit (fuel : nat) (cur n limit : Z) : option Z :=
  match fuel with
  | O => None
  | S fuel' =>
      if cur + n >? limit
      then (if 2 * limit >? INT_MAX then None else zexpand_limit fuel' cur n (2 * limit))
      else Some limit
  end.

(** [stbi__zexpand(z, zout, n)]; the result is the [int] returned.  The
    reallocation is taken to succeed. *)
Definition stbi__zexpand (n : Z) : M stbi__zbuf Z :=
  z <- get ;;
  if negb (z_expandable z) then ret 0
  else
    let cur := Z.of_nat (length (zout z)) in
    if (cur + n >? zout_limit z) && (zout_limit z <=? 0) then fail_diverge
    else match zexpand_limit 32 cur n (zout_limit z) with
         | None => fail_undefined
         | Some limit => put (set_zout_limit z limit) ;; ret 1
         end.

(** [do *zout++ = *p++; while (--len);] with [p = zout - dist]: each byte
    is read [dist] places behind the byte it is written to.  [None] when a
    byte is read that has not been written. *)
Fixpoint zcopy_back (len : nat) (dist : Z) (out : list Z) : option (list Z) :=
  match len with
  | O => Some out
  | S len' =>
      let p := Z.of_nat (length out) - dist in
      if p <? 0 then None else
      match out !! Z.to_nat p with
      | None => None
      | Some v => zcopy_back len' dist (out ++ [v])
      end
  end.

(** The body of [for(;;)] in [stbi__parse_huffman_block] runs until the
    end-of-block symbol, an error or the end of [fuel].  The local [zout]
    is kept in the state. *)
Fixpoint stbi__parse_huffman_block (fuel : nat) : M stbi__zbuf Z :=
  match fuel with
  | O => fail_diverge
  | S fuel' =>
      a <- get ;;
      z <- stbi__zhuffman_decode (z_length a) ;;
      if z <? 256 then
        if z <? 0 then ret 0
        else
          a <- get ;;
          r <- (if Z.of_nat (length (zout a)) >=? zout_limit a
                then stbi__zexpand 1 else ret 1) ;;
          if r =? 0 then ret 0
          else
            a <- get ;;
            put (set_zout a (zout a ++ [u8 z])) ;;
            stbi__parse_huffman_block fuel'
      else if z =? 256 then ret 1
      else
        let z := z - 257 in
        extra <- (if negb (nth (Z.to_nat z) stbi__zlength_extra 0 =? 0)
                  then stbi__zreceive (nth (Z.to_nat z) stbi__zlength_extra 0)
                  else ret 0) ;;
        let len := nth (Z.to_nat z) stbi__zlength_base 0 + extra in
        a <- get ;;
        z <- stbi__zhuffman_decode (z_distance a) ;;
        if z <? 0 then ret 0
        else
          extra <- (if negb (nth (Z.to_nat z) stbi__zdist_extra 0 =? 0)
                    then stbi__zreceive (nth (Z.to_nat z) stbi__zdist_extra 0)
                    else ret 0) ;;
          let dist := nth (Z.to_nat z) stbi__zdist_base 0 + extra in
          a <- get ;;
          if Z.of_nat (length (zout a)) <? dist then ret 0
          else
            r <- (if Z.of_nat (length (zout a)) + len >? zout_limit a
                  then stbi__zexpand len else ret 1) ;;
            if r =? 0 then ret 0
            else
              a <- get ;;
              if dist =? 1 then
                match list.last (zout a) with
                | None => fail_undefined
                | Some v =>
                    put (set_zout a (zout a ++ replicate (Z.to_nat len) v)) ;;
                    stbi__parse_huffman_block fuel'
                end
              else
                match zcopy_back (Z.to_nat len) dist (zout a) with
                | None => fail_undefined
                | Some out => put (set_zout a out) ;; stbi__parse_huffman_block fuel'
                end
  end.

(** The [while (n < hlit + hdist)] loop of [stbi__compute_huffman_codes];
    [lencodes] holds the [n] entries written so far, in an array of
    [286+32+137] bytes.  Each round adds at least one entry, so [total]
    rounds reach [n >= total].  [None] for the "bad codelengths" return. *)
Fixpoint zcodelengths (fuel : nat) (total : Z) (z_codelength : stbi__zhuffman)
    (lencodes : list Z) : M stbi__zbuf (option (list Z)) :=
  let n := Z.of_nat (length lencodes) in
  match fuel with
  | O => ret (Some lencodes)
  | S fuel' =>
      if negb (n <? total) then ret (Some lencodes)
      else
        c <- stbi__zhuffman_decode z_codelength ;;
        if (c <? 0) || (c >=? 19) then ret None
        else if c <? 16 then
          zcodelengths fuel' total z_codelength (lencodes ++ [u8 c])
        else if c =? 16 then
          c <- stbi__zreceive 2 ;;
          let c := c + 3 in
          match list.last lencodes with
          | None => fail_undefined
          | Some v =>
              if n + c >? 286 + 32 + 137 then fail_undefined
              else zcodelengths fuel' total z_codelength
                                (lencodes ++ replicate (Z.to_nat c) v)
          end
        else if c =? 17 then
          c <- stbi__zreceive 3 ;;
          let c := c + 3 in
          if n + c >? 286 + 32 + 137 then fail_undefined
          else zcodelengths fuel' total z_codelength
                            (lencodes ++ replicate (Z.to_nat c) 0)
        else
          c <- stbi__zreceive 7 ;;
          let c := c + 11 in
          if n + c >? 286 + 32 + 137 then fail_undefined
          else zcodelengths fuel' total z_codelength
                            (lencodes ++ replicate (Z.to_nat c) 0)
  end.

(** [for (i=0; i < hclen; ++i)]: the code length code lengths, stored in
    the order of [length_dezigzag]. *)
Fixpoint zcodelength_sizes (dezigzag : list Z) (sizes : list Z)
  : M stbi__zbuf (list Z) :=
  match dezigzag with
  | [] => ret sizes
  | d :: rest =>
      s <- stbi__zreceive 3 ;;
      zcodelength_sizes rest (<[Z.to_nat d := u8 s]> sizes)
  end.

Definition stbi__compute_huffman_codes : M stbi__zbuf Z :=
  hlit <- stbi__zreceive 5 ;;
  let hlit := hlit + 257 in
  hdist <- stbi__zreceive 5 ;;
  let hdist := hdist + 1 in
  hclen <- stbi__zreceive 4 ;;
  let hclen := hclen + 4 in
  codelength_sizes <-
    zcodelength_sizes (take (Z.to_nat hclen) length_dezigzag) (replicate 19 0) ;;
  match stbi__zbuild_huffman zhuffman_0 codelength_sizes with
  | None => ret 0
  | Some z_codelength =>
      r <- zcodelengths (Z.to_nat (hlit + hdist)) (hlit + hdist) z_codelength [] ;;
      match r with
      | None => ret 0
      | Some lencodes =>
          if negb (Z.of_nat (length lencodes) =? hlit + hdist) then ret 0
          else
            a <- get ;;
            match stbi__zbuild_huffman (z_length a) (take (Z.to_nat hlit) lencodes) with
            | None => ret 0
            | Some zl =>
                put (set_z_length a zl) ;;
                a <- get ;;
                match stbi__zbuild_huffman (z_distance a)
                        (take (Z.to_nat hdist) (drop (Z.to_nat hlit) lencodes)) with
                | None => ret 0
                | Some zd => put (set_z_distance a zd) ;; ret 1
                end
            end
      end
  end.

(** [while (a->num_bits > 0)]: the bytes left in the bit buffer go to
    [header]; [None] when they are more than the four it holds. *)
Fixpoint zdrain_header (n : nat) (num_bits code_buffer : Z) (header : list Z)
  : option (Z * Z * list Z) :=
  if num_bits >? 0 then
    match n with
    | O => None
    | S n' => zdrain_header n' (num_bits - 8) (Z.shiftr code_buffer 8)
                            (header ++ [Z.land code_buffer 255])
    end
  else Some (num_bits, code_buffer, header).

(** [while (k < 4) header[k++] = stbi__zget8(a);] *)
Fixpoint zfill_header (n : nat) (header : list Z) : M stbi__zbuf (list Z) :=
  match n with
  | O => ret header
  | S n' => b <- stbi__zget8 ;; zfill_header n' (header ++ [b])
  end.

Definition stbi__parse_uncompressed_block : M stbi__zbuf Z :=
  a <- get ;;
  (if negb (Z.land (num_bits a) 7 =? 0)
   then (stbi__zreceive (Z.land (num_bits a) 7) ;; ret tt) else ret tt) ;;
  a <- get ;;
  match zdrain_header 4 (num_bits a) (code_buffer a) [] with
  | None => fail_undefined
  | Some (nb, cb, header) =>
      put (set_bits a nb cb) ;;
      c_assert asserts (nb =? 0) ;;
      header <- zfill_header (4 - length header) header ;;
      let len := nth 1 header 0 * 256 + nth 0 header 0 in
      let nlen := nth 3 header 0 * 256 + nth 2 header 0 in
      if negb (nlen =? Z.lxor len 0xffff) then ret 0
      else
        a <- get ;;
        if len >? Z.of_nat (length (zbuffer a)) then ret 0
        else
          r <- (if Z.of_nat (length (zout a)) + len >? zout_limit a
                then stbi__zexpand len else ret 1) ;;
          if r =? 0 then ret 0
          else
            a <- get ;;
            put (set_zbuffer
                   (set_zout a (zout a ++ map u8 (take (Z.to_nat len) (zbuffer a))))
                   (drop (Z.to_nat len) (zbuffer a))) ;;
            ret 1
  end.

Definition stbi__parse_zlib_header : M stbi__zbuf Z :=
  cmf <- stbi__zget8 ;;
  let cm := Z.land cmf 15 in
  flg <- stbi__zget8 ;;
  if negb ((cmf * 256 + flg) mod 31 =? 0) then ret 0
  else if negb (Z.land flg 32 =? 0) then ret 0
  else if negb (cm =? 8) then ret 0
  else ret 1.

(** The [do ... while (!final)] loop of [stbi__parse_zlib], one block a
    round. *)
Fixpoint stbi__parse_zlib_blocks (fuel : nat) : M stbi__zbuf Z :=
  match fuel with
  | O => fail_diverge
  | S fuel' =>
      final <- stbi__zreceive 1 ;;
      type <- stbi__zreceive 2 ;;
      r <- (if type =? 0 then stbi__parse_uncompressed_block
            else if type =? 3 then ret 0
            else
              r <- (if type =? 1 then
                      a <- get ;;
                      match stbi__zbuild_huffman (z_length a) stbi__zdefault_length with
                      | None => ret 0
                      | Some zl =>
                          put (set_z_length a zl) ;;
                          a <- get ;;
                          match stbi__zbuild_huffman (z_distance a) stbi__zdefault_distance with
                          | None => ret 0
                          | Some zd => put (set_z_distance a zd) ;; ret 1
                          end
                      end
                    else stbi__compute_huffman_codes) ;;
              if r =? 0 then ret 0 else stbi__parse_huffman_block fuel) ;;
      if r =? 0 then ret 0
      else if final =? 0 then stbi__parse_zlib_blocks fuel'
      else ret 1
  end.

Definition stbi__parse_zlib (fuel : nat) (parse_header : bool) : M stbi__zbuf Z :=
  r <- (if parse_header then stbi__parse_zlib_header else ret 1) ;;
  if r =? 0 then ret 0
  else
    a <- get ;;
    put (set_bits a 0 0) ;;
    stbi__parse_zlib_blocks fuel.

(** [stbi__do_zlib] on a fresh [stbi__zbuf] reading [ibuffer], with an
    output buffer of [olen] bytes. *)
Definition stbi__do_zlib (fuel : nat) (ibuffer : list Z) (olen : Z) (exp : bool)
    (parse_header : bool) : outcome (Z * stbi__zbuf) :=
  stbi__parse_zlib fuel parse_header
    (mkZbuf ibuffer 0 0 [] olen exp zhuffman_0 zhuffman_0).

(** [stbi_zlib_decode_buffer]: the [int] returned and the bytes written
    to [obuffer]. *)
Definition stbi_zlib_decode_buffer (fuel : nat) (olen : Z) (ibuffer : list Z)
  : outcome (Z * list Z) :=
  match stbi__do_zlib fuel ibuffer olen false true with
  | Ret (r, a) =>
      if negb (r =? 0) then Ret (Z.of_nat (length (zout a)), zout a)
      else Ret (-1, zout a)
  | Abort => Abort
  | Undefined => Undefined
  | Diverge => Diverge
  end.

(** [stbi_zlib_decode_noheader_buffer]: as [stbi_zlib_decode_buffer], for
    a stream that starts with its first block. *)
Definition stbi_zlib_decode_noheader_buffer (fuel : nat) (olen : Z)
    (ibuffer : list Z) : outcome (Z * list Z) :=
  match stbi__do_zlib fuel ibuffer olen false false with
  | Ret (r, a) =>
      if negb (r =? 0) then Ret (Z.of_nat (length (zout a)), zout a)
      else Ret (-1, zout a)
  | Abort => Abort
  | Undefined => Undefined
  | Diverge => Diverge
  end.

(** The entry points that allocate the output buffer.  [None] is the null
    return; otherwise the result is the bytes from [zout_start] to [zout],
    whose number [*outlen] receives.  [stbi__malloc] takes a negative
    [initial_size] as a huge [size_t] and fails; an allocation of no bytes
    is taken to give a pointer. *)
Definition stbi_zlib_decode_malloc_guesssize (fuel : nat)
    (buffer : list Z) (initial_size : Z) : outcome (option (list Z)) :=
  if initial_size <? 0 then Ret None
  else
    match stbi__do_zlib fuel buffer initial_size true true with
    | Ret (r, a) => if negb (r =? 0) then Ret (Some (zout a)) else Ret None
    | Abort => Abort
    | Undefined => Undefined
    | Diverge => Diverge
    end.

Definition stbi_zlib_decode_malloc (fuel : nat) (buffer : list Z)
  : outcome (option (list Z)) :=
  stbi_zlib_decode_malloc_guesssize fuel buffer 16384.

Definition stbi_zlib_decode_malloc_guesssize_headerflag (fuel : nat)
    (buffer : list Z) (initial_size : Z) (parse_header : Z)
  : outcome (option (list Z)) :=
  if initial_size <? 0 then Ret None
  else
    match stbi__do_zlib fuel buffer initial_size true (negb (parse_header =? 0)) with
    | Ret (r, a) => if negb (r =? 0) then Ret (Some (zout a)) else Ret None
    | Abort => Abort
    | Undefined => Undefined
    | Diverge => Diverge
    end.

Definition stbi_zlib_decode_noheader_malloc (fuel : nat)
    (buffer : list Z) : outcome (option (list Z)) :=
  match stbi__do_zlib fuel buffer 16384 true false with
  | Ret (r, a) => if negb (r =? 0) then Ret (Some (zout a)) else Ret None
  | Abort => Abort
  | Undefined => Undefined
  | Diverge => Diverge
  end.

(** ** Cels *)

(** [ASE_DOC_AddCel] on the frame with index [Frame] (the pointer that
    [ASE_DOC_AddFrame] returned): a zeroed cel is appended. *)
Definition ASE_DOC_AddCel (S : ASE_Sprite) (Frame : nat) : ASE_Sprite :=
  set_frames S
    (alter (fun f => mkFrame (duration f) (cels f ++ [zero_cel])) Frame (frames S)).

(** Stores through the [Cel] pointer that [ASE_DOC_AddCel] returned, the
    last cel of the frame. *)
Definition set_last_cel (S : ASE_Sprite) (Frame : nat) (c : ASE_Cel) : ASE_Sprite :=
  set_frames S
    (alter (fun f => mkFrame (duration f)
                             (<[pred (length (cels f)) := c]> (cels f)))
           Frame (frames S)).

Definition set_cel_data (c : ASE_Cel) (d : option (list Z)) : ASE_Cel :=
  mkCel (cel_layer c) (cel_x c) (cel_y c) (cel_w c) (cel_h c) (cel_opacity c)
        d (is_linked c) (cel_frame c).

(** The three raw readers differ in the bytes per pixel only.  The pixel
    count [Cel->w * Cel->h] is a product of [int16_t]s; a byte count that
    is no [int] overflows, and a negative one makes the allocation fail
    and the loop empty. *)
Definition ASE_DOC_read_raw_image {U} (bpp : Z) (Cel : ASE_Cel)
  : M (ASE__ctx U) ASE_Cel :=
  let n := cel_w Cel * cel_h Cel in
  if (n * bpp >? INT_MAX) || (n * bpp <? INT_MIN) then fail_undefined
  else if n <=? 0 then ret (set_cel_data Cel None)
  else
    P <- ASE__read8s (Z.to_nat (n * bpp)) ;;
    ret (set_cel_data Cel (Some P)).

Definition ASE_DOC_read_raw_image_rgba {U} := @ASE_DOC_read_raw_image U 4.
Definition ASE_DOC_read_raw_image_grayscale {U} := @ASE_DOC_read_raw_image U 2.
Definition ASE_DOC_read_raw_image_indexed {U} := @ASE_DOC_read_raw_image U 1.

(** ** Cels (compressed)

    The three compressed readers differ in the bytes per pixel only.  The
    compressed bytes are those up to [EndPos]; [Cel->data] receives the
    output buffer when the decoder does not return [-1] (the bytes the
    decoder wrote) and stays null otherwise.

    Neither allocation is checked.  [ASE_MALLOC(isize + 16)] fails when
    [isize + 16] is negative, and [ASE_MALLOC(osize)] when [osize] is: the
    null pointer then goes into [stbi_zlib_decode_buffer], which does
    arithmetic on it and faults at the first byte it reads from the input
    or writes to the output.  [isize + 16] beyond [INT_MAX] overflows.  An
    allocation of no bytes is taken to give a pointer. *)
Definition ASE_DOC_read_compressed {U} (bpp : Z) (fuel : nat) (Cel : ASE_Cel)
    (EndPos : Z) : M (ASE__ctx U) ASE_Cel :=
  pos <- io_tell ;;
  let isize := s32 (EndPos - pos) in
  if (isize + 16 <? 0) || (isize + 16 >? INT_MAX) then fail_undefined
  else
    ibuffer <- ASE__read8s (Z.to_nat isize) ;;
    let osize := s32 (cel_w Cel * cel_h Cel * bpp) in
    if osize <? 0 then fail_undefined
    else
      res <- lift_outcome (stbi_zlib_decode_buffer fuel osize ibuffer) ;;
      let '(Result, obuffer) := res in
      if -1 =? Result then ret Cel
      else ret (set_cel_data Cel (Some obuffer)).

Definition ASE_DOC_read_compressed_rgba {U} := @ASE_DOC_read_compressed U 4.
Definition ASE_DOC_read_compressed_grayscale {U} := @ASE_DOC_read_compressed U 2.
Definition ASE_DOC_read_compressed_indexed {U} := @ASE_DOC_read_compressed U 1.

(** The header fields at the start of [ASE_Cel_read]:
    [(layer, x, y, opacity, type)]. *)
Definition ASE_Cel_read_header {U} : M (ASE__ctx U) (Z * Z * Z * Z * Z) :=
  layer <- ASE__read16 ;;
  x <- ASE__read16 ;;
  y <- ASE__read16 ;;
  opacity <- ASE__read8 ;;
  type <- ASE__read16 ;;
  io_skip 7 ;;
  ret (layer, s16 x, s16 y, opacity, type).

(** The [switch (type)] of [ASE_Cel_read] on the cel just added. *)
Definition ASE_Cel_read_body {U} (fuel : nat) (S : ASE_Sprite) (Cel : ASE_Cel)
    (type : Z) (EndPos : Z) : M (ASE__ctx U) ASE_Cel :=
  if type =? ASE_FILE_RAW_CEL then
    w <- ASE__read16 ;;
    h <- ASE__read16 ;;
    let Cel := mkCel (cel_layer Cel) (cel_x Cel) (cel_y Cel) (s16 w) (s16 h)
                     (cel_opacity Cel) (cel_data Cel) (is_linked Cel) (cel_frame Cel) in
    if (w >? 0) && (h >? 0) then
      if depth S =? ASE_DEPTH_RGBA then ASE_DOC_read_raw_image_rgba Cel
      else if depth S =? ASE_DEPTH_GRAYSCALE then ASE_DOC_read_raw_image_grayscale Cel
      else if depth S =? ASE_DEPTH_INDEXED then ASE_DOC_read_raw_image_indexed Cel
      else ret Cel
    else ret Cel
  else if type =? ASE_FILE_LINK_CEL then
    frame <- ASE__read16 ;;
    ret (mkCel (cel_layer Cel) (cel_x Cel) (cel_y Cel) (cel_w Cel) (cel_h Cel)
               (cel_opacity Cel) (cel_data Cel) 1 frame)
  else if type =? ASE_FILE_COMPRESSED_CEL then
    w <- ASE__read16 ;;
    h <- ASE__read16 ;;
    let Cel := mkCel (cel_layer Cel) (cel_x Cel) (cel_y Cel) (s16 w) (s16 h)
                     (cel_opacity Cel) (cel_data Cel) (is_linked Cel) (cel_frame Cel) in
    if (w >? 0) && (h >? 0) then
      if depth S =? ASE_DEPTH_RGBA then ASE_DOC_read_compressed_rgba fuel Cel EndPos
      else if depth S =? ASE_DEPTH_GRAYSCALE
      then ASE_DOC_read_compressed_grayscale fuel Cel EndPos
      else if depth S =? ASE_DEPTH_INDEXED
      then ASE_DOC_read_compressed_indexed fuel Cel EndPos
      else ret Cel
    else ret Cel
  else ret Cel.

(** [ASE_Cel_read]; [Frame] is the index of the frame being read.  The
    result is the index of the new cel in its frame ([None] for the null
    return) and the sprite. *)
Definition ASE_Cel_read {U} (fuel : nat) (S : ASE_Sprite) (frame_index : Z)
    (Frame : nat) (EndPos : Z) : M (ASE__ctx U) (option nat * ASE_Sprite) :=
  hd <- ASE_Cel_read_header ;;
  let '(layer, x, y, opacity, type) := hd in
  match (if (layer >=? 0) && (layer <? nlayers S)
         then layers S !! Z.to_nat layer else None) with
  | None => ret (None, S)
  | Some L =>
      if negb (layer_type L =? ASE_FILE_LAYER_IMAGE) then ret (None, S)
      else
        let ncels := match frames S !! Frame with
                     | Some f => length (cels f) | None => O end in
        let S := ASE_DOC_AddCel S Frame in
        let Cel := mkCel layer x y 0 0 opacity None 0 0 in
        Cel <- ASE_Cel_read_body fuel S Cel type EndPos ;;
        ret (Some ncels, set_last_cel S Frame Cel)
  end.

(** ** Frame tags *)

Definition ASE_DOC_AddTag (S : ASE_Sprite) (t : ASE_Tag) : ASE_Sprite :=
  mkSprite (width S) (height S) (depth S) (palette S) (layers S) (frames S)
           (tags S ++ [t]).

(** One round of the [for] loop of [ASE_Tags_read]. *)
Definition ASE_Tags_read_tag {U} (S : ASE_Sprite) : M (ASE__ctx U) ASE_Sprite :=
  From <- ASE__read16 ;;
  To <- ASE__read16 ;;
  AnimDirection <- ASE__read8 ;;
  let AnimDirection :=
    if negb (ASE_LOOP_FORWARD =? AnimDirection)
       && negb (ASE_LOOP_REVERSE =? AnimDirection)
       && negb (ASE_LOOP_PINGPONG =? AnimDirection)
    then ASE_LOOP_FORWARD else AnimDirection in
  ASE__read32 ;;
  ASE__read32 ;;
  io_skip 4 ;;
  Name <- ASE_DOC_read_string ;;
  ret (ASE_DOC_AddTag S (mkTag (s16 From) (s16 To) AnimDirection Name)).

Fixpoint ASE_Tags_read_loop {U} (n : nat) (S : ASE_Sprite) : M (ASE__ctx U) ASE_Sprite :=
  match n with
  | O => ret S
  | S n' => S' <- ASE_Tags_read_tag S ;; ASE_Tags_read_loop n' S'
  end.

Definition ASE_Tags_read {U} (S : ASE_Sprite) : M (ASE__ctx U) ASE_Sprite :=
  count <- ASE__read16 ;;
  ASE__read32 ;;
  ASE__read32 ;;
  ASE_Tags_read_loop (Z.to_nat count) S.

(** ** Decoder main *)

(** What [ASE__decode_main] carries from chunk to chunk: the sprite and the
    locals [LastLayer], [CurrentLevel] and [IgnoreOldColorChunks]. *)
Record decode_state := mkDecode {
  ds_sprite : ASE_Sprite;
  ds_LastLayer : option nat;
  ds_CurrentLevel : Z;
  ds_IgnoreOldColorChunks : bool
}.

(** The [switch (ChunkHeader.type)]. *)
Definition ASE__decode_switch {U} (fuel : nat) (i : Z) (Frame : nat)
    (ChunkHeaderStart : Z) (ChunkHeader : ASE_DOC_ChunkHeader) (st : decode_state)
  : M (ASE__ctx U) decode_state :=
  let S := ds_sprite st in
  let type := ch_type ChunkHeader in
  if type =? ASE_FILE_CHUNK_PALETTE then
    pal <- ASE_Palette_read (palette S) ;;
    ret (mkDecode (mkSprite (width S) (height S) (depth S) pal (layers S)
                            (frames S) (tags S))
                  (ds_LastLayer st) (ds_CurrentLevel st) true)
  else if type =? ASE_FILE_CHUNK_LAYER then
    r <- ASE_Layer_read S (ds_LastLayer st) (ds_CurrentLevel st) ;;
    let '(_, S', LastLayer, CurrentLevel) := r in
    ret (mkDecode S' LastLayer CurrentLevel (ds_IgnoreOldColorChunks st))
  else if type =? ASE_FILE_CHUNK_CEL then
    r <- ASE_Cel_read fuel S i Frame (ChunkHeaderStart + ch_size ChunkHeader) ;;
    ret (mkDecode (snd r) (ds_LastLayer st) (ds_CurrentLevel st)
                  (ds_IgnoreOldColorChunks st))
  else if type =? ASE_FILE_CHUNK_FRAME_TAGS then
    S' <- ASE_Tags_read S ;;
    ret (mkDecode S' (ds_LastLayer st) (ds_CurrentLevel st)
                  (ds_IgnoreOldColorChunks st))
  else ret st.

(** One round of the chunk loop.  Besides the state it gives the chunk
    header as the loop's diagnostic output shows it, with the position it
    was read at. *)
Definition ASE__decode_chunk {U} (fuel : nat) (i : Z) (Frame : nat)
    (st : decode_state) : M (ASE__ctx U) (decode_state * (Z * ASE_DOC_ChunkHeader)) :=
  ChunkHeaderStart <- io_tell ;;
  ChunkHeader <- ASE_DOC_ChunkHeader_read ;;
  st' <- ASE__decode_switch fuel i Frame ChunkHeaderStart ChunkHeader st ;;
  (* GOTO NEXT CHUNK HEADER *)
  io_seek (s32 (ChunkHeaderStart + ch_size ChunkHeader)) ;;
  ret (st', (ChunkHeaderStart, ChunkHeader)).

Fixpoint ASE__decode_chunks {U} (fuel : nat) (i : Z) (Frame : nat) (n : nat)
    (st : decode_state)
  : M (ASE__ctx U) (decode_state * list (Z * ASE_DOC_ChunkHeader)) :=
  match n with
  | O => ret (st, [])
  | S n' =>
      r <- ASE__decode_chunk fuel i Frame st ;;
      rs <- ASE__decode_chunks fuel i Frame n' (fst r) ;;
      ret (fst rs, snd r :: snd rs)
  end.

(** One round of the frame loop, with the frame header, the position it
    was read at and the chunk headers of the frame. *)
Definition ASE__decode_frame {U} (fuel : nat) (i : Z) (st : decode_state)
  : M (ASE__ctx U)
      (decode_state * (Z * ASE_FrameHeader * list (Z * ASE_DOC_ChunkHeader))) :=
  FrameHeaderStart <- io_tell ;;
  FrameHeader <- ASE_FrameHeader_read ;;
  c_assert asserts (fh_magic FrameHeader =? ASE_FILE_FRAME_MAGIC) ;;
  let S := ASE_DOC_AddFrame (ds_sprite st) in
  let Frame := length (frames (ds_sprite st)) in
  let S := set_frames S (alter (fun f => mkFrame (fh_duration FrameHeader) (cels f))
                               Frame (frames S)) in
  r <- ASE__decode_chunks fuel i Frame (Z.to_nat (fh_chunks FrameHeader))
         (mkDecode S (ds_LastLayer st) (ds_CurrentLevel st)
                   (ds_IgnoreOldColorChunks st)) ;;
  (* GOTO NEXT FRAME HEADER *)
  io_seek (s32 (FrameHeaderStart + fh_size FrameHeader)) ;;
  ret (fst r, (FrameHeaderStart, FrameHeader, snd r)).

Fixpoint ASE__decode_frames {U} (fuel : nat) (i : Z) (n : nat) (st : decode_state)
  : M (ASE__ctx U)
      (decode_state * list (Z * ASE_FrameHeader * list (Z * ASE_DOC_ChunkHeader))) :=
  match n with
  | O => ret (st, [])
  | S n' =>
      r <- ASE__decode_frame fuel i st ;;
      rs <- ASE__decode_frames fuel (i + 1) n' (fst r) ;;
      ret (fst rs, snd r :: snd rs)
  end.

(** [ASE__decode_main(F, S)]: the [ASE_BOOL] returned, the sprite left in
    [*S], and the frame and chunk headers met on the way. *)
Definition ASE__decode_main {U} (fuel : nat) (S : ASE_Sprite)
  : M (ASE__ctx U)
      (bool * ASE_Sprite * list (Z * ASE_FrameHeader * list (Z * ASE_DOC_ChunkHeader))) :=
  let R := true in
  r <- ASE_DOC_Header_read ;;
  let '(Ok_, Header) := r in
  c_assert asserts Ok_ ;;
  let S := mkSprite (hdr_width Header) (hdr_height Header) (hdr_depth Header)
                    (palette S) (layers S) (frames S) (tags S) in
  r <- ASE__decode_frames fuel 0 (Z.to_nat (hdr_frames Header))
         (mkDecode S None (-1) false) ;;
  ret (R, ds_sprite (fst r), snd r).

(** ** Primary API - loading *)

(** [ASE_load_from_memory(buffer, len, out)]: the outcome gives the value
    returned and the sprite left in [*out]. *)
Definition ASE_load_from_memory (fuel : nat) (buffer : list Z) (out : ASE_Sprite)
  : outcome (bool * ASE_Sprite) :=
  match ASE__decode_main fuel out (ASE__start_mem buffer) with
  | Ret (r, _) => Ret (fst (fst r), snd (fst r))
  | Abort => Abort
  | Undefined => Undefined
  | Diverge => Diverge
  end.

Definition ASE_load_from_callbacks {U} (fuel : nat) (io : ASE_Callbacks U) (user : U)
    (out : ASE_Sprite) : outcome (bool * ASE_Sprite) :=
  match ASE__decode_main fuel out (mkCtx io user) with
  | Ret (r, _) => Ret (fst (fst r), snd (fst r))
  | Abort => Abort
  | Undefined => Undefined
  | Diverge => Diverge
  end.

End Decoder.

(** ** Primary API - freeing

    [ASE_free] is about the allocations themselves, so here the structs
    hold addresses ([0] is the null pointer) and a heap maps the address
    of each live allocation to its contents. *)

Module Heap.

Record ASE_Layer := mkLayer {
  name : Z;
  flags : Z;
  type : Z;
  blendmode : Z;
  opacity : Z;
  child_level : Z;
  parent : Z;
  visible : Z
}.

Record ASE_Cel := mkCel {
  layer : Z;
  x : Z;
  y : Z;
  w : Z;
  h : Z;
  cel_opacity : Z;
  data : Z;
  is_linked : Z;
  frame : Z
}.

Record ASE_Frame := mkFrame {
  duration : Z;
  ncels : Z;
  cels : Z
}.

Record ASE_Tag := mkTag {
  from : Z;
  to : Z;
  dir : Z;
  tag_name : Z
}.

Record ASE_Sprite := mkSprite {
  width : Z;
  height : Z;
  depth : Z;
  palette : ASE_Palette;
  nlayers : Z;
  layers : Z;
  nframes : Z;
  frames : Z;
  ntags : Z;
  tags : Z
}.

Inductive block : Type :=
| Bytes (bs : list Z)
| Layers (ls : list ASE_Layer)
| Cels (cs : list ASE_Cel)
| Frames (fs : list ASE_Frame)
| Tags (ts : list ASE_Tag).

Abbreviation heap := (gmap Z block).

(** [memset(Sprite, 0, sizeof(ASE_Sprite))]. *)
Definition zero_sprite : ASE_Sprite := mkSprite 0 0 0 zero_palette 0 0 0 0 0 0.

(** [ASE_FREE(p)]: nothing for the null pointer, the release of a live
    allocation, undefined for any other address. *)
Definition ASE_FREE (p : Z) : M heap unit :=
  fun hp => if p =? 0 then Ret (tt, hp)
            else match hp !! p with
                 | Some _ => Ret (tt, delete p hp)
                 | None => Undefined
                 end.

(** [for (int i=0; i < Sprite->nlayers; ++i) ASE_FREE(Sprite->layers[i].name)],
    from [i] on for [n] rounds. *)
Fixpoint free_layer_names (n : nat) (i : nat) (layers : Z) : M heap unit :=
  match n with
  | O => ret tt
  | S n' =>
      hp <- get ;;
      match hp !! layers with
      | Some (Layers ls) =>
          match ls !! i with
          | Some I0 => ASE_FREE (name I0) ;; free_layer_names n' (S i) layers
          | None => fail_undefined
          end
      | _ => fail_undefined
      end
  end.

(** [for (int j=0; j < I->ncels; ++j) ASE_FREE(I->cels[j].data)]. *)
Fixpoint free_cel_datas (n : nat) (j : nat) (cels : Z) : M heap unit :=
  match n with
  | O => ret tt
  | S n' =>
      hp <- get ;;
      match hp !! cels with
      | Some (Cels cs) =>
          match cs !! j with
          | Some J0 => ASE_FREE (data J0) ;; free_cel_datas n' (S j) cels
          | None => fail_undefined
          end
      | _ => fail_undefined
      end
  end.

(** The loop over the frames: the pixel buffers of the cels of each
    frame, then its cel array. *)
Fixpoint free_frames (n : nat) (i : nat) (frames : Z) : M heap unit :=
  match n with
  | O => ret tt
  | S n' =>
      hp <- get ;;
      match hp !! frames with
      | Some (Frames fs) =>
          match fs !! i with
          | Some I0 =>
              free_cel_datas (Z.to_nat (ncels I0)) 0 (cels I0) ;;
              ASE_FREE (cels I0) ;;
              free_frames n' (S i) frames
          | None => fail_undefined
          end
      | _ => fail_undefined
      end
  end.

Fixpoint free_tag_names (n : nat) (i : nat) (tags : Z) : M heap unit :=
  match n with
  | O => ret tt
  | S n' =>
      hp <- get ;;
      match hp !! tags with
      | Some (Tags ts) =>
          match ts !! i with
          | Some I0 => ASE_FREE (tag_name I0) ;; free_tag_names n' (S i) tags
          | None => fail_undefined
          end
      | _ => fail_undefined
      end
  end.

(** [ASE_free(Sprite)]; [None] is the null [Sprite].  The result is the
    sprite as the call leaves it. *)
Definition ASE_free (Sprite : option ASE_Sprite) : M heap (option ASE_Sprite) :=
  match Sprite with
  | None => ret None
  | Some Sp =>
      free_layer_names (Z.to_nat (nlayers Sp)) 0 (layers Sp) ;;
      ASE_FREE (layers Sp) ;;
      free_frames (Z.to_nat (nframes Sp)) 0 (frames Sp) ;;
      ASE_FREE (frames Sp) ;;
      free_tag_names (Z.to_nat (ntags Sp)) 0 (tags Sp) ;;
      ASE_FREE (tags Sp) ;;
      ret (Some zero_sprite)
  end.

Definition sel_layers (b : block) := match b with Layers l => Some l | _ => None end.
Definition sel_cels (b : block) := match b with Cels l => Some l | _ => None end.
Definition sel_frames (b : block) := match b with Frames l => Some l | _ => None end.
Definition sel_tags (b : block) := match b with Tags l => Some l | _ => None end.

(** The elements of the array at [p], none when there is no such array. *)
Definition array_at {A} (hp : heap) (sel : block -> option (list A)) (p : Z) : list A :=
  default [] ((hp !! p) ≫= sel).

(** An array pointer with its count: no elements to visit, or a live
    array of at least [n] elements. *)
Definition array_ok {A} (hp : heap) (sel : block -> option (list A)) (p n : Z) : Prop :=
  (n <= 0) \/ exists l, (hp !! p) ≫= sel = Some l /\ n <= Z.of_nat (length l).

(** The addresses a sprite owns, in the order [ASE_free] releases them. *)
Definition owned_cels (hp : heap) (f : ASE_Frame) : list Z :=
  map data (take (Z.to_nat (ncels f)) (array_at hp sel_cels (cels f))) ++ [cels f].

Definition owned (hp : heap) (S : ASE_Sprite) : list Z :=
  (map name (take (Z.to_nat (nlayers S)) (array_at hp sel_layers (layers S)))
     ++ [layers S]) ++
  (concat (map (owned_cels hp)
               (take (Z.to_nat (nframes S)) (array_at hp sel_frames (frames S))))
     ++ [frames S]) ++
  (map tag_name (take (Z.to_nat (ntags S)) (array_at hp sel_tags (tags S)))
     ++ [tags S]).

(** A sprite that owns its allocations: the null address is not
    allocated, the arrays hold as many elements as the counts say, every
    address owned is null or live, and no live address is owned twice. *)
Definition owns (hp : heap) (S : ASE_Sprite) : Prop :=
  hp !! 0 = None /\
  array_ok hp sel_layers (layers S) (nlayers S) /\
  array_ok hp sel_frames (frames S) (nframes S) /\
  array_ok hp sel_tags (tags S) (ntags S) /\
  (forall f, f ∈ take (Z.to_nat (nframes S)) (array_at hp sel_frames (frames S)) ->
             array_ok hp sel_cels (cels f) (ncels f)) /\
  Forall (fun p => p = 0 \/ is_Some (hp !! p)) (owned hp S) /\
  NoDup (filter (fun p => p ≠ 0) (owned hp S)).

(** The heap after the release of the addresses [ps], in order. *)
Definition free_all (ps : list Z) (hp : heap) : heap :=
  foldl (fun h p => delete p h) hp ps.

(** The addresses [ps] can be released one after the other: each is null
    or live, and no live one comes twice. *)
Definition can_free (ps : list Z) (hp : heap) : Prop :=
  Forall (fun p => p = 0 \/ is_Some (hp !! p)) ps /\
  NoDup (filter (fun p => p ≠ 0) ps).

(** A sprite with one named layer, one frame with one cel that has
    pixels, and one named tag, each in an allocation of its own. *)
Definition C10_heap : heap :=
  <[10 := Layers [mkLayer 11 1 0 0 255 0 (-1) 1]]>
  (<[11 := Bytes [76; 0]]>
  (<[20 := Frames [mkFrame 100 1 21]]>
  (<[21 := Cels [mkCel 0 0 0 1 1 255 22 0 0]]>
  (<[22 := Bytes [1; 2; 3; 4]]>
  (<[30 := Tags [mkTag 0 0 0 31]]>
  (<[31 := Bytes [84; 0]]> ∅)))))).

(** The sprite struct that points into [C10_heap]. *)
Definition C10_sprite : ASE_Sprite := mkSprite 1 1 32 zero_palette 1 10 1 20 1 30.

End Heap.

(** ** Convenience functions *)

(** [ASE_get_next_frame]: [frame] is an [int]; [++frame] and [--frame] are
    written with their wrap-around. *)
Definition ASE_get_next_frame (tag : ASE_Tag) (frame : Z) : Z :=
  if tag_dir tag =? ASE_LOOP_FORWARD then
    let frame := s32 (frame + 1) in
    if frame >? tag_to tag then tag_from tag else frame
  else if tag_dir tag =? ASE_LOOP_REVERSE then
    let frame := s32 (frame - 1) in
    if frame <? tag_from tag then tag_to tag else frame
  else if tag_dir tag =? ASE_LOOP_PINGPONG then
    if frame >=? 0 then
      let frame := s32 (frame + 1) in
      if frame >? tag_to tag then
        (if 0 =? tag_to tag - tag_from tag then 0 else -1)
      else frame
    else
      (* treat a negative number as offset from tag->to *)
      let frame := s32 (frame - 1) in
      if frame <? tag_from tag then 0 else frame
  else frame.

(** The next-frame function as the specification words it, for comparison
    with [ASE_get_next_frame]: Forward increments and wraps to [from] when
    the result exceeds [to]; Reverse decrements and wraps to [to] when the
    result is below [from]; PingPong at a non-negative index increments and
    becomes [-1] on exceeding [to] (or [0] when [from = to]); PingPong at a
    negative index decrements and resets to [0] exactly when the
    decremented value, read as [to + value], falls below [from]. *)
Definition next_frame_spec (tag : ASE_Tag) (frame : Z) : Z :=
  if tag_dir tag =? ASE_LOOP_FORWARD then
    if frame + 1 >? tag_to tag then tag_from tag else frame + 1
  else if tag_dir tag =? ASE_LOOP_REVERSE then
    if frame - 1 <? tag_from tag then tag_to tag else frame - 1
  else
    if frame >=? 0 then
      if frame + 1 >? tag_to tag then
        (if tag_from tag =? tag_to tag then 0 else -1)
      else frame + 1
    else
      if tag_to tag + (frame - 1) <? tag_from tag then 0 else frame - 1.

(** [ASE_streq(a, b)] on the bytes from [a] and from [b] to the ends of
    their allocations.  Both [*a] and [*b] are read in every round and
    after the loop, so running off either allocation is an access outside
    it. *)
Fixpoint ASE_streq_bytes (a b : list Z) : outcome Z :=
  match a, b with
  | x :: a', y :: b' =>
      if negb (x =? 0) && negb (y =? 0) then
        if negb (x =? y) then Ret 0 else ASE_streq_bytes a' b'
      else if negb (x =? 0) && (y =? 0) then Ret 0
      else if negb (y =? 0) && (x =? 0) then Ret 0
      else Ret 1
  | _, _ => Undefined
  end.

(** A string is given like a name of the sprite, by its bytes without the
    terminating zero that follows them in memory. *)
Definition ASE_streq (a b : option (list Z)) : outcome Z :=
  match a, b with
  | Some a, Some b => ASE_streq_bytes (a ++ [0]) (b ++ [0])
  | _, _ => Undefined
  end.

(** The loop of [ASE_get_layer_by_name] from the layer with index [i] on;
    the result is the index of the layer returned. *)
Fixpoint ASE_get_layer_by_name_from (ls : list ASE_Layer) (i : nat)
    (name : option (list Z)) : outcome (option nat) :=
  match ls with
  | [] => Ret None
  | A :: rest =>
      match ASE_streq name (layer_name A) with
      | Ret r => if negb (r =? 0) then Ret (Some i)
                 else ASE_get_layer_by_name_from rest (S i) name
      | Abort => Abort
      | Undefined => Undefined
      | Diverge => Diverge
      end
  end.

Definition ASE_get_layer_by_name (sprite : ASE_Sprite) (name : option (list Z))
  : outcome (option nat) :=
  ASE_get_layer_by_name_from (layers sprite) 0 name.

Fixpoint ASE_get_tag_by_name_from (ts : list ASE_Tag) (i : nat)
    (name : option (list Z)) : outcome (option nat) :=
  match ts with
  | [] => Ret None
  | A :: rest =>
      match ASE_streq name (tag_name A) with
      | Ret r => if negb (r =? 0) then Ret (Some i)
                 else ASE_get_tag_by_name_from rest (S i) name
      | Abort => Abort
      | Undefined => Undefined
      | Diverge => Diverge
      end
  end.

Definition ASE_get_tag_by_name (sprite : ASE_Sprite) (name : option (list Z))
  : outcome (option nat) :=
  ASE_get_tag_by_name_from (tags sprite) 0 name.

(** The loop of [ASE_get_linked_cel] over the cels of the frame, from the
    cel with index [ic] on. *)
Fixpoint ASE_get_linked_cel_from (cs : list ASE_Cel) (ic : nat) (layer : Z) : option nat :=
  match cs with
  | [] => None
  | cel2 :: rest =>
      if cel_layer cel2 =? layer then Some ic
      else ASE_get_linked_cel_from rest (S ic) layer
  end.

(** [ASE_get_linked_cel]: [sprite->frames + cel->frame] is not checked
    against [nframes]; the result is the index of the cel returned in the
    frame [cel->frame]. *)
Definition ASE_get_linked_cel (sprite : ASE_Sprite) (cel : ASE_Cel)
  : outcome (option nat) :=
  if cel_frame cel <? 0 then Undefined
  else match frames sprite !! Z.to_nat (cel_frame cel) with
       | None => Undefined
       | Some lf => Ret (ASE_get_linked_cel_from (cels lf) 0 (cel_layer cel))
       end.

(** [ASE_check_cel_visible]: [sprite->layers[cel->layer]] is not checked
    against [nlayers]. *)
Definition ASE_check_cel_visible (sprite : ASE_Sprite) (cel : ASE_Cel) : outcome Z :=
  if cel_layer cel <? 0 then Undefined
  else match layers sprite !! Z.to_nat (cel_layer cel) with
       | None => Undefined
       | Some L => Ret (visible L)
       end.

(** ** The DEFLATE format

    A reference reader of zlib streams that follows the format as
    section 4.2 of the specification lists it (RFC 1950 and RFC 1951),
    bit by bit and without tables: what it accepts is a valid stream, and
    what it returns is the data the stream stands for. *)

(** The input as one number: byte [i] occupies bits [8i .. 8i+7], so bit
    [p] of the number is bit [p] of the stream. *)
Definition zstream (inp : list Z) : Z :=
  fold_right (fun b acc => u8 b + 256 * acc) 0 inp.

(** [n] bits from position [p], the first one least significant (all data
    elements other than Huffman codes). *)
Definition bits_lsb (N p n : Z) : Z := Z.land (Z.shiftr N p) (Z.ones n).

(** [n] bits from position [p], the first one most significant (Huffman
    codes). *)
Fixpoint bits_msb (N p : Z) (n : nat) : Z :=
  match n with
  | O => 0
  | S n' => 2 * bits_msb N p n' + Z.b2z (Z.testbit N (p + Z.of_nat n'))
  end.

(** The canonical Huffman code of a list of code lengths: the number of
    codes of each length, the first code of each length, and the code of
    symbol [j], which is the first code of its length plus the number of
    earlier symbols of that length. *)
Fixpoint count_len (ls : list Z) (b : Z) : Z :=
  match ls with
  | [] => 0
  | l :: ls' => (if l =? b then 1 else 0) + count_len ls' b
  end.

Fixpoint first_code (ls : list Z) (bits : nat) : Z :=
  match bits with
  | O => 0
  | S b =>
      2 * (first_code ls b + match b with O => 0 | _ => count_len ls (Z.of_nat b) end)
  end.

Definition code_of (ls : list Z) (j : nat) : Z :=
  let l := nth j ls 0 in
  first_code ls (Z.to_nat l) + count_len (firstn j ls) l.

(** Code lengths are at most 15 bits, and the codes of each length fit in
    that many bits. *)
Definition lengths_ok (ls : list Z) : bool :=
  forallb (fun l => (0 <=? l) && (l <=? 15)) ls &&
  forallb (fun b => first_code ls b + count_len ls (Z.of_nat b) <=? 2 ^ Z.of_nat b)
          (seq 1 15).

(** The symbol whose code stands at position [p]. *)
Definition sym_at (N p : Z) (ls : list Z) : option nat :=
  List.find (fun j => let l := nth j ls 0 in
                      (0 <? l) && (bits_msb N p (Z.to_nat l) =? code_of ls j))
            (seq 0 (length ls)).

(** Length symbols 257..285 and distance symbols 0..29: base values and
    numbers of extra bits. *)
Definition length_base : list Z :=
  [3;4;5;6;7;8;9;10;11;13;15;17;19;23;27;31;35;43;51;59;67;83;99;115;131;163;195;227;258].
Definition length_extra : list Z :=
  [0;0;0;0;0;0;0;0;1;1;1;1;2;2;2;2;3;3;3;3;4;4;4;4;5;5;5;5;0].
Definition dist_base : list Z :=
  [1;2;3;4;5;7;9;13;17;25;33;49;65;97;129;193;257;385;513;769;1025;1537;2049;3073;
   4097;6145;8193;12289;16385;24577].
Definition dist_extra : list Z :=
  [0;0;0;0;1;1;2;2;3;3;4;4;5;5;6;6;7;7;8;8;9;9;10;10;11;11;12;12;13;13].

(** The code lengths of the fixed Huffman codes. *)
Definition fixed_lit : list Z :=
  repeat 8 144 ++ repeat 9 112 ++ repeat 7 24 ++ repeat 8 8.
Definition fixed_dist : list Z := repeat 5 32.

(** A back-reference: [len] bytes, each the one [dist] places before the
    end of the output at the time it is appended. *)
Fixpoint lz_copy (len : nat) (dist : nat) (out : list Z) : list Z :=
  match len with
  | O => out
  | S len' => lz_copy len' dist (out ++ [nth (length out - dist) out 0])
  end.

(** The compressed data of a block, up to its end-of-block symbol: the
    position after it and the output. *)
Fixpoint inflate_codes (fuel : nat) (N : Z) (lit dist : list Z) (p : Z) (out : list Z)
  : option (Z * list Z) :=
  match fuel with
  | O => None
  | S fuel' =>
      match sym_at N p lit with
      | None => None
      | Some s =>
          let p := p + nth s lit 0 in
          if (s <? 256)%nat then
            inflate_codes fuel' N lit dist p (out ++ [Z.of_nat s])
          else if (s =? 256)%nat then Some (p, out)
          else if (285 <? s)%nat then None
          else
            let i := (s - 257)%nat in
            let len := nth i length_base 0 + bits_lsb N p (nth i length_extra 0) in
            let p := p + nth i length_extra 0 in
            match sym_at N p dist with
            | None => None
            | Some d =>
                if (29 <? d)%nat then None
                else
                  let p := p + nth d dist 0 in
                  let dst := nth d dist_base 0 + bits_lsb N p (nth d dist_extra 0) in
                  let p := p + nth d dist_extra 0 in
                  if dst >? Z.of_nat (length out) then None
                  else inflate_codes fuel' N lit dist p
                                     (lz_copy (Z.to_nat len) (Z.to_nat dst) out)
            end
      end
  end.

(** The order in which the code length code lengths are stored. *)
Definition code_length_order : list nat :=
  [16;17;18;0;8;7;9;6;10;5;11;4;12;3;13;2;14;1;15]%nat.

(** The first [hclen] code length code lengths, three bits each. *)
Fixpoint read_cl_lengths (N p : Z) (order : list nat) (cl : list Z) : list Z :=
  match order with
  | [] => cl
  | o :: order' =>
      read_cl_lengths N (p + 3) order' (list_insert o (bits_lsb N p 3) cl)
  end.

(** The literal/length and distance code lengths of a dynamic block, in
    the code length code [cl], until there are [total] of them. *)
Fixpoint read_lengths (fuel : nat) (N : Z) (cl : list Z) (total : nat) (p : Z)
    (acc : list Z) : option (Z * list Z) :=
  if (total <=? length acc)%nat then
    if (length acc =? total)%nat then Some (p, acc) else None
  else
    match fuel with
    | O => None
    | S fuel' =>
        match sym_at N p cl with
        | None => None
        | Some s =>
            let p := p + nth s cl 0 in
            if (s <? 16)%nat then
              read_lengths fuel' N cl total p (acc ++ [Z.of_nat s])
            else if (s =? 16)%nat then
              match acc with
              | [] => None
              | _ => read_lengths fuel' N cl total (p + 2)
                       (acc ++ repeat (List.last acc 0) (Z.to_nat (3 + bits_lsb N p 2)))
              end
            else if (s =? 17)%nat then
              read_lengths fuel' N cl total (p + 3)
                (acc ++ repeat 0 (Z.to_nat (3 + bits_lsb N p 3)))
            else
              read_lengths fuel' N cl total (p + 7)
                (acc ++ repeat 0 (Z.to_nat (11 + bits_lsb N p 7)))
        end
    end.

(** One block after its three header bits, by its type. *)
Definition inflate_block (fuel : nat) (inp : list Z) (type : Z) (p : Z) (out : list Z)
  : option (Z * list Z) :=
  let N := zstream inp in
  if type =? 0 then
    let q := (p + 7) / 8 in
    let len := bits_lsb N (8 * q) 16 in
    let nlen := bits_lsb N (8 * q + 16) 16 in
    if negb (nlen =? Z.lxor len 0xFFFF) then None
    else if q + 4 + len >? Z.of_nat (length inp) then None
    else Some (8 * (q + 4 + len),
               out ++ map u8 (firstn (Z.to_nat len) (skipn (Z.to_nat (q + 4)) inp)))
  else if type =? 1 then
    inflate_codes fuel N fixed_lit fixed_dist p out
  else if type =? 2 then
    let hlit := Z.to_nat (bits_lsb N p 5 + 257) in
    let hdist := Z.to_nat (bits_lsb N (p + 5) 5 + 1) in
    let hclen := Z.to_nat (bits_lsb N (p + 10) 4 + 4) in
    let cl := read_cl_lengths N (p + 14) (firstn hclen code_length_order) (repeat 0 19) in
    if negb (lengths_ok cl) then None
    else
      match read_lengths (hlit + hdist) N cl (hlit + hdist) (p + 14 + 3 * Z.of_nat hclen) [] with
      | None => None
      | Some (p, lens) =>
          let lit := firstn hlit lens in
          let dist := skipn hlit lens in
          if lengths_ok lit && lengths_ok dist
          then inflate_codes fuel N lit dist p out
          else None
      end
  else None.

(** The blocks from position [p] to the final one. *)
Fixpoint inflate_blocks (fuel : nat) (inp : list Z) (p : Z) (out : list Z)
  : option (list Z) :=
  match fuel with
  | O => None
  | S fuel' =>
      let N := zstream inp in
      let final := bits_lsb N p 1 in
      let type := bits_lsb N (p + 1) 2 in
      match inflate_block fuel inp type (p + 3) out with
      | None => None
      | Some (p', out') =>
          if final =? 1 then Some out' else inflate_blocks fuel' inp p' out'
      end
  end.

(** A zlib stream: the two header bytes (compression method 8, check
    bits, no preset dictionary), then the blocks. *)
Definition zlib_inflate (fuel : nat) (inp : list Z) : option (list Z) :=
  let cmf := u8 (nth 0 inp 0) in
  let flg := u8 (nth 1 inp 0) in
  if (Z.land cmf 15 =? 8) && ((cmf * 256 + flg) mod 31 =? 0) && (Z.land flg 32 =? 0)
  then inflate_blocks fuel inp 16 []
  else None.

(** ** The decoder's tables and bit buffer, in terms of the format *)

(** The input side of a [stbi__zbuf] stands at bit [p] of the stream
    [inp]: the bit buffer holds the next [nb] bits, and the bytes not yet
    read are those from byte [(p + nb) / 8] on (none is left once the
    reader has run past the end, where it reads zeros). *)
Definition zin_at (inp : list Z) (p : Z) (zb : list Z) (nb cb : Z) : Prop :=
  0 <= p /\ 0 <= nb <= 32 /\ cb = bits_lsb (zstream inp) p nb /\
  exists k : nat, zb = drop k inp /\ 8 * Z.of_nat k = p + nb.

(** One stage of [stbi__bitreverse16]: the blocks of [k] bits selected by
    the mask [A] move down, those selected by [B] move up. *)
Definition rev_stage (k A B n : Z) : Z :=
  Z.lor (Z.shiftr (Z.land n A) k) (Z.shiftl (Z.land n B) k).

(** The number of codes of length [b], none being of length 0. *)
Definition cnt (ls : list Z) (b : nat) : Z :=
  match b with O => 0 | _ => count_len ls (Z.of_nat b) end.

(** The number of symbols with a code shorter than [b] bits. *)
Fixpoint first_symbol (ls : list Z) (b : nat) : Z :=
  match b with
  | O => 0
  | S b' => first_symbol ls b' + cnt ls b'
  end.

(** The place of symbol [j] among the symbols sorted by code. *)
Definition sym_index (ls : list Z) (j : nat) : Z :=
  let l := nth j ls 0 in
  first_symbol ls (Z.to_nat l) + count_len (take j ls) l.

(** The code of symbol [j] stands at position [p]. *)
Definition code_at (N p : Z) (ls : list Z) (j : nat) : bool :=
  let l := nth j ls 0 in
  (0 <? l) && (bits_msb N p (Z.to_nat l) =? code_of ls j).

(** The entry of the fast table for the next nine bits [x] after the
    first [m] symbols: that of the last symbol with a code of at most nine
    bits that [x] begins with, or 0. *)
Fixpoint fast_spec (ls : list Z) (m : nat) (x : Z) : Z :=
  match m with
  | O => 0
  | S m' =>
      let l := nth m' ls 0 in
      if (0 <? l) && (l <=? 9) && (x mod 2 ^ l =? stbi__bit_reverse (code_of ls m') l)
      then l * 512 + Z.of_nat m'
      else fast_spec ls m' x
  end.

(** What [stbi__zbuild_huffman] leaves in the tables for the code
    lengths [ls]. *)
Definition ztable (ls : list Z) (z : stbi__zhuffman) : Prop :=
  (forall s : nat, (1 <= s <= 15)%nat ->
     firstcode z (Z.of_nat s) = first_code ls s /\
     firstsymbol z (Z.of_nat s) = first_symbol ls s /\
     maxcode z (Z.of_nat s) = (first_code ls s + cnt ls s) * 2 ^ (16 - Z.of_nat s)) /\
  maxcode z 16 = 0x10000 /\
  (forall x, 0 <= x < 512 -> zfast z x = fast_spec ls (length ls) x) /\
  (forall j, (j < length ls)%nat -> 0 < nth j ls 0 ->
     zsize z (sym_index ls j) = nth j ls 0 /\ zvalue z (sym_index ls j) = Z.of_nat j).

(** A stream that zlib wrote for 65 bytes: a stored block, a block with
    the fixed codes and a block with codes of its own, with empty stored
    blocks between them, and the checksum. *)
Definition C5_data : list Z :=
  [114;97;119;32;98;121;116;101;115;44;32;97;98;99;97;98;99;97;98;99;97;98;99;44;32;
   99;98;97;97;97;97;97;99;97;97;98;97;98;99;98;97;97;98;97;97;97;98;97;97;97;97;97;
   97;98;98;97;100;97;97;100;97;97;97;97;97].
Definition C5_stream : list Z :=
  [120;156;0;11;0;244;255;114;97;119;32;98;121;116;101;115;44;32;0;0;0;255;255;
   74;76;74;78;132;33;29;5;0;0;0;0;255;255;37;133;1;13;0;0;8;131;178;194;237;159;
   65;63;25;140;72;9;136;177;251;58;25;234;177;13;153;23;254].

(** The simplest compression of [data] (fewer than 65536 bytes): the zlib
    header and one final stored block. *)
Definition zlib_stored (data : list Z) : list Z :=
  let len := Z.of_nat (length data) in
  [0x78; 0x01; 0x01; len mod 256; len / 256;
   (Z.lxor len 0xFFFF) mod 256; (Z.lxor len 0xFFFF) / 256] ++ data.

(** A stream that zlib wrote for 362 bytes with Huffman codes only: one
    block with codes of its own, some of them ten bits long. *)
Definition long_codes_data : list Z :=
  repeat 97 150 ++ repeat 98 75 ++ repeat 99 37 ++ map Z.of_nat (seq 100 100).
Definition long_codes_stream : list Z :=
  [120;1;5;193;5;2;16;4;20;64;177;179;238;125;66;26;105;80;164;187;91;186;187;91;16;
   41;137;107;177;1;0;0;0;0;0;0;0;0;0;0;0;0;0;0;0;0;0;0;85;85;85;85;85;85;85;85;85;
   85;85;85;85;85;85;85;85;85;213;204;204;204;204;204;204;204;204;204;204;204;204;
   204;204;204;204;204;204;44;88;184;104;241;111;75;150;46;91;190;98;229;170;213;
   191;175;89;187;110;253;134;141;155;54;111;249;227;207;173;127;109;219;190;99;
   231;174;221;123;246;238;219;127;224;224;161;195;71;142;30;59;126;226;228;169;
   211;103;206;158;251;251;252;133;139;151;46;95;185;122;237;250;141;155;183;110;
   223;185;123;239;254;131;135;143;30;63;121;250;236;249;139;151;175;94;191;121;
   251;207;187;247;255;126;248;239;227;167;207;95;190;254;255;237;251;143;159;191;
   0;98;96;158;66].

(** * The vocabulary of the statements

    Predicates that the theorems are stated with, and the inputs of the
    examples. *)

(** The layer kinds that [ASE_Layer_read] keeps. *)
Definition layer_kind_ok (H : ASE_LayerHeader) : Prop :=
  lh_type H = ASE_FILE_LAYER_IMAGE \/ lh_type H = ASE_FILE_LAYER_GROUP.

(** Five visible Group layers with empty names at the depths 0, 1, 1, 2, 0. *)
Definition C6_headers : list ASE_LayerHeader :=
  map (fun d => mkLayerHeader ASE_LAYER_VISIBLE ASE_FILE_LAYER_GROUP d 0 0 0 255 (Some []))
      [0; 1; 1; 2; 0].

(** The body of a palette chunk with [from = 5], [to = 7] and the three
    colours (1,2,3,4), (5,6,7,8), (9,10,11,12), no names. *)
Definition C2_palette_chunk : list Z :=
  [8;0;0;0; 5;0;0;0; 7;0;0;0; 0;0;0;0;0;0;0;0;
   0;0; 1;2;3;4;   0;0; 5;6;7;8;   0;0; 9;10;11;12].

(** The live colour count is a [uint8_t]. *)
Definition palette_count_ok (S : ASE_Sprite) : Prop := 0 <= ncolors (palette S) <= 255.

(** A document of one frame whose only chunk is the palette chunk
    [C2_palette_chunk]; the header reports a colour count of zero. *)
Definition C9_document : list Z :=
  [166;0;0;0; 0xE0;0xA5; 1;0; 1;0; 1;0; 32;0] ++ replicate 114 0 ++
  [60;0;0;0; 0xFA;0xF1; 1;0; 100;0; 0;0;0;0;0;0] ++
  [44;0;0;0; 0x19;0x20] ++ C2_palette_chunk.

(** A run that leaves the callbacks of the context in place. *)
Definition same_io {U A} (m : M (ASE__ctx U) A) : Prop :=
  forall F, match m F with Ret (_, F') => io F' = io F | _ => True end.

(** Callbacks whose [tell] gives back the position last sought, as
    [ftell] after [fseek] and the memory interface do. *)
Definition seek_tell_law {U} (cb : ASE_Callbacks U) : Prop :=
  forall u p, INT_MIN <= p <= INT_MAX -> cb_tell cb (cb_seek cb u p) = p.

(** [chained pos next l]: each element of [l] starts where its
    predecessor says the next one is. *)
Inductive chained {A} (pos next : A -> Z) : list A -> Prop :=
| chained_nil : chained pos next []
| chained_one a : chained pos next [a]
| chained_cons a b l :
    pos b = next a -> chained pos next (b :: l) -> chained pos next (a :: b :: l).

(** Where the walk goes after a chunk read at [fst c], and after a frame:
    the start plus the declared size, as the [int] that [seek] takes. *)
Definition chunk_next (c : Z * ASE_DOC_ChunkHeader) : Z :=
  s32 (fst c + ch_size (snd c)).

(** An entry of the log of [ASE__decode_main]: the position a frame
    header was read at, the header, and the chunk headers of the frame with
    their positions. *)
Definition frame_pos (f : Z * ASE_FrameHeader * list (Z * ASE_DOC_ChunkHeader)) : Z :=
  fst (fst f).

Definition frame_next (f : Z * ASE_FrameHeader * list (Z * ASE_DOC_ChunkHeader)) : Z :=
  s32 (fst (fst f) + fh_size (snd (fst f))).

(** The stream position of a context. *)
Definition tell_of {U} (F : ASE__ctx U) : Z := cb_tell (io F) (udata F).

(** The factor of [w*h] in the three [ASE_DOC_read_compressed_*]. *)
Definition bytes_per_pixel (depth : Z) : Z :=
  if depth =? ASE_DEPTH_RGBA then 4
  else if depth =? ASE_DEPTH_GRAYSCALE then 2
  else 1.

(** The fields of a compressed cel chunk in the order the decoder reads
    them: chunk header, cel header, width, height, and the bytes from
    there to the chunk's end, with their number [isize] as the [int] that
    [ASE_DOC_read_compressed_rgba] computes. *)
Definition compressed_cel_fields {U}
  : M (ASE__ctx U)
      (ASE_DOC_ChunkHeader * (Z * Z * Z * Z * Z) * Z * Z * Z * list Z) :=
  start <- io_tell ;;
  CH <- ASE_DOC_ChunkHeader_read ;;
  hd <- ASE_Cel_read_header ;;
  w <- ASE__read16 ;;
  h <- ASE__read16 ;;
  pos <- io_tell ;;
  let isize := s32 (start + ch_size CH - pos) in
  ibuffer <- ASE__read8s (Z.to_nat isize) ;;
  ret (CH, hd, w, h, isize, ibuffer).

(** A run followed by [tell]: the result and the stream position. *)
Definition then_tell {U A} (m : M (ASE__ctx U) A) : M (ASE__ctx U) (A * Z) :=
  r <- m ;; p <- io_tell ;; ret (r, p).

(** A cel chunk for layer 0 at (3,4), compressed kind, 1x1, whose payload
    [1;2;3] is no zlib stream; decoded into a sprite with one Image layer
    and one frame. *)
Definition C8_chunk : list Z :=
  [29;0;0;0; 0x05;0x20;  0;0; 3;0; 4;0; 255; 2;0; 0;0;0;0;0;0;0;  1;0; 1;0;  1;2;3].

Definition C8_state : decode_state :=
  mkDecode (mkSprite 1 1 32 zero_palette
                     [mkLayer (Some []) 1 ASE_FILE_LAYER_IMAGE 0 255 0 (-1) 1]
                     [mkFrame 100 []] [])
           (Some 0%nat) 0 false.

(** A document of two frames: the first holds a user-data chunk of 6 bytes
    and a cel-extra chunk of 8, the second no chunk. *)
Definition C7_document : list Z :=
  [174;0;0;0; 0xE0;0xA5; 2;0; 1;0; 1;0; 32;0] ++ replicate 114 0 ++
  [30;0;0;0; 0xFA;0xF1; 2;0; 100;0; 0;0;0;0;0;0] ++
  [6;0;0;0; 0x20;0x20] ++ [8;0;0;0; 0x06;0x20; 7;7] ++
  [16;0;0;0; 0xFA;0xF1; 0;0; 100;0; 0;0;0;0;0;0].

(** The headers that the decode of [C7_document] reads, and where. *)
Definition C7_log : list (Z * ASE_FrameHeader * list (Z * ASE_DOC_ChunkHeader)) :=
  [(128, mkFrameHeader 30 ASE_FILE_FRAME_MAGIC 2 100,
    [(144, mkChunkHeader 6 ASE_FILE_CHUNK_USER_DATA 150);
     (150, mkChunkHeader 8 ASE_FILE_CHUNK_CEL_EXTRA 156)]);
   (158, mkFrameHeader 16 ASE_FILE_FRAME_MAGIC 0 100, [])].

(** The same first frame with a declared size of [0xFFFFFFFF] in its first
    chunk: the next chunk header is read at [143], one byte before the
    chunk's own start. *)
Definition C7_wrapping_document : list Z :=
  [174;0;0;0; 0xE0;0xA5; 1;0; 1;0; 1;0; 32;0] ++ replicate 114 0 ++
  [30;0;0;0; 0xFA;0xF1; 2;0; 100;0; 0;0;0;0;0;0] ++
  [255;255;255;255; 0x20;0x20] ++ [8;0;0;0; 0x06;0x20; 7;7].

(** A header of 128 bytes with the magic number 0 that announces one
    frame. *)
Definition C3_document : list Z :=
  [128;0;0;0; 0;0; 1;0; 1;0; 1;0; 32;0] ++ replicate 114 0.

(** The memory interface over [buf] with its cursor at offset [p]. *)
Definition ASE__mem_at (buf : list Z) (p : Z) : ASE__ctx ASE__mem :=
  mkCtx ASE__mem_callbacks (ASE__mem_seek (udata (ASE__start_mem buf)) p).

(** The little-endian bytes of a 16-bit and of a 32-bit value. *)
Definition le16 (v : Z) : list Z := [u8 v; u8 (Z.shiftr v 8)].
Definition le32 (v : Z) : list Z :=
  [u8 v; u8 (Z.shiftr v 8); u8 (Z.shiftr v 16); u8 (Z.shiftr v 24)].

(** Kraft's sum of a list of code lengths, scaled by [2^15]: a symbol with
    the code length [s] from 1 to 15 takes [2^(15-s)] of the [2^15] codes of
    15 bits; a symbol with the length 0 has no code. *)
Definition kraft_sum (sizelist : list Z) : Z :=
  fold_right (fun s acc => (if s =? 0 then 0 else 2 ^ (15 - s)) + acc) 0 sizelist.

(** [code] after the round for the last of [n] lengths from [i] on, in the
    second loop of [stbi__zbuild_huffman] started with [code]. *)
Fixpoint zlast_code (n : nat) (i : Z) (sizes : Z -> Z) (code : Z) : Z :=
  match n with
  | O => code
  | S O => code + sizes i
  | S n' => zlast_code n' (i + 1) sizes (2 * (code + sizes i))
  end.

(** What a step of the zlib decoder leaves of the output side of its
    state: the bytes written, the size of the output buffer and whether it
    may grow. *)
Definition same_zout (a a' : stbi__zbuf) : Prop :=
  zout a' = zout a /\ zout_limit a' = zout_limit a /\ z_expandable a' = z_expandable a.

(** A fixed output buffer that nothing has been written past. *)
Definition zout_bounded (a : stbi__zbuf) : Prop :=
  z_expandable a = false /\ Z.of_nat (length (zout a)) <= Z.max (zout_limit a) 0.

(** The same buffer with possibly more written to it, still within its
    bounds. *)
Definition zout_grows (a a' : stbi__zbuf) : Prop :=
  zout_limit a' = zout_limit a /\ zout_bounded a'.

(** The two bytes of a zlib header that [stbi__parse_zlib_header] accepts:
    a multiple of 31 as a big-endian number, no preset dictionary,
    compression method 8. *)
Definition zlib_header_ok (cmf flg : Z) : bool :=
  ((u8 cmf * 256 + u8 flg) mod 31 =? 0) && (Z.land (u8 flg) 32 =? 0)
  && (Z.land (u8 cmf) 15 =? 8).

(** The decoder state [a] with an output buffer of [l] bytes that may grow
    or not, as [e] says. *)
Definition zwith (a : stbi__zbuf) (l : Z) (e : bool) : stbi__zbuf :=
  mkZbuf (zbuffer a) (num_bits a) (code_buffer a) (zout a) l e
         (z_length a) (z_distance a).

(** A step that does the same whatever the output buffer's size is. *)
Definition zlifts {A} (m : M stbi__zbuf A) : Prop :=
  forall a r a' l e, m a = Ret (r, a') -> m (zwith a l e) = Ret (r, zwith a' l e).

(** A fixed output buffer of at most [2^30] bytes. *)
Definition zfixed (a : stbi__zbuf) : Prop :=
  z_expandable a = false /\ zout_limit a <= 2^30.

(** The step [m] has left the fixed buffer of [a'] as it was, and started
    in [a] with a growable buffer of [l] bytes it returns [r] and leaves
    [a'] with a buffer that has kept a size an [int] holds. *)
Definition zgrown {A} (m : M stbi__zbuf A) (a : stbi__zbuf) (r : A) (a' : stbi__zbuf)
    (l : Z) : Prop :=
  zfixed a' /\
  exists l', 1 <= l' <= INT_MAX /\ m (zwith a l true) = Ret (r, zwith a' l' true).

(** The step [m] from [a] to [a'] adds to the output only, and does the
    same on a fixed buffer of [L] bytes that the output of [a'] fits. *)
Definition zshrunk {A} (m : M stbi__zbuf A) (a : stbi__zbuf) (r : A) (a' : stbi__zbuf)
    (L : Z) : Prop :=
  (length (zout a) <= length (zout a'))%nat /\
  (Z.of_nat (length (zout a')) <= L ->
   m (zwith a L false) = Ret (r, zwith a' L false)).

(** A layer as [ASE_Layer_read] leaves it at index [i]: its parent is the
    root or an earlier layer, [visible] is the visibility bit of its flags,
    and it has a name. *)
Definition layer_ok (i : nat) (L : ASE_Layer) : Prop :=
  -1 <= parent L < Z.of_nat i /\
  visible L = Z.land (layer_flags L) ASE_LAYER_VISIBLE /\
  layer_name L <> None.

(** A cel as [ASE_Cel_read] leaves it: its layer is an Image layer of the
    sprite. *)
Definition cel_ok (ls : list ASE_Layer) (c : ASE_Cel) : Prop :=
  0 <= cel_layer c /\
  exists L, ls !! Z.to_nat (cel_layer c) = Some L /\ layer_type L = ASE_FILE_LAYER_IMAGE.

(** A tag as [ASE_Tags_read] leaves it. *)
Definition tag_ok (t : ASE_Tag) : Prop :=
  (tag_dir t = ASE_LOOP_FORWARD \/ tag_dir t = ASE_LOOP_REVERSE \/
   tag_dir t = ASE_LOOP_PINGPONG) /\
  - 2 ^ 15 <= tag_from t < 2 ^ 15 /\ - 2 ^ 15 <= tag_to t < 2 ^ 15 /\
  tag_name t <> None.

Definition sprite_ok (S : ASE_Sprite) : Prop :=
  (forall i L, layers S !! i = Some L -> layer_ok i L) /\
  (forall f c, f ∈ frames S -> c ∈ cels f -> cel_ok (layers S) c) /\
  Forall tag_ok (tags S).

(** The state of [ASE__decode_main] between two chunks: [LastLayer] points
    into the layer array. *)
Definition decode_ok (st : decode_state) : Prop :=
  sprite_ok (ds_sprite st) /\
  forall q, ds_LastLayer st = Some q -> (q < length (layers (ds_sprite st)))%nat.

(** A document of one frame with three chunks: a visible Image layer
    named A, a raw cel of one RGBA pixel on it at (3,4), and a Reverse tag
    named T over frame 0. *)
Definition sample_document : list Z :=
  [235;0;0;0; 0xE0;0xA5; 1;0; 1;0; 1;0; 32;0] ++ replicate 114 0 ++
  [107;0;0;0; 0xFA;0xF1; 3;0; 100;0; 0;0;0;0;0;0] ++
  [25;0;0;0; 0x04;0x20;  1;0; 0;0; 0;0; 0;0; 0;0; 0;0; 255; 0;0;0;  1;0; 65] ++
  [30;0;0;0; 0x05;0x20;  0;0; 3;0; 4;0; 255; 0;0; 0;0;0;0;0;0;0;  1;0; 1;0;  9;8;7;6] ++
  [36;0;0;0; 0x18;0x20;  1;0; 0;0;0;0;0;0;0;0;
     0;0; 0;0; 1; 0;0;0;0;0;0;0;0; 0;0;0;0;  1;0; 84].

(** The sprite that the decode of [sample_document] gives, and its log. *)
Definition sample_sprite : ASE_Sprite :=
  mkSprite 1 1 32 zero_palette
    [mkLayer (Some [65]) 1 ASE_FILE_LAYER_IMAGE 0 255 0 (-1) 1]
    [mkFrame 100 [mkCel 0 3 4 1 1 255 (Some [9; 8; 7; 6]) 0 0]]
    [mkTag 0 0 ASE_LOOP_REVERSE (Some [84])].

Definition sample_log : list (Z * ASE_FrameHeader * list (Z * ASE_DOC_ChunkHeader)) :=
  [(128, mkFrameHeader 107 ASE_FILE_FRAME_MAGIC 3 100,
    [(144, mkChunkHeader 25 ASE_FILE_CHUNK_LAYER 150);
     (169, mkChunkHeader 30 ASE_FILE_CHUNK_CEL 175);
     (199, mkChunkHeader 36 ASE_FILE_CHUNK_FRAME_TAGS 205)])].

(** The duration that the frame header of an entry of the log announces. *)
Definition log_duration (e : Z * ASE_FrameHeader * list (Z * ASE_DOC_ChunkHeader)) : Z :=
  fh_duration (snd (fst e)).

(** [S'] holds the layers, frames and tags of [S] and possibly more after
    them. *)
Definition sprite_extends (S S' : ASE_Sprite) : Prop :=
  layers S `prefix_of` layers S' /\
  frames S `prefix_of` frames S' /\
  tags S `prefix_of` tags S'.

(** The C string in a buffer: the bytes before the first zero. *)
Fixpoint c_string (s : list Z) : list Z :=
  match s with
  | [] => []
  | x :: s' => if x =? 0 then [] else x :: c_string s'
  end.

(** What a lookup by name returns in a list of names: the index of the
    first name that is [name] as a C string. *)
Definition first_named (names : list (option (list Z))) (name : list Z)
    (r : option nat) : Prop :=
  match r with
  | Some i =>
      (exists s, names !! i = Some (Some s) /\ c_string s = c_string name) /\
      (forall j s, (j < i)%nat -> names !! j = Some (Some s) ->
                   c_string s <> c_string name)
  | None => forall j s, names !! j = Some (Some s) -> c_string s <> c_string name
  end.

(** A read that returns from every state of the stream. *)
Definition returns {U A} (m : M (ASE__ctx U) A) : Prop :=
  forall F, exists a F', m F = Ret (a, F').

(** The fields at the start of a palette chunk, in the order
    [ASE_Palette_read] reads them: the first and the last index. *)
Definition palette_chunk_range {U} : M (ASE__ctx U) (Z * Z) :=
  NewSize <- ASE__read32 ;;
  From <- ASE__read32 ;;
  To <- ASE__read32 ;;
  io_skip 8 ;;
  ret (From, To).

(** A compressed cel chunk, for layer 0 and of 1x1 pixels, that declares
    a size of 6 bytes: the 26 bytes of its fields end 20 bytes after the
    end it declares. *)
Definition short_cel_chunk : list Z :=
  [6;0;0;0; 0x05;0x20;  0;0; 3;0; 4;0; 255; 2;0; 0;0;0;0;0;0;0;  1;0; 1;0].

(** * Theorems *)

Lemma s32_id x : INT_MIN <= x <= INT_MAX -> s32 x = x.
Proof.
  unfold s32, INT_MIN, INT_MAX. intros H.
  rewrite Z.mod_small; lia.
Qed.

Lemma s32_range x : INT_MIN <= s32 x <= INT_MAX.
Proof.
  unfold s32, INT_MIN, INT_MAX.
  pose proof (Z.mod_pos_bound (x + 2^31) (2^32)). lia.
Qed.

(** On the Forward and Reverse directions, and on PingPong at a
    non-negative index, the code computes the specified function. *)
Lemma ASE_get_next_frame_agrees tag frame :
  INT_MIN < frame < INT_MAX ->
  tag_dir tag = ASE_LOOP_FORWARD \/ tag_dir tag = ASE_LOOP_REVERSE \/
    (tag_dir tag = ASE_LOOP_PINGPONG /\ 0 <= frame) ->
  ASE_get_next_frame tag frame = next_frame_spec tag frame.
Proof.
  intros Hr Hd. unfold ASE_get_next_frame, next_frame_spec.
  rewrite !s32_id by (unfold INT_MIN, INT_MAX in *; lia).
  destruct Hd as [-> | [-> | [-> H0]]].
  - reflexivity.
  - reflexivity.
  - change (ASE_LOOP_PINGPONG =? ASE_LOOP_FORWARD) with false.
    change (ASE_LOOP_PINGPONG =? ASE_LOOP_REVERSE) with false.
    change (ASE_LOOP_PINGPONG =? ASE_LOOP_PINGPONG) with true. cbv iota.
    destruct (frame >=? 0) eqn:E; [|lia].
    destruct (frame + 1 >? tag_to tag); [|reflexivity].
    destruct (Z.eqb_spec 0 (tag_to tag - tag_from tag)),
      (Z.eqb_spec (tag_from tag) (tag_to tag)); try reflexivity; lia.
Qed.

(** C4. The three worked examples hold on the code, but on the PingPong
    direction at a negative index the code compares the decremented index
    itself with [from], not [to + index]: for the tag [{from=2, to=5,
    PingPong}] at index [-1] it returns [0], where the specified function
    gives [-2] (frame [to - 2 = 3], which is still inside the range). *)
Theorem C4_next_frame_pingpong_negative :
  ASE_get_next_frame (mkTag 2 5 ASE_LOOP_FORWARD None) 5 = 2 /\
  ASE_get_next_frame (mkTag 2 5 ASE_LOOP_REVERSE None) 2 = 5 /\
  ASE_get_next_frame (mkTag 3 3 ASE_LOOP_PINGPONG None) 3 = 0 /\
  ASE_get_next_frame (mkTag 2 5 ASE_LOOP_PINGPONG None) (-1) = 0 /\
  next_frame_spec (mkTag 2 5 ASE_LOOP_PINGPONG None) (-1) = -2.
Proof. repeat split; reflexivity. Qed.

(** ** The layer tree builder *)

(** A layer chunk of kind Image or Group appends one layer, whose parent
    is the value [ASE_Layer_parent] leaves. *)
Lemma ASE_Layer_decode_appends H S prev lvl p :
  layer_kind_ok H ->
  ASE_Layer_parent (layers S ++ [zero_layer]) prev lvl (lh_child_level H) = Ret p ->
  exists L,
    ASE_Layer_decode H S prev lvl =
      Ret (Some (length (layers S)), set_layers S (layers S ++ [L]),
           Some (length (layers S)), lh_child_level H)
    /\ parent L = p /\ child_level L = lh_child_level H.
Proof.
  intros Hk Hp. unfold ASE_Layer_decode.
  assert (Ht : (lh_type H =? ASE_FILE_LAYER_IMAGE) || (lh_type H =? ASE_FILE_LAYER_GROUP) = true).
  { destruct Hk as [-> | ->]; reflexivity. }
  rewrite Ht. cbn [ASE_DOC_AddLayer layers].
  destruct (_ && _); rewrite Hp; eexists;
    (split; [unfold set_layers; cbn [layers width height depth palette frames tags];
             rewrite insert_app_r_alt by lia; rewrite Nat.sub_diag; reflexivity
            |split; reflexivity]).
Qed.

(** In the walk-back branch (a nonzero depth below the running depth) the
    value left in [Layer->parent] is the zero of [ASE_DOC_AddLayer],
    whatever the walk up the parent chain finds. *)
Lemma ASE_Layer_parent_walk_back ls prev lvl d p :
  d <> 0 -> d < lvl ->
  ASE_Layer_parent ls prev lvl d = Ret p -> p = 0.
Proof.
  intros Hd Hlt. unfold ASE_Layer_parent.
  destruct (Z.eqb_spec 0 d); [lia|].
  destruct (Z.eqb_spec lvl d); [lia|].
  destruct (Z.gtb_spec d lvl); [lia|].
  destruct (Z.ltb_spec d lvl); [|lia].
  destruct prev as [pi|]; [|discriminate].
  destruct (ls !! pi) as [PL|]; [|discriminate].
  destruct (parent PL >=? 0).
  - destruct (ASE_Layer_walk _ _ _); [|discriminate]. congruence.
  - congruence.
Qed.

(** C1. Four layer chunks of depths [0,0,1,2] followed by one of depth [1]:
    the walk from the last-created layer computes the ancestor with index
    [1], and the new layer's parent is left at [0]. *)
Theorem C1_walk_back_parent_left_zero :
  let hdr d := mkLayerHeader ASE_LAYER_VISIBLE ASE_FILE_LAYER_GROUP d 0 0 0 255 (Some []) in
  exists S S' L3 L4,
    ASE_Layer_decode_all (map hdr [0; 0; 1; 2]) zero_sprite None (-1)
      = Ret (S, Some 3%nat, 2) /\
    layers S !! 3%nat = Some L3 /\
    ASE_Layer_walk (layers (ASE_DOC_AddLayer S)) (Z.to_nat (2 - 1)) (parent L3) = Some 1 /\
    ASE_Layer_decode (hdr 1) S (Some 3%nat) 2 = Ret (Some 4%nat, S', Some 4%nat, 1) /\
    layers S' !! 4%nat = Some L4 /\
    parent L4 = 0.
Proof.
  cbv zeta. do 4 eexists.
  split; [vm_compute; reflexivity|].
  split; [reflexivity|].
  split; [vm_compute; reflexivity|].
  split; [vm_compute; reflexivity|].
  split; reflexivity.
Qed.

(** C6, as the code has it: five consecutive layer chunks of kind Image or
    Group with depths [0,1,1,2,0], decoded into a sprite that has no layer
    yet, give the parent indices [-1,0,0,2,-1]: the layer of depth 2 is
    parented at the layer created just before it, index 2. *)
Theorem C6_parents_of_depths_0_1_1_2_0 (Hs : list ASE_LayerHeader) (S : ASE_Sprite) :
  Forall layer_kind_ok Hs ->
  map lh_child_level Hs = [0; 1; 1; 2; 0] ->
  layers S = [] ->
  exists S' prev lvl,
    ASE_Layer_decode_all Hs S None (-1) = Ret (S', prev, lvl) /\
    map parent (layers S') = [-1; 0; 0; 2; -1].
Proof.
  intros Hk Hd Hl.
  destruct Hs as [|h0 [|h1 [|h2 [|h3 [|h4 [|]]]]]]; try discriminate.
  injection Hd as d0 d1 d2 d3 d4.
  repeat match goal with H : Forall _ (_ :: _) |- _ => inversion H; clear H; subst end.
  cbn [ASE_Layer_decode_all].
  destruct (ASE_Layer_decode_appends h0 S None (-1) (-1)) as (L0 & -> & P0 & C0); auto.
  { rewrite d0. reflexivity. }
  set (S0 := set_layers S _).
  destruct (ASE_Layer_decode_appends h1 S0 (Some (length (layers S))) (lh_child_level h0) 0)
    as (L1 & -> & P1 & C1); auto.
  { rewrite d0, d1, Hl. subst S0. cbn. rewrite Hl. reflexivity. }
  set (S1 := set_layers S0 _).
  destruct (ASE_Layer_decode_appends h2 S1 (Some (length (layers S0))) (lh_child_level h1) 0)
    as (L2 & -> & P2 & C2); auto.
  { rewrite d1, d2. subst S1 S0. cbn. rewrite Hl. cbn. rewrite P1. reflexivity. }
  set (S2 := set_layers S1 _).
  destruct (ASE_Layer_decode_appends h3 S2 (Some (length (layers S1))) (lh_child_level h2) 2)
    as (L3 & -> & P3 & C3); auto.
  { rewrite d2, d3. subst S2 S1 S0. cbn. rewrite Hl. reflexivity. }
  set (S3 := set_layers S2 _).
  destruct (ASE_Layer_decode_appends h4 S3 (Some (length (layers S2))) (lh_child_level h3) (-1))
    as (L4 & -> & P4 & C4); auto.
  { rewrite d4. reflexivity. }
  do 3 eexists. split; [reflexivity|].
  subst S3 S2 S1 S0. cbn. rewrite Hl. cbn. congruence.
Qed.

(** The five layers of [C6_headers] are of a kind that is kept. *)
Lemma C6_headers_ok : Forall layer_kind_ok C6_headers.
Proof. repeat constructor; right; reflexivity. Qed.

(** C6 on the five Group layers [C6_headers] and the zeroed sprite. *)
Lemma C6_parents_witness :
  exists S' prev lvl,
    ASE_Layer_decode_all C6_headers zero_sprite None (-1) = Ret (S', prev, lvl) /\
    map parent (layers S') = [-1; 0; 0; 2; -1].
Proof.
  apply (C6_parents_of_depths_0_1_1_2_0 C6_headers zero_sprite).
  - exact C6_headers_ok.
  - reflexivity.
  - reflexivity.
Defined.

(** The claim as the specification states it, with parents
    [-1,0,0,1,-1], fails on these five Group layers. *)
Lemma C6_counterexample :
  ~ (forall (Hs : list ASE_LayerHeader) S' prev lvl,
       Forall layer_kind_ok Hs ->
       map lh_child_level Hs = [0; 1; 1; 2; 0] ->
       ASE_Layer_decode_all Hs zero_sprite None (-1) = Ret (S', prev, lvl) ->
       map parent (layers S') = [-1; 0; 0; 1; -1]).
Proof.
  intros H.
  specialize (H C6_headers _ _ _ C6_headers_ok eq_refl eq_refl).
  vm_compute in H. discriminate H.
Qed.

(** ** Reasoning in the state monad *)

Lemma bind_Ret {St A B} (m : M St A) (k : A -> M St B) s r :
  bind m k s = Ret r -> exists a s', m s = Ret (a, s') /\ k a s' = Ret r.
Proof.
  unfold bind. destruct (m s) as [[a s']| | |]; try discriminate. eauto.
Qed.

Lemma bind_eq_Ret {St A B} (m : M St A) (k : A -> M St B) s a s' :
  m s = Ret (a, s') -> bind m k s = k a s'.
Proof. unfold bind. intros ->. reflexivity. Qed.

Lemma lift_outcome_Ret {St A} (o : outcome A) (s : St) r :
  lift_outcome o s = Ret r -> o = Ret (fst r) /\ snd r = s.
Proof. destruct o; cbn; try discriminate. intros [= <-]. auto. Qed.

Lemma c_assert_Ret {St} asserts e (s : St) r :
  c_assert asserts e s = Ret r -> r = (tt, s) /\ (asserts = true -> e = true).
Proof.
  unfold c_assert. destruct asserts, e; cbn; try discriminate;
    intros [= <-]; auto.
Qed.

Lemma run_Ret {St A} (m : M St A) (s : St) a :
  run m s = Ret a -> exists s', m s = Ret (a, s').
Proof.
  unfold run. destruct (m s) as [[a' s']| | |]; try discriminate.
  intros [= ->]. eauto.
Qed.

Lemma run_eq_Ret {St A} (m : M St A) (s : St) a s' :
  m s = Ret (a, s') -> run m s = Ret a.
Proof. unfold run. intros ->. reflexivity. Qed.

(** Splits a hypothesis [bind m k s = Ret r] into the two runs. *)
Ltac inv_bind H :=
  let a := fresh "a" in let s := fresh "s" in let H1 := fresh "Hm" in
  apply bind_Ret in H as (a & s & H1 & H).

Ltac inv_ret H :=
  match type of H with
  | ret _ _ = Ret _ => unfold ret in H; injection H as H; subst
  | Ret _ = Ret _ => injection H as H; subst
  end.

(** ** The palette builder *)

Lemma u8_range x : 0 <= u8 x <= 255.
Proof. unfold u8. pose proof (Z.mod_pos_bound x (2^8)). lia. Qed.

Lemma ASE_Palette_read_entry_count {U} R (F : ASE__ctx U) R' F' :
  ASE_Palette_read_entry R F = Ret (R', F') -> 0 <= ncolors R' <= 255.
Proof.
  unfold ASE_Palette_read_entry. intros H.
  inv_bind H. inv_bind H.
  destruct (_ <? 0); [discriminate|].
  inv_bind H. inv_ret H. cbn [ncolors]. apply u8_range.
Qed.

Lemma ASE_Palette_read_loop_count {U} n R (F : ASE__ctx U) R' F' :
  0 <= ncolors R <= 255 ->
  ASE_Palette_read_loop n R F = Ret (R', F') -> 0 <= ncolors R' <= 255.
Proof.
  revert R F. induction n as [|n IH]; intros R F HR H; cbn [ASE_Palette_read_loop] in H.
  - inv_ret H. exact HR.
  - inv_bind H. eapply IH; [|exact H].
    eapply ASE_Palette_read_entry_count; eassumption.
Qed.

Lemma ASE_Palette_read_count {U} Prev (F : ASE__ctx U) R F' :
  0 <= ncolors Prev <= 255 ->
  ASE_Palette_read Prev F = Ret (R, F') -> 0 <= ncolors R <= 255.
Proof.
  unfold ASE_Palette_read. intros HP H.
  do 4 inv_bind H.
  destruct (_ =? INT_MAX).
  - inv_bind H. discriminate.
  - eapply ASE_Palette_read_loop_count; eassumption.
Qed.

(** C2. The chunk of the specification's example, applied to the zeroed
    palette of a fresh sprite: the three colours (red and blue swapped)
    land in entries 0..2, where the live colour count stood, entries 5..7
    keep their old contents, and the count becomes 3. *)
Theorem C2_palette_range_example :
  exists R,
    run (ASE_Palette_read zero_palette) (ASE__start_mem C2_palette_chunk) = Ret R /\
    ncolors R = 3 /\
    take 3 (colors R) = [mkPixel32 3 2 1 4; mkPixel32 7 6 5 8; mkPixel32 11 10 9 12] /\
    drop 3 (colors R) = drop 3 (colors zero_palette).
Proof.
  eexists. split; [vm_compute; reflexivity|].
  repeat split; reflexivity.
Qed.

(** ** The palette during a decode *)

Lemma ASE_Layer_decode_palette H S prev lvl o S' p l :
  ASE_Layer_decode H S prev lvl = Ret (o, S', p, l) -> palette S' = palette S.
Proof.
  unfold ASE_Layer_decode. destruct (_ || _).
  - destruct (_ && _); destruct (ASE_Layer_parent _ _ _ _); try discriminate;
      intros [= <- <- <- <-]; reflexivity.
  - intros [= <- <- <- <-]. reflexivity.
Qed.

Lemma ASE_Layer_read_palette {U} S prev lvl (F : ASE__ctx U) o S' p l F' :
  ASE_Layer_read S prev lvl F = Ret ((o, S', p, l), F') -> palette S' = palette S.
Proof.
  unfold ASE_Layer_read. intros H. inv_bind H.
  apply lift_outcome_Ret in H as [H _]. cbn [fst] in H.
  eapply ASE_Layer_decode_palette; eassumption.
Qed.

Lemma ASE_Cel_read_palette {U} asserts fuel S i Frame EndPos (F : ASE__ctx U) o S' F' :
  ASE_Cel_read asserts fuel S i Frame EndPos F = Ret ((o, S'), F') ->
  palette S' = palette S.
Proof.
  unfold ASE_Cel_read. intros H. inv_bind H.
  destruct a as [[[[layer x] y] opacity] type].
  match type of H with
  | context [match ?e with Some _ => _ | None => _ end] => destruct e as [L|]
  end.
  - destruct (negb _).
    + inv_ret H. reflexivity.
    + inv_bind H. inv_ret H. reflexivity.
  - inv_ret H. reflexivity.
Qed.

Lemma ASE_Tags_read_loop_palette {U} n S (F : ASE__ctx U) S' F' :
  ASE_Tags_read_loop n S F = Ret (S', F') -> palette S' = palette S.
Proof.
  revert S F. induction n as [|n IH]; intros S F H; cbn [ASE_Tags_read_loop] in H.
  - inv_ret H. reflexivity.
  - inv_bind H. apply IH in H. rewrite H.
    unfold ASE_Tags_read_tag in Hm. do 7 inv_bind Hm. inv_ret Hm. reflexivity.
Qed.

Lemma ASE_Tags_read_palette {U} S (F : ASE__ctx U) S' F' :
  ASE_Tags_read S F = Ret (S', F') -> palette S' = palette S.
Proof.
  unfold ASE_Tags_read. intros H. do 3 inv_bind H.
  eapply ASE_Tags_read_loop_palette; eassumption.
Qed.

Lemma ASE__decode_switch_palette {U} asserts fuel i Frame start CH st (F : ASE__ctx U) st' F' :
  palette_count_ok (ds_sprite st) ->
  ASE__decode_switch asserts fuel i Frame start CH st F = Ret (st', F') ->
  palette_count_ok (ds_sprite st').
Proof.
  unfold ASE__decode_switch, palette_count_ok. intros Hok H.
  destruct (_ =? ASE_FILE_CHUNK_PALETTE).
  { inv_bind H. inv_ret H. cbn [ds_sprite palette].
    eapply ASE_Palette_read_count; eassumption. }
  destruct (_ =? ASE_FILE_CHUNK_LAYER).
  { inv_bind H. destruct a as [[[o S'] p] l]. inv_ret H. cbn [ds_sprite].
    erewrite ASE_Layer_read_palette; eassumption. }
  destruct (_ =? ASE_FILE_CHUNK_CEL).
  { inv_bind H. destruct a as [o S']. inv_ret H. cbn [ds_sprite snd].
    erewrite ASE_Cel_read_palette; eassumption. }
  destruct (_ =? ASE_FILE_CHUNK_FRAME_TAGS).
  { inv_bind H. inv_ret H. cbn [ds_sprite].
    erewrite ASE_Tags_read_palette; eassumption. }
  inv_ret H. exact Hok.
Qed.

Lemma ASE__decode_chunk_palette {U} asserts fuel i Frame st (F : ASE__ctx U) r F' :
  palette_count_ok (ds_sprite st) ->
  ASE__decode_chunk asserts fuel i Frame st F = Ret (r, F') ->
  palette_count_ok (ds_sprite (fst r)).
Proof.
  unfold ASE__decode_chunk. intros Hok H. do 4 inv_bind H. inv_ret H. cbn [fst].
  eapply ASE__decode_switch_palette; eassumption.
Qed.

Lemma ASE__decode_chunks_palette {U} asserts fuel i Frame n st (F : ASE__ctx U) r F' :
  palette_count_ok (ds_sprite st) ->
  ASE__decode_chunks asserts fuel i Frame n st F = Ret (r, F') ->
  palette_count_ok (ds_sprite (fst r)).
Proof.
  revert st F r. induction n as [|n IH]; intros st F r Hok H;
    cbn [ASE__decode_chunks] in H.
  - inv_ret H. exact Hok.
  - do 2 inv_bind H. inv_ret H. cbn [fst].
    eapply IH; [|eassumption].
    eapply ASE__decode_chunk_palette; eassumption.
Qed.

Lemma ASE__decode_frame_palette {U} asserts fuel i st (F : ASE__ctx U) r F' :
  palette_count_ok (ds_sprite st) ->
  ASE__decode_frame asserts fuel i st F = Ret (r, F') ->
  palette_count_ok (ds_sprite (fst r)).
Proof.
  unfold ASE__decode_frame. intros Hok H. do 5 inv_bind H. inv_ret H. cbn [fst].
  eapply ASE__decode_chunks_palette; [|eassumption]. exact Hok.
Qed.

Lemma ASE__decode_frames_palette {U} asserts fuel n i st (F : ASE__ctx U) r F' :
  palette_count_ok (ds_sprite st) ->
  ASE__decode_frames asserts fuel i n st F = Ret (r, F') ->
  palette_count_ok (ds_sprite (fst r)).
Proof.
  revert i st F r. induction n as [|n IH]; intros i st F r Hok H;
    cbn [ASE__decode_frames] in H.
  - inv_ret H. exact Hok.
  - do 2 inv_bind H. inv_ret H. cbn [fst].
    eapply IH; [|eassumption].
    eapply ASE__decode_frame_palette; eassumption.
Qed.



(** ** The callbacks stay in place

    No reader or builder changes the [io] member of the context. *)

Lemma same_io_Ret {U A} (m : M (ASE__ctx U) A) F a F' :
  same_io m -> m F = Ret (a, F') -> io F' = io F.
Proof. intros H E. specialize (H F). rewrite E in H. exact H. Qed.

Lemma same_io_ret {U A} (a : A) : same_io (@ret (ASE__ctx U) A a).
Proof. intros F. reflexivity. Qed.

Lemma same_io_bind {U A B} (m : M (ASE__ctx U) A) (k : A -> M (ASE__ctx U) B) :
  same_io m -> (forall a, same_io (k a)) -> same_io (bind m k).
Proof.
  intros Hm Hk F. unfold bind. specialize (Hm F).
  destruct (m F) as [[a F1]| | |]; try exact I.
  specialize (Hk a F1). destruct (k a F1) as [[b F2]| | |]; try exact I.
  congruence.
Qed.

Lemma same_io_fail_abort {U A} : same_io (@fail_abort (ASE__ctx U) A).
Proof. intros F. exact I. Qed.
Lemma same_io_fail_undefined {U A} : same_io (@fail_undefined (ASE__ctx U) A).
Proof. intros F. exact I. Qed.
Lemma same_io_fail_diverge {U A} : same_io (@fail_diverge (ASE__ctx U) A).
Proof. intros F. exact I. Qed.
Lemma same_io_lift_outcome {U A} (o : outcome A) : same_io (@lift_outcome (ASE__ctx U) A o).
Proof. intros F. destruct o; cbn; auto. Qed.
Lemma same_io_c_assert {U} asserts e : same_io (@c_assert (ASE__ctx U) asserts e).
Proof. intros F. unfold c_assert. destruct (_ && _); cbn; auto. Qed.

Lemma same_io_read {U} n : same_io (@io_read U n).
Proof. intros F. unfold io_read. destruct (cb_read _ _ _). reflexivity. Qed.
Lemma same_io_skip {U} n : same_io (@io_skip U n).
Proof. intros F. reflexivity. Qed.
Lemma same_io_tell {U} : same_io (@io_tell U).
Proof. intros F. reflexivity. Qed.
Lemma same_io_seek {U} p : same_io (@io_seek U p).
Proof. intros F. reflexivity. Qed.

Create HintDb same_io.
#[export] Hint Resolve same_io_ret same_io_fail_abort same_io_fail_undefined
  same_io_fail_diverge same_io_lift_outcome same_io_c_assert
  same_io_read same_io_skip same_io_tell same_io_seek : same_io.

Ltac same_io_step :=
  match goal with
  | |- same_io (bind _ _) => apply same_io_bind; [|intros ?]
  | |- same_io (match ?x with _ => _ end) => destruct x
  | |- same_io _ => solve [eauto with same_io]
  end.
Ltac same_io := repeat same_io_step.

Lemma same_io_read8 {U} : same_io (@ASE__read8 U).
Proof. unfold ASE__read8. same_io. Qed.
Lemma same_io_read16 {U} : same_io (@ASE__read16 U).
Proof. unfold ASE__read16. same_io. Qed.
Lemma same_io_read32 {U} : same_io (@ASE__read32 U).
Proof. unfold ASE__read32. same_io. Qed.
#[export] Hint Resolve same_io_read8 same_io_read16 same_io_read32 : same_io.

Lemma same_io_read8s {U} n : same_io (@ASE__read8s U n).
Proof. induction n; cbn [ASE__read8s]; same_io. Qed.
#[export] Hint Resolve same_io_read8s : same_io.

Lemma same_io_read_string {U} : same_io (@ASE_DOC_read_string U).
Proof. unfold ASE_DOC_read_string. same_io. Qed.
#[export] Hint Resolve same_io_read_string : same_io.

Lemma same_io_ChunkHeader_read {U} : same_io (@ASE_DOC_ChunkHeader_read U).
Proof. unfold ASE_DOC_ChunkHeader_read. same_io. Qed.

Lemma same_io_FrameHeader_read {U} : same_io (@ASE_FrameHeader_read U).
Proof. unfold ASE_FrameHeader_read. same_io. Qed.

Lemma same_io_Header_read {U} : same_io (@ASE_DOC_Header_read U).
Proof. unfold ASE_DOC_Header_read, ASE_DOC_Header_fields. same_io. Qed.

Lemma same_io_Palette_read_entry {U} R : same_io (@ASE_Palette_read_entry U R).
Proof. unfold ASE_Palette_read_entry. same_io. Qed.
#[export] Hint Resolve same_io_Palette_read_entry : same_io.

Lemma same_io_Palette_read_loop {U} n R : same_io (@ASE_Palette_read_loop U n R).
Proof. revert R. induction n; intros R; cbn [ASE_Palette_read_loop]; same_io. Qed.
#[export] Hint Resolve same_io_Palette_read_loop : same_io.

Lemma same_io_Palette_read {U} Prev : same_io (@ASE_Palette_read U Prev).
Proof. unfold ASE_Palette_read. same_io. Qed.

Lemma same_io_Layer_read {U} S prev lvl : same_io (@ASE_Layer_read U S prev lvl).
Proof. unfold ASE_Layer_read, ASE_LayerHeader_read. same_io. Qed.

Lemma same_io_read_raw_image {U} bpp Cel : same_io (@ASE_DOC_read_raw_image U bpp Cel).
Proof. unfold ASE_DOC_read_raw_image. same_io. Qed.

Lemma same_io_read_compressed {U} asserts bpp fuel Cel EndPos :
  same_io (@ASE_DOC_read_compressed asserts U bpp fuel Cel EndPos).
Proof. unfold ASE_DOC_read_compressed. same_io. Qed.
#[export] Hint Resolve same_io_read_raw_image same_io_read_compressed : same_io.

Lemma same_io_Cel_read_body {U} asserts fuel S Cel type EndPos :
  same_io (@ASE_Cel_read_body asserts U fuel S Cel type EndPos).
Proof.
  unfold ASE_Cel_read_body, ASE_DOC_read_raw_image_rgba,
    ASE_DOC_read_raw_image_grayscale, ASE_DOC_read_raw_image_indexed,
    ASE_DOC_read_compressed_rgba, ASE_DOC_read_compressed_grayscale,
    ASE_DOC_read_compressed_indexed.
  same_io.
Qed.
#[export] Hint Resolve same_io_Cel_read_body : same_io.

Lemma same_io_Cel_read {U} asserts fuel S i Frame EndPos :
  same_io (@ASE_Cel_read asserts U fuel S i Frame EndPos).
Proof. unfold ASE_Cel_read, ASE_Cel_read_header. same_io. Qed.

Lemma same_io_Tags_read_loop {U} n S : same_io (@ASE_Tags_read_loop U n S).
Proof.
  revert S. induction n; intros S; cbn [ASE_Tags_read_loop]; [same_io|].
  unfold ASE_Tags_read_tag. same_io.
Qed.
#[export] Hint Resolve same_io_Tags_read_loop : same_io.

Lemma same_io_Tags_read {U} S : same_io (@ASE_Tags_read U S).
Proof. unfold ASE_Tags_read. same_io. Qed.

Lemma same_io_decode_switch {U} asserts fuel i Frame start CH st :
  same_io (@ASE__decode_switch asserts U fuel i Frame start CH st).
Proof.
  unfold ASE__decode_switch.
  pose proof (@same_io_Palette_read U). pose proof (@same_io_Layer_read U).
  pose proof (@same_io_Cel_read U). pose proof (@same_io_Tags_read U).
  same_io.
Qed.

(** ** The chunk and frame walk *)

Lemma mem_seek_tell_law : seek_tell_law ASE__mem_callbacks.
Proof. intros u p Hp. cbn. unfold ASE__mem_tell. cbn. apply s32_id, Hp. Qed.

(** One chunk: whatever the builder did, the stream is left at the
    chunk's start plus its declared size. *)
Lemma ASE__decode_chunk_resync {U} asserts fuel i Frame st (F : ASE__ctx U) r F' :
  seek_tell_law (io F) ->
  ASE__decode_chunk asserts fuel i Frame st F = Ret (r, F') ->
  io F' = io F /\ fst (snd r) = tell_of F /\ tell_of F' = chunk_next (snd r).
Proof.
  unfold ASE__decode_chunk. intros Hlaw H.
  inv_bind H. inv_bind H. inv_bind H. inv_bind H. inv_ret H.
  unfold io_tell in Hm. injection Hm as <- <-.
  pose proof (same_io_Ret _ _ _ _ same_io_ChunkHeader_read Hm0) as E1.
  pose proof (same_io_Ret _ _ _ _ (same_io_decode_switch _ _ _ _ _ _ _) Hm1) as E2.
  unfold io_seek in Hm2. injection Hm2 as _ <-.
  cbn [io udata fst snd]. unfold tell_of, chunk_next. cbn [io udata fst snd].
  split; [congruence|]. split; [reflexivity|].
  rewrite E2, E1. apply Hlaw, s32_range.
Qed.

Lemma ASE__decode_chunks_chained {U} asserts fuel i Frame n st (F : ASE__ctx U) r F' :
  seek_tell_law (io F) ->
  ASE__decode_chunks asserts fuel i Frame n st F = Ret (r, F') ->
  io F' = io F /\ chained fst chunk_next (snd r) /\
  match snd r with [] => True | c :: _ => fst c = tell_of F end.
Proof.
  revert st F r. induction n as [|n IH]; intros st F r Hlaw H;
    cbn [ASE__decode_chunks] in H.
  - inv_ret H. cbn. repeat split. constructor.
  - inv_bind H. inv_bind H. inv_ret H. cbn [fst snd].
    apply ASE__decode_chunk_resync in Hm as (E & Hp & Hn); [|exact Hlaw].
    apply IH in Hm0 as (E' & Hc & Hh); [|rewrite E; exact Hlaw].
    split; [congruence|]. split; [|exact Hp].
    destruct (snd a0) as [|c l].
    + constructor.
    + constructor; [congruence|exact Hc].
Qed.

Lemma ASE__decode_frame_resync {U} asserts fuel i st (F : ASE__ctx U) r F' :
  seek_tell_law (io F) ->
  ASE__decode_frame asserts fuel i st F = Ret (r, F') ->
  io F' = io F /\ frame_pos (snd r) = tell_of F /\ tell_of F' = frame_next (snd r) /\
  chained fst chunk_next (snd (snd r)).
Proof.
  unfold ASE__decode_frame. intros Hlaw H.
  do 5 inv_bind H. inv_ret H.
  unfold io_tell in Hm. injection Hm as <- <-.
  pose proof (same_io_Ret _ _ _ _ same_io_FrameHeader_read Hm0) as E1.
  pose proof (same_io_Ret _ _ _ _ (same_io_c_assert _ _) Hm1) as E2.
  apply ASE__decode_chunks_chained in Hm2 as (E3 & Hc & _);
    [|rewrite E2, E1; exact Hlaw].
  unfold io_seek in Hm3. injection Hm3 as _ <-.
  unfold tell_of, frame_pos, frame_next. cbn [io udata fst snd].
  split; [congruence|]. split; [reflexivity|]. split; [|exact Hc].
  rewrite E3, E2, E1. apply Hlaw, s32_range.
Qed.

Lemma ASE__decode_frames_chained {U} asserts fuel n i st (F : ASE__ctx U) r F' :
  seek_tell_law (io F) ->
  ASE__decode_frames asserts fuel i n st F = Ret (r, F') ->
  chained frame_pos frame_next (snd r) /\
  Forall (fun f => chained fst chunk_next (snd f)) (snd r) /\
  match snd r with [] => True | f :: _ => frame_pos f = tell_of F end.
Proof.
  revert i st F r. induction n as [|n IH]; intros i st F r Hlaw H;
    cbn [ASE__decode_frames] in H.
  - inv_ret H. cbn. repeat split; constructor.
  - inv_bind H. inv_bind H. inv_ret H. cbn [fst snd].
    apply ASE__decode_frame_resync in Hm as (E & Hp & Hn & Hc); [|exact Hlaw].
    apply IH in Hm0 as (Hf & Hall & Hh); [|rewrite E; exact Hlaw].
    split; [|split; [constructor; assumption|exact Hp]].
    destruct (snd a0) as [|f l].
    + constructor.
    + constructor; [congruence|exact Hf].
Qed.

(** C7, as the code has it.  With callbacks whose [tell] gives back the
    position last sought, in every decode that returns each chunk header
    of a frame after the first is read at the preceding chunk's start plus
    its declared size, and each frame header after the first at the
    preceding frame's start plus its declared size, the sums being taken
    as the [int] that [seek] receives: they are the plain sums whenever
    those do not exceed [INT_MAX]. *)
Theorem C7_walk_resyncs_modulo_int {U} asserts fuel S (F : ASE__ctx U) r :
  seek_tell_law (io F) ->
  run (ASE__decode_main asserts fuel S) F = Ret r ->
  chained frame_pos frame_next (snd r) /\
  Forall (fun f => chained fst chunk_next (snd f)) (snd r) /\
  (forall c, INT_MIN <= fst c + ch_size (snd c) <= INT_MAX ->
             chunk_next c = fst c + ch_size (snd c)) /\
  (forall f, INT_MIN <= frame_pos f + fh_size (snd (fst f)) <= INT_MAX ->
             frame_next f = frame_pos f + fh_size (snd (fst f))).
Proof.
  intros Hlaw H. apply run_Ret in H as [F' H].
  unfold ASE__decode_main in H. inv_bind H. destruct a as [Ok_ Header].
  inv_bind H. inv_bind H. inv_ret H. cbn [snd].
  pose proof (same_io_Ret _ _ _ _ same_io_Header_read Hm) as E1.
  pose proof (same_io_Ret _ _ _ _ (same_io_c_assert _ _) Hm0) as E2.
  apply ASE__decode_frames_chained in Hm1 as (Hf & Hall & _);
    [|rewrite E2, E1; exact Hlaw].
  split; [exact Hf|]. split; [exact Hall|].
  split; intros x Hx; [unfold chunk_next|unfold frame_next, frame_pos in *];
    apply s32_id, Hx.
Qed.

(** ** A compressed cel that fails to inflate *)

Lemma ASE_Cel_read_body_compressed {U} asserts fuel S Cel EndPos (F : ASE__ctx U) :
  depth S = ASE_DEPTH_RGBA \/ depth S = ASE_DEPTH_GRAYSCALE \/ depth S = ASE_DEPTH_INDEXED ->
  forall w h F1 F2, ASE__read16 F = Ret (w, F1) -> ASE__read16 F1 = Ret (h, F2) ->
  0 < w -> 0 < h ->
  ASE_Cel_read_body asserts fuel S Cel ASE_FILE_COMPRESSED_CEL EndPos F =
  ASE_DOC_read_compressed asserts (bytes_per_pixel (depth S)) fuel
    (mkCel (cel_layer Cel) (cel_x Cel) (cel_y Cel) (s16 w) (s16 h)
           (cel_opacity Cel) (cel_data Cel) (is_linked Cel) (cel_frame Cel))
    EndPos F2.
Proof.
  intros Hd w h F1 F2 Hw Hh Hw0 Hh0. unfold ASE_Cel_read_body.
  change (ASE_FILE_COMPRESSED_CEL =? ASE_FILE_RAW_CEL) with false.
  change (ASE_FILE_COMPRESSED_CEL =? ASE_FILE_LINK_CEL) with false.
  change (ASE_FILE_COMPRESSED_CEL =? ASE_FILE_COMPRESSED_CEL) with true.
  cbv iota.
  rewrite (bind_eq_Ret _ _ _ _ _ Hw), (bind_eq_Ret _ _ _ _ _ Hh).
  assert (E : (w >? 0) && (h >? 0) = true).
  { apply andb_true_intro. split; apply Z.gtb_lt; assumption. }
  rewrite E. unfold bytes_per_pixel.
  destruct Hd as [-> | [-> | ->]]; reflexivity.
Qed.

Lemma ASE_DOC_read_compressed_failure {U} asserts bpp fuel Cel EndPos (F : ASE__ctx U)
    ibuffer F' obuffer :
  0 <= s32 (EndPos - tell_of F) <= INT_MAX - 16 ->
  0 <= cel_w Cel * cel_h Cel * bpp <= INT_MAX ->
  ASE__read8s (Z.to_nat (s32 (EndPos - tell_of F))) F = Ret (ibuffer, F') ->
  stbi_zlib_decode_buffer asserts fuel (cel_w Cel * cel_h Cel * bpp) ibuffer
    = Ret (-1, obuffer) ->
  ASE_DOC_read_compressed asserts bpp fuel Cel EndPos F = Ret (Cel, F').
Proof.
  intros Hi Ho Hr Hz. unfold ASE_DOC_read_compressed.
  unfold bind at 1. unfold io_tell. fold (tell_of F).
  replace (s32 (EndPos - tell_of F) + 16 <? 0) with false
    by (symmetry; apply Z.ltb_ge; lia).
  replace (s32 (EndPos - tell_of F) + 16 >? INT_MAX) with false
    by (symmetry; rewrite Z.gtb_ltb; apply Z.ltb_ge; lia).
  cbn [orb].
  rewrite (bind_eq_Ret _ _ _ _ _ Hr).
  rewrite s32_id by (unfold INT_MIN, INT_MAX in *; lia).
  replace (cel_w Cel * cel_h Cel * bpp <? 0) with false
    by (symmetry; apply Z.ltb_ge; lia).
  unfold bind. rewrite Hz. reflexivity.
Qed.

(** The chunk round on such a cel, context by context. *)
Lemma ASE__decode_chunk_failed_inflate {U} asserts fuel i Frame st (F : ASE__ctx U)
    CH F1 layer x y opacity F2 w F3 h F4 L f ibuffer F5 obuffer :
  let S := ds_sprite st in
  ASE_DOC_ChunkHeader_read F = Ret (CH, F1) ->
  ch_type CH = ASE_FILE_CHUNK_CEL ->
  ASE_Cel_read_header F1 = Ret ((layer, x, y, opacity, ASE_FILE_COMPRESSED_CEL), F2) ->
  0 <= layer < nlayers S ->
  layers S !! Z.to_nat layer = Some L ->
  layer_type L = ASE_FILE_LAYER_IMAGE ->
  frames S !! Frame = Some f ->
  depth S = ASE_DEPTH_RGBA \/ depth S = ASE_DEPTH_GRAYSCALE \/ depth S = ASE_DEPTH_INDEXED ->
  ASE__read16 F2 = Ret (w, F3) ->
  ASE__read16 F3 = Ret (h, F4) ->
  0 < w -> 0 < h ->
  0 <= s32 (tell_of F + ch_size CH - tell_of F4) <= INT_MAX - 16 ->
  0 <= s16 w * s16 h * bytes_per_pixel (depth S) <= INT_MAX ->
  ASE__read8s (Z.to_nat (s32 (tell_of F + ch_size CH - tell_of F4))) F4
    = Ret (ibuffer, F5) ->
  stbi_zlib_decode_buffer asserts fuel
    (s16 w * s16 h * bytes_per_pixel (depth S)) ibuffer = Ret (-1, obuffer) ->
  ASE__decode_chunk asserts fuel i Frame st F =
    Ret ((mkDecode
            (set_frames S
               (<[Frame := mkFrame (duration f)
                             (cels f ++ [mkCel layer x y (s16 w) (s16 h) opacity None 0 0])]>
                  (frames S)))
            (ds_LastLayer st) (ds_CurrentLevel st) (ds_IgnoreOldColorChunks st),
          (tell_of F, CH)),
         mkCtx (io F5) (cb_seek (io F5) (udata F5) (s32 (tell_of F + ch_size CH)))).
Proof.
  intros S HCH Hty Hhd Hlr HL HLt Hf Hd Hw Hh Hw0 Hh0 Hi Ho Hrd Hz.
  unfold ASE__decode_chunk.
  unfold bind at 1. unfold io_tell. fold (tell_of F).
  rewrite (bind_eq_Ret _ _ _ _ _ HCH).
  assert (Hsw : ASE__decode_switch asserts fuel i Frame (tell_of F) CH st F1 =
    Ret (mkDecode
           (set_frames S
              (<[Frame := mkFrame (duration f)
                            (cels f ++ [mkCel layer x y (s16 w) (s16 h) opacity None 0 0])]>
                 (frames S)))
           (ds_LastLayer st) (ds_CurrentLevel st) (ds_IgnoreOldColorChunks st), F5)).
  { unfold ASE__decode_switch. rewrite Hty.
    change (ASE_FILE_CHUNK_CEL =? ASE_FILE_CHUNK_PALETTE) with false.
    change (ASE_FILE_CHUNK_CEL =? ASE_FILE_CHUNK_LAYER) with false.
    change (ASE_FILE_CHUNK_CEL =? ASE_FILE_CHUNK_CEL) with true.
    cbv iota. fold S.
    assert (Hcel : ASE_Cel_read asserts fuel S i Frame (tell_of F + ch_size CH) F1 =
      Ret ((Some (length (cels f)),
            set_frames S
              (<[Frame := mkFrame (duration f)
                            (cels f ++ [mkCel layer x y (s16 w) (s16 h) opacity None 0 0])]>
                 (frames S))), F5)).
    { unfold ASE_Cel_read. rewrite (bind_eq_Ret _ _ _ _ _ Hhd).
      assert (Hin : (layer >=? 0) && (layer <? nlayers S) = true).
      { apply andb_true_intro. split; [apply Z.geb_le|apply Z.ltb_lt]; lia. }
      rewrite Hin, HL, HLt.
      change (negb (ASE_FILE_LAYER_IMAGE =? ASE_FILE_LAYER_IMAGE)) with false.
      cbv iota. rewrite Hf.
      erewrite bind_eq_Ret.
      2:{ erewrite ASE_Cel_read_body_compressed by
            (try eassumption; cbn [ASE_DOC_AddCel set_frames depth]; exact Hd).
          cbn [ASE_DOC_AddCel set_frames depth].
          eapply ASE_DOC_read_compressed_failure; cbn [cel_w cel_h]; eassumption. }
      unfold ret. do 3 f_equal.
      unfold set_last_cel, ASE_DOC_AddCel, set_frames.
      cbn [frames width height depth palette layers tags]. f_equal.
      rewrite list_alter_alter_eq, list_insert_alter.
      apply list_alter_ext; [|reflexivity].
      intros f' Hf'. rewrite Hf in Hf'. injection Hf' as <-.
      unfold compose. cbn [cels duration]. f_equal.
      rewrite length_app. cbn [length]. rewrite Nat.add_1_r. cbn [pred].
      rewrite insert_app_r_alt by lia. rewrite Nat.sub_diag. reflexivity. }
    rewrite (bind_eq_Ret _ _ _ _ _ Hcel). reflexivity. }
  rewrite (bind_eq_Ret _ _ _ _ _ Hsw).
  reflexivity.
Qed.



(** C7 on [C7_document], read from memory: the decode returns the log
    [C7_log], whose frames and chunks are chained. *)
Lemma C7_walk_resyncs_witness :
  exists S,
    run (ASE__decode_main true 0 zero_sprite) (ASE__start_mem C7_document)
      = Ret (true, S, C7_log) /\
    chained frame_pos frame_next C7_log /\
    Forall (fun f => chained fst chunk_next (snd f)) C7_log.
Proof.
  eexists. split; [vm_compute; reflexivity|].
  destruct (C7_walk_resyncs_modulo_int true 0%nat zero_sprite
              (ASE__start_mem C7_document) _ mem_seek_tell_law
              ltac:(vm_compute; reflexivity)) as (H1 & H2 & _).
  split; [exact H1|exact H2].
Defined.

(** The claim with the plain sum, start plus declared size, fails on the
    memory interface. *)
Lemma C7_counterexample :
  ~ (forall asserts fuel S buffer r,
       run (ASE__decode_main asserts fuel S) (ASE__start_mem buffer) = Ret r ->
       Forall (fun f => chained fst (fun c => fst c + ch_size (snd c)) (snd f)) (snd r)).
Proof.
  intros H.
  epose proof (H true 0%nat zero_sprite C7_wrapping_document _
                 ltac:(vm_compute; reflexivity)) as H'.
  cbn [snd] in H'.
  inversion H' as [|f l Hc _]. subst.
  inversion Hc as [| |a b l' Heq _]. subst.
  vm_compute in Heq. discriminate Heq.
Qed.

(** ** A document with a bad magic number *)

(** [ASE__decode_main] returns its local [R], which is set to 1 and never
    changed: no load returns a failure. *)
Lemma ASE_load_from_memory_never_fails asserts fuel buffer out r S :
  ASE_load_from_memory asserts fuel buffer out = Ret (r, S) -> r = true.
Proof.
  unfold ASE_load_from_memory.
  destruct (ASE__decode_main _ _ _ _) as [[res F']| | |] eqn:E; try discriminate.
  intros [= <- <-].
  unfold ASE__decode_main in E. inv_bind E. destruct a as [Ok_ Header].
  inv_bind E. inv_bind E. inv_ret E. reflexivity.
Qed.

(** With assertions compiled in, a header whose magic number is not
    [0xA5E0] ends the process in [abort()]. *)
Lemma ASE__decode_main_bad_magic_aborts {U} fuel S (F : ASE__ctx U) O :
  run ASE_DOC_Header_fields F = Ret O ->
  hdr_magic O <> ASE_FILE_MAGIC ->
  ASE__decode_main true fuel S F = Abort.
Proof.
  intros Hf Hm. apply run_Ret in Hf as [F1 Hf].
  unfold ASE__decode_main, ASE_DOC_Header_read.
  unfold bind at 1. unfold bind at 1. unfold io_tell.
  rewrite (bind_eq_Ret _ _ _ _ _ Hf).
  unfold ASE_DOC_Header_check.
  destruct (Z.eqb_spec (hdr_magic O) ASE_FILE_MAGIC) as [E|_]; [contradiction|].
  reflexivity.
Qed.

(** C3. On [C3_document] the load reports nothing to its caller: with
    assertions compiled in the process aborts inside the call, and with
    [NDEBUG] the walk goes on past the rejected header, builds the frame
    the header announces (from the zero bytes that follow the header
    fields) and returns 1. *)
Theorem C3_bad_magic_not_reported :
  ASE_load_from_memory true 0 C3_document zero_sprite = Abort /\
  ASE_load_from_memory false 0 C3_document zero_sprite
    = Ret (true, mkSprite 1 1 32 zero_palette [] [mkFrame 0 []] []).
Proof. split; vm_compute; reflexivity. Qed.

(** ** The zlib decoder against the format *)

(** *** Bits of the stream *)

Lemma zstream_nonneg inp : 0 <= zstream inp.
Proof.
  induction inp as [|b r IH]; cbn [zstream fold_right]; [lia|].
  fold (zstream r). pose proof (u8_range b). lia.
Qed.

Lemma zstream_cons b r : zstream (b :: r) = u8 b + 256 * zstream r.
Proof. reflexivity. Qed.

Lemma zstream_cons_mod b r : (zstream (b :: r)) mod 256 = u8 b.
Proof.
  rewrite zstream_cons, Z.mul_comm, Z.mod_add by lia.
  unfold u8. change (2 ^ 8) with 256. apply Z.mod_mod. lia.
Qed.

Lemma zstream_cons_shiftr b r : Z.shiftr (zstream (b :: r)) 8 = zstream r.
Proof.
  rewrite zstream_cons, Z.shiftr_div_pow2 by lia. change (2 ^ 8) with 256.
  pose proof (u8_range b).
  rewrite Z.mul_comm, Z.div_add by lia.
  rewrite (Z.div_small (u8 b)) by lia. lia.
Qed.

Lemma zstream_drop (k : nat) inp :
  zstream (drop k inp) = Z.shiftr (zstream inp) (8 * Z.of_nat k).
Proof.
  revert inp. induction k as [|k IH]; intros inp.
  - rewrite drop_0. cbn. rewrite Z.shiftr_0_r. reflexivity.
  - destruct inp as [|b r].
    + cbn [drop zstream fold_right]. rewrite Z.shiftr_0_l. reflexivity.
    + cbn [drop]. rewrite IH. rewrite <- (zstream_cons_shiftr b r).
      rewrite Z.shiftr_shiftr by lia. f_equal. lia.
Qed.

Lemma bits_lsb_mod N p n : 0 <= n -> bits_lsb N p n = (Z.shiftr N p) mod 2 ^ n.
Proof. intros Hn. unfold bits_lsb. apply Z.land_ones. exact Hn. Qed.

Lemma bits_lsb_range N p n : 0 <= n -> 0 <= bits_lsb N p n < 2 ^ n.
Proof.
  intros Hn. rewrite bits_lsb_mod by exact Hn. apply Z.mod_pos_bound.
  apply Z.pow_pos_nonneg; lia.
Qed.

Lemma bits_lsb_0 N p : bits_lsb N p 0 = 0.
Proof. unfold bits_lsb. cbn. apply Z.land_0_r. Qed.

Lemma testbit_bits_lsb N p n i :
  0 <= i -> 0 <= n ->
  Z.testbit (bits_lsb N p n) i = Z.testbit N (p + i) && (i <? n).
Proof.
  intros Hi Hn. unfold bits_lsb. rewrite Z.land_spec, Z.shiftr_spec by lia.
  rewrite Z.add_comm. f_equal.
  destruct (Z.ltb_spec i n).
  - apply Z.ones_spec_low. lia.
  - apply Z.ones_spec_high. lia.
Qed.

(** [n] bits and then [m] more. *)
Lemma bits_lsb_split N p n m :
  0 <= p -> 0 <= n -> 0 <= m ->
  bits_lsb N p (n + m) = Z.lor (bits_lsb N p n) (Z.shiftl (bits_lsb N (p + n) m) n).
Proof.
  intros Hp Hn Hm. apply Z.bits_inj'. intros i Hi.
  rewrite Z.lor_spec, !testbit_bits_lsb by lia.
  destruct (Z.ltb_spec i n).
  - rewrite Z.shiftl_spec_low by lia. rewrite orb_false_r.
    replace (i <? n + m) with true by (symmetry; apply Z.ltb_lt; lia).
    reflexivity.
  - rewrite Z.shiftl_spec_high by lia. rewrite testbit_bits_lsb by lia.
    rewrite andb_false_r. cbn [orb].
    replace (p + n + (i - n)) with (p + i) by lia.
    f_equal. destruct (Z.ltb_spec i (n + m)), (Z.ltb_spec (i - n) m); try reflexivity; lia.
Qed.

Lemma bits_lsb_low N p n m :
  0 <= n <= m -> Z.land (bits_lsb N p m) (Z.ones n) = bits_lsb N p n.
Proof.
  intros H. apply Z.bits_inj'. intros i Hi.
  rewrite Z.land_spec, !testbit_bits_lsb by lia.
  destruct (Z.ltb_spec i n).
  - rewrite Z.ones_spec_low by lia.
    replace (i <? m) with true by (symmetry; apply Z.ltb_lt; lia).
    rewrite !andb_true_r. reflexivity.
  - rewrite Z.ones_spec_high by lia. rewrite !andb_false_r. reflexivity.
Qed.

Lemma bits_lsb_shiftr N p n m :
  0 <= p -> 0 <= n <= m -> Z.shiftr (bits_lsb N p m) n = bits_lsb N (p + n) (m - n).
Proof.
  intros Hp H. apply Z.bits_inj'. intros i Hi.
  rewrite Z.shiftr_spec, !testbit_bits_lsb by lia.
  replace (p + (i + n)) with (p + n + i) by lia. f_equal.
  destruct (Z.ltb_spec (i + n) m), (Z.ltb_spec i (m - n)); try reflexivity; lia.
Qed.

Lemma ones_shiftl n : 0 <= n -> Z.shiftl 1 n - 1 = Z.ones n.
Proof. intros Hn. rewrite Z.ones_equiv, Z.shiftl_1_l. lia. Qed.

(** *** The bit buffer *)

Lemma stbi__zget8_spec inp (k : nat) nb cb out lim ex zl zd :
  stbi__zget8 (mkZbuf (drop k inp) nb cb out lim ex zl zd)
  = Ret (bits_lsb (zstream inp) (8 * Z.of_nat k) 8,
         mkZbuf (drop (S k) inp) nb cb out lim ex zl zd).
Proof.
  unfold stbi__zget8. cbn [zbuffer].
  rewrite bits_lsb_mod by lia. rewrite <- zstream_drop.
  destruct (drop k inp) as [|b r] eqn:E.
  - assert (E' : drop (S k) inp = []).
    { apply drop_ge. apply (f_equal length) in E. rewrite length_drop in E.
      cbn in E. lia. }
    rewrite E'. reflexivity.
  - assert (E' : drop (S k) inp = r).
    { apply (f_equal (drop 1)) in E. rewrite drop_drop in E.
      replace (S k) with (k + 1)%nat by lia. exact E. }
    rewrite E'. change (2 ^ 8) with 256. rewrite zstream_cons_mod. reflexivity.
Qed.

Lemma fill_bits_loop_spec asserts inp p out lim ex zl zd (n : nat) :
  forall zb nb cb,
  zin_at inp p zb nb cb -> nb <= 24 -> 24 - nb < 8 * Z.of_nat n ->
  exists zb' nb' cb',
    stbi__fill_bits_loop asserts n (mkZbuf zb nb cb out lim ex zl zd)
    = Ret (tt, mkZbuf zb' nb' cb' out lim ex zl zd) /\
    zin_at inp p zb' nb' cb' /\ 25 <= nb'.
Proof.
  induction n as [|n IH]; intros zb nb cb (Hp & Hnb & Hcb & k & Hzb & Hk) H24 Hn; [lia|].
  cbn [stbi__fill_bits_loop]. unfold bind at 1. unfold get. cbn [num_bits code_buffer].
  destruct (Z.ltb_spec nb 0) as [|_]; [lia|].
  assert (Hlt : (cb <? Z.shiftl 1 nb) = true).
  { rewrite Z.shiftl_1_l. apply Z.ltb_lt. rewrite Hcb. apply bits_lsb_range. lia. }
  rewrite Hlt. unfold c_assert. rewrite andb_false_r.
  unfold bind at 1. unfold ret at 1.
  unfold bind at 1. rewrite Hzb, stbi__zget8_spec.
  unfold bind at 1. unfold get.
  unfold bind at 1. unfold put. cbn [set_bits num_bits code_buffer zbuffer zout zout_limit
    z_expandable z_length z_distance].
  set (b := bits_lsb (zstream inp) (8 * Z.of_nat k) 8).
  assert (Hcb' : u32 (Z.lor cb (Z.shiftl b nb)) = bits_lsb (zstream inp) p (nb + 8)).
  { rewrite bits_lsb_split by lia. unfold b. rewrite Hk, <- Hcb.
    unfold u32. apply Z.mod_small.
    rewrite Hcb. replace (8 * Z.of_nat k) with (p + nb) by lia.
    rewrite <- bits_lsb_split by lia.
    pose proof (bits_lsb_range (zstream inp) p (nb + 8) ltac:(lia)).
    assert (2 ^ (nb + 8) <= 2 ^ 32) by (apply Z.pow_le_mono_r; lia). lia. }
  rewrite Hcb'.
  assert (Hin' : zin_at inp p (drop (S k) inp) (nb + 8) (bits_lsb (zstream inp) p (nb + 8))).
  { split; [exact Hp|]. split; [lia|]. split; [reflexivity|].
    exists (S k). split; [reflexivity|lia]. }
  destruct (Z.leb_spec (nb + 8) 24).
  - apply IH; [exact Hin'|lia|lia].
  - do 3 eexists. split; [reflexivity|]. split; [exact Hin'|lia].
Qed.

Lemma stbi__fill_bits_spec asserts inp p zb nb cb out lim ex zl zd :
  zin_at inp p zb nb cb -> nb <= 24 ->
  exists zb' nb' cb',
    stbi__fill_bits asserts (mkZbuf zb nb cb out lim ex zl zd)
    = Ret (tt, mkZbuf zb' nb' cb' out lim ex zl zd) /\
    zin_at inp p zb' nb' cb' /\ 25 <= nb'.
Proof.
  intros Hin H24. apply fill_bits_loop_spec; [exact Hin|exact H24|].
  destruct Hin as (_ & ? & _). lia.
Qed.

(** [stbi__zreceive(a, n)] gives the next [n] bits and moves on by [n]. *)
Lemma stbi__zreceive_spec asserts inp p zb nb cb out lim ex zl zd n :
  zin_at inp p zb nb cb -> 0 <= n <= 24 ->
  exists zb' nb' cb',
    stbi__zreceive asserts n (mkZbuf zb nb cb out lim ex zl zd)
    = Ret (bits_lsb (zstream inp) p n, mkZbuf zb' nb' cb' out lim ex zl zd) /\
    zin_at inp (p + n) zb' nb' cb'.
Proof.
  intros Hin Hn. unfold stbi__zreceive.
  unfold bind at 1. unfold get. cbn [num_bits].
  assert (Hfill : exists zb1 nb1 cb1,
    (if nb <? n then stbi__fill_bits asserts else ret tt)
      (mkZbuf zb nb cb out lim ex zl zd)
    = Ret (tt, mkZbuf zb1 nb1 cb1 out lim ex zl zd) /\
    zin_at inp p zb1 nb1 cb1 /\ n <= nb1).
  { destruct (Z.ltb_spec nb n).
    - destruct (stbi__fill_bits_spec asserts inp p zb nb cb out lim ex zl zd Hin)
        as (zb1 & nb1 & cb1 & E & Hin1 & H25); [lia|].
      exists zb1, nb1, cb1. split; [exact E|]. split; [exact Hin1|lia].
    - exists zb, nb, cb. split; [reflexivity|]. split; [exact Hin|lia]. }
  destruct Hfill as (zb1 & nb1 & cb1 & E & (Hp & Hnb & Hcb & k & Hzb & Hk) & Hle).
  unfold bind at 1. rewrite E.
  unfold bind at 1. unfold get.
  unfold bind at 1. unfold put, ret.
  cbn [set_bits num_bits code_buffer zbuffer zout zout_limit z_expandable z_length z_distance].
  exists zb1, (nb1 - n), (Z.shiftr cb1 n).
  rewrite ones_shiftl by lia. rewrite Hcb, bits_lsb_low by lia.
  split; [reflexivity|].
  split; [lia|]. split; [lia|]. split.
  - apply bits_lsb_shiftr; lia.
  - exists k. split; [exact Hzb|lia].
Qed.

(** *** Bit reversal *)

Lemma rev_stage_spec k A B n i :
  0 <= i -> 0 <= k ->
  Z.testbit (rev_stage k A B n) i =
  (Z.testbit n (i + k) && Z.testbit A (i + k))
  || (if i <? k then false else Z.testbit n (i - k) && Z.testbit B (i - k)).
Proof.
  intros Hi Hk. unfold rev_stage.
  rewrite Z.lor_spec, Z.shiftr_spec, Z.land_spec by lia. f_equal.
  destruct (Z.ltb_spec i k).
  - apply Z.shiftl_spec_low. lia.
  - rewrite Z.shiftl_spec_high, Z.land_spec by lia. reflexivity.
Qed.

Lemma stbi__bitreverse16_stages n :
  stbi__bitreverse16 n =
  rev_stage 8 0xFF00 0x00FF (rev_stage 4 0xF0F0 0x0F0F
    (rev_stage 2 0xCCCC 0x3333 (rev_stage 1 0xAAAA 0x5555 n))).
Proof. reflexivity. Qed.

Ltac cases16 i H :=
  assert (H : i = 0 \/ i = 1 \/ i = 2 \/ i = 3 \/ i = 4 \/ i = 5 \/ i = 6 \/ i = 7 \/
              i = 8 \/ i = 9 \/ i = 10 \/ i = 11 \/ i = 12 \/ i = 13 \/ i = 14 \/ i = 15)
    by lia;
  repeat (destruct H as [H|H]); subst i.

Lemma testbit_stbi__bitreverse16 n i :
  0 <= i < 16 -> Z.testbit (stbi__bitreverse16 n) i = Z.testbit n (15 - i).
Proof.
  intros Hi. rewrite stbi__bitreverse16_stages.
  cases16 i H;
    repeat (rewrite rev_stage_spec by lia;
            cbn [Z.add Z.sub Z.opp Z.pos_sub Pos.add Pos.succ Z.ltb Z.compare Pos.compare
                 Pos.compare_cont Z.testbit Pos.testbit Z.to_N Pos.pred_N Pos.pred_double
                 andb orb Z.succ_double Z.pred_double Z.double Pos.add_carry]);
    rewrite ?andb_true_r, ?andb_false_r, ?orb_false_r, ?orb_false_l; reflexivity.
Qed.

Lemma testbit_stbi__bitreverse16_high n i :
  16 <= i -> Z.testbit (stbi__bitreverse16 n) i = false.
Proof.
  intros Hi. unfold stbi__bitreverse16.
  rewrite Z.lor_spec, Z.shiftr_spec, Z.shiftl_spec, !Z.land_spec by lia.
  replace (Z.testbit 65280 (i + 8)) with false.
  2:{ symmetry. apply (Z.bits_above_log2 65280); [lia|]. change (Z.log2 65280) with 15. lia. }
  replace (Z.testbit 255 (i - 8)) with false.
  2:{ symmetry. apply (Z.bits_above_log2 255); [lia|]. change (Z.log2 255) with 7. lia. }
  rewrite !andb_false_r. reflexivity.
Qed.

Lemma stbi__bitreverse16_range n : 0 <= stbi__bitreverse16 n < 2 ^ 16.
Proof.
  assert (Hnn : 0 <= stbi__bitreverse16 n).
  { apply Z.bits_iff_nonneg_ex. exists 16. intros m Hm.
    apply testbit_stbi__bitreverse16_high. lia. }
  split; [exact Hnn|].
  destruct (Z.eq_dec (stbi__bitreverse16 n) 0) as [->|Hne]; [lia|].
  apply Z.log2_lt_pow2; [lia|].
  destruct (Z.lt_ge_cases (Z.log2 (stbi__bitreverse16 n)) 16) as [|Hge]; [assumption|].
  pose proof (Z.bit_log2 (stbi__bitreverse16 n) ltac:(lia)) as Hb.
  rewrite testbit_stbi__bitreverse16_high in Hb by lia. discriminate.
Qed.

(** [stbi__bit_reverse(v, bits)] holds the low [bits] bits of [v] in the
    opposite order. *)
Lemma testbit_stbi__bit_reverse v bits i :
  0 <= bits <= 16 -> 0 <= i ->
  Z.testbit (stbi__bit_reverse v bits) i =
  if i <? bits then Z.testbit v (bits - 1 - i) else false.
Proof.
  intros Hb Hi. unfold stbi__bit_reverse. rewrite Z.shiftr_spec by lia.
  destruct (Z.ltb_spec i bits).
  - rewrite testbit_stbi__bitreverse16 by lia. f_equal. lia.
  - apply testbit_stbi__bitreverse16_high. lia.
Qed.

(** *** Canonical codes *)

Lemma first_code_S ls b : first_code ls (S b) = 2 * (first_code ls b + cnt ls b).
Proof. reflexivity. Qed.

Lemma count_len_nonneg ls b : 0 <= count_len ls b.
Proof.
  induction ls as [|l r IH]; cbn [count_len]; [lia|].
  destruct (l =? b); lia.
Qed.

Lemma count_len_app a c b : count_len (a ++ c) b = count_len a b + count_len c b.
Proof.
  induction a as [|l r IH]; cbn [count_len app]; [lia|]. rewrite IH. lia.
Qed.

Lemma count_len_le_length ls b : count_len ls b <= Z.of_nat (length ls).
Proof.
  induction ls as [|l r IH]; cbn [count_len length]; [lia|].
  destruct (l =? b); lia.
Qed.

Lemma cnt_nonneg ls b : 0 <= cnt ls b.
Proof. destruct b; cbn [cnt]; [lia|apply count_len_nonneg]. Qed.

Lemma nth_lookup_Z (ls : list Z) j : (j < length ls)%nat -> ls !! j = Some (nth j ls 0).
Proof.
  intros H. destruct (nth_lookup_or_length ls j 0) as [E|E]; [exact E|lia].
Qed.

Lemma count_len_take_S ls j b :
  (j < length ls)%nat ->
  count_len (take (S j) ls) b
  = count_len (take j ls) b + (if nth j ls 0 =? b then 1 else 0).
Proof.
  intros H. rewrite (take_S_r ls j (nth j ls 0)) by (apply nth_lookup_Z; exact H).
  rewrite count_len_app. cbn [count_len]. lia.
Qed.

Lemma count_len_take_le ls j b : count_len (take j ls) b <= count_len ls b.
Proof.
  rewrite <- (take_drop j ls) at 2. rewrite count_len_app.
  pose proof (count_len_nonneg (drop j ls) b). lia.
Qed.

Lemma count_len_take_mono ls j j' b :
  (j <= j')%nat -> count_len (take j ls) b <= count_len (take j' ls) b.
Proof.
  intros H. replace (take j ls) with (take j (take j' ls)).
  - apply count_len_take_le.
  - rewrite take_take. f_equal. lia.
Qed.

(** A symbol comes before the end of the symbols of its length ... *)
Lemma rank_lt ls j :
  (j < length ls)%nat ->
  count_len (take j ls) (nth j ls 0) < count_len ls (nth j ls 0).
Proof.
  intros H. pose proof (count_len_take_S ls j (nth j ls 0) H) as E.
  rewrite Z.eqb_refl in E.
  pose proof (count_len_take_le ls (S j) (nth j ls 0)). lia.
Qed.

(** ... and before the later symbols of its length. *)
Lemma rank_mono ls j j' :
  (j < j')%nat -> (j' < length ls)%nat -> nth j ls 0 = nth j' ls 0 ->
  count_len (take j ls) (nth j ls 0) < count_len (take j' ls) (nth j' ls 0).
Proof.
  intros Hlt Hj' E. rewrite <- E.
  pose proof (count_len_take_S ls j (nth j ls 0) ltac:(lia)) as E1.
  rewrite Z.eqb_refl in E1.
  pose proof (count_len_take_mono ls (S j) j' (nth j ls 0) ltac:(lia)). lia.
Qed.

Lemma rank_inj ls j j' :
  (j < length ls)%nat -> (j' < length ls)%nat ->
  nth j ls 0 = nth j' ls 0 ->
  count_len (take j ls) (nth j ls 0) = count_len (take j' ls) (nth j' ls 0) ->
  j = j'.
Proof.
  intros Hj Hj' El Er.
  destruct (Nat.lt_trichotomy j j') as [H|[H|H]]; [|exact H|].
  - pose proof (rank_mono ls j j' H Hj' El). lia.
  - pose proof (rank_mono ls j' j H Hj (eq_sym El)). lia.
Qed.

Lemma first_code_nonneg ls b : 0 <= first_code ls b.
Proof.
  induction b as [|b IH]; [cbn; lia|]. rewrite first_code_S.
  pose proof (cnt_nonneg ls b). lia.
Qed.

Lemma first_symbol_nonneg ls b : 0 <= first_symbol ls b.
Proof.
  induction b as [|b IH]; cbn [first_symbol]; [lia|].
  pose proof (cnt_nonneg ls b). lia.
Qed.

(** The codes of a length come after every extension of a shorter code. *)
Lemma first_code_grows ls s s' :
  (s < s')%nat ->
  2 ^ Z.of_nat (s' - s) * (first_code ls s + cnt ls s) <= first_code ls s'.
Proof.
  intros H. induction s' as [|t IH]; [lia|].
  rewrite first_code_S.
  destruct (Nat.eq_dec s t) as [->|Hne].
  - replace (S t - t)%nat with 1%nat by lia. change (2 ^ Z.of_nat 1) with 2. lia.
  - specialize (IH ltac:(lia)).
    replace (Z.of_nat (S t - s)) with (Z.of_nat (t - s) + 1) by lia.
    rewrite Z.pow_add_r, Z.pow_1_r by lia.
    pose proof (cnt_nonneg ls t). lia.
Qed.

Lemma first_symbol_grows ls s s' :
  (s < s')%nat -> first_symbol ls s + cnt ls s <= first_symbol ls s'.
Proof.
  intros H. induction s' as [|t IH]; [lia|].
  cbn [first_symbol]. pose proof (cnt_nonneg ls t).
  destruct (Nat.eq_dec s t) as [->|Hne]; [lia|].
  specialize (IH ltac:(lia)). lia.
Qed.

Lemma first_symbol_cons l r b :
  first_symbol (l :: r) b <= first_symbol r b + 1 /\
  (first_symbol (l :: r) b = first_symbol r b \/ 0 < l < Z.of_nat b).
Proof.
  induction b as [|b [IH1 IH2]]; cbn [first_symbol]; [lia|].
  assert (Hc : cnt (l :: r) b = cnt r b \/
               (cnt (l :: r) b = cnt r b + 1 /\ l = Z.of_nat b /\ 0 < l)).
  { destruct b; cbn [cnt count_len]; [left; reflexivity|].
    destruct (Z.eqb_spec l (Z.of_nat (S b))); [right|left]; lia. }
  lia.
Qed.

Lemma first_symbol_le_length ls b : first_symbol ls b <= Z.of_nat (length ls).
Proof.
  induction ls as [|l r IH].
  - induction b as [|b IHb]; cbn [first_symbol]; [lia|].
    destruct b; cbn [cnt count_len] in *; lia.
  - pose proof (first_symbol_cons l r b). cbn [length]. lia.
Qed.

Lemma sym_index_range ls j :
  (j < length ls)%nat -> 0 < nth j ls 0 ->
  0 <= sym_index ls j < Z.of_nat (length ls).
Proof.
  intros Hj Hl. unfold sym_index. cbv zeta.
  pose proof (first_symbol_nonneg ls (Z.to_nat (nth j ls 0))).
  pose proof (count_len_nonneg (take j ls) (nth j ls 0)).
  pose proof (rank_lt ls j Hj).
  pose proof (first_symbol_le_length ls (S (Z.to_nat (nth j ls 0)))) as Hle.
  cbn [first_symbol] in Hle.
  assert (cnt ls (Z.to_nat (nth j ls 0)) = count_len ls (nth j ls 0)).
  { destruct (Z.to_nat (nth j ls 0)) eqn:E; [lia|]. cbn [cnt]. f_equal. lia. }
  lia.
Qed.

Lemma cnt_to_nat ls l : 0 < l -> cnt ls (Z.to_nat l) = count_len ls l.
Proof.
  intros Hl. destruct (Z.to_nat l) eqn:E; [lia|]. cbn [cnt]. f_equal. lia.
Qed.

Lemma sym_index_inj ls j j' :
  (j < length ls)%nat -> (j' < length ls)%nat ->
  0 < nth j ls 0 -> 0 < nth j' ls 0 ->
  sym_index ls j = sym_index ls j' -> j = j'.
Proof.
  intros Hj Hj' Hl Hl' E. unfold sym_index in E. cbv zeta in E.
  pose proof (rank_lt ls j Hj). pose proof (rank_lt ls j' Hj').
  pose proof (count_len_nonneg (take j ls) (nth j ls 0)).
  pose proof (count_len_nonneg (take j' ls) (nth j' ls 0)).
  pose proof (cnt_to_nat ls _ Hl). pose proof (cnt_to_nat ls _ Hl').
  destruct (Z.lt_trichotomy (nth j ls 0) (nth j' ls 0)) as [H'|[H'|H']].
  - pose proof (first_symbol_grows ls (Z.to_nat (nth j ls 0)) (Z.to_nat (nth j' ls 0))
                  ltac:(lia)). lia.
  - apply (rank_inj ls); try assumption. rewrite H' in E |- *. lia.
  - pose proof (first_symbol_grows ls (Z.to_nat (nth j' ls 0)) (Z.to_nat (nth j ls 0))
                  ltac:(lia)). lia.
Qed.

(** *** Codes in the stream *)

Lemma testbit_bits_msb N p (n : nat) i :
  0 <= i ->
  Z.testbit (bits_msb N p n) i = (i <? Z.of_nat n) && Z.testbit N (p + Z.of_nat n - 1 - i).
Proof.
  revert i. induction n as [|n IH]; intros i Hi.
  - cbn [bits_msb]. rewrite Z.bits_0.
    destruct (Z.ltb_spec i (Z.of_nat 0)); [lia|reflexivity].
  - cbn [bits_msb].
    destruct (Z.eq_dec i 0) as [->|Hne].
    + rewrite Z.testbit_0_r. cbn [Z.ltb Z.compare Z.of_nat].
      replace (0 <? Z.of_nat (S n)) with true by (symmetry; apply Z.ltb_lt; lia).
      cbn [andb]. f_equal. lia.
    + replace i with (Z.succ (i - 1)) at 1 by lia.
      rewrite Z.testbit_succ_r by lia. rewrite IH by lia.
      f_equal.
      * destruct (Z.ltb_spec (i - 1) (Z.of_nat n)), (Z.ltb_spec i (Z.of_nat (S n)));
          try reflexivity; lia.
      * f_equal. lia.
Qed.

Lemma bits_msb_range N p n : 0 <= bits_msb N p n < 2 ^ Z.of_nat n.
Proof.
  induction n as [|n IH]; [cbn; lia|].
  cbn [bits_msb]. rewrite Nat2Z.inj_succ, Z.pow_succ_r by lia.
  destruct (Z.testbit N (p + Z.of_nat n)); cbn [Z.b2z]; lia.
Qed.

(** The first [s] bits of a code of [s'] bits. *)
Lemma bits_msb_prefix N p (s s' : nat) :
  (s <= s')%nat ->
  bits_msb N p s = Z.shiftr (bits_msb N p s') (Z.of_nat (s' - s)).
Proof.
  intros H. apply Z.bits_inj'. intros i Hi.
  rewrite Z.shiftr_spec, !testbit_bits_msb by lia.
  f_equal.
  - destruct (Z.ltb_spec i (Z.of_nat s)), (Z.ltb_spec (i + Z.of_nat (s' - s)) (Z.of_nat s'));
      try reflexivity; lia.
  - f_equal. lia.
Qed.

(** Reversing the bits as they lie in the bit buffer gives the code. *)
Lemma stbi__bit_reverse_bits N p v (n : nat) :
  (n <= 16)%nat ->
  (forall i, 0 <= i < Z.of_nat n -> Z.testbit v i = Z.testbit N (p + i)) ->
  stbi__bit_reverse v (Z.of_nat n) = bits_msb N p n.
Proof.
  intros Hn Hv. apply Z.bits_inj'. intros i Hi.
  rewrite testbit_stbi__bit_reverse, testbit_bits_msb by lia.
  destruct (Z.ltb_spec i (Z.of_nat n)); [|reflexivity].
  cbn [andb]. rewrite Hv by lia. f_equal. lia.
Qed.

Lemma stbi__bit_reverse_msb N p (n : nat) :
  (n <= 16)%nat ->
  stbi__bit_reverse (bits_msb N p n) (Z.of_nat n) = bits_lsb N p (Z.of_nat n).
Proof.
  intros Hn. apply Z.bits_inj'. intros i Hi.
  rewrite testbit_stbi__bit_reverse, testbit_bits_lsb by lia.
  destruct (Z.ltb_spec i (Z.of_nat n)).
  - rewrite testbit_bits_msb by lia.
    replace (Z.of_nat n - 1 - i <? Z.of_nat n) with true by (symmetry; apply Z.ltb_lt; lia).
    rewrite andb_true_r. cbn [andb]. f_equal. lia.
  - rewrite andb_false_r. reflexivity.
Qed.

Lemma code_at_iff N p ls j :
  code_at N p ls j = true <->
  0 < nth j ls 0 /\ bits_msb N p (Z.to_nat (nth j ls 0)) = code_of ls j.
Proof.
  unfold code_at. cbv zeta. rewrite andb_true_iff, Z.ltb_lt, Z.eqb_eq. reflexivity.
Qed.

(** No code is the beginning of another one. *)
Lemma code_at_unique N p ls j j' :
  (j < length ls)%nat -> (j' < length ls)%nat ->
  code_at N p ls j = true -> code_at N p ls j' = true -> j = j'.
Proof.
  assert (Hlt : forall j j', (j < length ls)%nat -> (j' < length ls)%nat ->
            code_at N p ls j = true -> code_at N p ls j' = true ->
            nth j ls 0 < nth j' ls 0 -> False).
  { clear j j'. intros j j' Hj Hj' [Hl Hc]%code_at_iff [Hl' Hc']%code_at_iff Hll.
    pose proof (bits_msb_prefix N p (Z.to_nat (nth j ls 0)) (Z.to_nat (nth j' ls 0))
                  ltac:(lia)) as Hpre.
    rewrite Hc, Hc' in Hpre. unfold code_of in Hpre. cbv zeta in Hpre.
    pose proof (first_code_grows ls (Z.to_nat (nth j ls 0)) (Z.to_nat (nth j' ls 0))
                  ltac:(lia)) as Hg.
    rewrite (cnt_to_nat ls _ Hl) in Hg.
    pose proof (rank_lt ls j Hj).
    pose proof (count_len_nonneg (take j' ls) (nth j' ls 0)).
    set (d := Z.of_nat (Z.to_nat (nth j' ls 0) - Z.to_nat (nth j ls 0))) in *.
    rewrite Z.shiftr_div_pow2 in Hpre by lia.
    assert (0 < 2 ^ d) by (apply Z.pow_pos_nonneg; lia).
    assert (first_code ls (Z.to_nat (nth j ls 0)) + count_len ls (nth j ls 0)
            <= (first_code ls (Z.to_nat (nth j' ls 0)) +
                count_len (take j' ls) (nth j' ls 0)) / 2 ^ d).
    { apply Z.div_le_lower_bound; lia. }
    lia. }
  intros Hj Hj' H H'.
  destruct (Z.lt_trichotomy (nth j ls 0) (nth j' ls 0)) as [Hll|[Hll|Hll]].
  - exfalso. exact (Hlt j j' Hj Hj' H H' Hll).
  - apply code_at_iff in H as [Hl Hc]. apply code_at_iff in H' as [Hl' Hc'].
    apply (rank_inj ls); try assumption.
    rewrite Hll in Hc. rewrite Hc' in Hc. unfold code_of in Hc. cbv zeta in Hc.
    rewrite Hll in Hc |- *. lia.
  - exfalso. exact (Hlt j' j Hj' Hj H' H Hll).
Qed.

Lemma sym_at_Some N p ls j :
  sym_at N p ls = Some j -> (j < length ls)%nat /\ code_at N p ls j = true.
Proof.
  unfold sym_at. intros H. apply find_some in H as [Hin H].
  apply in_seq in Hin. split; [lia|exact H].
Qed.

(** What [lengths_ok] says. *)
Lemma lengths_ok_range ls j :
  lengths_ok ls = true -> 0 <= nth j ls 0 <= 15.
Proof.
  unfold lengths_ok. intros [H _]%andb_true_iff.
  rewrite forallb_forall in H.
  destruct (Nat.lt_ge_cases j (length ls)) as [Hj|Hj].
  - specialize (H (nth j ls 0) (nth_In ls 0 Hj)). lia.
  - rewrite nth_overflow by lia. lia.
Qed.

Lemma lengths_ok_fits ls (b : nat) :
  lengths_ok ls = true -> (1 <= b <= 15)%nat ->
  first_code ls b + cnt ls b <= 2 ^ Z.of_nat b.
Proof.
  unfold lengths_ok. intros [_ H]%andb_true_iff Hb.
  rewrite forallb_forall in H. specialize (H b).
  rewrite in_seq in H. specialize (H ltac:(lia)).
  cbv beta in H. apply Z.leb_le in H.
  destruct b; [lia|]. cbn [cnt]. exact H.
Qed.

Lemma code_of_range ls j :
  lengths_ok ls = true -> (j < length ls)%nat -> 0 < nth j ls 0 ->
  0 <= code_of ls j < 2 ^ nth j ls 0.
Proof.
  intros Hok Hj Hl. unfold code_of. cbv zeta.
  pose proof (lengths_ok_range ls j Hok).
  pose proof (lengths_ok_fits ls (Z.to_nat (nth j ls 0)) Hok ltac:(lia)) as Hf.
  rewrite cnt_to_nat, Z2Nat.id in Hf by lia.
  pose proof (rank_lt ls j Hj).
  pose proof (first_code_nonneg ls (Z.to_nat (nth j ls 0))).
  pose proof (count_len_nonneg (take j ls) (nth j ls 0)). lia.
Qed.

(** *** The tables of [stbi__zbuild_huffman] *)

Lemma zbuild_sizes_fold ls : forall acc b,
  fold_left (fun sizes s => <[s := sizes s + 1]> sizes) ls acc b = acc b + count_len ls b.
Proof.
  induction ls as [|l r IH]; intros acc b; cbn [fold_left count_len]; [lia|].
  rewrite IH. destruct (Z.eqb_spec l b) as [->|Hne].
  - rewrite fn_lookup_insert. lia.
  - rewrite fn_lookup_insert_ne by exact Hne. lia.
Qed.

Lemma zbuild_sizes_spec ls (b : nat) : zbuild_sizes ls (Z.of_nat b) = cnt ls b.
Proof.
  unfold zbuild_sizes. destruct b as [|b].
  - apply fn_lookup_insert.
  - rewrite fn_lookup_insert_ne by lia. rewrite zbuild_sizes_fold. cbn [cnt]. lia.
Qed.

Lemma first_code_le ls (b : nat) :
  lengths_ok ls = true -> (1 <= b <= 15)%nat -> 0 <= first_code ls b <= 2 ^ 15.
Proof.
  intros Hok Hb. pose proof (lengths_ok_fits ls b Hok Hb).
  pose proof (cnt_nonneg ls b). pose proof (first_code_nonneg ls b).
  assert (2 ^ Z.of_nat b <= 2 ^ 15) by (apply Z.pow_le_mono_r; lia). lia.
Qed.

Lemma zbuild_codes_spec ls :
  lengths_ok ls = true -> (length ls <= 288)%nat ->
  forall (n i : nat) nc z,
  (1 <= i)%nat -> (i + n <= 16)%nat ->
  exists nc' z',
    zbuild_codes n (Z.of_nat i) (zbuild_sizes ls) (first_code ls i) (first_symbol ls i) nc z
    = Some (nc', z') /\
    zfast z' = zfast z /\ zsize z' = zsize z /\ zvalue z' = zvalue z /\
    (forall s : nat, (i <= s < i + n)%nat ->
       nc' (Z.of_nat s) = first_code ls s /\
       firstcode z' (Z.of_nat s) = first_code ls s /\
       firstsymbol z' (Z.of_nat s) = first_symbol ls s /\
       maxcode z' (Z.of_nat s) = (first_code ls s + cnt ls s) * 2 ^ (16 - Z.of_nat s)) /\
    (forall x, ~ (Z.of_nat i <= x < Z.of_nat (i + n)) ->
       nc' x = nc x /\ firstcode z' x = firstcode z x /\
       firstsymbol z' x = firstsymbol z x /\ maxcode z' x = maxcode z x).
Proof.
  intros Hok Hlen n. induction n as [|n IH]; intros i nc z Hi Hin.
  - exists nc, z. cbn [zbuild_codes].
    do 4 (split; [reflexivity|]). split.
    + intros s Hs. lia.
    + intros x _. repeat split; reflexivity.
  - cbn [zbuild_codes]. cbv zeta.
    cbn [zfast firstcode maxcode firstsymbol zsize zvalue].
    rewrite zbuild_sizes_spec.
    pose proof (lengths_ok_fits ls i Hok ltac:(lia)) as Hfit.
    pose proof (first_code_le ls i Hok ltac:(lia)) as Hfc.
    pose proof (cnt_nonneg ls i) as Hcnt.
    pose proof (first_symbol_nonneg ls i) as Hfs0.
    pose proof (first_symbol_le_length ls i) as Hfs.
    assert (Hchk : (first_code ls i + cnt ls i - 1 >=? Z.shiftl 1 (Z.of_nat i)) = false).
    { rewrite Z.shiftl_1_l, Z.geb_leb. apply Z.leb_gt. lia. }
    rewrite Hchk, andb_false_r.
    assert (Hsh : Z.shiftl (first_code ls i + cnt ls i) 1 = first_code ls (S i)).
    { rewrite Z.shiftl_mul_pow2 by lia. rewrite first_code_S. lia. }
    rewrite Hsh.
    change (first_symbol ls i + cnt ls i) with (first_symbol ls (S i)).
    replace (Z.of_nat i + 1) with (Z.of_nat (S i)) by lia.
    edestruct (IH (S i)) as (nc' & z' & E & Hf & Hsz & Hv & Hin' & Hout');
      [lia|lia|].
    exists nc', z'. split; [exact E|].
    cbn [zfast firstcode maxcode firstsymbol zsize zvalue] in *.
    split; [exact Hf|]. split; [exact Hsz|]. split; [exact Hv|]. split.
    + intros s Hs. destruct (Nat.eq_dec s i) as [->|Hne].
      * destruct (Hout' (Z.of_nat i) ltac:(lia)) as (E1 & E2 & E3 & E4).
        rewrite E1, E2, E3, E4. rewrite !fn_lookup_insert.
        assert (2 ^ 15 < 2 ^ 16) by (apply Z.pow_lt_mono_r; lia).
        assert (Z.of_nat 288 < 2 ^ 16) by (cbv; reflexivity).
        unfold u16. rewrite !Z.mod_small by lia.
        rewrite Z.shiftl_mul_pow2 by lia. repeat split; reflexivity.
      * apply Hin'. lia.
    + intros x Hx. destruct (Hout' x ltac:(lia)) as (E1 & E2 & E3 & E4).
      rewrite E1, E2, E3, E4. rewrite !fn_lookup_insert_ne by lia.
      repeat split; reflexivity.
Qed.

Lemma zbuild_fast_spec step v :
  0 < step ->
  forall (n : nat) fast j,
  0 <= j -> 512 - j <= Z.of_nat n * step ->
  forall x,
  zbuild_fast n fast j step v x
  = if (j <=? x) && (x <? 512) && ((x - j) mod step =? 0) then v else fast x.
Proof.
  intros Hstep n. induction n as [|n IH]; intros fast j Hj Hn x.
  - cbn [zbuild_fast].
    destruct (Z.leb_spec j x), (Z.ltb_spec x 512); cbn [andb]; try reflexivity.
    change (Z.of_nat 0) with 0 in Hn. lia.
  - cbn [zbuild_fast]. change (Z.shiftl 1 STBI__ZFAST_BITS) with 512.
    destruct (Z.ltb_spec j 512) as [Hlt|Hge].
    + rewrite IH by nia.
      destruct (Z.eq_dec x j) as [->|Hne].
      * rewrite fn_lookup_insert. rewrite Z.sub_diag, Z.mod_0_l by lia.
        replace (j + step <=? j) with false by (symmetry; apply Z.leb_gt; lia).
        replace (j <=? j) with true by (symmetry; apply Z.leb_le; lia).
        replace (j <? 512) with true by (symmetry; apply Z.ltb_lt; lia).
        reflexivity.
      * rewrite fn_lookup_insert_ne by lia.
        replace (x - (j + step)) with ((x - j) + (-1) * step) by lia.
        rewrite Z_mod_plus_full.
        destruct (Z.eqb_spec ((x - j) mod step) 0) as [E|E];
          [|rewrite !andb_false_r; reflexivity].
        rewrite !andb_true_r. f_equal. f_equal.
        destruct (Z.leb_spec j x), (Z.leb_spec (j + step) x); try reflexivity; try lia.
        exfalso. apply Z.mod_divide in E; [|lia]. destruct E as [q E].
        assert (Hq : q <= 0 \/ 1 <= q) by lia. destruct Hq; nia.
    + destruct (Z.leb_spec j x), (Z.ltb_spec x 512); cbn [andb]; try reflexivity. lia.
Qed.

Lemma mod_eq_iff step j x :
  0 <= j < step -> 0 <= x ->
  (j <=? x) && ((x - j) mod step =? 0) = (x mod step =? j).
Proof.
  intros Hj Hx. apply eq_true_iff_eq.
  rewrite andb_true_iff, Z.leb_le, !Z.eqb_eq. split.
  - intros [Hle E]. apply Z.mod_divide in E; [|lia]. destruct E as [q E].
    replace x with (j + q * step) by lia. rewrite Z_mod_plus_full.
    apply Z.mod_small. lia.
  - intros E. pose proof (Z.div_mod x step ltac:(lia)) as D.
    assert (0 <= x / step) by (apply Z.div_pos; lia).
    split; [nia|]. replace (x - j) with (0 + (x / step) * step) by lia.
    rewrite Z_mod_plus_full. apply Z.mod_0_l. lia.
Qed.

Lemma stbi__bit_reverse_range v bits :
  0 <= bits <= 16 -> 0 <= stbi__bit_reverse v bits < 2 ^ bits.
Proof.
  intros Hb.
  assert (Hnn : 0 <= stbi__bit_reverse v bits).
  { unfold stbi__bit_reverse. apply Z.shiftr_nonneg. apply stbi__bitreverse16_range. }
  split; [exact Hnn|].
  destruct (Z.eq_dec (stbi__bit_reverse v bits) 0) as [E|Hne].
  - rewrite E. apply Z.pow_pos_nonneg; lia.
  - apply Z.log2_lt_pow2; [lia|].
    destruct (Z.lt_ge_cases (Z.log2 (stbi__bit_reverse v bits)) bits) as [|Hge]; [assumption|].
    pose proof (Z.bit_log2 (stbi__bit_reverse v bits) ltac:(lia)) as Hbit.
    rewrite testbit_stbi__bit_reverse in Hbit by lia.
    destruct (Z.ltb_spec (Z.log2 (stbi__bit_reverse v bits)) bits); [lia|discriminate].
Qed.

Lemma stbi__bit_reverse_involutive v bits :
  0 <= bits <= 16 -> 0 <= v < 2 ^ bits ->
  stbi__bit_reverse (stbi__bit_reverse v bits) bits = v.
Proof.
  intros Hb Hv. apply Z.bits_inj'. intros i Hi.
  rewrite testbit_stbi__bit_reverse by lia.
  destruct (Z.ltb_spec i bits).
  - rewrite testbit_stbi__bit_reverse by lia.
    replace (bits - 1 - i <? bits) with true by (symmetry; apply Z.ltb_lt; lia).
    f_equal. lia.
  - symmetry. destruct (Z.eq_dec v 0) as [->|Hne]; [apply Z.bits_0|].
    apply Z.bits_above_log2; [lia|].
    apply Z.lt_le_trans with bits; [|lia]. apply Z.log2_lt_pow2; lia.
Qed.

Lemma lor_shiftl_9 s i : 0 <= s -> 0 <= i < 512 -> Z.lor (Z.shiftl s 9) i = s * 512 + i.
Proof.
  intros Hs Hi. rewrite <- Z.lxor_lor.
  - rewrite <- Z.add_nocarry_lxor.
    + rewrite Z.shiftl_mul_pow2 by lia. reflexivity.
    + apply Z.bits_inj'. intros k Hk. rewrite Z.land_spec, Z.bits_0.
      destruct (Z.ltb_spec k 9).
      * rewrite Z.shiftl_spec_low by lia. reflexivity.
      * replace (Z.testbit i k) with false; [apply andb_false_r|].
        symmetry. destruct (Z.eq_dec i 0) as [->|Hne]; [apply Z.bits_0|].
        apply Z.bits_above_log2; [lia|].
        apply Z.lt_le_trans with 9; [|lia]. apply Z.log2_lt_pow2; lia.
  - apply Z.bits_inj'. intros k Hk. rewrite Z.land_spec, Z.bits_0.
    destruct (Z.ltb_spec k 9).
    + rewrite Z.shiftl_spec_low by lia. reflexivity.
    + replace (Z.testbit i k) with false; [apply andb_false_r|].
      symmetry. destruct (Z.eq_dec i 0) as [->|Hne]; [apply Z.bits_0|].
      apply Z.bits_above_log2; [lia|].
      apply Z.lt_le_trans with 9; [|lia]. apply Z.log2_lt_pow2; lia.
Qed.

Lemma zbuild_symbols_spec ls :
  lengths_ok ls = true -> (length ls <= 288)%nat ->
  forall rest pre nc z z',
  ls = pre ++ rest ->
  (forall s : nat, (1 <= s <= 15)%nat ->
     nc (Z.of_nat s) = first_code ls s + count_len pre (Z.of_nat s) /\
     firstcode z (Z.of_nat s) = first_code ls s /\
     firstsymbol z (Z.of_nat s) = first_symbol ls s) ->
  (forall x, 0 <= x < 512 -> zfast z x = fast_spec ls (length pre) x) ->
  (forall j, (j < length pre)%nat -> 0 < nth j ls 0 ->
     zsize z (sym_index ls j) = nth j ls 0 /\ zvalue z (sym_index ls j) = Z.of_nat j) ->
  z' = zbuild_symbols rest (Z.of_nat (length pre)) nc z ->
  firstcode z' = firstcode z /\ maxcode z' = maxcode z /\ firstsymbol z' = firstsymbol z /\
  (forall x, 0 <= x < 512 -> zfast z' x = fast_spec ls (length ls) x) /\
  (forall j, (j < length ls)%nat -> 0 < nth j ls 0 ->
     zsize z' (sym_index ls j) = nth j ls 0 /\ zvalue z' (sym_index ls j) = Z.of_nat j).
Proof.
  intros Hok Hlen rest. induction rest as [|s rest IH];
    intros pre nc z z' Els Hnc Hfast Hsym ->.
  - cbn [zbuild_symbols]. rewrite app_nil_r in Els. subst pre.
    do 3 (split; [reflexivity|]). split; assumption.
  - cbn [zbuild_symbols].
    assert (Els' : ls = (pre ++ [s]) ++ rest) by (rewrite <- app_assoc; exact Els).
    assert (Hs : nth (length pre) ls 0 = s) by (rewrite Els; apply nth_middle).
    assert (Hlp : (length pre < length ls)%nat)
      by (rewrite Els, length_app; cbn [length]; lia).
    assert (Hpre : take (length pre) ls = pre) by (rewrite Els; apply take_app_length).
    assert (Hlen' : length (pre ++ [s]) = S (length pre))
      by (rewrite length_app; cbn [length]; lia).
    replace (Z.of_nat (length pre) + 1) with (Z.of_nat (length (pre ++ [s])))
      by (rewrite Hlen'; lia).
    destruct (Z.eqb_spec s 0) as [Hs0|Hs0].
    + apply (IH (pre ++ [s]) nc z _ Els'); [| | |reflexivity].
      * intros b Hb. destruct (Hnc b Hb) as (E1 & E2 & E3).
        rewrite count_len_app. cbn [count_len].
        replace (s =? Z.of_nat b) with false by (symmetry; apply Z.eqb_neq; lia).
        split; [lia|]. split; assumption.
      * intros x Hx. rewrite Hlen'. cbn [fast_spec]. rewrite Hs, Hs0.
        cbn [Z.ltb Z.compare andb]. apply Hfast. exact Hx.
      * intros j Hj Hl. rewrite Hlen' in Hj.
        destruct (Nat.eq_dec j (length pre)) as [->|Hne]; [lia|].
        apply Hsym; [lia|exact Hl].
    + pose proof (lengths_ok_range ls (length pre) Hok) as Hr. rewrite Hs in Hr.
      destruct (Hnc (Z.to_nat s) ltac:(lia)) as (E1 & E2 & E3).
      rewrite Z2Nat.id in E1, E2, E3 by lia.
      assert (Hn : nc s = code_of ls (length pre)).
      { unfold code_of. cbv zeta. rewrite Hs, Hpre. exact E1. }
      assert (Hc : nc s - firstcode z s + firstsymbol z s = sym_index ls (length pre)).
      { unfold sym_index. cbv zeta. rewrite Hs, Hpre. lia. }
      rewrite Hc, Hn.
      assert (Hv : u16 (Z.lor (Z.shiftl s 9) (Z.of_nat (length pre)))
                   = s * 512 + Z.of_nat (length pre)).
      { rewrite lor_shiftl_9 by lia. unfold u16. apply Z.mod_small.
        change (2 ^ 16) with 65536. lia. }
      rewrite Hv.
      match goal with
      | |- context [zbuild_symbols rest ?i ?n ?zz] =>
          pose proof (fun H1 H2 H3 => IH (pre ++ [s]) n zz _ Els' H1 H2 H3 eq_refl) as IH';
          destruct IH' as (A & B & C & D & F)
      end; [| | |cbn [firstcode maxcode firstsymbol] in A, B, C;
                 split; [exact A|]; split; [exact B|]; split; [exact C|];
                 split; [exact D|exact F]].
      * intros b Hb. cbn [firstcode firstsymbol].
        destruct (Hnc b Hb) as (F1 & F2 & F3).
        rewrite count_len_app. cbn [count_len].
        split; [|split; assumption].
        destruct (Z.eqb_spec s (Z.of_nat b)) as [Es|Es].
        -- assert (Eb : b = Z.to_nat s) by lia. rewrite <- Es, Eb.
           rewrite fn_lookup_insert, <- Hn, E1. lia.
        -- rewrite fn_lookup_insert_ne by exact Es. lia.
      * intros x Hx. cbn [zfast]. rewrite Hlen'. cbn [fast_spec]. rewrite Hs. cbv zeta.
        replace (0 <? s) with true by (symmetry; apply Z.ltb_lt; lia). cbn [andb].
        change STBI__ZFAST_BITS with 9.
        destruct (Z.leb_spec s 9) as [H9|H9].
        -- pose proof (stbi__bit_reverse_range (code_of ls (length pre)) s ltac:(lia)) as Hrr.
           assert (Hstep : 0 < 2 ^ s) by (apply Z.pow_pos_nonneg; lia).
           assert (2 ^ s >= 2).
           { change 2 with (2 ^ 1) at 2. apply Z.le_ge, Z.pow_le_mono_r; lia. }
           rewrite Z.shiftl_1_l.
           rewrite (zbuild_fast_spec (2 ^ s)) by (try assumption; try lia; nia).
           replace (x <? 512) with true by (symmetry; apply Z.ltb_lt; lia).
           rewrite andb_true_r. rewrite mod_eq_iff by lia.
           rewrite Hfast by exact Hx. reflexivity.
        -- apply Hfast. exact Hx.
      * intros j Hj Hl. cbn [zsize zvalue]. rewrite Hlen' in Hj.
        destruct (Nat.eq_dec j (length pre)) as [->|Hne].
        -- rewrite !fn_lookup_insert, Hs. unfold u8, u16.
           change (2 ^ 8) with 256. change (2 ^ 16) with 65536.
           rewrite !Z.mod_small by lia. split; reflexivity.
        -- assert (Hd : sym_index ls (length pre) <> sym_index ls j).
           { intros E. apply Hne. symmetry.
             apply (sym_index_inj ls); try assumption; try lia. }
           rewrite !fn_lookup_insert_ne by exact Hd.
           apply Hsym; [lia|exact Hl].
Qed.

Lemma stbi__zbuild_huffman_spec ls z :
  lengths_ok ls = true -> (length ls <= 288)%nat ->
  exists z', stbi__zbuild_huffman z ls = Some z' /\ ztable ls z'.
Proof.
  intros Hok Hlen. unfold stbi__zbuild_huffman. cbv zeta.
  assert (Hex : existsb (fun i => zbuild_sizes ls i >? Z.shiftl 1 i)
                        (map Z.of_nat (seq 1 15)) = false).
  { apply not_true_is_false. intros H.
    apply existsb_exists in H as (x & Hin & Hx).
    apply in_map_iff in Hin as (b & <- & Hb). apply in_seq in Hb.
    rewrite zbuild_sizes_spec, Z.shiftl_1_l in Hx.
    pose proof (lengths_ok_fits ls b Hok ltac:(lia)).
    pose proof (first_code_nonneg ls b). lia. }
  rewrite Hex.
  destruct (zbuild_codes_spec ls Hok Hlen 15 1 (fun _ => 0)
              (mkZhuffman (fun _ => 0) (firstcode z) (maxcode z) (firstsymbol z)
                          (zsize z) (zvalue z)))
    as (nc & z1 & E & Hf & Hsz & Hv & Hin & Hout); [lia|lia|].
  change (Z.of_nat 1) with 1 in E. change (first_code ls 1) with 0 in E.
  change (first_symbol ls 1) with 0 in E.
  rewrite E. eexists. split; [reflexivity|].
  cbn [zfast] in Hf.
  edestruct (zbuild_symbols_spec ls Hok Hlen ls [] nc
               (mkZhuffman (zfast z1) (firstcode z1) (<[16 := 0x10000]> (maxcode z1))
                           (firstsymbol z1) (zsize z1) (zvalue z1)))
    as (A & B & C & D & F); [reflexivity| | | |reflexivity|].
  - intros s Hs. cbn [firstcode firstsymbol count_len].
    destruct (Hin s ltac:(lia)) as (E1 & E2 & E3 & E4).
    split; [lia|]. split; [exact E2|exact E3].
  - intros x Hx. cbn [zfast length fast_spec]. rewrite Hf. reflexivity.
  - intros j Hj. cbn [length] in Hj. lia.
  - change (Z.of_nat (length (@nil Z))) with 0 in A, B, C, D, F.
    cbn [firstcode maxcode firstsymbol] in A, B, C.
    split; [|split; [|split]].
    + intros s Hs. rewrite A, B, C.
      destruct (Hin s ltac:(lia)) as (E1 & E2 & E3 & E4).
      rewrite fn_lookup_insert_ne by lia. split; [exact E2|]. split; [exact E3|exact E4].
    + rewrite B. apply fn_lookup_insert.
    + exact D.
    + exact F.
Qed.

(** *** Decoding a symbol *)

Lemma fast_cond N p ls j :
  lengths_ok ls = true -> (j < length ls)%nat ->
  (0 <? nth j ls 0) && (nth j ls 0 <=? 9)
  && (bits_lsb N p 9 mod 2 ^ nth j ls 0 =? stbi__bit_reverse (code_of ls j) (nth j ls 0))
  = code_at N p ls j && (nth j ls 0 <=? 9).
Proof.
  intros Hok Hj. unfold code_at. cbv zeta.
  destruct (Z.ltb_spec 0 (nth j ls 0)) as [Hl|Hl]; [|reflexivity].
  destruct (Z.leb_spec (nth j ls 0) 9) as [H9|H9];
    [|cbn [andb]; rewrite andb_false_r; reflexivity].
  cbn [andb]. rewrite andb_true_r.
  set (l := nth j ls 0) in *.
  rewrite <- Z.land_ones by lia. rewrite bits_lsb_low by lia.
  pose proof (code_of_range ls j Hok Hj Hl) as Hc. fold l in Hc.
  apply eq_true_iff_eq. rewrite !Z.eqb_eq. split.
  - intros E. apply (f_equal (fun v => stbi__bit_reverse v l)) in E.
    rewrite stbi__bit_reverse_involutive in E by lia.
    rewrite <- E. symmetry.
    pose proof (stbi__bit_reverse_bits N p (bits_lsb N p l) (Z.to_nat l) ltac:(lia)) as R.
    rewrite Z2Nat.id in R by lia. apply R.
    intros i Hi. rewrite testbit_bits_lsb by lia.
    replace (i <? l) with true by (symmetry; apply Z.ltb_lt; lia).
    apply andb_true_r.
  - intros E. rewrite <- E.
    pose proof (stbi__bit_reverse_msb N p (Z.to_nat l) ltac:(lia)) as R.
    rewrite Z2Nat.id in R by lia. symmetry. exact R.
Qed.

Lemma fast_spec_unique N p ls j0 :
  lengths_ok ls = true -> (j0 < length ls)%nat -> code_at N p ls j0 = true ->
  forall m, (m <= length ls)%nat ->
  fast_spec ls m (bits_lsb N p 9)
  = if (j0 <? m)%nat && (nth j0 ls 0 <=? 9) then nth j0 ls 0 * 512 + Z.of_nat j0 else 0.
Proof.
  intros Hok Hj0 Hc0 m. induction m as [|m IH]; intros Hm.
  - reflexivity.
  - cbn [fast_spec]. cbv zeta. rewrite fast_cond by (try assumption; lia).
    specialize (IH ltac:(lia)).
    destruct (code_at N p ls m) eqn:Ec.
    + assert (m = j0) by (apply (code_at_unique N p ls); try assumption; lia).
      subst m. cbn [andb].
      replace (j0 <? S j0)%nat with true by (symmetry; apply Nat.ltb_lt; lia).
      cbn [andb].
      destruct (nth j0 ls 0 <=? 9); [reflexivity|].
      rewrite IH. rewrite Nat.ltb_irrefl. reflexivity.
    + cbn [andb]. rewrite IH.
      assert (m <> j0) by (intros ->; congruence).
      destruct (Nat.ltb_spec j0 m), (Nat.ltb_spec j0 (S m)); try reflexivity; lia.
Qed.

Lemma s32_mod x : s32 x mod 2 ^ 32 = x mod 2 ^ 32.
Proof.
  unfold s32. rewrite Zminus_mod_idemp_l. f_equal. lia.
Qed.

Lemma testbit_s32_low x i : 0 <= i < 32 -> Z.testbit (s32 x) i = Z.testbit x i.
Proof.
  intros Hi. rewrite <- (Z.mod_pow2_bits_low (s32 x) 32 i) by lia.
  rewrite s32_mod. apply Z.mod_pow2_bits_low. lia.
Qed.

Lemma zslow_find_spec z k l :
  l <= 15 ->
  k < maxcode z l ->
  forall (n : nat) s,
  s <= l -> l - s < Z.of_nat n ->
  (forall s', s <= s' < l -> maxcode z s' <= k) ->
  zslow_find n s k z = Some l.
Proof.
  intros Hl Hk n. induction n as [|n IH]; intros s Hs Hn Hge; [lia|].
  cbn [zslow_find]. destruct (Z.eq_dec s l) as [->|Hne].
  - replace (k <? maxcode z l) with true by (symmetry; apply Z.ltb_lt; lia). reflexivity.
  - specialize (Hge s ltac:(lia)) as Hs'.
    replace (k <? maxcode z s) with false by (symmetry; apply Z.ltb_ge; lia).
    apply IH; [lia|lia|]. intros s' Hs''. apply Hge. lia.
Qed.

(** Where a code of [l] bits stands, the first [s <= l] bits lie below
    the end of the codes of [s] bits only for [s = l]. *)
Lemma code_at_maxcode N p ls j (s : nat) :
  (j < length ls)%nat -> code_at N p ls j = true ->
  (1 <= s)%nat -> Z.of_nat s <= nth j ls 0 <= 15 ->
  let k := bits_msb N p 16 in
  let m := (first_code ls s + cnt ls s) * 2 ^ (16 - Z.of_nat s) in
  if Z.of_nat s =? nth j ls 0 then k < m else m <= k.
Proof.
  intros Hj [Hl Hc]%code_at_iff Hs Hsl. cbv zeta.
  set (l := nth j ls 0) in *.
  assert (He : 0 < 2 ^ (16 - Z.of_nat s)) by (apply Z.pow_pos_nonneg; lia).
  pose proof (bits_msb_prefix N p s 16 ltac:(lia)) as Hpre.
  rewrite Z.shiftr_div_pow2 in Hpre by lia.
  replace (Z.of_nat (16 - s)) with (16 - Z.of_nat s) in Hpre by lia.
  pose proof (Z.div_mod (bits_msb N p 16) (2 ^ (16 - Z.of_nat s)) ltac:(lia)) as Hdm.
  pose proof (Z.mod_pos_bound (bits_msb N p 16) (2 ^ (16 - Z.of_nat s)) He) as Hmb.
  rewrite <- Hpre in Hdm.
  pose proof (rank_lt ls j Hj) as Hrk. fold l in Hrk.
  pose proof (count_len_nonneg (take j ls) l) as Hrk0.
  unfold code_of in Hc. cbv zeta in Hc. fold l in Hc.
  destruct (Z.eqb_spec (Z.of_nat s) l) as [E|E].
  - assert (Es : s = Z.to_nat l) by lia. rewrite Es in *.
    rewrite (cnt_to_nat ls l Hl). rewrite Hc in Hdm. nia.
  - pose proof (bits_msb_prefix N p s (Z.to_nat l) ltac:(lia)) as Hpre2.
    rewrite Hc, Z.shiftr_div_pow2 in Hpre2 by lia.
    pose proof (first_code_grows ls s (Z.to_nat l) ltac:(lia)) as Hg.
    set (d := Z.of_nat (Z.to_nat l - s)) in *.
    assert (0 < 2 ^ d) by (apply Z.pow_pos_nonneg; lia).
    assert (first_code ls s + cnt ls s <= bits_msb N p s).
    { rewrite Hpre2. apply Z.div_le_lower_bound; lia. }
    nia.
Qed.

Lemma stbi__zhuffman_decode_spec asserts inp p zb nb cb out lim ex zl zd ls z j :
  ztable ls z -> lengths_ok ls = true -> (length ls <= 288)%nat ->
  zin_at inp p zb nb cb ->
  sym_at (zstream inp) p ls = Some j ->
  exists zb' nb' cb',
    stbi__zhuffman_decode asserts z (mkZbuf zb nb cb out lim ex zl zd)
    = Ret (Z.of_nat j, mkZbuf zb' nb' cb' out lim ex zl zd) /\
    zin_at inp (p + nth j ls 0) zb' nb' cb'.
Proof.
  intros (Hcodes & Hmax16 & Hfast & Hsym) Hok Hlen Hin [Hj Hat]%sym_at_Some.
  pose proof Hat as [Hl Hc]%code_at_iff.
  pose proof (lengths_ok_range ls j Hok) as Hl15.
  set (l := nth j ls 0) in *.
  unfold stbi__zhuffman_decode.
  unfold bind at 1. unfold get. cbn [num_bits].
  assert (Hfill : exists zb1 nb1 cb1,
    (if nb <? 16 then stbi__fill_bits asserts else ret tt)
      (mkZbuf zb nb cb out lim ex zl zd)
    = Ret (tt, mkZbuf zb1 nb1 cb1 out lim ex zl zd) /\
    zin_at inp p zb1 nb1 cb1 /\ 16 <= nb1).
  { destruct (Z.ltb_spec nb 16).
    - destruct (stbi__fill_bits_spec asserts inp p zb nb cb out lim ex zl zd Hin)
        as (zb1 & nb1 & cb1 & E & Hin1 & H25); [lia|].
      exists zb1, nb1, cb1. split; [exact E|]. split; [exact Hin1|lia].
    - exists zb, nb, cb. split; [reflexivity|]. split; [exact Hin|lia]. }
  destruct Hfill as (zb1 & nb1 & cb1 & E & (Hp & Hnb & Hcb & k & Hzb & Hk) & Hle).
  unfold bind at 1. rewrite E.
  unfold bind at 1. unfold get. cbn [code_buffer num_bits].
  change STBI__ZFAST_MASK with (Z.ones 9).
  assert (Hx : Z.land cb1 (Z.ones 9) = bits_lsb (zstream inp) p 9)
    by (rewrite Hcb; apply bits_lsb_low; lia).
  rewrite Hx.
  rewrite Hfast by (apply (bits_lsb_range _ _ 9); lia).
  rewrite (fast_spec_unique _ _ _ j Hok Hj Hat) by lia.
  replace (j <? length ls)%nat with true by (symmetry; apply Nat.ltb_lt; lia).
  cbn [andb]. fold l.
  assert (Hnext : zin_at inp (p + l) zb1 (nb1 - l) (Z.shiftr cb1 l)).
  { split; [lia|]. split; [lia|]. split.
    - rewrite Hcb. apply bits_lsb_shiftr; lia.
    - exists k. split; [exact Hzb|lia]. }
  destruct (Z.leb_spec l 9) as [H9|H9].
  - (* the fast table *)
    assert (Hne : (l * 512 + Z.of_nat j =? 0) = false) by (apply Z.eqb_neq; lia).
    rewrite Hne. cbn [negb].
    assert (Hs : Z.shiftr (l * 512 + Z.of_nat j) 9 = l).
    { rewrite Z.shiftr_div_pow2 by lia. change (2 ^ 9) with 512.
      rewrite Z.add_comm, Z.div_add by lia. rewrite Z.div_small by lia. lia. }
    assert (Hv : Z.land (l * 512 + Z.of_nat j) 511 = Z.of_nat j).
    { change 511 with (Z.ones 9). rewrite Z.land_ones by lia. change (2 ^ 9) with 512.
      rewrite Z.add_comm, Z_mod_plus_full. apply Z.mod_small. lia. }
    rewrite Hs, Hv.
    unfold bind at 1. unfold put, ret.
    cbn [set_bits zbuffer zout zout_limit z_expandable z_length z_distance].
    exists zb1, (nb1 - l), (Z.shiftr cb1 l). split; [reflexivity|exact Hnext].
  - (* the slow path *)
    cbn [Z.eqb negb]. unfold stbi__zhuffman_decode_slowpath.
    unfold bind at 1. unfold get. cbn [code_buffer num_bits].
    assert (Hk16 : stbi__bit_reverse (s32 cb1) 16 = bits_msb (zstream inp) p 16).
    { apply (stbi__bit_reverse_bits _ _ _ 16); [lia|].
      intros i Hi. rewrite testbit_s32_low by lia.
      rewrite Hcb, testbit_bits_lsb by lia.
      replace (i <? nb1) with true by (symmetry; apply Z.ltb_lt; lia).
      apply andb_true_r. }
    rewrite Hk16.
    assert (Hmaxl : forall s : nat, (1 <= s)%nat -> Z.of_nat s <= l ->
              if Z.of_nat s =? l then bits_msb (zstream inp) p 16 < maxcode z (Z.of_nat s)
              else maxcode z (Z.of_nat s) <= bits_msb (zstream inp) p 16).
    { intros s Hs1 Hsl. destruct (Hcodes s ltac:(lia)) as (_ & _ & ->).
      apply (code_at_maxcode _ _ ls j s); try assumption. fold l. lia. }
    rewrite (zslow_find_spec z _ l).
    + replace (l =? 16) with false by (symmetry; apply Z.eqb_neq; lia).
      destruct (Hcodes (Z.to_nat l) ltac:(lia)) as (Hfc & Hfs & _).
      rewrite Z2Nat.id in Hfc, Hfs by lia. rewrite Hfc, Hfs.
      pose proof (bits_msb_prefix (zstream inp) p (Z.to_nat l) 16 ltac:(lia)) as Hpre.
      replace (Z.of_nat (16 - Z.to_nat l)) with (16 - l) in Hpre by lia.
      rewrite <- Hpre, Hc.
      replace (code_of ls j - first_code ls (Z.to_nat l) + first_symbol ls (Z.to_nat l))
        with (sym_index ls j) by (unfold code_of, sym_index; cbv zeta; fold l; lia).
      pose proof (sym_index_range ls j Hj Hl) as Hr.
      replace (sym_index ls j <? 0) with false by (symmetry; apply Z.ltb_ge; lia).
      replace (288 <=? sym_index ls j) with false by (symmetry; apply Z.leb_gt; lia).
      cbn [orb].
      destruct (Hsym j Hj Hl) as (Hsz & Hval). fold l in Hsz.
      rewrite Hsz, Hval, Z.eqb_refl.
      unfold c_assert. rewrite andb_false_r.
      unfold bind at 1. unfold ret at 1.
      unfold bind at 1. unfold put, ret.
      cbn [set_bits zbuffer zout zout_limit z_expandable z_length z_distance].
      exists zb1, (nb1 - l), (Z.shiftr cb1 l). split; [reflexivity|exact Hnext].
    + lia.
    + specialize (Hmaxl (Z.to_nat l) ltac:(lia) ltac:(lia)).
      rewrite Z2Nat.id in Hmaxl by lia. rewrite Z.eqb_refl in Hmaxl. exact Hmaxl.
    + change STBI__ZFAST_BITS with 9. lia.
    + change STBI__ZFAST_BITS with 9. lia.
    + change STBI__ZFAST_BITS with 9. intros s' Hs'.
      specialize (Hmaxl (Z.to_nat s') ltac:(lia) ltac:(lia)).
      rewrite Z2Nat.id in Hmaxl by lia.
      replace (s' =? l) with false in Hmaxl by (symmetry; apply Z.eqb_neq; lia).
      exact Hmaxl.
Qed.

(** *** A block of compressed data *)

Lemma zreceive_opt_spec asserts inp p zb nb cb out lim ex zl zd e :
  zin_at inp p zb nb cb -> 0 <= e <= 24 ->
  exists zb' nb' cb',
    (if negb (e =? 0) then stbi__zreceive asserts e else ret 0)
      (mkZbuf zb nb cb out lim ex zl zd)
    = Ret (bits_lsb (zstream inp) p e, mkZbuf zb' nb' cb' out lim ex zl zd) /\
    zin_at inp (p + e) zb' nb' cb'.
Proof.
  intros Hin He. destruct (Z.eqb_spec e 0) as [->|Hne]; cbn [negb].
  - exists zb, nb, cb. rewrite bits_lsb_0, Z.add_0_r. split; [reflexivity|exact Hin].
  - apply stbi__zreceive_spec; assumption.
Qed.

Lemma length_tables (i : nat) :
  (i <= 28)%nat ->
  nth i stbi__zlength_base 0 = nth i length_base 0 /\
  nth i stbi__zlength_extra 0 = nth i length_extra 0 /\
  0 <= nth i length_extra 0 <= 5 /\ 3 <= nth i length_base 0.
Proof.
  intros Hi. unfold stbi__zlength_base, length_base, stbi__zlength_extra, length_extra.
  do 29 (destruct i as [|i]; [cbn [nth]; lia|]). lia.
Qed.

Lemma dist_tables (d : nat) :
  (d <= 29)%nat ->
  nth d stbi__zdist_base 0 = nth d dist_base 0 /\
  nth d stbi__zdist_extra 0 = nth d dist_extra 0 /\
  0 <= nth d dist_extra 0 <= 13 /\ 1 <= nth d dist_base 0.
Proof.
  intros Hd. unfold stbi__zdist_base, dist_base, stbi__zdist_extra, dist_extra.
  do 30 (destruct d as [|d]; [cbn [nth]; lia|]). lia.
Qed.

Lemma lz_copy_length len dist : forall out,
  length (lz_copy len dist out) = (length out + len)%nat.
Proof.
  induction len as [|len IH]; intros out; cbn [lz_copy]; [lia|].
  rewrite IH, length_app. cbn [length]. lia.
Qed.

Lemma last_nth (out : list Z) v :
  list.last out = Some v -> nth (length out - 1) out 0 = v.
Proof.
  intros H. rewrite last_lookup in H.
  replace (length out - 1)%nat with (Nat.pred (length out)) by lia.
  apply nth_lookup_Some with (d := 0) in H. exact H.
Qed.

(** A distance of 1 repeats the last byte. *)
Lemma lz_copy_1 len : forall out v,
  list.last out = Some v -> lz_copy len 1 out = out ++ replicate len v.
Proof.
  induction len as [|len IH]; intros out v Hv; cbn [lz_copy replicate].
  - rewrite app_nil_r. reflexivity.
  - rewrite (last_nth out v Hv). rewrite (IH _ v) by apply last_snoc.
    rewrite <- app_assoc. reflexivity.
Qed.

Lemma zcopy_back_spec len dist : forall out,
  1 <= dist <= Z.of_nat (length out) ->
  zcopy_back len dist out = Some (lz_copy len (Z.to_nat dist) out).
Proof.
  induction len as [|len IH]; intros out Hd; cbn [zcopy_back lz_copy]; [reflexivity|].
  destruct (Z.ltb_spec (Z.of_nat (length out) - dist) 0) as [|_]; [lia|].
  replace (Z.to_nat (Z.of_nat (length out) - dist)) with (length out - Z.to_nat dist)%nat
    by lia.
  rewrite (nth_lookup_Z out (length out - Z.to_nat dist)) by lia.
  apply IH. rewrite length_app. cbn [length]. lia.
Qed.

Lemma inflate_codes_length N lit dist : forall fuel p out p' out',
  inflate_codes fuel N lit dist p out = Some (p', out') ->
  (length out <= length out')%nat.
Proof.
  induction fuel as [|fuel IH]; intros p out p' out' H; [discriminate|].
  cbn [inflate_codes] in H. cbv zeta in H.
  destruct (sym_at N p lit) as [s|]; [|discriminate].
  destruct (s <? 256)%nat.
  { apply IH in H. rewrite length_app in H. cbn [length] in H. lia. }
  destruct (s =? 256)%nat.
  { injection H as _ <-. lia. }
  destruct (285 <? s)%nat; [discriminate|].
  destruct (sym_at N _ dist) as [d|]; [|discriminate].
  destruct (29 <? d)%nat; [discriminate|].
  destruct (_ >? _); [discriminate|].
  apply IH in H. rewrite lz_copy_length in H. lia.
Qed.

Lemma stbi__parse_huffman_block_spec asserts inp lit dist zl zd lim :
  ztable lit zl -> lengths_ok lit = true -> (length lit <= 288)%nat ->
  ztable dist zd -> lengths_ok dist = true -> (length dist <= 288)%nat ->
  forall fuel0 p out p' out',
  inflate_codes fuel0 (zstream inp) lit dist p out = Some (p', out') ->
  Z.of_nat (length out') <= lim ->
  forall fuel zb nb cb, (fuel0 <= fuel)%nat ->
  zin_at inp p zb nb cb ->
  exists zb' nb' cb',
    stbi__parse_huffman_block asserts fuel (mkZbuf zb nb cb out lim false zl zd)
    = Ret (1, mkZbuf zb' nb' cb' out' lim false zl zd) /\
    zin_at inp p' zb' nb' cb'.
Proof.
  intros Hzl Hokl Hll Hzd Hokd Hld fuel0.
  induction fuel0 as [|fuel0 IH]; intros p out p' out' Hspec Hlim fuel zb nb cb Hfuel Hin;
    [discriminate|].
  destruct fuel as [|fuel]; [lia|].
  cbn [inflate_codes] in Hspec. cbv zeta in Hspec.
  destruct (sym_at (zstream inp) p lit) as [s|] eqn:Es; [|discriminate].
  destruct (stbi__zhuffman_decode_spec asserts inp p zb nb cb out lim false zl zd lit zl s
              Hzl Hokl Hll Hin Es) as (zb1 & nb1 & cb1 & E1 & Hin1).
  cbn [stbi__parse_huffman_block].
  unfold bind at 1. unfold get at 1. cbn [z_length].
  rewrite (bind_eq_Ret _ _ _ _ _ E1).
  destruct (Nat.ltb_spec s 256) as [Hs|Hs].
  - (* a literal *)
    replace (Z.of_nat s <? 256) with true by (symmetry; apply Z.ltb_lt; lia).
    replace (Z.of_nat s <? 0) with false by (symmetry; apply Z.ltb_ge; lia).
    pose proof (inflate_codes_length _ _ _ _ _ _ _ _ Hspec) as Hlen.
    rewrite length_app in Hlen. cbn [length] in Hlen.
    unfold bind at 1. unfold get at 1. cbn [zout zout_limit].
    replace (Z.of_nat (length out) >=? lim) with false
      by (symmetry; rewrite Z.geb_leb; apply Z.leb_gt; lia).
    unfold bind at 1. unfold ret at 1. cbn [Z.eqb].
    unfold bind at 1. unfold get at 1.
    unfold bind at 1. unfold put at 1.
    cbn [set_zout zbuffer num_bits code_buffer zout zout_limit z_expandable
         z_length z_distance].
    unfold u8. change (2 ^ 8) with 256. rewrite Z.mod_small by lia.
    apply (IH _ _ _ _ Hspec Hlim); [lia|exact Hin1].
  - replace (Z.of_nat s <? 256) with false by (symmetry; apply Z.ltb_ge; lia).
    destruct (Nat.eqb_spec s 256) as [Hs256|Hs256].
    + (* the end of the block *)
      replace (Z.of_nat s =? 256) with true by (symmetry; apply Z.eqb_eq; lia).
      injection Hspec as <- <-.
      exists zb1, nb1, cb1. split; [reflexivity|exact Hin1].
    + (* a length and a distance *)
      replace (Z.of_nat s =? 256) with false by (symmetry; apply Z.eqb_neq; lia).
      destruct (Nat.ltb_spec 285 s) as [|Hs285]; [discriminate|].
      cbv zeta.
      replace (Z.to_nat (Z.of_nat s - 257)) with (s - 257)%nat by lia.
      set (i := (s - 257)%nat) in *.
      destruct (length_tables i ltac:(lia)) as (Hb & He & Her & Hbr).
      rewrite Hb, He.
      destruct (zreceive_opt_spec asserts inp _ zb1 nb1 cb1 out lim false zl zd
                  (nth i length_extra 0) Hin1 ltac:(lia))
        as (zb2 & nb2 & cb2 & E2 & Hin2).
      rewrite (bind_eq_Ret _ _ _ _ _ E2).
      unfold bind at 1. unfold get at 1. cbn [z_distance].
      destruct (sym_at (zstream inp) (p + nth s lit 0 + nth i length_extra 0) dist)
        as [d|] eqn:Ed; [|discriminate].
      destruct (Nat.ltb_spec 29 d) as [|Hd29]; [discriminate|].
      destruct (stbi__zhuffman_decode_spec asserts inp _ zb2 nb2 cb2 out lim false zl zd
                  dist zd d Hzd Hokd Hld Hin2 Ed) as (zb3 & nb3 & cb3 & E3 & Hin3).
      rewrite (bind_eq_Ret _ _ _ _ _ E3).
      replace (Z.of_nat d <? 0) with false by (symmetry; apply Z.ltb_ge; lia).
      rewrite Nat2Z.id.
      destruct (dist_tables d Hd29) as (Hdb & Hde & Hder & Hdbr).
      rewrite Hdb, Hde.
      destruct (zreceive_opt_spec asserts inp _ zb3 nb3 cb3 out lim false zl zd
                  (nth d dist_extra 0) Hin3 ltac:(lia))
        as (zb4 & nb4 & cb4 & E4 & Hin4).
      rewrite (bind_eq_Ret _ _ _ _ _ E4).
      unfold bind at 1. unfold get at 1. cbn [zout zout_limit].
      set (len := nth i length_base 0
                  + bits_lsb (zstream inp) (p + nth s lit 0) (nth i length_extra 0)) in *.
      set (dst := nth d dist_base 0
                  + bits_lsb (zstream inp)
                      (p + nth s lit 0 + nth i length_extra 0 + nth d dist 0)
                      (nth d dist_extra 0)) in *.
      pose proof (bits_lsb_range (zstream inp) (p + nth s lit 0) (nth i length_extra 0)
                    ltac:(lia)) as Hlr.
      pose proof (bits_lsb_range (zstream inp)
                    (p + nth s lit 0 + nth i length_extra 0 + nth d dist 0)
                    (nth d dist_extra 0) ltac:(lia)) as Hdr.
      destruct (Z.gtb_spec dst (Z.of_nat (length out))) as [|Hdst]; [discriminate|].
      replace (Z.of_nat (length out) <? dst) with false by (symmetry; apply Z.ltb_ge; lia).
      pose proof (inflate_codes_length _ _ _ _ _ _ _ _ Hspec) as Hlen.
      rewrite lz_copy_length in Hlen.
      replace (Z.of_nat (length out) + len >? lim) with false
        by (symmetry; rewrite Z.gtb_ltb; apply Z.ltb_ge; lia).
      unfold bind at 1. unfold ret at 1. cbn [Z.eqb].
      unfold bind at 1. unfold get at 1. cbn [zout].
      destruct (Z.eqb_spec dst 1) as [Hd1|Hd1].
      * destruct (list.last out) as [v|] eqn:Elast.
        2:{ apply last_None in Elast. subst out. cbn [length] in Hdst. lia. }
        unfold bind at 1. unfold put at 1.
        cbn [set_zout zbuffer num_bits code_buffer zout zout_limit z_expandable
             z_length z_distance].
        rewrite Hd1 in Hspec. change (Z.to_nat 1) with 1%nat in Hspec.
        rewrite (lz_copy_1 _ _ v Elast) in Hspec.
        apply (IH _ _ _ _ Hspec Hlim); [lia|exact Hin4].
      * rewrite zcopy_back_spec by lia.
        unfold bind at 1. unfold put at 1.
        cbn [set_zout zbuffer num_bits code_buffer zout zout_limit z_expandable
             z_length z_distance].
        apply (IH _ _ _ _ Hspec Hlim); [lia|exact Hin4].
Qed.

(** *** A stored block *)

Lemma zdrain_header_spec N : forall (m n : nat) p nb cb header,
  nb = 8 * Z.of_nat m -> (m <= n)%nat -> 0 <= p -> cb = bits_lsb N p nb ->
  zdrain_header n nb cb header
  = Some (0, 0, header ++ map (fun i => bits_lsb N (p + 8 * Z.of_nat i) 8) (seq 0 m)).
Proof.
  induction m as [|m IH]; intros n p nb cb header Hnb Hn Hp Hcb.
  - subst nb. change (8 * Z.of_nat 0) with 0 in Hcb. rewrite bits_lsb_0 in Hcb. subst cb.
    cbn [seq map]. rewrite app_nil_r. destruct n; reflexivity.
  - destruct n as [|n]; [lia|]. cbn [zdrain_header].
    replace (nb >? 0) with true by (symmetry; rewrite Z.gtb_ltb; apply Z.ltb_lt; lia).
    rewrite (IH n (p + 8) (nb - 8) (Z.shiftr cb 8)); [|lia|lia|lia|].
    + f_equal. f_equal. rewrite <- app_assoc. f_equal.
      cbn [seq map app]. f_equal.
      * change 255 with (Z.ones 8). rewrite Hcb, bits_lsb_low by lia.
        f_equal. lia.
      * rewrite <- seq_shift, map_map. apply map_ext. intros i. f_equal. lia.
    + rewrite Hcb. apply bits_lsb_shiftr; lia.
Qed.

Lemma zfill_header_spec inp nb cb out lim ex zl zd : forall (n : nat) header (k : nat),
  zfill_header n header (mkZbuf (drop k inp) nb cb out lim ex zl zd)
  = Ret (header ++ map (fun i => bits_lsb (zstream inp) (8 * Z.of_nat (k + i)) 8) (seq 0 n),
         mkZbuf (drop (k + n) inp) nb cb out lim ex zl zd).
Proof.
  induction n as [|n IH]; intros header k.
  - cbn [zfill_header seq map]. rewrite app_nil_r, Nat.add_0_r. reflexivity.
  - cbn [zfill_header]. rewrite (bind_eq_Ret _ _ _ _ _ (stbi__zget8_spec _ _ _ _ _ _ _ _ _)).
    rewrite IH. f_equal. f_equal.
    + rewrite <- app_assoc. f_equal. cbn [seq map app]. f_equal.
      * f_equal. lia.
      * rewrite <- seq_shift, map_map. apply map_ext. intros i. f_equal. lia.
    + f_equal. f_equal. lia.
Qed.

(** Two bytes of the stream, the first one least significant. *)
Lemma bits_lsb_16 N p :
  0 <= p -> bits_lsb N (p + 8) 8 * 256 + bits_lsb N p 8 = bits_lsb N p 16.
Proof.
  intros Hp. rewrite !bits_lsb_mod by lia.
  replace (Z.shiftr N (p + 8)) with (Z.shiftr N p / 2 ^ 8)
    by (rewrite <- Z.shiftr_div_pow2, Z.shiftr_shiftr by lia; reflexivity).
  change (2 ^ 8) with 256. change (2 ^ 16) with 65536.
  generalize (Z.shiftr N p). intros X. Z.div_mod_to_equations. lia.
Qed.

Lemma stbi__parse_uncompressed_block_spec asserts inp p zb nb cb out lim zl zd :
  zin_at inp p zb nb cb ->
  let N := zstream inp in
  let q := (p + 7) / 8 in
  let len := bits_lsb N (8 * q) 16 in
  bits_lsb N (8 * q + 16) 16 = Z.lxor len 0xFFFF ->
  q + 4 + len <= Z.of_nat (length inp) ->
  Z.of_nat (length out) + len <= lim ->
  exists zb' nb' cb',
    stbi__parse_uncompressed_block asserts (mkZbuf zb nb cb out lim false zl zd)
    = Ret (1, mkZbuf zb' nb' cb'
                (out ++ map u8 (take (Z.to_nat len) (drop (Z.to_nat (q + 4)) inp)))
                lim false zl zd) /\
    zin_at inp (8 * (q + 4 + len)) zb' nb' cb'.
Proof.
  intros Hin N q len Hnlen Hlen Hlim.
  unfold stbi__parse_uncompressed_block.
  unfold bind at 1. unfold get at 1. cbn [num_bits].
  (* to the next byte *)
  assert (Hal : exists zb1 nb1 cb1,
    ((if negb (Z.land nb 7 =? 0)
      then (stbi__zreceive asserts (Z.land nb 7) ;; ret tt) else ret tt)
       (mkZbuf zb nb cb out lim false zl zd))
    = Ret (tt, mkZbuf zb1 nb1 cb1 out lim false zl zd) /\
    zin_at inp (8 * q) zb1 nb1 cb1).
  { pose proof Hin as (Hp & Hnb & Hcb & k & Hzb & Hk).
    change 7 with (Z.ones 3). rewrite Z.land_ones by lia. change (2 ^ 3) with 8.
    assert (Hq : 8 * q = p + nb mod 8).
    { unfold q. Z.div_mod_to_equations. lia. }
    rewrite Hq.
    destruct (Z.eqb_spec (nb mod 8) 0) as [E0|E0]; cbn [negb].
    - exists zb, nb, cb. rewrite E0, Z.add_0_r. split; [reflexivity|exact Hin].
    - destruct (stbi__zreceive_spec asserts inp p zb nb cb out lim false zl zd (nb mod 8) Hin)
        as (zb1 & nb1 & cb1 & E & Hin1).
      { pose proof (Z.mod_pos_bound nb 8). lia. }
      exists zb1, nb1, cb1. rewrite (bind_eq_Ret _ _ _ _ _ E).
      split; [reflexivity|exact Hin1]. }
  destruct Hal as (zb1 & nb1 & cb1 & E1 & (Hp1 & Hnb1 & Hcb1 & k1 & Hzb1 & Hk1)).
  rewrite (bind_eq_Ret _ _ _ _ _ E1).
  unfold bind at 1. unfold get at 1. cbn [num_bits code_buffer].
  (* the bytes of the bit buffer *)
  assert (Hm : exists m : nat, nb1 = 8 * Z.of_nat m /\ (m <= 4)%nat /\ k1 = (Z.to_nat q + m)%nat).
  { exists (Z.to_nat (nb1 / 8)). split; [|split].
    - rewrite Z2Nat.id by (apply Z.div_pos; lia). Z.div_mod_to_equations. lia.
    - assert (nb1 / 8 <= 4) by (Z.div_mod_to_equations; lia). lia.
    - assert (0 <= nb1 / 8) by (apply Z.div_pos; lia).
      assert (Z.of_nat k1 = q + nb1 / 8) by (Z.div_mod_to_equations; lia). lia. }
  destruct Hm as (m & Hm & Hm4 & Hk1m).
  rewrite (zdrain_header_spec N m 4 (8 * q) nb1 cb1 []) by (try assumption; lia).
  unfold bind at 1. unfold put at 1.
  cbn [set_bits zbuffer num_bits code_buffer zout zout_limit z_expandable
       z_length z_distance].
  unfold bind at 1. unfold c_assert. cbn [Z.eqb negb]. rewrite andb_false_r.
  unfold ret at 1. cbn [app].
  rewrite Hzb1. rewrite length_map, length_seq.
  unfold set_bits.
  cbn [zbuffer num_bits code_buffer zout zout_limit z_expandable z_length z_distance].
  unfold bind at 1. rewrite zfill_header_spec.
  assert (Hq0 : 0 <= q) by lia.
  replace (k1 + (4 - m))%nat with (Z.to_nat (q + 4)) by lia.
  set (header := map _ (seq 0 m) ++ map _ (seq 0 (4 - m))).
  assert (Hh : forall j : nat, (j < 4)%nat ->
            nth j header 0 = bits_lsb N (8 * q + 8 * Z.of_nat j) 8).
  { intros j Hj. unfold header. subst k1.
    destruct m as [|[|[|[|[|m]]]]]; [| | | | |lia];
      cbn [seq map app Nat.sub];
      (destruct j as [|[|[|[|j]]]]; [| | | |lia]); cbn [nth]; f_equal; lia. }
  rewrite (Hh 0%nat), (Hh 1%nat), (Hh 2%nat), (Hh 3%nat) by lia.
  change (8 * Z.of_nat 0) with 0. rewrite Z.add_0_r.
  replace (8 * q + 8 * Z.of_nat 3) with (8 * q + 16 + 8) by lia.
  replace (8 * q + 8 * Z.of_nat 2) with (8 * q + 16) by lia.
  replace (8 * q + 8 * Z.of_nat 1) with (8 * q + 8) by lia.
  rewrite !bits_lsb_16 by lia. fold len.
  rewrite Hnlen, Z.eqb_refl. cbn [negb].
  unfold bind at 1. unfold get at 1. cbn [zbuffer zout zout_limit].
  pose proof (bits_lsb_range N (8 * q) 16 ltac:(lia)) as Hlr. fold len in Hlr.
  rewrite length_drop.
  replace (len >? Z.of_nat (length inp - Z.to_nat (q + 4))) with false
    by (symmetry; rewrite Z.gtb_ltb; apply Z.ltb_ge; lia).
  replace (Z.of_nat (length out) + len >? lim) with false
    by (symmetry; rewrite Z.gtb_ltb; apply Z.ltb_ge; lia).
  unfold bind at 1. unfold ret at 1. cbn [Z.eqb].
  unfold bind at 1. unfold get at 1.
  unfold bind at 1. unfold put at 1. unfold ret.
  cbn [set_zbuffer set_zout zbuffer num_bits code_buffer zout zout_limit z_expandable
       z_length z_distance].
  exists (drop (Z.to_nat len) (drop (Z.to_nat (q + 4)) inp)), 0, 0.
  split; [reflexivity|].
  split; [lia|]. split; [lia|]. split; [rewrite bits_lsb_0; reflexivity|].
  exists (Z.to_nat (q + 4) + Z.to_nat len)%nat. split.
  - rewrite drop_drop. reflexivity.
  - lia.
Qed.

(** *** The code lengths of a dynamic block *)

Lemma replicate_repeat {A} (n : nat) (x : A) : replicate n x = repeat x n.
Proof. induction n as [|n IH]; cbn [replicate repeat]; [reflexivity|]. rewrite IH. reflexivity. Qed.

Lemma last_default (acc : list Z) :
  acc <> [] -> list.last acc = Some (List.last acc 0).
Proof.
  induction acc as [|a [|b r] IH]; intros H; [congruence|reflexivity|].
  specialize (IH ltac:(discriminate)). exact IH.
Qed.

Lemma read_cl_lengths_length N : forall order p cl,
  length (read_cl_lengths N p order cl) = length cl.
Proof.
  induction order as [|o order IH]; intros p cl; cbn [read_cl_lengths]; [reflexivity|].
  rewrite IH. apply length_insert.
Qed.

Lemma zcodelength_sizes_spec asserts inp out lim ex zl zd : forall order sizes p zb nb cb,
  zin_at inp p zb nb cb ->
  exists zb' nb' cb',
    zcodelength_sizes asserts (map Z.of_nat order) sizes (mkZbuf zb nb cb out lim ex zl zd)
    = Ret (read_cl_lengths (zstream inp) p order sizes,
           mkZbuf zb' nb' cb' out lim ex zl zd) /\
    zin_at inp (p + 3 * Z.of_nat (length order)) zb' nb' cb'.
Proof.
  induction order as [|o order IH]; intros sizes p zb nb cb Hin.
  - exists zb, nb, cb. cbn [map zcodelength_sizes read_cl_lengths length].
    change (3 * Z.of_nat 0) with 0. rewrite Z.add_0_r. split; [reflexivity|exact Hin].
  - cbn [map zcodelength_sizes read_cl_lengths].
    destruct (stbi__zreceive_spec asserts inp p zb nb cb out lim ex zl zd 3 Hin ltac:(lia))
      as (zb1 & nb1 & cb1 & E1 & Hin1).
    rewrite (bind_eq_Ret _ _ _ _ _ E1).
    pose proof (bits_lsb_range (zstream inp) p 3 ltac:(lia)) as Hr.
    change (2 ^ 3) with 8 in Hr.
    unfold u8. change (2 ^ 8) with 256. rewrite Z.mod_small by lia.
    rewrite Nat2Z.id.
    destruct (IH (<[o := bits_lsb (zstream inp) p 3]> sizes) (p + 3) zb1 nb1 cb1 Hin1)
      as (zb2 & nb2 & cb2 & E2 & Hin2).
    exists zb2, nb2, cb2. split; [exact E2|].
    replace (p + 3 * Z.of_nat (length (o :: order)))
      with (p + 3 + 3 * Z.of_nat (length order)) by (cbn [length]; lia).
    exact Hin2.
Qed.

Lemma read_lengths_eq fuel N cl total p acc :
  read_lengths fuel N cl total p acc =
  if (total <=? length acc)%nat then
    if (length acc =? total)%nat then Some (p, acc) else None
  else
    match fuel with
    | O => None
    | S fuel' =>
        match sym_at N p cl with
        | None => None
        | Some s =>
            let p := p + nth s cl 0 in
            if (s <? 16)%nat then
              read_lengths fuel' N cl total p (acc ++ [Z.of_nat s])
            else if (s =? 16)%nat then
              match acc with
              | [] => None
              | _ => read_lengths fuel' N cl total (p + 2)
                       (acc ++ repeat (List.last acc 0) (Z.to_nat (3 + bits_lsb N p 2)))
              end
            else if (s =? 17)%nat then
              read_lengths fuel' N cl total (p + 3)
                (acc ++ repeat 0 (Z.to_nat (3 + bits_lsb N p 3)))
            else
              read_lengths fuel' N cl total (p + 7)
                (acc ++ repeat 0 (Z.to_nat (11 + bits_lsb N p 7)))
        end
    end.
Proof. destruct fuel; reflexivity. Qed.

Lemma read_lengths_length N cl total : forall fuel p acc p' lens,
  read_lengths fuel N cl total p acc = Some (p', lens) ->
  length lens = total /\ (length acc <= total)%nat.
Proof.
  induction fuel as [|fuel IH]; intros p acc p' lens H; rewrite read_lengths_eq in H.
  - destruct (Nat.leb_spec total (length acc)); [|discriminate].
    destruct (Nat.eqb_spec (length acc) total); [|discriminate].
    injection H as _ <-. lia.
  - destruct (Nat.leb_spec total (length acc)).
    { destruct (Nat.eqb_spec (length acc) total); [|discriminate].
      injection H as _ <-. lia. }
    destruct (sym_at N p cl) as [s|]; [|discriminate]. cbv zeta in H.
    destruct (s <? 16)%nat.
    { apply IH in H. rewrite length_app in H. lia. }
    destruct (s =? 16)%nat.
    { destruct acc as [|a acc']; [discriminate|].
      apply IH in H. rewrite length_app in H. lia. }
    destruct (s =? 17)%nat.
    { apply IH in H. rewrite length_app in H. lia. }
    apply IH in H. rewrite length_app in H. lia.
Qed.

Lemma zcodelengths_done asserts fuel (total : nat) z acc st :
  (total <= length acc)%nat ->
  zcodelengths asserts fuel (Z.of_nat total) z acc st = Ret (Some acc, st).
Proof.
  intros H. destruct fuel; cbn [zcodelengths]; [reflexivity|].
  replace (Z.of_nat (length acc) <? Z.of_nat total) with false
    by (symmetry; apply Z.ltb_ge; lia).
  reflexivity.
Qed.

Lemma zcodelengths_spec asserts inp out lim ex zl zd cl zcl (total : nat) :
  ztable cl zcl -> lengths_ok cl = true -> length cl = 19%nat ->
  (total <= 455)%nat ->
  forall fuel0 p acc p' lens,
  read_lengths fuel0 (zstream inp) cl total p acc = Some (p', lens) ->
  forall fuel zb nb cb, (fuel0 <= fuel)%nat ->
  zin_at inp p zb nb cb ->
  exists zb' nb' cb',
    zcodelengths asserts fuel (Z.of_nat total) zcl acc (mkZbuf zb nb cb out lim ex zl zd)
    = Ret (Some lens, mkZbuf zb' nb' cb' out lim ex zl zd) /\
    zin_at inp p' zb' nb' cb'.
Proof.
  intros Hz Hok Hlen Htot fuel0.
  induction fuel0 as [|fuel0 IH]; intros p acc p' lens Hspec fuel zb nb cb Hfuel Hin;
    rewrite read_lengths_eq in Hspec.
  - destruct (Nat.leb_spec total (length acc)) as [Hdone|]; [|discriminate].
    destruct (Nat.eqb_spec (length acc) total); [|discriminate].
    injection Hspec as <- <-. exists zb, nb, cb.
    split; [apply zcodelengths_done; exact Hdone|exact Hin].
  - destruct (Nat.leb_spec total (length acc)) as [Hdone|Hmore].
    { destruct (Nat.eqb_spec (length acc) total); [|discriminate].
      injection Hspec as <- <-. exists zb, nb, cb.
      split; [apply zcodelengths_done; exact Hdone|exact Hin]. }
    destruct fuel as [|fuel]; [lia|].
    destruct (sym_at (zstream inp) p cl) as [s|] eqn:Es; [|discriminate].
    cbv zeta in Hspec.
    pose proof (sym_at_Some _ _ _ _ Es) as [Hs19 _]. rewrite Hlen in Hs19.
    destruct (stbi__zhuffman_decode_spec asserts inp p zb nb cb out lim ex zl zd cl zcl s
                Hz Hok ltac:(lia) Hin Es) as (zb1 & nb1 & cb1 & E1 & Hin1).
    cbn [zcodelengths]. cbv zeta.
    replace (Z.of_nat (length acc) <? Z.of_nat total) with true
      by (symmetry; apply Z.ltb_lt; lia).
    cbn [negb].
    rewrite (bind_eq_Ret _ _ _ _ _ E1).
    replace (Z.of_nat s <? 0) with false by (symmetry; apply Z.ltb_ge; lia).
    replace (Z.of_nat s >=? 19) with false
      by (symmetry; rewrite Z.geb_leb; apply Z.leb_gt; lia).
    cbn [orb].
    destruct (Nat.ltb_spec s 16) as [H16|H16].
    + replace (Z.of_nat s <? 16) with true by (symmetry; apply Z.ltb_lt; lia).
      unfold u8. change (2 ^ 8) with 256. rewrite Z.mod_small by lia.
      apply (IH _ _ _ _ Hspec); [lia|exact Hin1].
    + replace (Z.of_nat s <? 16) with false by (symmetry; apply Z.ltb_ge; lia).
      destruct (Nat.eqb_spec s 16) as [E16|N16].
      * replace (Z.of_nat s =? 16) with true by (symmetry; apply Z.eqb_eq; lia).
        destruct (stbi__zreceive_spec asserts inp _ zb1 nb1 cb1 out lim ex zl zd 2 Hin1
                    ltac:(lia)) as (zb2 & nb2 & cb2 & E2 & Hin2).
        rewrite (bind_eq_Ret _ _ _ _ _ E2). cbv zeta.
        assert (Hne : acc <> []) by (destruct acc; [discriminate|discriminate]).
        rewrite (last_default acc Hne).
        assert (Hspec' : read_lengths fuel0 (zstream inp) cl total (p + nth s cl 0 + 2)
                  (acc ++ repeat (List.last acc 0)
                     (Z.to_nat (3 + bits_lsb (zstream inp) (p + nth s cl 0) 2)))
                = Some (p', lens)) by (destruct acc; [congruence|exact Hspec]).
        pose proof (read_lengths_length _ _ _ _ _ _ _ _ Hspec') as [_ Hb].
        rewrite length_app, repeat_length in Hb.
        pose proof (bits_lsb_range (zstream inp) (p + nth s cl 0) 2 ltac:(lia)) as Hr.
        replace (Z.of_nat (length acc) + (bits_lsb (zstream inp) (p + nth s cl 0) 2 + 3)
                 >? 286 + 32 + 137) with false
          by (symmetry; rewrite Z.gtb_ltb; apply Z.ltb_ge; lia).
        rewrite replicate_repeat.
        rewrite (Z.add_comm (bits_lsb (zstream inp) (p + nth s cl 0) 2) 3).
        apply (IH _ _ _ _ Hspec'); [lia|exact Hin2].
      * replace (Z.of_nat s =? 16) with false by (symmetry; apply Z.eqb_neq; lia).
        destruct (Nat.eqb_spec s 17) as [E17|N17].
        -- replace (Z.of_nat s =? 17) with true by (symmetry; apply Z.eqb_eq; lia).
           destruct (stbi__zreceive_spec asserts inp _ zb1 nb1 cb1 out lim ex zl zd 3 Hin1
                       ltac:(lia)) as (zb2 & nb2 & cb2 & E2 & Hin2).
           rewrite (bind_eq_Ret _ _ _ _ _ E2). cbv zeta.
           pose proof (read_lengths_length _ _ _ _ _ _ _ _ Hspec) as [_ Hb].
           rewrite length_app, repeat_length in Hb.
           pose proof (bits_lsb_range (zstream inp) (p + nth s cl 0) 3 ltac:(lia)) as Hr.
           replace (Z.of_nat (length acc) + (bits_lsb (zstream inp) (p + nth s cl 0) 3 + 3)
                    >? 286 + 32 + 137) with false
             by (symmetry; rewrite Z.gtb_ltb; apply Z.ltb_ge; lia).
           rewrite replicate_repeat.
           rewrite (Z.add_comm (bits_lsb (zstream inp) (p + nth s cl 0) 3) 3).
           apply (IH _ _ _ _ Hspec); [lia|exact Hin2].
        -- replace (Z.of_nat s =? 17) with false by (symmetry; apply Z.eqb_neq; lia).
           destruct (stbi__zreceive_spec asserts inp _ zb1 nb1 cb1 out lim ex zl zd 7 Hin1
                       ltac:(lia)) as (zb2 & nb2 & cb2 & E2 & Hin2).
           rewrite (bind_eq_Ret _ _ _ _ _ E2). cbv zeta.
           pose proof (read_lengths_length _ _ _ _ _ _ _ _ Hspec) as [_ Hb].
           rewrite length_app, repeat_length in Hb.
           pose proof (bits_lsb_range (zstream inp) (p + nth s cl 0) 7 ltac:(lia)) as Hr.
           replace (Z.of_nat (length acc) + (bits_lsb (zstream inp) (p + nth s cl 0) 7 + 11)
                    >? 286 + 32 + 137) with false
             by (symmetry; rewrite Z.gtb_ltb; apply Z.ltb_ge; lia).
           rewrite replicate_repeat.
           rewrite (Z.add_comm (bits_lsb (zstream inp) (p + nth s cl 0) 7) 11).
           apply (IH _ _ _ _ Hspec); [lia|exact Hin2].
Qed.

Lemma stbi__compute_huffman_codes_spec asserts inp p zb nb cb out lim ex zl zd p' lens :
  zin_at inp p zb nb cb ->
  let N := zstream inp in
  let hlit := Z.to_nat (bits_lsb N p 5 + 257) in
  let hdist := Z.to_nat (bits_lsb N (p + 5) 5 + 1) in
  let hclen := Z.to_nat (bits_lsb N (p + 10) 4 + 4) in
  let cl := read_cl_lengths N (p + 14) (firstn hclen code_length_order) (repeat 0 19) in
  lengths_ok cl = true ->
  read_lengths (hlit + hdist) N cl (hlit + hdist) (p + 14 + 3 * Z.of_nat hclen) []
  = Some (p', lens) ->
  lengths_ok (firstn hlit lens) = true -> lengths_ok (skipn hlit lens) = true ->
  exists zb' nb' cb' zl' zd',
    stbi__compute_huffman_codes asserts (mkZbuf zb nb cb out lim ex zl zd)
    = Ret (1, mkZbuf zb' nb' cb' out lim ex zl' zd') /\
    zin_at inp p' zb' nb' cb' /\
    ztable (firstn hlit lens) zl' /\ ztable (skipn hlit lens) zd' /\
    (length (firstn hlit lens) <= 288)%nat /\ (length (skipn hlit lens) <= 288)%nat.
Proof.
  intros Hin N hlit hdist hclen cl Hokcl Hrl Hokl Hokd.
  pose proof (bits_lsb_range N p 5 ltac:(lia)) as Hr1.
  pose proof (bits_lsb_range N (p + 5) 5 ltac:(lia)) as Hr2.
  pose proof (bits_lsb_range N (p + 10) 4 ltac:(lia)) as Hr3.
  change (2 ^ 5) with 32 in Hr1, Hr2. change (2 ^ 4) with 16 in Hr3.
  unfold stbi__compute_huffman_codes.
  destruct (stbi__zreceive_spec asserts inp p zb nb cb out lim ex zl zd 5 Hin ltac:(lia))
    as (zb1 & nb1 & cb1 & E1 & Hin1).
  rewrite (bind_eq_Ret _ _ _ _ _ E1).
  destruct (stbi__zreceive_spec asserts inp _ zb1 nb1 cb1 out lim ex zl zd 5 Hin1 ltac:(lia))
    as (zb2 & nb2 & cb2 & E2 & Hin2).
  rewrite (bind_eq_Ret _ _ _ _ _ E2).
  destruct (stbi__zreceive_spec asserts inp _ zb2 nb2 cb2 out lim ex zl zd 4 Hin2 ltac:(lia))
    as (zb3 & nb3 & cb3 & E3 & Hin3).
  rewrite (bind_eq_Ret _ _ _ _ _ E3).
  cbv zeta. fold N.
  replace (p + 5 + 5) with (p + 10) in * by lia.
  replace (p + 10 + 4) with (p + 14) in * by lia.
  change length_dezigzag with (map Z.of_nat code_length_order).
  rewrite firstn_map. fold hclen.
  change (replicate 19 0) with (repeat 0 19).
  destruct (zcodelength_sizes_spec asserts inp out lim ex zl zd
              (firstn hclen code_length_order) (repeat 0 19) _ zb3 nb3 cb3 Hin3)
    as (zb4 & nb4 & cb4 & E4 & Hin4).
  rewrite (bind_eq_Ret _ _ _ _ _ E4). fold N. fold cl.
  assert (Hlcl : length cl = 19%nat).
  { unfold cl. rewrite read_cl_lengths_length. reflexivity. }
  destruct (stbi__zbuild_huffman_spec cl zhuffman_0 Hokcl ltac:(lia)) as (zcl & Ez & Hzt).
  rewrite Ez.
  assert (Hhc : length (firstn hclen code_length_order) = hclen).
  { rewrite firstn_length_le; [reflexivity|]. change (length code_length_order) with 19%nat.
    unfold hclen. lia. }
  rewrite Hhc in Hin4.
  replace (bits_lsb N p 5 + 257 + (bits_lsb N (p + 5) 5 + 1))
    with (Z.of_nat (hlit + hdist)) by (unfold hlit, hdist; lia).
  rewrite Nat2Z.id.
  destruct (zcodelengths_spec asserts inp out lim ex zl zd cl zcl (hlit + hdist)
              Hzt Hokcl Hlcl ltac:(unfold hlit, hdist; lia) _ _ _ _ _ Hrl
              (hlit + hdist)%nat zb4 nb4 cb4 ltac:(lia) Hin4)
    as (zb5 & nb5 & cb5 & E5 & Hin5).
  rewrite (bind_eq_Ret _ _ _ _ _ E5).
  pose proof (read_lengths_length _ _ _ _ _ _ _ _ Hrl) as [Hll _].
  rewrite Hll, Z.eqb_refl. cbn [negb].
  unfold bind at 1. unfold get at 1. cbn [z_length].
  replace (Z.to_nat (bits_lsb N p 5 + 257)) with hlit by reflexivity.
  replace (Z.to_nat (bits_lsb N (p + 5) 5 + 1)) with hdist by reflexivity.
  assert (Hl1 : (length (firstn hlit lens) <= 288)%nat).
  { rewrite length_take. unfold hlit. lia. }
  assert (Hl2 : (length (skipn hlit lens) <= 288)%nat).
  { rewrite length_drop, Hll. unfold hdist. lia. }
  destruct (stbi__zbuild_huffman_spec (firstn hlit lens) zl Hokl Hl1) as (zl' & Ezl & Hzl).
  rewrite Ezl.
  unfold bind at 1. unfold put at 1.
  unfold bind at 1. unfold get at 1. unfold set_z_length.
  cbn [zbuffer num_bits code_buffer zout zout_limit z_expandable z_length z_distance].
  assert (Htd : take hdist (drop hlit lens) = skipn hlit lens).
  { apply take_ge. rewrite length_drop, Hll. lia. }
  rewrite Htd.
  destruct (stbi__zbuild_huffman_spec (skipn hlit lens) zd Hokd Hl2) as (zd' & Ezd & Hzd).
  rewrite Ezd.
  unfold bind at 1. unfold put at 1. unfold ret. unfold set_z_distance.
  cbn [zbuffer num_bits code_buffer zout zout_limit z_expandable z_length z_distance].
  exists zb5, nb5, cb5, zl', zd'.
  split; [reflexivity|]. split; [exact Hin5|]. split; [exact Hzl|]. split; [exact Hzd|].
  split; assumption.
Qed.

(** *** The blocks of a stream *)

Lemma stbi__zdefault_length_fixed : stbi__zdefault_length = fixed_lit.
Proof. reflexivity. Qed.

Lemma stbi__zdefault_distance_fixed : stbi__zdefault_distance = fixed_dist.
Proof. reflexivity. Qed.

Lemma lengths_ok_fixed_lit : lengths_ok fixed_lit = true.
Proof. vm_compute. reflexivity. Qed.

Lemma lengths_ok_fixed_dist : lengths_ok fixed_dist = true.
Proof. vm_compute. reflexivity. Qed.

Lemma inflate_block_length fuel inp type p out p' out' :
  inflate_block fuel inp type p out = Some (p', out') ->
  (length out <= length out')%nat.
Proof.
  unfold inflate_block. cbv zeta. intros H.
  destruct (type =? 0).
  { destruct (negb _); [discriminate|]. destruct (_ >? _); [discriminate|].
    injection H as _ <-. rewrite length_app. lia. }
  destruct (type =? 1).
  { eapply inflate_codes_length. exact H. }
  destruct (type =? 2); [|discriminate].
  destruct (negb _); [discriminate|].
  destruct (read_lengths _ _ _ _ _ _) as [[p1 lens]|]; [|discriminate].
  destruct (_ && _); [|discriminate].
  eapply inflate_codes_length. exact H.
Qed.

Lemma inflate_blocks_length inp : forall fuel p out data,
  inflate_blocks fuel inp p out = Some data -> (length out <= length data)%nat.
Proof.
  induction fuel as [|fuel IH]; intros p out data H; [discriminate|].
  cbn [inflate_blocks] in H. cbv zeta in H.
  destruct (inflate_block _ _ _ _ _) as [[p1 out1]|] eqn:Eb; [|discriminate].
  apply inflate_block_length in Eb.
  destruct (_ =? 1).
  - injection H as <-. exact Eb.
  - apply IH in H. lia.
Qed.

Lemma bind_assoc {St A B C} (m : M St A) (k : A -> M St B) (k' : B -> M St C) s :
  bind (bind m k) k' s = bind m (fun x => bind (k x) k') s.
Proof. unfold bind. destruct (m s) as [[a s']| | |]; reflexivity. Qed.

Lemma stbi__parse_zlib_blocks_spec asserts inp lim : forall fuel0 p out data,
  inflate_blocks fuel0 inp p out = Some data ->
  Z.of_nat (length data) <= lim ->
  forall fuel zb nb cb zl zd, (fuel0 <= fuel)%nat ->
  zin_at inp p zb nb cb ->
  exists zb' nb' cb' zl' zd',
    stbi__parse_zlib_blocks asserts fuel (mkZbuf zb nb cb out lim false zl zd)
    = Ret (1, mkZbuf zb' nb' cb' data lim false zl' zd').
Proof.
  induction fuel0 as [|fuel0 IH];
    intros p out data Hspec Hlim fuel zb nb cb zl zd Hfuel Hin; [discriminate|].
  destruct fuel as [|fuel]; [lia|].
  cbn [inflate_blocks] in Hspec. cbv zeta in Hspec.
  set (N := zstream inp) in *.
  destruct (inflate_block (S fuel0) inp (bits_lsb N (p + 1) 2) (p + 3) out)
    as [[p1 out1]|] eqn:Eb; [|discriminate].
  assert (Hlim1 : Z.of_nat (length out1) <= lim).
  { destruct (bits_lsb N p 1 =? 1).
    - injection Hspec as <-. lia.
    - apply inflate_blocks_length in Hspec. lia. }
  pose proof (inflate_block_length _ _ _ _ _ _ _ Eb) as Hmono.
  cbn [stbi__parse_zlib_blocks].
  destruct (stbi__zreceive_spec asserts inp p zb nb cb out lim false zl zd 1 Hin ltac:(lia))
    as (zb1 & nb1 & cb1 & E1 & Hin1).
  rewrite (bind_eq_Ret _ _ _ _ _ E1).
  destruct (stbi__zreceive_spec asserts inp _ zb1 nb1 cb1 out lim false zl zd 2 Hin1
              ltac:(lia)) as (zb2 & nb2 & cb2 & E2 & Hin2).
  rewrite (bind_eq_Ret _ _ _ _ _ E2).
  replace (p + 1 + 2) with (p + 3) in Hin2 by lia.
  fold N.
  (* after the block *)
  assert (Htail : forall zb3 nb3 cb3 zl3 zd3,
    zin_at inp p1 zb3 nb3 cb3 ->
    exists zb' nb' cb' zl' zd',
      (if bits_lsb N p 1 =? 0 then stbi__parse_zlib_blocks asserts fuel else ret 1)
        (mkZbuf zb3 nb3 cb3 out1 lim false zl3 zd3)
      = Ret (1, mkZbuf zb' nb' cb' data lim false zl' zd')).
  { intros zb3 nb3 cb3 zl3 zd3 Hin3.
    pose proof (bits_lsb_range N p 1 ltac:(lia)) as Hf. change (2 ^ 1) with 2 in Hf.
    destruct (Z.eqb_spec (bits_lsb N p 1) 1) as [Ef|Ef].
    - injection Hspec as <-. rewrite Ef. cbn [Z.eqb].
      exists zb3, nb3, cb3, zl3, zd3. reflexivity.
    - replace (bits_lsb N p 1 =? 0) with true by (symmetry; apply Z.eqb_eq; lia).
      apply (IH _ _ _ Hspec Hlim); [lia|exact Hin3]. }
  pose proof (bits_lsb_range N (p + 1) 2 ltac:(lia)) as Ht. change (2 ^ 2) with 4 in Ht.
  unfold inflate_block in Eb. cbv zeta in Eb. fold N in Eb.
  destruct (Z.eqb_spec (bits_lsb N (p + 1) 2) 0) as [T0|T0].
  - (* stored *)
    destruct (negb _) eqn:Enl; [discriminate|].
    apply negb_false_iff, Z.eqb_eq in Enl.
    destruct (Z.gtb_spec ((p + 3 + 7) / 8 + 4 + bits_lsb N (8 * ((p + 3 + 7) / 8)) 16)
                         (Z.of_nat (length inp))) as [|Hfit]; [discriminate|].
    injection Eb as <- <-.
    rewrite length_app, length_map in Hlim1.
    pose proof (bits_lsb_range N (8 * ((p + 3 + 7) / 8)) 16 ltac:(lia)) as Hlr.
    assert (Hq0 : 0 <= (p + 3 + 7) / 8).
    { destruct Hin as (Hp & _). apply Z.div_pos; lia. }
    rewrite length_take, length_drop in Hlim1.
    destruct (stbi__parse_uncompressed_block_spec asserts inp (p + 3) zb2 nb2 cb2 out lim
                zl zd Hin2 Enl Hfit ltac:(fold N; lia))
      as (zb3 & nb3 & cb3 & E3 & Hin3).
    rewrite (bind_eq_Ret _ _ _ _ _ E3). cbn [Z.eqb].
    apply Htail. exact Hin3.
  - replace (bits_lsb N (p + 1) 2 =? 3) with false.
    2:{ symmetry. apply Z.eqb_neq. intros T3. rewrite T3 in Eb. discriminate. }
    rewrite bind_assoc.
    destruct (Z.eqb_spec (bits_lsb N (p + 1) 2) 1) as [T1|T1].
    + (* fixed codes *)
      rewrite bind_assoc.
      unfold bind at 1. unfold get at 1. cbn [z_length].
      rewrite stbi__zdefault_length_fixed, stbi__zdefault_distance_fixed.
      destruct (stbi__zbuild_huffman_spec fixed_lit zl lengths_ok_fixed_lit
                  ltac:(cbv; lia)) as (zl' & Ezl & Hzl).
      rewrite Ezl. rewrite bind_assoc.
      unfold bind at 1. unfold put at 1. unfold set_z_length.
      cbn [zbuffer num_bits code_buffer zout zout_limit z_expandable z_length z_distance].
      rewrite bind_assoc.
      unfold bind at 1. unfold get at 1. cbn [z_distance].
      destruct (stbi__zbuild_huffman_spec fixed_dist zd lengths_ok_fixed_dist
                  ltac:(cbv; lia)) as (zd' & Ezd & Hzd).
      rewrite Ezd. rewrite bind_assoc.
      unfold bind at 1. unfold put at 1. unfold set_z_distance.
      cbn [zbuffer num_bits code_buffer zout zout_limit z_expandable z_length z_distance].
      unfold bind at 1. unfold ret at 1. cbn [Z.eqb].
      destruct (stbi__parse_huffman_block_spec asserts inp fixed_lit fixed_dist zl' zd' lim
                  Hzl lengths_ok_fixed_lit ltac:(cbv; lia)
                  Hzd lengths_ok_fixed_dist ltac:(cbv; lia)
                  _ _ _ _ _ Eb Hlim1 (S fuel) zb2 nb2 cb2 ltac:(lia) Hin2)
        as (zb3 & nb3 & cb3 & E3 & Hin3).
      rewrite (bind_eq_Ret _ _ _ _ _ E3). cbn [Z.eqb].
      apply Htail. exact Hin3.
    + (* dynamic codes *)
      destruct (Z.eqb_spec (bits_lsb N (p + 1) 2) 2) as [T2|T2]; [|discriminate].
      destruct (negb _) eqn:Ecl; [discriminate|].
      apply negb_false_iff in Ecl.
      destruct (read_lengths _ _ _ _ _ _) as [[p2 lens]|] eqn:Erl; [|discriminate].
      destruct (lengths_ok (firstn _ lens) && lengths_ok (skipn _ lens)) eqn:Eok;
        [|discriminate].
      apply andb_true_iff in Eok as [Eokl Eokd].
      replace (p + 3 + 5) with (p + 8) in * by lia.
      replace (p + 3 + 10) with (p + 13) in * by lia.
      replace (p + 3 + 14) with (p + 17) in * by lia.
      destruct (stbi__compute_huffman_codes_spec asserts inp (p + 3) zb2 nb2 cb2 out lim
                  false zl zd p2 lens Hin2) as (zb3 & nb3 & cb3 & zl' & zd' & E3 & Hin3 &
                  Hzl & Hzd & Hl1 & Hl2).
      { fold N. replace (p + 3 + 5) with (p + 8) by lia.
        replace (p + 3 + 10) with (p + 13) by lia.
        replace (p + 3 + 14) with (p + 17) by lia. exact Ecl. }
      { fold N. replace (p + 3 + 5) with (p + 8) by lia.
        replace (p + 3 + 10) with (p + 13) by lia.
        replace (p + 3 + 14) with (p + 17) by lia. exact Erl. }
      { fold N. replace (p + 3 + 5) with (p + 8) by lia. exact Eokl. }
      { fold N. replace (p + 3 + 5) with (p + 8) by lia. exact Eokd. }
      fold N in Hzl, Hzd, Hl1, Hl2.
      unfold bind at 1. rewrite E3. cbn [Z.eqb].
      destruct (stbi__parse_huffman_block_spec asserts inp _ _ zl' zd' lim
                  Hzl Eokl Hl1 Hzd Eokd Hl2
                  _ _ _ _ _ Eb Hlim1 (S fuel) zb3 nb3 cb3 ltac:(lia) Hin3)
        as (zb4 & nb4 & cb4 & E4 & Hin4).
      rewrite (bind_eq_Ret _ _ _ _ _ E4). cbn [Z.eqb].
      apply Htail. exact Hin4.
Qed.

Lemma stbi__parse_zlib_header_spec inp out lim ex zl zd :
  stbi__parse_zlib_header (mkZbuf inp 0 0 out lim ex zl zd)
  = Ret ((let cmf := u8 (nth 0 inp 0) in
          let flg := u8 (nth 1 inp 0) in
          if (Z.land cmf 15 =? 8) && ((cmf * 256 + flg) mod 31 =? 0) && (Z.land flg 32 =? 0)
          then 1 else 0),
         mkZbuf (drop 2 inp) 0 0 out lim ex zl zd).
Proof.
  unfold stbi__parse_zlib_header, bind, stbi__zget8. cbv zeta.
  destruct inp as [|a [|b r]];
    cbn [zbuffer set_zbuffer num_bits code_buffer zout zout_limit z_expandable
         z_length z_distance nth drop];
    change (u8 0) with 0;
    destruct (_ mod 31 =? 0), (Z.land _ 32 =? 0), (Z.land _ 15 =? 8); reflexivity.
Qed.

(** [stbi__do_zlib] on a fresh [stbi__zbuf], into a buffer that cannot
    grow, with the header parsed: [stbi__parse_zlib] returns 1 and has
    written the data. *)
Lemma stbi__do_zlib_spec asserts fuel0 inp data olen fuel :
  zlib_inflate fuel0 inp = Some data ->
  Z.of_nat (length data) <= olen ->
  (fuel0 <= fuel)%nat ->
  exists a, stbi__do_zlib asserts fuel inp olen false true = Ret (1, a) /\ zout a = data.
Proof.
  unfold zlib_inflate. cbv zeta. intros Hspec Hlim Hfuel.
  destruct (_ && _) eqn:Ehdr in Hspec; [|discriminate].
  unfold stbi__do_zlib, stbi__parse_zlib.
  rewrite (bind_eq_Ret _ _ _ _ _ (stbi__parse_zlib_header_spec _ _ _ _ _ _)).
  cbv zeta. rewrite Ehdr. cbn [Z.eqb].
  unfold bind at 1. unfold get at 1.
  unfold bind at 1. unfold put at 1. unfold set_bits.
  cbn [zbuffer num_bits code_buffer zout zout_limit z_expandable z_length z_distance].
  destruct (stbi__parse_zlib_blocks_spec asserts inp olen fuel0 16 [] data Hspec Hlim
              fuel (drop 2 inp) 0 0 zhuffman_0 zhuffman_0 Hfuel)
    as (zb' & nb' & cb' & zl' & zd' & E).
  { split; [lia|]. split; [lia|]. split; [rewrite bits_lsb_0; reflexivity|].
    exists 2%nat. split; [reflexivity|lia]. }
  rewrite E. eexists. split; reflexivity.
Qed.

(** C5: a zlib stream that stands for the bytes [data] (a stream of
    stored, fixed and dynamic blocks in any order, as the reference reader
    [zlib_inflate] reads it) is decompressed by [stbi_zlib_decode_buffer]
    into an output buffer of at least [length data] bytes to exactly
    [data], and the length is returned, with or without assertions, as
    soon as the loops are given as many rounds as the reference reader
    needed. *)
Theorem C5_inflate_reproduces_data asserts fuel0 inp data olen fuel :
  zlib_inflate fuel0 inp = Some data ->
  Z.of_nat (length data) <= olen ->
  (fuel0 <= fuel)%nat ->
  stbi_zlib_decode_buffer asserts fuel olen inp = Ret (Z.of_nat (length data), data).
Proof.
  intros Hspec Hlim Hfuel.
  destruct (stbi__do_zlib_spec asserts fuel0 inp data olen fuel Hspec Hlim Hfuel)
    as (a & E & Hout).
  unfold stbi_zlib_decode_buffer. rewrite E. cbn [Z.eqb negb]. rewrite Hout. reflexivity.
Qed.

(** A stream of a stored block, a block with the fixed codes and one with
    codes of its own (and empty stored blocks between them), as zlib
    writes it, for 65 bytes. *)
Lemma C5_inflate_witness :
  zlib_inflate 100 C5_stream = Some C5_data /\
  stbi_zlib_decode_buffer true 100 65 C5_stream = Ret (65, C5_data).
Proof.
  assert (H : zlib_inflate 100 C5_stream = Some C5_data) by (vm_compute; reflexivity).
  split; [exact H|].
  apply (C5_inflate_reproduces_data true 100 C5_stream C5_data 65 100 H);
    [vm_compute; discriminate|lia].
Defined.

(** A block whose codes do not all fit the fast table: the literal code
    lengths of [long_codes_stream] go up to ten bits, and the reference
    reader and the decoder both give back the data. *)
Example long_codes_inflate :
  (let N := zstream long_codes_stream in
   let hlit := Z.to_nat (bits_lsb N 19 5 + 257) in
   let hdist := Z.to_nat (bits_lsb N 24 5 + 1) in
   let hclen := Z.to_nat (bits_lsb N 29 4 + 4) in
   let cl := read_cl_lengths N 33 (firstn hclen code_length_order) (repeat 0 19) in
   match read_lengths (hlit + hdist) N cl (hlit + hdist) (33 + 3 * Z.of_nat hclen) [] with
   | Some (_, lens) => existsb (fun l => 9 <? l) (firstn hlit lens)
   | None => false
   end = true) /\
  zlib_inflate 400 long_codes_stream = Some long_codes_data /\
  stbi_zlib_decode_buffer true 400 362 long_codes_stream = Ret (362, long_codes_data).
Proof.
  split; [|split]; vm_compute; reflexivity.
Qed.

(** *** Every byte sequence has a compression *)

Lemma lxor_ones_16 len : 0 <= len < 65536 -> Z.lxor len 0xFFFF = 65535 - len.
Proof.
  intros H.
  replace (65535 - len) with ((Z.lnot len) mod 2 ^ 16).
  - change 0xFFFF with (Z.ones 16). apply Z.bits_inj'. intros i Hi. rewrite Z.lxor_spec.
    destruct (Z.ltb_spec i 16).
    + rewrite Z.ones_spec_low, Z.mod_pow2_bits_low, Z.lnot_spec by lia.
      apply xorb_true_r.
    + rewrite Z.ones_spec_high, Z.mod_pow2_bits_high by lia.
      rewrite xorb_false_r.
      destruct (Z.eq_dec len 0) as [->|Hne]; [apply Z.bits_0|].
      apply Z.bits_above_log2; [lia|].
      apply Z.lt_le_trans with 16; [|lia]. apply Z.log2_lt_pow2; lia.
  - unfold Z.lnot. change (2 ^ 16) with 65536.
    replace (Z.pred (- len)) with (65535 - len + (-1) * 65536) by lia.
    rewrite Z_mod_plus_full. apply Z.mod_small. lia.
Qed.

Lemma bits_lsb_bytes inp (k : nat) n :
  0 <= n ->
  bits_lsb (zstream inp) (8 * Z.of_nat k) n = zstream (drop k inp) mod 2 ^ n.
Proof.
  intros Hn. rewrite bits_lsb_mod by lia. rewrite zstream_drop. reflexivity.
Qed.

Lemma zstream_two a b r :
  0 <= a < 256 -> 0 <= b < 256 -> zstream (a :: b :: r) mod 2 ^ 16 = a + 256 * b.
Proof.
  intros Ha Hb. rewrite !zstream_cons. unfold u8. change (2 ^ 8) with 256.
  rewrite (Z.mod_small a), (Z.mod_small b) by lia.
  change (2 ^ 16) with 65536.
  generalize (zstream r). intros X. Z.div_mod_to_equations. lia.
Qed.

(** Every sequence of fewer than 65536 bytes has a compression that the
    reference reader takes. *)
Lemma zlib_inflate_stored data :
  Forall (fun b => 0 <= b < 256) data ->
  Z.of_nat (length data) < 65536 ->
  zlib_inflate 1 (zlib_stored data) = Some data.
Proof.
  intros Hb Hlen.
  set (len := Z.of_nat (length data)).
  assert (Hl : 0 <= len < 65536) by (unfold len; lia).
  pose proof (lxor_ones_16 len Hl) as Hx.
  unfold zlib_inflate, zlib_stored. fold len. cbv zeta.
  set (inp := [_; _; _; _; _; _; _] ++ data).
  change (nth 0 inp 0) with 0x78. change (nth 1 inp 0) with 0x01.
  change (Z.land (u8 120) 15 =? 8) with true.
  change ((u8 120 * 256 + u8 1) mod 31 =? 0) with true.
  change (Z.land (u8 1) 32 =? 0) with true.
  cbn [andb]. cbn [inflate_blocks]. cbv zeta.
  set (N := zstream inp).
  assert (F1 : bits_lsb N 16 1 = 1).
  { change 16 with (8 * Z.of_nat 2). unfold N. rewrite bits_lsb_bytes by lia.
    unfold inp. cbn [app drop]. rewrite zstream_cons.
    change (u8 1) with 1. change (2 ^ 1) with 2.
    generalize (zstream ((len mod 256) :: (len / 256) ::
                         (Z.lxor len 65535 mod 256) :: (Z.lxor len 65535 / 256) :: data)).
    intros X. Z.div_mod_to_equations. lia. }
  assert (F2 : bits_lsb N (16 + 1) 2 = 0).
  { rewrite bits_lsb_mod by lia. rewrite <- Z.shiftr_shiftr by lia.
    change 16 with (8 * Z.of_nat 2). unfold N. rewrite <- zstream_drop.
    unfold inp. cbn [app drop]. rewrite zstream_cons.
    change (u8 1) with 1. rewrite Z.shiftr_div_pow2 by lia.
    change (2 ^ 1) with 2. change (2 ^ 2) with 4.
    generalize (zstream ((len mod 256) :: (len / 256) ::
                         (Z.lxor len 65535 mod 256) :: (Z.lxor len 65535 / 256) :: data)).
    intros X. Z.div_mod_to_equations. lia. }
  rewrite F1, F2. unfold inflate_block. cbv zeta. fold N.
  change (0 =? 0) with true. cbv iota.
  change ((16 + 3 + 7) / 8) with 3.
  change (8 * 3) with 24. change (24 + 16) with 40.
  assert (F3 : bits_lsb N 24 16 = len).
  { change 24 with (8 * Z.of_nat 3). unfold N. rewrite bits_lsb_bytes by lia.
    unfold inp. cbn [app drop]. rewrite zstream_two.
    - Z.div_mod_to_equations. lia.
    - apply Z.mod_pos_bound. lia.
    - Z.div_mod_to_equations. lia. }
  assert (F4 : bits_lsb N 40 16 = Z.lxor len 0xFFFF).
  { change 40 with (8 * Z.of_nat 5). unfold N. rewrite bits_lsb_bytes by lia.
    unfold inp. cbn [app drop]. rewrite zstream_two.
    - Z.div_mod_to_equations. lia.
    - apply Z.mod_pos_bound. lia.
    - rewrite Hx. Z.div_mod_to_equations. lia. }
  rewrite F3, F4, Z.eqb_refl. cbn [negb].
  assert (Hli : length inp = (7 + length data)%nat) by reflexivity.
  replace (3 + 4 + len >? Z.of_nat (length inp)) with false
    by (symmetry; rewrite Z.gtb_ltb; apply Z.ltb_ge; unfold len; lia).
  change (1 =? 1) with true. cbv iota.
  f_equal. cbn [app]. change (Z.to_nat (3 + 4)) with 7%nat.
  unfold inp. cbn [app skipn]. unfold len. rewrite Nat2Z.id, drop_0, firstn_all.
  clear -Hb. induction Hb as [|b r Hbr _ IH]; [reflexivity|].
  cbn [map]. rewrite IH. unfold u8. change (2 ^ 8) with 256.
  rewrite Z.mod_small by lia. reflexivity.
Qed.

(** The decoder on that compression, into a buffer of just the size of
    the data. *)
Corollary stbi_zlib_decode_stored asserts (fuel : nat) data :
  Forall (fun b => 0 <= b < 256) data ->
  Z.of_nat (length data) < 65536 ->
  (1 <= fuel)%nat ->
  stbi_zlib_decode_buffer asserts fuel (Z.of_nat (length data)) (zlib_stored data)
  = Ret (Z.of_nat (length data), data).
Proof.
  intros Hb Hlen Hfuel.
  destruct (stbi__do_zlib_spec asserts 1 (zlib_stored data) data (Z.of_nat (length data))
              fuel (zlib_inflate_stored data Hb Hlen) ltac:(lia) Hfuel) as (a & E & Hout).
  unfold stbi_zlib_decode_buffer. rewrite E. cbn [Z.eqb negb]. rewrite Hout. reflexivity.
Qed.



(** ** ASE_free *)

Module HeapFacts.
Import Heap.

Lemma free_all_app ps qs (hp : heap) :
  free_all (ps ++ qs) hp = free_all qs (free_all ps hp).
Proof. unfold free_all. apply foldl_app. Qed.

Lemma lookup_free_all ps (hp : heap) q :
  free_all ps hp !! q = if decide (q ∈ ps) then None else hp !! q.
Proof.
  revert hp. induction ps as [|p ps IH]; intros hp; cbn.
  - destruct (decide _) as [Hin|]; [inversion Hin|reflexivity].
  - change (foldl _ (delete p hp) ps) with (free_all ps (delete p hp)).
    rewrite IH. destruct (decide (q ∈ ps)) as [Hin|Hnin].
    + rewrite decide_True by (right; exact Hin). reflexivity.
    + destruct (decide (q = p)) as [->|Hne].
      * rewrite decide_True by left. apply lookup_delete_eq.
      * rewrite decide_False by (intros Hc; inversion Hc; subst; contradiction).
        apply lookup_delete_ne. congruence.
Qed.

Lemma ASE_FREE_can_free p ps (hp : heap) :
  hp !! 0 = None -> can_free (p :: ps) hp ->
  ASE_FREE p hp = Ret (tt, delete p hp) /\
  delete p hp !! 0 = None /\
  can_free ps (delete p hp) /\
  (forall q, q ∈ ps -> q ≠ 0 -> delete p hp !! q = hp !! q).
Proof.
  intros H0 [Hl Hn]. inversion Hl as [|? ? Hp Hl']; subst.
  assert (Hq : forall q, q ∈ ps -> q ≠ 0 -> delete p hp !! q = hp !! q).
  { intros q Hq Hq0. destruct (decide (p = q)) as [->|Hne].
    - exfalso. cbn in Hn. rewrite decide_True in Hn by exact Hq0.
      apply list.NoDup_cons in Hn as [Hn _]. apply Hn.
      apply list_elem_of_filter. auto.
    - apply lookup_delete_ne. exact Hne. }
  split; [|split; [|split; [split|]]].
  - unfold ASE_FREE. destruct (Z.eqb_spec p 0) as [->|Hp0].
    + rewrite delete_id by exact H0. reflexivity.
    + destruct Hp as [?|[b Hb]]; [contradiction|]. rewrite Hb. reflexivity.
  - destruct (decide (p = 0)) as [->|Hne].
    + apply lookup_delete_eq.
    + rewrite lookup_delete_ne by exact Hne. exact H0.
  - apply list.Forall_forall. intros q Hq'.
    rewrite list.Forall_forall in Hl'. specialize (Hl' q Hq').
    destruct (decide (q = 0)) as [->|Hq0]; [left; reflexivity|right].
    rewrite Hq by assumption. destruct Hl' as [?|?]; [contradiction|assumption].
  - cbn in Hn. destruct (decide (p ≠ 0)); [apply list.NoDup_cons in Hn as [_ Hn]|]; exact Hn.
  - exact Hq.
Qed.

Lemma can_free_app ps qs (hp : heap) :
  hp !! 0 = None -> can_free (ps ++ qs) hp ->
  free_all ps hp !! 0 = None /\
  can_free qs (free_all ps hp) /\
  (forall q, q ∈ qs -> q ≠ 0 -> free_all ps hp !! q = hp !! q).
Proof.
  revert hp. induction ps as [|p ps IH]; intros hp H0 Hc; cbn.
  - auto.
  - cbn in Hc. apply ASE_FREE_can_free in Hc as (_ & H0' & Hc' & Hq); [|exact H0].
    change (foldl _ (delete p hp) ps) with (free_all ps (delete p hp)).
    destruct (IH _ H0' Hc') as (A & B & C).
    split; [exact A|]. split; [exact B|].
    intros q Hq1 Hq2. rewrite C by assumption.
    apply Hq; [|exact Hq2]. apply elem_of_app. right. exact Hq1.
Qed.

(** A loop that releases one address of each element of an array. *)
Lemma free_layer_names_ok n i p (hp : heap) ls rest :
  hp !! 0 = None -> (n = O \/ hp !! p = Some (Layers ls)) ->
  (i + n <= length ls)%nat ->
  can_free (map name (take n (drop i ls)) ++ p :: rest) hp ->
  free_layer_names n i p hp = Ret (tt, free_all (map name (take n (drop i ls))) hp).
Proof.
  revert i hp. induction n as [|n IH]; intros i hp H0 Hb Hlen Hc.
  - reflexivity.
  - destruct Hb as [Hb|Hb]; [discriminate|].
    destruct (ls !! i) as [I0|] eqn:Hi; [|apply lookup_ge_None in Hi; lia].
    rewrite (drop_S _ _ _ Hi) in Hc |- *. cbn [take map app] in Hc |- *.
    cbn [free_layer_names]. unfold bind at 1. unfold get. rewrite Hb, Hi.
    apply ASE_FREE_can_free in Hc as (Hf & H0' & Hc' & Hq); [|exact H0].
    rewrite (bind_eq_Ret _ _ _ _ _ Hf).
    apply IH; [exact H0'| |lia|exact Hc'].
    right. rewrite Hq; [exact Hb| |].
    + apply elem_of_app. right. left.
    + intros ->. rewrite H0 in Hb. discriminate.
Qed.

Lemma free_cel_datas_ok n j p (hp : heap) cs rest :
  hp !! 0 = None -> (n = O \/ hp !! p = Some (Cels cs)) ->
  (j + n <= length cs)%nat ->
  can_free (map data (take n (drop j cs)) ++ p :: rest) hp ->
  free_cel_datas n j p hp = Ret (tt, free_all (map data (take n (drop j cs))) hp).
Proof.
  revert j hp. induction n as [|n IH]; intros j hp H0 Hb Hlen Hc.
  - reflexivity.
  - destruct Hb as [Hb|Hb]; [discriminate|].
    destruct (cs !! j) as [J0|] eqn:Hj; [|apply lookup_ge_None in Hj; lia].
    rewrite (drop_S _ _ _ Hj) in Hc |- *. cbn [take map app] in Hc |- *.
    cbn [free_cel_datas]. unfold bind at 1. unfold get. rewrite Hb, Hj.
    apply ASE_FREE_can_free in Hc as (Hf & H0' & Hc' & Hq); [|exact H0].
    rewrite (bind_eq_Ret _ _ _ _ _ Hf).
    apply IH; [exact H0'| |lia|exact Hc'].
    right. rewrite Hq; [exact Hb| |].
    + apply elem_of_app. right. left.
    + intros ->. rewrite H0 in Hb. discriminate.
Qed.

Lemma free_tag_names_ok n i p (hp : heap) ts rest :
  hp !! 0 = None -> (n = O \/ hp !! p = Some (Tags ts)) ->
  (i + n <= length ts)%nat ->
  can_free (map tag_name (take n (drop i ts)) ++ p :: rest) hp ->
  free_tag_names n i p hp = Ret (tt, free_all (map tag_name (take n (drop i ts))) hp).
Proof.
  revert i hp. induction n as [|n IH]; intros i hp H0 Hb Hlen Hc.
  - reflexivity.
  - destruct Hb as [Hb|Hb]; [discriminate|].
    destruct (ts !! i) as [I0|] eqn:Hi; [|apply lookup_ge_None in Hi; lia].
    rewrite (drop_S _ _ _ Hi) in Hc |- *. cbn [take map app] in Hc |- *.
    cbn [free_tag_names]. unfold bind at 1. unfold get. rewrite Hb, Hi.
    apply ASE_FREE_can_free in Hc as (Hf & H0' & Hc' & Hq); [|exact H0].
    rewrite (bind_eq_Ret _ _ _ _ _ Hf).
    apply IH; [exact H0'| |lia|exact Hc'].
    right. rewrite Hq; [exact Hb| |].
    + apply elem_of_app. right. left.
    + intros ->. rewrite H0 in Hb. discriminate.
Qed.

Lemma elem_of_concat_map {A B} (f : A -> list B) (l : list A) x a :
  a ∈ l -> x ∈ f a -> x ∈ concat (map f l).
Proof.
  intros Ha Hx. apply list_elem_of_In, in_concat. exists (f a).
  split; [apply in_map|]; apply list_elem_of_In; assumption.
Qed.

Lemma array_ok_at {A} (hp : heap) (sel : block -> option (list A)) p n :
  array_ok hp sel p n ->
  (Z.to_nat n = O \/ (hp !! p) ≫= sel = Some (array_at hp sel p)) /\
  (0 + Z.to_nat n <= length (array_at hp sel p))%nat.
Proof.
  unfold array_at. intros [Hle|(l & Hl & Hle)].
  - split; [left|]; lia.
  - rewrite Hl. cbn. split; [right; reflexivity|lia].
Qed.

Lemma sel_cels_Some (hp : heap) p cs :
  (hp !! p) ≫= sel_cels = Some cs -> hp !! p = Some (Cels cs).
Proof. destruct (hp !! p) as [[]|]; cbn; congruence. Qed.
Lemma sel_layers_Some (hp : heap) p ls :
  (hp !! p) ≫= sel_layers = Some ls -> hp !! p = Some (Layers ls).
Proof. destruct (hp !! p) as [[]|]; cbn; congruence. Qed.
Lemma sel_frames_Some (hp : heap) p fs :
  (hp !! p) ≫= sel_frames = Some fs -> hp !! p = Some (Frames fs).
Proof. destruct (hp !! p) as [[]|]; cbn; congruence. Qed.
Lemma sel_tags_Some (hp : heap) p ts :
  (hp !! p) ≫= sel_tags = Some ts -> hp !! p = Some (Tags ts).
Proof. destruct (hp !! p) as [[]|]; cbn; congruence. Qed.

Lemma lookup_preserved (hp hp' : heap) (qs : list Z) q :
  hp !! 0 = None -> hp' !! 0 = None ->
  (forall q, q ∈ qs -> q ≠ 0 -> hp' !! q = hp !! q) ->
  q ∈ qs -> hp' !! q = hp !! q.
Proof.
  intros H0 H0' Hq Hin. destruct (decide (q = 0)) as [->|Hne]; [congruence|auto].
Qed.

Lemma free_frames_ok n i p (hp : heap) fs rest :
  hp !! 0 = None -> (n = O \/ hp !! p = Some (Frames fs)) ->
  (i + n <= length fs)%nat ->
  (forall f, f ∈ take n (drop i fs) -> array_ok hp sel_cels (cels f) (ncels f)) ->
  can_free (concat (map (owned_cels hp) (take n (drop i fs))) ++ p :: rest) hp ->
  free_frames n i p hp
    = Ret (tt, free_all (concat (map (owned_cels hp) (take n (drop i fs)))) hp).
Proof.
  revert i hp. induction n as [|n IH]; intros i hp H0 Hb Hlen Hok Hc.
  - reflexivity.
  - destruct Hb as [Hb|Hb]; [discriminate|].
    destruct (fs !! i) as [I0|] eqn:Hi; [|apply lookup_ge_None in Hi; lia].
    rewrite (drop_S _ _ _ Hi) in Hc, Hok |- *.
    cbn [take map concat] in Hc, Hok |- *.
    cbn [free_frames]. unfold bind at 1. unfold get. rewrite Hb, Hi.
    set (restl := concat (map (owned_cels hp) (take n (drop (S i) fs)))) in *.
    set (cs := array_at hp sel_cels (cels I0)).
    set (k := Z.to_nat (ncels I0)).
    assert (Hown : owned_cels hp I0 = map data (take k (drop 0 cs)) ++ [cels I0])
      by reflexivity.
    destruct (array_ok_at _ _ _ _ (Hok I0 ltac:(left))) as [Hk Hklen].
    fold cs k in Hk, Hklen.
    rewrite Hown in Hc |- *. rewrite <- !app_assoc in Hc. cbn [app] in Hc.
    assert (Hk' : k = O \/ hp !! cels I0 = Some (Cels cs)).
    { destruct Hk as [Hk|Hk]; [left; exact Hk|right; apply sel_cels_Some, Hk]. }
    rewrite (bind_eq_Ret _ _ _ _ _
               (free_cel_datas_ok k 0 (cels I0) hp cs _ H0 Hk' Hklen Hc)).
    apply can_free_app in Hc as (H0a & Hca & Hqa); [|exact H0].
    set (h1 := free_all (map data (take k (drop 0 cs))) hp) in *.
    apply ASE_FREE_can_free in Hca as (Hf & H0b & Hcb & Hqb); [|exact H0a].
    rewrite (bind_eq_Ret _ _ _ _ _ Hf).
    set (h2 := delete (cels I0) h1) in *.
    assert (Hpres : forall q, q ∈ restl ++ p :: rest -> h2 !! q = hp !! q).
    { intros q Hq. destruct (decide (q = 0)) as [->|Hne]; [congruence|].
      rewrite Hqb by assumption. apply Hqa; [right; exact Hq|exact Hne]. }
    assert (Hsame : map (owned_cels h2) (take n (drop (S i) fs))
                    = map (owned_cels hp) (take n (drop (S i) fs))).
    { apply map_ext_in. intros f Hf'. apply list_elem_of_In in Hf'.
      unfold owned_cels, array_at. rewrite Hpres; [reflexivity|].
      apply elem_of_app. left. unfold restl.
      apply (elem_of_concat_map _ _ _ f); [exact Hf'|].
      unfold owned_cels. apply elem_of_app. right. left. }
    rewrite free_all_app, free_all_app. cbn [free_all foldl].
    fold h1. fold h2. change (foldl _ h2 restl) with (free_all restl h2).
    unfold restl. rewrite <- Hsame.
    apply IH.
    + exact H0b.
    + right. rewrite Hpres; [exact Hb|]. apply elem_of_app. right. left.
    + lia.
    + intros f Hf'. specialize (Hok f (ltac:(right; exact Hf'))).
      assert (E : h2 !! cels f = hp !! cels f).
      { apply Hpres. apply elem_of_app. left. unfold restl.
        apply (elem_of_concat_map _ _ _ f); [exact Hf'|].
        unfold owned_cels. apply elem_of_app. right. left. }
      unfold array_ok in *. rewrite E. exact Hok.
    + rewrite Hsame. exact Hcb.
Qed.

(** C10. For a sprite that owns its allocations, [ASE_free] returns after
    releasing every address the sprite owns (the layer names and the layer
    array, the pixel buffers and the cel array of each frame and the frame
    array, the tag names and the tag array) and nothing else, and leaves
    the sprite all zero; [ASE_free] on that zeroed sprite returns with the
    heap and the sprite as they were. *)
Theorem C10_free_releases_and_zeroes (hp : heap) (S : ASE_Sprite) :
  owns hp S ->
  let hp' := free_all (owned hp S) hp in
  ASE_free (Some S) hp = Ret (Some zero_sprite, hp') /\
  (forall p, p ∈ owned hp S -> hp' !! p = None) /\
  (forall p, p ∉ owned hp S -> hp' !! p = hp !! p) /\
  ASE_free (Some zero_sprite) hp' = Ret (Some zero_sprite, hp').
Proof.
  intros (H0 & Hal & Haf & Hat & Hac & Hlive & Hnd) hp'.
  split; [|split; [|split]].
  2:{ intros p Hp. unfold hp'. rewrite lookup_free_all, decide_True by exact Hp.
      reflexivity. }
  2:{ intros p Hp. unfold hp'. rewrite lookup_free_all, decide_False by exact Hp.
      reflexivity. }
  2:{ reflexivity. }
  assert (Hc : can_free (owned hp S) hp) by (split; assumption).
  unfold hp', owned in *. clear hp' Hlive Hnd.
  set (A := map name (take (Z.to_nat (nlayers S)) (array_at hp sel_layers (layers S)))) in *.
  set (fs := take (Z.to_nat (nframes S)) (array_at hp sel_frames (frames S))) in *.
  set (C := map tag_name (take (Z.to_nat (ntags S)) (array_at hp sel_tags (tags S)))) in *.
  set (R2 := C ++ [tags S]) in *.
  set (R1 := (concat (map (owned_cels hp) fs) ++ [frames S]) ++ R2) in *.
  rewrite <- app_assoc in Hc. cbn [app] in Hc.
  unfold ASE_free.
  (* the layer names, then the layer array *)
  destruct (array_ok_at _ _ _ _ Hal) as [Hk Hklen].
  assert (Hk' : Z.to_nat (nlayers S) = O \/
                hp !! layers S = Some (Layers (array_at hp sel_layers (layers S)))).
  { destruct Hk as [Hk|Hk]; [left; exact Hk|right; apply sel_layers_Some, Hk]. }
  rewrite (bind_eq_Ret _ _ _ _ _
             (free_layer_names_ok _ 0 _ hp _ R1 H0 Hk' Hklen Hc)).
  cbn [drop]. fold A.
  apply can_free_app in Hc as (H0a & Hca & Hqa); [|exact H0].
  set (h1 := free_all A hp) in *.
  apply ASE_FREE_can_free in Hca as (Hf & H0b & Hcb & Hqb); [|exact H0a].
  rewrite (bind_eq_Ret _ _ _ _ _ Hf).
  set (h2 := delete (layers S) h1) in *.
  assert (Hp2 : forall q, q ∈ R1 -> h2 !! q = hp !! q).
  { intros q Hq. destruct (decide (q = 0)) as [->|Hne]; [congruence|].
    rewrite Hqb by assumption. apply Hqa; [right; exact Hq|exact Hne]. }
  clear Hk Hk' Hklen Hf Hqa Hqb.
  (* the frames, then the frame array *)
  assert (Efs : h2 !! frames S = hp !! frames S).
  { apply Hp2. unfold R1. apply elem_of_app. left. apply elem_of_app. right. left. }
  assert (Hsame : map (owned_cels h2) fs = map (owned_cels hp) fs).
  { apply map_ext_in. intros f Hf'. apply list_elem_of_In in Hf'.
    unfold owned_cels, array_at. rewrite Hp2; [reflexivity|].
    unfold R1. apply elem_of_app. left. apply elem_of_app. left.
    apply (elem_of_concat_map _ _ _ f); [exact Hf'|].
    unfold owned_cels. apply elem_of_app. right. left. }
  destruct (array_ok_at _ _ _ _ Haf) as [Hk Hklen].
  assert (Hk' : Z.to_nat (nframes S) = O \/
                h2 !! frames S = Some (Frames (array_at hp sel_frames (frames S)))).
  { rewrite Efs. destruct Hk as [Hk|Hk]; [left; exact Hk|right; apply sel_frames_Some, Hk]. }
  unfold R1 in Hcb. rewrite <- app_assoc in Hcb. cbn [app] in Hcb.
  rewrite <- Hsame in Hcb.
  assert (Hac2 : forall f, f ∈ take (Z.to_nat (nframes S))
                                 (drop 0 (array_at hp sel_frames (frames S))) ->
                           array_ok h2 sel_cels (cels f) (ncels f)).
  { intros f Hf'. cbn [drop] in Hf'. specialize (Hac f Hf').
    assert (E : h2 !! cels f = hp !! cels f).
    { apply Hp2. unfold R1. apply elem_of_app. left. apply elem_of_app. left.
      apply (elem_of_concat_map _ _ _ f); [exact Hf'|].
      unfold owned_cels. apply elem_of_app. right. left. }
    unfold array_ok in *. rewrite E. exact Hac. }
  rewrite (bind_eq_Ret _ _ _ _ _
             (free_frames_ok _ 0 _ h2 _ R2 H0b Hk' Hklen Hac2 Hcb)).
  cbn [drop]. fold fs.
  apply can_free_app in Hcb as (H0c & Hcc & Hqc); [|exact H0b].
  set (h3 := free_all (concat (map (owned_cels h2) fs)) h2) in *.
  apply ASE_FREE_can_free in Hcc as (Hf & H0d & Hcd & Hqd); [|exact H0c].
  rewrite (bind_eq_Ret _ _ _ _ _ Hf).
  set (h4 := delete (frames S) h3) in *.
  assert (Hp4 : forall q, q ∈ R2 -> h4 !! q = hp !! q).
  { intros q Hq. destruct (decide (q = 0)) as [->|Hne]; [congruence|].
    rewrite Hqd by assumption. rewrite Hqc; [|right; exact Hq|exact Hne].
    apply Hp2. unfold R1. apply elem_of_app. right. exact Hq. }
  clear Hk Hk' Hklen Hf Hqc Hqd.
  (* the tag names, then the tag array *)
  assert (Ets : h4 !! tags S = hp !! tags S).
  { apply Hp4. unfold R2. apply elem_of_app. right. left. }
  destruct (array_ok_at _ _ _ _ Hat) as [Hk Hklen].
  assert (Hk' : Z.to_nat (ntags S) = O \/
                h4 !! tags S = Some (Tags (array_at hp sel_tags (tags S)))).
  { rewrite Ets. destruct Hk as [Hk|Hk]; [left; exact Hk|right; apply sel_tags_Some, Hk]. }
  unfold R2 in Hcd.
  rewrite (bind_eq_Ret _ _ _ _ _
             (free_tag_names_ok _ 0 _ h4 _ [] H0d Hk' Hklen Hcd)).
  cbn [drop]. fold C.
  apply can_free_app in Hcd as (H0e & Hce & _); [|exact H0d].
  apply ASE_FREE_can_free in Hce as (Hf & _); [|exact H0e].
  rewrite (bind_eq_Ret _ _ _ _ _ Hf).
  unfold ret. do 2 f_equal.
  unfold R1, R2. rewrite !free_all_app. cbn [free_all foldl].
  fold (free_all A hp). fold h1. fold h2.
  rewrite <- Hsame.
  change (foldl (λ h p, delete p h) h2 (concat (map (owned_cels h2) fs)))
    with (free_all (concat (map (owned_cels h2) fs)) h2).
  fold h3. reflexivity.
Qed.

End HeapFacts.

Module HeapExample.
Import Heap HeapFacts.

(** C10 on [C10_sprite] in [C10_heap]. *)
Lemma C10_free_witness :
  let hp' := free_all (owned C10_heap C10_sprite) C10_heap in
  ASE_free (Some C10_sprite) C10_heap = Ret (Some zero_sprite, hp') /\
  (forall p, p ∈ owned C10_heap C10_sprite -> hp' !! p = None) /\
  (forall p, p ∉ owned C10_heap C10_sprite -> hp' !! p = C10_heap !! p) /\
  ASE_free (Some zero_sprite) hp' = Ret (Some zero_sprite, hp').
Proof.
  apply (C10_free_releases_and_zeroes C10_heap C10_sprite).
  unfold owns. split; [reflexivity|].
  split; [right; eexists; split; [reflexivity|cbn; lia]|].
  split; [right; eexists; split; [reflexivity|cbn; lia]|].
  split; [right; eexists; split; [reflexivity|cbn; lia]|].
  split.
  { intros f Hf. vm_compute in Hf. apply list_elem_of_singleton in Hf. subst f.
    right. eexists. split; [reflexivity|cbn; lia]. }
  split.
  - vm_compute. repeat (apply Forall_cons; [right; eexists; reflexivity|]).
    apply Forall_nil.
  - vm_compute.
    refine (bool_decide_unpack _ _). vm_compute. exact I.
Defined.

End HeapExample.

(** * Further properties of the loader *)

(** ** The memory interface and the generic reads *)

Lemma mem_orig_at buf (i : nat) :
  (i < length buf)%nat ->
  mem_orig (udata (ASE__start_mem buf)) (Z.of_nat i) = nth i buf 0.
Proof.
  intros Hi. unfold ASE__start_mem, ASE__start_mem_around. cbn [udata mem_orig].
  replace (0 <=? Z.of_nat i) with true by (symmetry; apply Z.leb_le; lia).
  replace (Z.of_nat i <? Z.of_nat (length buf)) with true by (symmetry; apply Z.ltb_lt; lia).
  cbn [andb]. rewrite Nat2Z.id. reflexivity.
Qed.

Lemma ASE__mem_read_loop_spec buf : forall (n p : nat),
  (p <= length buf)%nat ->
  ASE__mem_read_loop n (mkMem (mem_orig (udata (ASE__start_mem buf)))
                             (Z.of_nat (length buf)) (Z.of_nat p)) =
    (map u8 (take n (drop p buf)),
     mkMem (mem_orig (udata (ASE__start_mem buf))) (Z.of_nat (length buf))
           (Z.of_nat (p + Nat.min n (length buf - p)))).
Proof.
  induction n as [|n IH]; intros p Hp.
  - cbn [ASE__mem_read_loop take map]. rewrite Nat.min_0_l, Nat.add_0_r. reflexivity.
  - cbn [ASE__mem_read_loop mem_buf mem_len mem_orig].
    destruct (Z.geb_spec (Z.of_nat p) (Z.of_nat (length buf))) as [Hge|Hlt].
    + assert (p = length buf) by lia. subst p.
      rewrite drop_all. cbn [take map]. rewrite Nat.sub_diag, Nat.min_0_r, Nat.add_0_r.
      reflexivity.
    + assert (Hlt' : (p < length buf)%nat) by lia.
      replace (Z.of_nat p + 1) with (Z.of_nat (S p)) by lia.
      rewrite (IH (S p)) by lia.
      rewrite (drop_S buf (nth p buf 0) p) by (apply nth_lookup_Z; exact Hlt').
      cbn [take map]. rewrite mem_orig_at by exact Hlt'.
      f_equal. f_equal. f_equal. lia.
Qed.

Lemma io_read_mem buf (p size : Z) :
  0 <= p <= Z.of_nat (length buf) ->
  io_read size (ASE__mem_at buf p) =
    Ret (map u8 (take (Z.to_nat size) (drop (Z.to_nat p) buf)),
         ASE__mem_at buf (p + Z.min (Z.max size 0) (Z.of_nat (length buf) - p))).
Proof.
  intros Hp. unfold io_read, ASE__mem_at. cbn [io udata cb_read ASE__mem_callbacks].
  unfold ASE__mem_read, ASE__mem_seek.
  change (mem_len (udata (ASE__start_mem buf))) with (Z.of_nat (length buf)).
  replace p with (Z.of_nat (Z.to_nat p)) at 1 by lia.
  rewrite ASE__mem_read_loop_spec by lia.
  f_equal. f_equal. f_equal. f_equal. lia.
Qed.

Lemma io_tell_mem buf (p : Z) :
  INT_MIN <= p <= INT_MAX -> io_tell (ASE__mem_at buf p) = Ret (p, ASE__mem_at buf p).
Proof.
  intros Hp. unfold io_tell, ASE__mem_at. cbn [io udata cb_tell ASE__mem_callbacks].
  unfold ASE__mem_tell, ASE__mem_seek. cbn [mem_buf]. rewrite s32_id by exact Hp.
  reflexivity.
Qed.

(** A run on the memory interface that ends at offset [q], followed by
    [tell]. *)
Lemma then_tell_mem {A} (m : M (ASE__ctx ASE__mem) A) F a buf q :
  m F = Ret (a, ASE__mem_at buf q) -> INT_MIN <= q <= INT_MAX ->
  run (then_tell m) F = Ret (a, q).
Proof.
  intros E Hq. unfold then_tell, run. rewrite (bind_eq_Ret _ _ _ _ _ E).
  rewrite (bind_eq_Ret _ _ _ _ _ (io_tell_mem buf q Hq)). reflexivity.
Qed.

(** X1. A read of [size] bytes from the memory interface with its cursor at
    offset [p] of the buffer returns the bytes of the buffer from [p] on, as
    many as are left when there are fewer than [size], and leaves the cursor
    after them: it never passes the end of the buffer. *)
Theorem ASE__mem_read_within_buffer buf (p size : Z) :
  0 <= p <= Z.of_nat (length buf) -> Z.of_nat (length buf) <= INT_MAX ->
  run (then_tell (io_read size)) (ASE__mem_at buf p) =
    Ret (map u8 (take (Z.to_nat size) (drop (Z.to_nat p) buf)),
         p + Z.min (Z.max size 0) (Z.of_nat (length buf) - p)).
Proof.
  intros Hp Hlen. eapply then_tell_mem; [apply io_read_mem; exact Hp|].
  unfold INT_MIN, INT_MAX in *. lia.
Qed.

(** X1 for a read of four bytes at offset 3 of a buffer of five. *)
Lemma ASE__mem_read_within_buffer_witness :
  run (then_tell (io_read 4)) (ASE__mem_at [1; 2; 3; 4; 5] 3) = Ret ([4; 5], 5).
Proof.
  apply (ASE__mem_read_within_buffer [1; 2; 3; 4; 5] 3 4).
  - vm_compute. split; discriminate.
  - vm_compute. discriminate.
Defined.

Lemma testbit_u8 x i : 0 <= i -> Z.testbit (u8 x) i = (i <? 8) && Z.testbit x i.
Proof. intros Hi. unfold u8. apply Z.testbit_mod_pow2; lia. Qed.

Lemma u8_u8 x : u8 (u8 x) = u8 x.
Proof. unfold u8. apply Z.mod_mod. lia. Qed.

Lemma le16_value v :
  Z.lor (Z.shiftl (u8 (Z.shiftr v 8)) 8) (u8 v) = v mod 2 ^ 16.
Proof.
  apply Z.bits_inj'. intros i Hi.
  rewrite Z.lor_spec, Z.testbit_mod_pow2 by lia.
  rewrite (testbit_u8 v) by lia.
  destruct (Z.ltb_spec i 8).
  - rewrite Z.shiftl_spec_low by lia.
    replace (i <? 16) with true by (symmetry; apply Z.ltb_lt; lia). reflexivity.
  - rewrite Z.shiftl_spec by lia. rewrite testbit_u8 by lia.
    rewrite Z.shiftr_spec by lia. replace (i - 8 + 8) with i by lia.
    destruct (Z.ltb_spec (i - 8) 8), (Z.ltb_spec i 16); try lia; cbn [andb orb];
      rewrite ?orb_false_r; reflexivity.
Qed.

Lemma le32_value v :
  Z.lor (Z.lor (Z.lor (Z.shiftl (u8 (Z.shiftr v 24)) 24) (Z.shiftl (u8 (Z.shiftr v 16)) 16))
               (Z.shiftl (u8 (Z.shiftr v 8)) 8)) (u8 v) = v mod 2 ^ 32.
Proof.
  apply Z.bits_inj'. intros i Hi.
  rewrite !Z.lor_spec, Z.testbit_mod_pow2 by lia.
  rewrite (testbit_u8 v) by lia.
  destruct (Z.ltb_spec i 8).
  { rewrite !Z.shiftl_spec_low by lia.
    replace (i <? 32) with true by (symmetry; apply Z.ltb_lt; lia). reflexivity. }
  destruct (Z.ltb_spec i 16).
  { rewrite !(Z.shiftl_spec_low _ 24), !(Z.shiftl_spec_low _ 16) by lia.
    rewrite Z.shiftl_spec by lia. rewrite testbit_u8 by lia.
    rewrite Z.shiftr_spec by lia. replace (i - 8 + 8) with i by lia.
    replace (i - 8 <? 8) with true by (symmetry; apply Z.ltb_lt; lia).
    replace (i <? 32) with true by (symmetry; apply Z.ltb_lt; lia).
    cbn [andb orb]. rewrite orb_false_r. reflexivity. }
  destruct (Z.ltb_spec i 24).
  { rewrite !(Z.shiftl_spec_low _ 24) by lia.
    rewrite !Z.shiftl_spec by lia. rewrite !testbit_u8 by lia.
    rewrite !Z.shiftr_spec by lia. replace (i - 16 + 16) with i by lia.
    replace (i - 16 <? 8) with true by (symmetry; apply Z.ltb_lt; lia).
    replace (i - 8 <? 8) with false by (symmetry; apply Z.ltb_ge; lia).
    replace (i <? 32) with true by (symmetry; apply Z.ltb_lt; lia).
    cbn [andb orb]. rewrite !orb_false_r. reflexivity. }
  rewrite !Z.shiftl_spec by lia. rewrite !testbit_u8 by lia.
  rewrite !Z.shiftr_spec by lia. replace (i - 24 + 24) with i by lia.
  replace (i - 16 <? 8) with false by (symmetry; apply Z.ltb_ge; lia).
  replace (i - 8 <? 8) with false by (symmetry; apply Z.ltb_ge; lia).
  cbn [andb orb]. rewrite !orb_false_r.
  destruct (Z.ltb_spec (i - 24) 8), (Z.ltb_spec i 32); try lia; reflexivity.
Qed.

Lemma s32_of_mod v : INT_MIN <= v <= INT_MAX -> s32 (v mod 2 ^ 32) = v.
Proof.
  intros Hv. unfold s32. rewrite Zplus_mod_idemp_l.
  unfold INT_MIN, INT_MAX in Hv. rewrite Z.mod_small; lia.
Qed.

Lemma ASE__read16_mem_le pre rest v :
  0 <= v < 2 ^ 16 ->
  ASE__read16 (ASE__mem_at (pre ++ le16 v ++ rest) (Z.of_nat (length pre)))
    = Ret (v, ASE__mem_at (pre ++ le16 v ++ rest) (Z.of_nat (length pre) + 2)).
Proof.
  intros Hv. unfold ASE__read16.
  rewrite (bind_eq_Ret _ _ _ _ _
             (io_read_mem (pre ++ le16 v ++ rest) (Z.of_nat (length pre)) 2
                ltac:(rewrite length_app; lia))).
  rewrite Nat2Z.id, drop_app_length. change (Z.to_nat 2) with 2%nat.
  cbn [firstn le16 app map]. rewrite take_0. cbn [map].
  unfold ret. rewrite !u8_u8, le16_value. rewrite Z.mod_small by lia.
  do 3 f_equal. rewrite !length_app. cbn [length le16]. lia.
Qed.

Lemma ASE__read32_mem_le pre rest v :
  INT_MIN <= v <= INT_MAX ->
  ASE__read32 (ASE__mem_at (pre ++ le32 v ++ rest) (Z.of_nat (length pre)))
    = Ret (v, ASE__mem_at (pre ++ le32 v ++ rest) (Z.of_nat (length pre) + 4)).
Proof.
  intros Hv. unfold ASE__read32.
  rewrite (bind_eq_Ret _ _ _ _ _
             (io_read_mem (pre ++ le32 v ++ rest) (Z.of_nat (length pre)) 4
                ltac:(rewrite length_app; lia))).
  rewrite Nat2Z.id, drop_app_length. change (Z.to_nat 4) with 4%nat.
  cbn [firstn le32 app map]. rewrite take_0. cbn [map].
  unfold ret. rewrite !u8_u8, le32_value. rewrite s32_of_mod by lia.
  do 3 f_equal. rewrite !length_app. cbn [length le32]. lia.
Qed.

(** X2. [ASE__read16] and [ASE__read32] are little-endian: read from memory
    at the place where the two (four) little-endian bytes of a 16-bit value
    (of an [int]) stand, they return that value. *)
Theorem ASE__read_little_endian pre rest :
  (forall v, 0 <= v < 2 ^ 16 ->
     run ASE__read16 (ASE__mem_at (pre ++ le16 v ++ rest) (Z.of_nat (length pre)))
       = Ret v) /\
  (forall v, INT_MIN <= v <= INT_MAX ->
     run ASE__read32 (ASE__mem_at (pre ++ le32 v ++ rest) (Z.of_nat (length pre)))
       = Ret v).
Proof.
  split; intros v Hv.
  - eapply run_eq_Ret. apply ASE__read16_mem_le. exact Hv.
  - eapply run_eq_Ret. apply ASE__read32_mem_le. exact Hv.
Qed.

(** X2 for the values [0xA5E0] and [-2], each after one other byte. *)
Lemma ASE__read_little_endian_witness :
  run ASE__read16 (ASE__mem_at [7; 0xE0; 0xA5; 9] 1) = Ret 0xA5E0 /\
  run ASE__read32 (ASE__mem_at [7; 254; 255; 255; 255] 1) = Ret (-2).
Proof.
  split.
  - apply (proj1 (ASE__read_little_endian [7] [9]) 0xA5E0). vm_compute.
    split; [discriminate|reflexivity].
  - apply (proj2 (ASE__read_little_endian [7] []) (-2)). vm_compute. split; discriminate.
Defined.

Lemma ASE__read_short buf (p : Z) (n : nat) :
  0 <= p <= Z.of_nat (length buf) ->
  Z.of_nat (length buf) - p < Z.of_nat n ->
  exists bs, (length bs < n)%nat /\
    io_read (Z.of_nat n) (ASE__mem_at buf p) =
      Ret (bs, ASE__mem_at buf (Z.of_nat (length buf))).
Proof.
  intros Hp Hn. eexists. split; [|rewrite (io_read_mem buf p _ Hp); do 3 f_equal; lia].
  rewrite length_map, length_take, length_drop. lia.
Qed.

(** X3. A value that the stream ends in the middle of, or before, reads as
    0, and the bytes that were left are consumed: the stream stands at its
    end. *)
Theorem ASE__read_truncated buf (p : Z) :
  0 <= p <= Z.of_nat (length buf) -> Z.of_nat (length buf) <= INT_MAX ->
  let left := Z.of_nat (length buf) - p in
  (left < 1 ->
   run (then_tell ASE__read8) (ASE__mem_at buf p) = Ret (0, Z.of_nat (length buf))) /\
  (left < 2 ->
   run (then_tell ASE__read16) (ASE__mem_at buf p) = Ret (0, Z.of_nat (length buf))) /\
  (left < 4 ->
   run (then_tell ASE__read32) (ASE__mem_at buf p) = Ret (0, Z.of_nat (length buf))).
Proof.
  intros Hp Hlen left. subst left.
  assert (Hend : INT_MIN <= Z.of_nat (length buf) <= INT_MAX)
    by (unfold INT_MIN, INT_MAX in *; lia).
  split; [|split]; intros Hl.
  - destruct (ASE__read_short buf p 1 Hp Hl) as (bs & Hbs & E).
    eapply then_tell_mem; [|exact Hend]. unfold ASE__read8.
    rewrite (bind_eq_Ret _ _ _ _ _ E).
    destruct bs as [|? [|]]; cbn [length] in Hbs; try lia. reflexivity.
  - destruct (ASE__read_short buf p 2 Hp Hl) as (bs & Hbs & E).
    eapply then_tell_mem; [|exact Hend]. unfold ASE__read16.
    rewrite (bind_eq_Ret _ _ _ _ _ E).
    destruct bs as [|? [|? [|]]]; cbn [length] in Hbs; try lia; reflexivity.
  - destruct (ASE__read_short buf p 4 Hp Hl) as (bs & Hbs & E).
    eapply then_tell_mem; [|exact Hend]. unfold ASE__read32.
    rewrite (bind_eq_Ret _ _ _ _ _ E).
    destruct bs as [|? [|? [|? [|? [|]]]]]; cbn [length] in Hbs; try lia; reflexivity.
Qed.

(** X3 for a 32-bit read with three bytes left. *)
Lemma ASE__read_truncated_witness :
  run (then_tell ASE__read32) (ASE__mem_at [1; 2; 3; 4; 5] 2) = Ret (0, 5).
Proof.
  apply (proj2 (proj2 (ASE__read_truncated [1; 2; 3; 4; 5] 2
                         ltac:(vm_compute; split; discriminate)
                         ltac:(vm_compute; discriminate)))).
  vm_compute. reflexivity.
Defined.

Lemma ASE__read8_mem buf (p : nat) :
  (p <= length buf)%nat ->
  ASE__read8 (ASE__mem_at buf (Z.of_nat p)) =
    Ret (nth p (map u8 buf) 0, ASE__mem_at buf (Z.of_nat (Nat.min (S p) (length buf)))).
Proof.
  intros Hp. unfold ASE__read8.
  rewrite (bind_eq_Ret _ _ _ _ _ (io_read_mem buf (Z.of_nat p) 1 ltac:(lia))).
  rewrite Nat2Z.id. change (Z.to_nat 1) with 1%nat.
  destruct (Nat.eq_dec p (length buf)) as [->|Hne].
  - rewrite drop_all. cbn [firstn map]. unfold ret.
    rewrite nth_overflow by (rewrite length_map; lia).
    do 3 f_equal. lia.
  - assert (Hlt : (p < length buf)%nat) by lia.
    rewrite (drop_S buf (nth p buf 0) p) by (apply nth_lookup_Z; exact Hlt).
    cbn [firstn map]. rewrite take_0. cbn [map]. unfold ret.
    rewrite u8_u8.
    rewrite (nth_indep (map u8 buf) 0 (u8 0)) by (rewrite length_map; lia). rewrite map_nth.
    do 3 f_equal. lia.
Qed.

Lemma ASE__read8s_mem buf : forall (k p : nat),
  (p <= length buf)%nat ->
  ASE__read8s k (ASE__mem_at buf (Z.of_nat p)) =
    Ret (map u8 (take k (drop p buf)) ++ replicate (k - (length buf - p)) 0,
         ASE__mem_at buf (Z.of_nat (Nat.min (p + k) (length buf)))).
Proof.
  induction k as [|k IH]; intros p Hp.
  - cbn [ASE__read8s]. unfold ret. cbn [firstn map replicate Nat.sub app].
    do 3 f_equal. lia.
  - cbn [ASE__read8s].
    rewrite (bind_eq_Ret _ _ _ _ _ (ASE__read8_mem buf p Hp)).
    rewrite (bind_eq_Ret _ _ _ _ _ (IH (Nat.min (S p) (length buf)) ltac:(lia))).
    unfold ret. f_equal. f_equal.
    + destruct (Nat.eq_dec p (length buf)) as [->|Hne].
      * rewrite Nat.min_r by lia. rewrite !drop_all.
        cbn [firstn map app]. rewrite nth_overflow by (rewrite length_map; lia).
        rewrite !Nat.sub_diag, !Nat.sub_0_r. rewrite take_nil. reflexivity.
      * assert (Hlt : (p < length buf)%nat) by lia.
        rewrite Nat.min_l by lia.
        rewrite (drop_S buf (nth p buf 0) p) by (apply nth_lookup_Z; exact Hlt).
        cbn [firstn map app].
        rewrite (nth_indep (map u8 buf) 0 (u8 0)) by (rewrite length_map; lia). rewrite map_nth.
        do 2 f_equal. f_equal. lia.
    + do 2 f_equal. lia.
Qed.

(** X4. [ASE_DOC_read_string] on memory, at a length prefix [n]: the string
    returned is never null and has exactly [n] bytes, those that follow the
    prefix and zeros for the ones the stream does not hold. *)
Theorem ASE_DOC_read_string_mem pre n rest :
  0 <= n < 2 ^ 16 ->
  run ASE_DOC_read_string (ASE__mem_at (pre ++ le16 n ++ rest) (Z.of_nat (length pre))) =
    Ret (Some (map u8 (take (Z.to_nat n) rest)
               ++ replicate (Z.to_nat n - length rest) 0)).
Proof.
  intros Hn. set (buf := pre ++ le16 n ++ rest).
  eapply run_eq_Ret. unfold ASE_DOC_read_string.
  rewrite (bind_eq_Ret _ _ _ _ _ (ASE__read16_mem_le pre rest n Hn)).
  fold buf.
  replace (Z.of_nat (length pre) + 2) with (Z.of_nat (length pre + 2)) by lia.
  assert (Hlen : length buf = (length pre + 2 + length rest)%nat).
  { subst buf. rewrite !length_app. cbn [length le16]. lia. }
  rewrite (bind_eq_Ret _ _ _ _ _
             (ASE__read8s_mem buf (Z.to_nat n) (length pre + 2) ltac:(lia))).
  assert (E : drop (length pre + 2) buf = rest).
  { subst buf. rewrite drop_app_ge by lia.
    replace (length pre + 2 - length pre)%nat with 2%nat by lia. reflexivity. }
  rewrite E.
  replace (Z.to_nat n - (length buf - (length pre + 2)))%nat
    with (Z.to_nat n - length rest)%nat by lia.
  reflexivity.
Qed.

(** X4 for a string of three bytes of which the stream holds two. *)
Lemma ASE_DOC_read_string_mem_witness :
  run ASE_DOC_read_string (ASE__mem_at [3; 0; 65; 66] 0) = Ret (Some [65; 66; 0]).
Proof.
  apply (ASE_DOC_read_string_mem [] 3 [65; 66]). vm_compute.
  split; [discriminate|reflexivity].
Defined.

Lemma ASE__mem_skip_loop_spec buf : forall (n p : nat),
  (p <= length buf)%nat ->
  ASE__mem_skip_loop n (mkMem (mem_orig (udata (ASE__start_mem buf)))
                             (Z.of_nat (length buf)) (Z.of_nat p)) =
    mkMem (mem_orig (udata (ASE__start_mem buf))) (Z.of_nat (length buf))
          (Z.of_nat (p + Nat.min n (length buf - p))).
Proof.
  induction n as [|n IH]; intros p Hp.
  - cbn [ASE__mem_skip_loop]. rewrite Nat.min_0_l, Nat.add_0_r. reflexivity.
  - cbn [ASE__mem_skip_loop mem_buf mem_len mem_orig].
    destruct (Z.geb_spec (Z.of_nat p) (Z.of_nat (length buf))) as [Hge|Hlt].
    + assert (p = length buf) by lia. subst p.
      rewrite Nat.sub_diag, Nat.min_0_r, Nat.add_0_r. reflexivity.
    + replace (Z.of_nat p + 1) with (Z.of_nat (S p)) by lia.
      rewrite (IH (S p)) by lia. f_equal. lia.
Qed.

Lemma io_skip_mem buf (p n : Z) :
  0 <= p <= Z.of_nat (length buf) -> 0 <= n ->
  io_skip n (ASE__mem_at buf p) =
    Ret (tt, ASE__mem_at buf (p + Z.min n (Z.of_nat (length buf) - p))).
Proof.
  intros Hp Hn. unfold io_skip, ASE__mem_at. cbn [io udata cb_skip ASE__mem_callbacks].
  unfold ASE__mem_skip, ASE__mem_seek.
  replace (n <? 0) with false by (symmetry; apply Z.ltb_ge; exact Hn).
  change (mem_len (udata (ASE__start_mem buf))) with (Z.of_nat (length buf)).
  replace p with (Z.of_nat (Z.to_nat p)) at 1 by lia.
  rewrite ASE__mem_skip_loop_spec by lia.
  f_equal. f_equal. f_equal. f_equal. lia.
Qed.

(** X5. On the memory interface a skip of [n >= 0] bytes leaves the cursor
    where a read of [n] bytes leaves it: [n] bytes on, or at the end of the
    buffer when fewer are left. *)
Theorem ASE__mem_skip_as_read buf (p n : Z) :
  0 <= p <= Z.of_nat (length buf) -> Z.of_nat (length buf) <= INT_MAX -> 0 <= n ->
  run (then_tell (io_skip n)) (ASE__mem_at buf p) =
    Ret (tt, p + Z.min n (Z.of_nat (length buf) - p)) /\
  run (then_tell (io_read n ;; ret tt)) (ASE__mem_at buf p) =
    run (then_tell (io_skip n)) (ASE__mem_at buf p).
Proof.
  intros Hp Hlen Hn.
  assert (Hq : INT_MIN <= p + Z.min n (Z.of_nat (length buf) - p) <= INT_MAX)
    by (unfold INT_MIN, INT_MAX in *; lia).
  assert (E : run (then_tell (io_skip n)) (ASE__mem_at buf p) =
              Ret (tt, p + Z.min n (Z.of_nat (length buf) - p))).
  { eapply then_tell_mem; [apply io_skip_mem; assumption|exact Hq]. }
  split; [exact E|]. rewrite E.
  eapply then_tell_mem; [|exact Hq].
  rewrite (bind_eq_Ret _ _ _ _ _ (io_read_mem buf p n Hp)).
  unfold ret. rewrite Z.max_l by lia. reflexivity.
Qed.

(** X5 for a skip of four bytes at offset 3 of a buffer of five. *)
Lemma ASE__mem_skip_as_read_witness :
  run (then_tell (io_skip 4)) (ASE__mem_at [1; 2; 3; 4; 5] 3) = Ret (tt, 5) /\
  run (then_tell (io_read 4 ;; ret tt)) (ASE__mem_at [1; 2; 3; 4; 5] 3) =
    run (then_tell (io_skip 4)) (ASE__mem_at [1; 2; 3; 4; 5] 3).
Proof.
  apply (ASE__mem_skip_as_read [1; 2; 3; 4; 5] 3 4).
  - vm_compute. split; discriminate.
  - vm_compute. discriminate.
  - discriminate.
Defined.

(** ** The Huffman tables of the zlib decoder *)

Lemma zbuild_sizes_count l i : i <> 0 -> zbuild_sizes l i = count_len l i.
Proof.
  intros Hi. unfold zbuild_sizes. rewrite fn_lookup_insert_ne by congruence.
  rewrite zbuild_sizes_fold. lia.
Qed.

Lemma kraft_sum_counts l :
  forallb (fun s => (0 <=? s) && (s <=? 15)) l = true ->
  kraft_sum l =
    count_len l 1 * 2^14 + count_len l 2 * 2^13 + count_len l 3 * 2^12 + count_len l 4 * 2^11
    + count_len l 5 * 2^10 + count_len l 6 * 2^9 + count_len l 7 * 2^8 + count_len l 8 * 2^7
    + count_len l 9 * 2^6 + count_len l 10 * 2^5 + count_len l 11 * 2^4 + count_len l 12 * 2^3
    + count_len l 13 * 2^2 + count_len l 14 * 2 + count_len l 15.
Proof.
  induction l as [|s l IH]; [reflexivity|].
  cbn [forallb]. intros H. apply andb_prop in H as [Hs Hl].
  apply andb_prop in Hs as [H0 H15]. apply Z.leb_le in H0, H15.
  specialize (IH Hl).
  unfold kraft_sum in *. cbn [fold_right count_len]. rewrite IH. clear IH Hl.
  assert (Hc : s = 0 \/ s = 1 \/ s = 2 \/ s = 3 \/ s = 4 \/ s = 5 \/ s = 6 \/ s = 7 \/
               s = 8 \/ s = 9 \/ s = 10 \/ s = 11 \/ s = 12 \/ s = 13 \/ s = 14 \/ s = 15)
    by lia.
  repeat (destruct Hc as [->|Hc]; [cbn [Z.eqb Pos.eqb]; lia|]).
  subst s. cbn [Z.eqb Pos.eqb]. lia.
Qed.

Lemma zlast_code_SS n i sizes code :
  zlast_code (S (S n)) i sizes code = zlast_code (S n) (i + 1) sizes (2 * (code + sizes i)).
Proof. reflexivity. Qed.

Lemma zlast_code_lower sizes : (forall i, 0 <= sizes i) ->
  forall n i code, 0 <= code -> code * 2 ^ Z.of_nat n <= zlast_code (S n) i sizes code.
Proof.
  intros Hs. induction n as [|n IH]; intros i code Hc.
  - cbn [zlast_code]. change (2 ^ Z.of_nat 0) with 1. specialize (Hs i). lia.
  - rewrite zlast_code_SS. rewrite Nat2Z.inj_succ, Z.pow_succ_r by lia.
    specialize (Hs i).
    assert (H := IH (i + 1) (2 * (code + sizes i)) ltac:(lia)).
    assert (0 <= 2 ^ Z.of_nat n) by (apply Z.pow_nonneg; lia).
    nia.
Qed.

(** The second loop of [stbi__zbuild_huffman] comes through the lengths
    [i], ..., [i+n] exactly when the last code it reaches is one of
    [i+n] bits. *)
Lemma zbuild_codes_kraft sizes : (forall i, 0 <= sizes i) ->
  forall n i code k next_code z, 0 <= i -> 0 <= code <= 2 ^ i ->
  is_Some (zbuild_codes (S n) i sizes code k next_code z) <->
  zlast_code (S n) i sizes code <= 2 ^ (i + Z.of_nat n).
Proof.
  intros Hs. induction n as [|n IH]; intros i code k next_code z Hi Hc.
  - cbn [zbuild_codes zlast_code]. rewrite Z.add_0_r. rewrite Z.shiftl_1_l.
    specialize (Hs i).
    destruct (Z.eqb_spec (sizes i) 0) as [E|E]; cbn [negb andb].
    + split; [lia|]. intros _. eexists. reflexivity.
    + destruct (Z.geb_spec (code + sizes i - 1) (2 ^ i)) as [G|G].
      * split; [intros [x Hx]; discriminate|lia].
      * split; [lia|]. intros _. eexists. reflexivity.
  - rewrite zlast_code_SS.
    change (zbuild_codes (S (S n)) i sizes code k next_code z) with
      (let next_code := <[i := code]> next_code in
       let z := mkZhuffman (zfast z) (<[i := u16 code]> (firstcode z)) (maxcode z)
                           (<[i := u16 k]> (firstsymbol z)) (zsize z) (zvalue z) in
       let code := code + sizes i in
       if negb (sizes i =? 0) && (code - 1 >=? Z.shiftl 1 i) then None
       else
         let z := mkZhuffman (zfast z) (firstcode z)
                             (<[i := Z.shiftl code (16 - i)]> (maxcode z))
                             (firstsymbol z) (zsize z) (zvalue z) in
         zbuild_codes (S n) (i + 1) sizes (Z.shiftl code 1) (k + sizes i) next_code z).
    cbv zeta. rewrite Z.shiftl_1_l.
    rewrite Z.shiftl_mul_pow2 by lia. change (2 ^ 1) with 2.
    replace ((code + sizes i) * 2) with (2 * (code + sizes i)) by lia.
    replace (i + Z.of_nat (S n)) with (i + 1 + Z.of_nat n) by lia.
    pose proof (Hs i) as Hsi.
    assert (Hp : 2 ^ (i + 1) = 2 * 2 ^ i) by (rewrite Z.pow_add_r by lia; lia).
    assert (Hlow := zlast_code_lower sizes Hs n (i + 1) (2 * (code + sizes i)) ltac:(lia)).
    assert (Hpn : 2 ^ (i + 1 + Z.of_nat n) = 2 * 2 ^ i * 2 ^ Z.of_nat n)
      by (rewrite Z.pow_add_r, Hp by lia; reflexivity).
    assert (Hpos : 0 < 2 ^ Z.of_nat n) by (apply Z.pow_pos_nonneg; lia).
    destruct (Z.eqb_spec (sizes i) 0) as [E|E]; cbn [negb andb].
    + apply IH; [lia|]. rewrite Hp. lia.
    + destruct (Z.geb_spec (code + sizes i - 1) (2 ^ i)) as [G|G].
      * split; [intros [x Hx]; discriminate|].
        intros Hle. exfalso. rewrite Hpn in Hle. nia.
      * apply IH; [lia|]. rewrite Hp. lia.
Qed.

Lemma zlast_code_15 sizes :
  zlast_code 15 1 sizes 0 =
    sizes 1 * 2^14 + sizes 2 * 2^13 + sizes 3 * 2^12 + sizes 4 * 2^11
    + sizes 5 * 2^10 + sizes 6 * 2^9 + sizes 7 * 2^8 + sizes 8 * 2^7
    + sizes 9 * 2^6 + sizes 10 * 2^5 + sizes 11 * 2^4 + sizes 12 * 2^3
    + sizes 13 * 2^2 + sizes 14 * 2 + sizes 15.
Proof.
  cbn [zlast_code].
  change (1 + 1) with 2. change (2 + 1) with 3. change (3 + 1) with 4.
  change (4 + 1) with 5. change (5 + 1) with 6. change (6 + 1) with 7.
  change (7 + 1) with 8. change (8 + 1) with 9. change (9 + 1) with 10.
  change (10 + 1) with 11. change (11 + 1) with 12. change (12 + 1) with 13.
  change (13 + 1) with 14. change (14 + 1) with 15. lia.
Qed.

(** X6. [stbi__zbuild_huffman] accepts the code lengths [sizelist], each
    from 0 to 15, exactly when they satisfy Kraft's inequality: the codes of
    the symbols with a non-zero length fit into the [2^15] codes of 15 bits.
    Codes that leave some of them out are accepted. *)
Theorem stbi__zbuild_huffman_kraft z sizelist :
  forallb (fun s => (0 <=? s) && (s <=? 15)) sizelist = true ->
  is_Some (stbi__zbuild_huffman z sizelist) <-> kraft_sum sizelist <= 2 ^ 15.
Proof.
  intros Hl. rewrite (kraft_sum_counts _ Hl).
  unfold stbi__zbuild_huffman. cbv zeta.
  set (sizes := zbuild_sizes sizelist).
  assert (Hs : forall i, 0 <= sizes i).
  { intros i. destruct (Z.eq_dec i 0) as [->|Hi].
    - unfold sizes, zbuild_sizes. rewrite fn_lookup_insert. lia.
    - unfold sizes. rewrite zbuild_sizes_count by exact Hi. apply count_len_nonneg. }
  assert (Hk : forall i, i <> 0 -> count_len sizelist i = sizes i)
    by (intros i Hi; symmetry; apply zbuild_sizes_count; exact Hi).
  rewrite !Hk by discriminate. clearbody sizes. clear Hk Hl.
  match goal with
  | |- is_Some (if _ then _ else match ?c with _ => _ end) <-> _ =>
      assert (Hc : is_Some c <->
                   zlast_code 15 1 sizes 0 <= 2 ^ (1 + Z.of_nat 14))
        by (apply zbuild_codes_kraft; [exact Hs|lia|lia]);
      destruct c as [[next_code z']|]
  end.
  - destruct Hc as [Hc _]. specialize (Hc ltac:(eexists; reflexivity)).
    rewrite zlast_code_15 in Hc. change (2 ^ (1 + Z.of_nat 14)) with (2 ^ 15) in Hc.
    match goal with
    | |- is_Some (if ?b then _ else _) <-> _ => destruct b eqn:Eb
    end.
    + exfalso.
      change (map Z.of_nat (seq 1 15))
        with [1; 2; 3; 4; 5; 6; 7; 8; 9; 10; 11; 12; 13; 14; 15] in Eb.
      cbn [existsb] in Eb. rewrite !Z.shiftl_1_l in Eb.
      pose proof (Hs 1); pose proof (Hs 2); pose proof (Hs 3); pose proof (Hs 4);
      pose proof (Hs 5); pose proof (Hs 6); pose proof (Hs 7); pose proof (Hs 8);
      pose proof (Hs 9); pose proof (Hs 10); pose proof (Hs 11); pose proof (Hs 12);
      pose proof (Hs 13); pose proof (Hs 14); pose proof (Hs 15).
      repeat (apply orb_prop in Eb as [Eb|Eb];
              [rewrite Z.gtb_ltb in Eb; apply Z.ltb_lt in Eb; lia|]).
      discriminate.
    + split; [intros _; lia|intros _; eexists; reflexivity].
  - assert (Hn : ~ zlast_code 15 1 sizes 0 <= 2 ^ (1 + Z.of_nat 14)).
    { intros H. apply Hc in H as [x Hx]. discriminate. }
    rewrite zlast_code_15 in Hn. change (2 ^ (1 + Z.of_nat 14)) with (2 ^ 15) in Hn.
    destruct (existsb _ _); (split; [intros [x Hx]; discriminate|intros H; lia]).
Qed.

(** X6 on the lengths 2, 1, 3, 3 of a complete code. *)
Lemma stbi__zbuild_huffman_kraft_witness :
  is_Some (stbi__zbuild_huffman zhuffman_0 [2; 1; 3; 3]) <->
  kraft_sum [2; 1; 3; 3] <= 2 ^ 15.
Proof.
  apply (stbi__zbuild_huffman_kraft zhuffman_0 [2; 1; 3; 3]). reflexivity.
Defined.

(** ** The output buffer of the zlib decoder *)

Lemma same_zout_refl a : same_zout a a.
Proof. unfold same_zout. auto. Qed.

Lemma same_zout_trans a b c : same_zout a b -> same_zout b c -> same_zout a c.
Proof. unfold same_zout. intros (-> & -> & ->) (-> & -> & ->). auto. Qed.

Lemma get_Ret {St} (s a s' : St) : get s = Ret (a, s') -> a = s /\ s' = s.
Proof. unfold get. intros [= <- <-]. auto. Qed.

Lemma put_Ret {St} (x s : St) u s' : put x s = Ret (u, s') -> s' = x.
Proof. unfold put. intros [= _ <-]. reflexivity. Qed.

(** Case analysis on the condition that a run [H] starts with. *)
Ltac case_if H :=
  match type of H with
  | (if ?c then _ else _) _ = _ => destruct c
  end.

(** Splits a run of the state monad into its steps. *)
Ltac inv_get H :=
  let a := fresh "a" in let s := fresh "s" in let H1 := fresh "Hg" in
  apply bind_Ret in H as (a & s & H1 & H);
  apply get_Ret in H1 as [-> ->].

Lemma stbi__zget8_same r a a' : stbi__zget8 a = Ret (r, a') -> same_zout a a'.
Proof.
  unfold stbi__zget8. destruct (zbuffer a); intros [= <- <-];
    unfold same_zout, set_zbuffer; cbn [zout zout_limit z_expandable]; auto.
Qed.

Lemma stbi__fill_bits_loop_same asserts n : forall r a a',
  stbi__fill_bits_loop asserts n a = Ret (r, a') -> same_zout a a'.
Proof.
  induction n as [|n IH]; intros r a a' H; cbn [stbi__fill_bits_loop] in H; [discriminate|].
  inv_get H. destruct (_ <? 0); [discriminate|].
  inv_bind H. apply c_assert_Ret in Hm as [[= -> ->] _].
  inv_bind H. apply stbi__zget8_same in Hm.
  inv_get H. inv_bind H. apply put_Ret in Hm0 as ->.
  match type of H with
  | _ (set_bits ?z ?n ?c) = _ =>
      assert (Hs : same_zout a (set_bits z n c))
        by (eapply same_zout_trans; [exact Hm|]; unfold same_zout, set_bits;
            cbn [zout zout_limit z_expandable]; auto)
  end.
  destruct (_ <=? 24).
  - eapply same_zout_trans; [exact Hs|]. eapply IH; exact H.
  - inv_ret H. exact Hs.
Qed.

Lemma stbi__fill_bits_same asserts r a a' :
  stbi__fill_bits asserts a = Ret (r, a') -> same_zout a a'.
Proof. apply stbi__fill_bits_loop_same. Qed.

Lemma same_zout_set_bits a n c : same_zout a (set_bits a n c).
Proof. unfold same_zout, set_bits. cbn [zout zout_limit z_expandable]. auto. Qed.

Lemma fill_if_same asserts (b : bool) r a a' :
  (if b then stbi__fill_bits asserts else ret tt) a = Ret (r, a') -> same_zout a a'.
Proof.
  destruct b; [apply stbi__fill_bits_same|]. intros H. inv_ret H. apply same_zout_refl.
Qed.

Lemma stbi__zreceive_same asserts n r a a' :
  stbi__zreceive asserts n a = Ret (r, a') -> same_zout a a'.
Proof.
  unfold stbi__zreceive. intros H. inv_get H. inv_bind H. apply fill_if_same in Hm.
  inv_get H. inv_bind H. apply put_Ret in Hm0 as ->. inv_ret H.
  eapply same_zout_trans; [exact Hm|]. apply same_zout_set_bits.
Qed.

Lemma stbi__zhuffman_decode_same asserts z r a a' :
  stbi__zhuffman_decode asserts z a = Ret (r, a') -> same_zout a a'.
Proof.
  unfold stbi__zhuffman_decode. intros H. inv_get H. inv_bind H. apply fill_if_same in Hm.
  inv_get H. eapply same_zout_trans; [exact Hm|]. clear Hm.
  destruct (negb _).
  - inv_bind H. apply put_Ret in Hm as ->. inv_ret H. apply same_zout_set_bits.
  - unfold stbi__zhuffman_decode_slowpath in H. inv_get H.
    destruct (zslow_find _ _ _ _) as [sz|]; [|discriminate].
    destruct (sz =? 16); [inv_ret H; apply same_zout_refl|].
    destruct (_ || _); [discriminate|].
    inv_bind H. apply c_assert_Ret in Hm as [[= -> ->] _].
    inv_bind H. apply put_Ret in Hm as ->. inv_ret H. apply same_zout_set_bits.
Qed.

Lemma zreceive_if_same asserts (b : bool) n r a a' :
  (if b then stbi__zreceive asserts n else ret 0) a = Ret (r, a') -> same_zout a a'.
Proof.
  destruct b; [apply stbi__zreceive_same|]. intros H. inv_ret H. apply same_zout_refl.
Qed.

Lemma zout_grows_same a a' : zout_bounded a -> same_zout a a' -> zout_grows a a'.
Proof.
  unfold zout_grows, zout_bounded, same_zout. intros [He Hb] (Ho & Hl & Hx).
  rewrite Hx, Ho, Hl. auto.
Qed.

Lemma zout_grows_refl a : zout_bounded a -> zout_grows a a.
Proof. intros H. split; [reflexivity|exact H]. Qed.

Lemma zout_grows_trans a b c : zout_grows a b -> zout_grows b c -> zout_grows a c.
Proof. unfold zout_grows. intros [-> _] [-> H]. auto. Qed.

Lemma zout_bounded_same a a' : zout_bounded a -> same_zout a a' -> zout_bounded a'.
Proof. intros Hb Hs. apply (zout_grows_same a a' Hb Hs). Qed.

(** Without [z_expandable], [stbi__zexpand] refuses. *)
Lemma stbi__zexpand_fixed n r a a' :
  z_expandable a = false -> stbi__zexpand n a = Ret (r, a') -> r = 0 /\ a' = a.
Proof.
  intros Hx. unfold stbi__zexpand. intros H. inv_get H. rewrite Hx in H. cbn [negb] in H.
  inv_ret H. auto.
Qed.

Lemma zcopy_back_length dist : forall len out out',
  zcopy_back len dist out = Some out' -> length out' = (length out + len)%nat.
Proof.
  induction len as [|len IH]; intros out out' H; cbn [zcopy_back] in H.
  - injection H as <-. lia.
  - destruct (_ <? 0); [discriminate|].
    destruct (out !! _) as [v|]; [|discriminate].
    apply IH in H. rewrite H, length_app. cbn [length]. lia.
Qed.

Lemma stbi__parse_huffman_block_bounded asserts : forall fuel r a a',
  zout_bounded a ->
  stbi__parse_huffman_block asserts fuel a = Ret (r, a') -> zout_grows a a'.
Proof.
  induction fuel as [|fuel IH]; intros r a a' Hb H; cbn [stbi__parse_huffman_block] in H;
    [discriminate|].
  inv_get H. inv_bind H. apply stbi__zhuffman_decode_same in Hm.
  pose proof (zout_grows_same _ _ Hb Hm) as Hg.
  pose proof (zout_bounded_same _ _ Hb Hm) as Hb1. clear Hm.
  eapply zout_grows_trans; [exact Hg|]. clear Hg Hb.
  destruct (a0 <? 256).
  { destruct (a0 <? 0); [inv_ret H; apply zout_grows_refl; exact Hb1|].
    inv_get H. inv_bind H.
    match type of Hm with
    | (if ?c then _ else _) _ = _ => destruct c eqn:Efull
    end.
    - apply stbi__zexpand_fixed in Hm as [-> ->]; [|apply Hb1].
      cbn [Z.eqb] in H. inv_ret H. apply zout_grows_refl; exact Hb1.
    - inv_ret Hm. cbn [Z.eqb] in H. inv_get H. inv_bind H. apply put_Ret in Hm as ->.
      rewrite Z.geb_leb in Efull. apply Z.leb_gt in Efull.
      match type of H with
      | _ ?st = _ => assert (Hb2 : zout_bounded st)
      end.
      { destruct Hb1 as [Hx Hl]. split; unfold set_zout; cbn [z_expandable zout zout_limit];
          [exact Hx|]. rewrite length_app. cbn [length]. lia. }
      eapply zout_grows_trans; [|eapply IH; [exact Hb2|exact H]].
      split; [reflexivity|exact Hb2]. }
  destruct (a0 =? 256); [inv_ret H; apply zout_grows_refl; exact Hb1|].
  inv_bind H. apply zreceive_if_same in Hm.
  pose proof (zout_grows_same _ _ Hb1 Hm) as Hg.
  pose proof (zout_bounded_same _ _ Hb1 Hm) as Hb2. clear Hm.
  eapply zout_grows_trans; [exact Hg|]. clear Hg Hb1.
  inv_get H. inv_bind H. apply stbi__zhuffman_decode_same in Hm.
  pose proof (zout_grows_same _ _ Hb2 Hm) as Hg.
  pose proof (zout_bounded_same _ _ Hb2 Hm) as Hb3. clear Hm.
  eapply zout_grows_trans; [exact Hg|]. clear Hg Hb2.
  destruct (_ <? 0); [inv_ret H; apply zout_grows_refl; exact Hb3|].
  inv_bind H. apply zreceive_if_same in Hm.
  pose proof (zout_grows_same _ _ Hb3 Hm) as Hg.
  pose proof (zout_bounded_same _ _ Hb3 Hm) as Hb4. clear Hm.
  eapply zout_grows_trans; [exact Hg|]. clear Hg Hb3.
  inv_get H.
  destruct (_ <? _); [inv_ret H; apply zout_grows_refl; exact Hb4|].
  inv_bind H.
  match type of Hm with
  | (if ?c then _ else _) _ = _ => destruct c eqn:Eroom
  end.
  { apply stbi__zexpand_fixed in Hm as [-> ->]; [|apply Hb4].
    cbn [Z.eqb] in H. inv_ret H. apply zout_grows_refl; exact Hb4. }
  inv_ret Hm. cbn [Z.eqb] in H. inv_get H.
  rewrite Z.gtb_ltb in Eroom. apply Z.ltb_ge in Eroom.
  match type of Eroom with
  | _ + ?l <= _ => set (len := l) in *
  end.
  match type of Eroom with
  | Z.of_nat (length (zout ?st)) + _ <= _ =>
      assert (Hfit : Z.of_nat (length (zout st) + Z.to_nat len) <= Z.max (zout_limit st) 0)
        by (destruct Hb4 as [_ Hl]; lia)
  end.
  destruct (_ =? 1).
  - destruct (list.last _) as [v|]; [|discriminate].
    inv_bind H. apply put_Ret in Hm as ->.
    match type of H with
    | _ ?st = _ => assert (Hb5 : zout_bounded st)
    end.
    { split; unfold set_zout; cbn [z_expandable zout zout_limit]; [apply Hb4|].
      rewrite length_app, length_replicate. exact Hfit. }
    eapply zout_grows_trans; [|eapply IH; [exact Hb5|exact H]].
    split; [reflexivity|exact Hb5].
  - destruct (zcopy_back _ _ _) as [out|] eqn:Ec; [|discriminate].
    apply zcopy_back_length in Ec.
    inv_bind H. apply put_Ret in Hm as ->.
    match type of H with
    | _ ?st = _ => assert (Hb5 : zout_bounded st)
    end.
    { split; unfold set_zout; cbn [z_expandable zout zout_limit]; [apply Hb4|].
      rewrite Ec. exact Hfit. }
    eapply zout_grows_trans; [|eapply IH; [exact Hb5|exact H]].
    split; [reflexivity|exact Hb5].
Qed.

Lemma zcodelength_sizes_same asserts : forall order sizes r a a',
  zcodelength_sizes asserts order sizes a = Ret (r, a') -> same_zout a a'.
Proof.
  induction order as [|d order IH]; intros sizes r a a' H; cbn [zcodelength_sizes] in H.
  - inv_ret H. apply same_zout_refl.
  - inv_bind H. apply stbi__zreceive_same in Hm.
    eapply same_zout_trans; [exact Hm|]. eapply IH; exact H.
Qed.

Lemma zcodelengths_same asserts total zc : forall fuel lencodes r a a',
  zcodelengths asserts fuel total zc lencodes a = Ret (r, a') -> same_zout a a'.
Proof.
  induction fuel as [|fuel IH]; intros lencodes r a a' H; cbn [zcodelengths] in H.
  - inv_ret H. apply same_zout_refl.
  - destruct (negb _); [inv_ret H; apply same_zout_refl|].
    inv_bind H. apply stbi__zhuffman_decode_same in Hm.
    eapply same_zout_trans; [exact Hm|]. clear Hm.
    destruct (_ || _); [inv_ret H; apply same_zout_refl|].
    destruct (_ <? 16); [eapply IH; exact H|].
    destruct (_ =? 16).
    { inv_bind H. apply stbi__zreceive_same in Hm.
      eapply same_zout_trans; [exact Hm|].
      destruct (list.last _); [|discriminate].
      destruct (_ >? _); [discriminate|]. eapply IH; exact H. }
    destruct (_ =? 17).
    { inv_bind H. apply stbi__zreceive_same in Hm.
      eapply same_zout_trans; [exact Hm|].
      destruct (_ >? _); [discriminate|]. eapply IH; exact H. }
    inv_bind H. apply stbi__zreceive_same in Hm.
    eapply same_zout_trans; [exact Hm|].
    destruct (_ >? _); [discriminate|]. eapply IH; exact H.
Qed.

Lemma same_zout_set_z_length a z : same_zout a (set_z_length a z).
Proof. unfold same_zout, set_z_length. cbn [zout zout_limit z_expandable]. auto. Qed.

Lemma same_zout_set_z_distance a z : same_zout a (set_z_distance a z).
Proof. unfold same_zout, set_z_distance. cbn [zout zout_limit z_expandable]. auto. Qed.

Lemma stbi__compute_huffman_codes_same asserts r a a' :
  stbi__compute_huffman_codes asserts a = Ret (r, a') -> same_zout a a'.
Proof.
  unfold stbi__compute_huffman_codes. intros H.
  inv_bind H. apply stbi__zreceive_same in Hm. eapply same_zout_trans; [exact Hm|]. clear Hm.
  inv_bind H. apply stbi__zreceive_same in Hm. eapply same_zout_trans; [exact Hm|]. clear Hm.
  inv_bind H. apply stbi__zreceive_same in Hm. eapply same_zout_trans; [exact Hm|]. clear Hm.
  inv_bind H. apply zcodelength_sizes_same in Hm. eapply same_zout_trans; [exact Hm|]. clear Hm.
  destruct (stbi__zbuild_huffman zhuffman_0 _); [|inv_ret H; apply same_zout_refl].
  inv_bind H. apply zcodelengths_same in Hm. eapply same_zout_trans; [exact Hm|]. clear Hm.
  destruct a4 as [lencodes|]; [|inv_ret H; apply same_zout_refl].
  destruct (negb _); [inv_ret H; apply same_zout_refl|].
  inv_get H.
  destruct (stbi__zbuild_huffman _ _); [|inv_ret H; apply same_zout_refl].
  inv_bind H. apply put_Ret in Hm as ->.
  eapply same_zout_trans; [apply same_zout_set_z_length|].
  inv_get H.
  destruct (stbi__zbuild_huffman _ _); [|inv_ret H; apply same_zout_refl].
  inv_bind H. apply put_Ret in Hm as ->. inv_ret H.
  apply same_zout_set_z_distance.
Qed.

Lemma zfill_header_same : forall n header r a a',
  zfill_header n header a = Ret (r, a') -> same_zout a a'.
Proof.
  induction n as [|n IH]; intros header r a a' H; cbn [zfill_header] in H.
  - inv_ret H. apply same_zout_refl.
  - inv_bind H. apply stbi__zget8_same in Hm.
    eapply same_zout_trans; [exact Hm|]. eapply IH; exact H.
Qed.

Lemma stbi__parse_uncompressed_block_bounded asserts r a a' :
  zout_bounded a ->
  stbi__parse_uncompressed_block asserts a = Ret (r, a') -> zout_grows a a'.
Proof.
  intros Hb H. unfold stbi__parse_uncompressed_block in H.
  inv_get H. inv_bind H.
  match type of Hm with
  | _ ?x = Ret (_, ?y) => assert (Hs : same_zout x y)
  end.
  { destruct (negb _).
    - inv_bind Hm. apply stbi__zreceive_same in Hm0. inv_ret Hm. exact Hm0.
    - inv_ret Hm. apply same_zout_refl. }
  clear Hm. inv_get H.
  destruct (zdrain_header _ _ _ _) as [[[nb cb] header]|]; [|discriminate].
  inv_bind H. apply put_Ret in Hm as ->.
  inv_bind H. apply c_assert_Ret in Hm as [[= -> ->] _].
  inv_bind H. apply zfill_header_same in Hm.
  match type of Hm with
  | same_zout _ ?y => assert (Hs' : same_zout a y)
  end.
  { eapply same_zout_trans; [exact Hs|].
    eapply same_zout_trans; [apply same_zout_set_bits|exact Hm]. }
  clear Hs Hm.
  pose proof (zout_grows_same _ _ Hb Hs') as Hg.
  pose proof (zout_bounded_same _ _ Hb Hs') as Hb1.
  eapply zout_grows_trans; [exact Hg|]. clear Hg Hs' Hb.
  destruct (negb _); [inv_ret H; apply zout_grows_refl; exact Hb1|].
  inv_get H.
  destruct (_ >? Z.of_nat _); [inv_ret H; apply zout_grows_refl; exact Hb1|].
  inv_bind H.
  match type of Hm with
  | (if ?c then _ else _) _ = _ => destruct c eqn:Eroom
  end.
  { apply stbi__zexpand_fixed in Hm as [-> ->]; [|apply Hb1].
    cbn [Z.eqb] in H. inv_ret H. apply zout_grows_refl; exact Hb1. }
  inv_ret Hm. cbn [Z.eqb] in H. inv_get H.
  inv_bind H. apply put_Ret in Hm as ->. inv_ret H.
  rewrite Z.gtb_ltb in Eroom. apply Z.ltb_ge in Eroom.
  split; unfold set_zbuffer, set_zout; cbn [zout_limit]; [reflexivity|].
  split; cbn [z_expandable zout zout_limit]; [apply Hb1|].
  destruct Hb1 as [_ Hl]. rewrite length_app, length_map, length_take. lia.
Qed.

Lemma stbi__parse_zlib_blocks_bounded asserts : forall fuel r a a',
  zout_bounded a ->
  stbi__parse_zlib_blocks asserts fuel a = Ret (r, a') -> zout_grows a a'.
Proof.
  induction fuel as [|fuel IH]; intros r a a' Hb H; cbn [stbi__parse_zlib_blocks] in H;
    [discriminate|].
  inv_bind H. apply stbi__zreceive_same in Hm.
  pose proof (zout_grows_same _ _ Hb Hm) as Hg.
  pose proof (zout_bounded_same _ _ Hb Hm) as Hb1. clear Hm.
  eapply zout_grows_trans; [exact Hg|]. clear Hg Hb.
  inv_bind H. apply stbi__zreceive_same in Hm.
  pose proof (zout_grows_same _ _ Hb1 Hm) as Hg.
  pose proof (zout_bounded_same _ _ Hb1 Hm) as Hb2. clear Hm.
  eapply zout_grows_trans; [exact Hg|]. clear Hg Hb1.
  inv_bind H.
  match type of Hm with
  | _ ?x = Ret (_, ?y) => assert (Hg : zout_grows x y)
  end.
  { case_if Hm; [eapply stbi__parse_uncompressed_block_bounded; eassumption|].
    case_if Hm; [inv_ret Hm; apply zout_grows_refl; exact Hb2|].
    inv_bind Hm.
    match type of Hm0 with
    | _ ?x = Ret (_, ?y) => assert (Hs : same_zout x y)
    end.
    { case_if Hm0; [|eapply stbi__compute_huffman_codes_same; exact Hm0].
      inv_get Hm0.
      destruct (stbi__zbuild_huffman _ _); [|inv_ret Hm0; apply same_zout_refl].
      inv_bind Hm0. apply put_Ret in Hm1 as ->.
      eapply same_zout_trans; [apply same_zout_set_z_length|].
      inv_get Hm0.
      destruct (stbi__zbuild_huffman _ _); [|inv_ret Hm0; apply same_zout_refl].
      inv_bind Hm0. apply put_Ret in Hm1 as ->. inv_ret Hm0.
      apply same_zout_set_z_distance. }
    eapply zout_grows_trans; [apply (zout_grows_same _ _ Hb2 Hs)|].
    case_if Hm; [inv_ret Hm; apply zout_grows_refl; apply (zout_bounded_same _ _ Hb2 Hs)|].
    eapply stbi__parse_huffman_block_bounded; [|exact Hm].
    apply (zout_bounded_same _ _ Hb2 Hs). }
  eapply zout_grows_trans; [exact Hg|].
  case_if H; [inv_ret H; apply zout_grows_refl; apply Hg|].
  case_if H; [|inv_ret H; apply zout_grows_refl; apply Hg].
  eapply IH; [apply Hg|exact H].
Qed.

Lemma stbi__parse_zlib_header_same r a a' :
  stbi__parse_zlib_header a = Ret (r, a') -> same_zout a a'.
Proof.
  unfold stbi__parse_zlib_header. intros H.
  inv_bind H. apply stbi__zget8_same in Hm. eapply same_zout_trans; [exact Hm|]. clear Hm.
  inv_bind H. apply stbi__zget8_same in Hm. eapply same_zout_trans; [exact Hm|]. clear Hm.
  repeat match type of H with
         | (if ?c then _ else _) _ = _ => destruct c
         end; inv_ret H; apply same_zout_refl.
Qed.

Lemma stbi__do_zlib_bounded asserts fuel ibuffer olen parse_header r a :
  stbi__do_zlib asserts fuel ibuffer olen false parse_header = Ret (r, a) ->
  Z.of_nat (length (zout a)) <= Z.max olen 0.
Proof.
  unfold stbi__do_zlib, stbi__parse_zlib. intros H.
  set (a0 := mkZbuf ibuffer 0 0 [] olen false zhuffman_0 zhuffman_0) in *.
  assert (Hb : zout_bounded a0) by (split; cbn [a0 z_expandable zout zout_limit length]; lia).
  inv_bind H.
  match type of Hm with
  | _ _ = Ret (_, ?y) => assert (Hs : same_zout a0 y)
  end.
  { destruct parse_header; [eapply stbi__parse_zlib_header_same; exact Hm|].
    inv_ret Hm. apply same_zout_refl. }
  pose proof (zout_grows_same _ _ Hb Hs) as Hg.
  assert (Hend : zout_grows a0 a).
  { eapply zout_grows_trans; [exact Hg|].
    destruct (_ =? 0); [inv_ret H; apply zout_grows_refl; apply Hg|].
    inv_get H. inv_bind H. apply put_Ret in Hm0 as ->.
    eapply zout_grows_trans; [apply zout_grows_same; [apply Hg|apply same_zout_set_bits]|].
    eapply stbi__parse_zlib_blocks_bounded; [|exact H].
    eapply zout_bounded_same; [apply Hg|apply same_zout_set_bits]. }
  destruct Hend as [Hl [_ Hle]]. rewrite Hl in Hle. exact Hle.
Qed.

(** X7. Whatever the input, [stbi_zlib_decode_buffer] writes no more than
    [olen] bytes to the output buffer (none at all when [olen] is negative),
    and what it returns is [-1] or the number of bytes written. *)
Theorem stbi_zlib_decode_buffer_within_olen asserts fuel olen ibuffer r out :
  stbi_zlib_decode_buffer asserts fuel olen ibuffer = Ret (r, out) ->
  Z.of_nat (length out) <= Z.max olen 0 /\
  (r = -1 \/ r = Z.of_nat (length out)).
Proof.
  unfold stbi_zlib_decode_buffer.
  destruct (stbi__do_zlib _ _ _ _ _ _) as [[r0 a]| | |] eqn:E; try discriminate.
  apply stbi__do_zlib_bounded in E.
  destruct (negb _); intros [= <- <-]; auto.
Qed.

(** X7 on the stream [C5_stream], which stands for 65 bytes, with an output
    buffer of 12: the decoder fills the buffer and fails. *)
Lemma stbi_zlib_decode_buffer_within_olen_witness :
  stbi_zlib_decode_buffer true 10 12 C5_stream
    = Ret (-1, [114; 97; 119; 32; 98; 121; 116; 101; 115; 44; 32; 97]) /\
  Z.of_nat (length [114; 97; 119; 32; 98; 121; 116; 101; 115; 44; 32; 97]) <= Z.max 12 0.
Proof.
  assert (E : stbi_zlib_decode_buffer true 10 12 C5_stream
              = Ret (-1, [114; 97; 119; 32; 98; 121; 116; 101; 115; 44; 32; 97]))
    by (vm_compute; reflexivity).
  split; [exact E|].
  exact (proj1 (stbi_zlib_decode_buffer_within_olen true 10 12 C5_stream _ _ E)).
Defined.

Lemma stbi__parse_zlib_header_ok a :
  stbi__parse_zlib_header a =
    Ret (if zlib_header_ok (nth 0 (zbuffer a) 0) (nth 1 (zbuffer a) 0) then 1 else 0,
         set_zbuffer a (drop 2 (zbuffer a))).
Proof.
  unfold stbi__parse_zlib_header, zlib_header_ok, bind, stbi__zget8.
  destruct a as [zb nb cb out lim ex zl zd]. cbn [zbuffer set_zbuffer].
  destruct zb as [|cmf [|flg rest]];
    cbn [zbuffer set_zbuffer num_bits code_buffer zout zout_limit z_expandable z_length
         z_distance nth drop];
    change (u8 0) with 0;
    repeat match goal with
           | |- context [if negb ?c then _ else _] => destruct c; cbn [negb andb]
           end; reflexivity.
Qed.

(** X8. A stream whose first two bytes are not an acceptable zlib header
    (missing bytes count as zeros) is refused before anything is written:
    [stbi_zlib_decode_buffer] returns [-1] and the output buffer is
    untouched. *)
Theorem stbi_zlib_decode_buffer_bad_header asserts fuel olen ibuffer :
  zlib_header_ok (nth 0 ibuffer 0) (nth 1 ibuffer 0) = false ->
  stbi_zlib_decode_buffer asserts fuel olen ibuffer = Ret (-1, []).
Proof.
  intros Hbad. unfold stbi_zlib_decode_buffer, stbi__do_zlib, stbi__parse_zlib.
  unfold bind at 1. rewrite stbi__parse_zlib_header_ok. cbn [zbuffer].
  rewrite Hbad. reflexivity.
Qed.

(** X8 on the empty input and on the payload of [C8_chunk]. *)
Lemma stbi_zlib_decode_buffer_bad_header_witness :
  stbi_zlib_decode_buffer true 1 4 [] = Ret (-1, []) /\
  stbi_zlib_decode_buffer true 1 4 [1; 2; 3] = Ret (-1, []).
Proof.
  split.
  - apply (stbi_zlib_decode_buffer_bad_header true 1 4 []). vm_compute. reflexivity.
  - apply (stbi_zlib_decode_buffer_bad_header true 1 4 [1; 2; 3]). vm_compute. reflexivity.
Defined.

(** X9. [stbi_zlib_decode_buffer] on a stream with an acceptable header does
    what [stbi_zlib_decode_noheader_buffer] does on the stream without its
    two header bytes. *)
Theorem stbi_zlib_decode_buffer_skips_header asserts fuel olen cmf flg ibuffer :
  zlib_header_ok cmf flg = true ->
  stbi_zlib_decode_buffer asserts fuel olen (cmf :: flg :: ibuffer) =
  stbi_zlib_decode_noheader_buffer asserts fuel olen ibuffer.
Proof.
  intros Hok.
  unfold stbi_zlib_decode_buffer, stbi_zlib_decode_noheader_buffer, stbi__do_zlib,
    stbi__parse_zlib.
  unfold bind at 1. rewrite stbi__parse_zlib_header_ok. cbn [zbuffer nth drop].
  rewrite Hok. reflexivity.
Qed.

(** X9 on the stored block of the bytes 1, 2, 3 behind the header [0x78
    0x01]. *)
Lemma stbi_zlib_decode_buffer_skips_header_witness :
  stbi_zlib_decode_buffer true 1 3 (120 :: 1 :: [1; 3; 0; 252; 255; 1; 2; 3]) =
  stbi_zlib_decode_noheader_buffer true 1 3 [1; 3; 0; 252; 255; 1; 2; 3].
Proof.
  apply (stbi_zlib_decode_buffer_skips_header true 1 3 120 1). vm_compute. reflexivity.
Defined.

(** ** The zlib entry points that allocate the output *)

Lemma bind_get {St A} (k : St -> M St A) s : bind get k s = k s s.
Proof. reflexivity. Qed.

Lemma bind_put {St A} (x : St) (k : unit -> M St A) s : bind (put x) k s = k tt x.
Proof. reflexivity. Qed.

Lemma bind_c_assert {St A} asserts e (k : unit -> M St A) (s s' : St) u t :
  c_assert asserts e s = Ret (u, t) -> bind (c_assert asserts e) k s' = k tt s'.
Proof.
  unfold c_assert, bind. destruct (_ && _); [discriminate|]. reflexivity.
Qed.

(** Takes the next step of the run [H] over to the goal with [L]. *)
Tactic Notation "zl_bind" hyp(H) uconstr(L) :=
  let x := fresh "x" in let s := fresh "s" in let Hm := fresh "Hm" in
  apply bind_Ret in H as (x & s & Hm & H);
  rewrite (bind_eq_Ret _ _ _ _ _ (L _ _ _ _ _ Hm)); clear Hm.

Ltac zl_get H :=
  inv_get H; rewrite bind_get;
  cbn [zwith zbuffer num_bits code_buffer zout z_length z_distance].

Ltac zl_put H :=
  let x := fresh "x" in let s := fresh "s" in let Hm := fresh "Hm" in
  apply bind_Ret in H as (x & s & Hm & H);
  apply put_Ret in Hm as ->; rewrite bind_put.

Ltac zl_assert H :=
  let x := fresh "x" in let s := fresh "s" in let Hm := fresh "Hm" in
  apply bind_Ret in H as (x & s & Hm & H);
  rewrite (bind_c_assert _ _ _ _ _ _ _ Hm);
  apply c_assert_Ret in Hm as [[= -> ->] _].

Ltac zl_done H := inv_ret H; reflexivity.

Lemma zlifts_zget8 : zlifts stbi__zget8.
Proof.
  intros a r a' l e. unfold stbi__zget8. cbn [zwith zbuffer].
  destruct (zbuffer a) eqn:E; intros [= <- <-]; [|reflexivity].
  unfold zwith. rewrite E. reflexivity.
Qed.

Lemma zlifts_fill_bits_loop asserts n : zlifts (stbi__fill_bits_loop asserts n).
Proof.
  induction n as [|n IH]; intros a r a' l e H; cbn [stbi__fill_bits_loop] in *;
    [discriminate H|].
  zl_get H. destruct (num_bits a <? 0); [discriminate|].
  zl_assert H. zl_bind H zlifts_zget8. zl_get H. zl_put H.
  destruct (_ <=? 24).
  - apply (IH _ _ _ l e) in H. exact H.
  - zl_done H.
Qed.

Lemma zlifts_fill_bits asserts : zlifts (stbi__fill_bits asserts).
Proof. apply zlifts_fill_bits_loop. Qed.

Lemma zlifts_fill_if asserts (b : bool) :
  zlifts (if b then stbi__fill_bits asserts else ret tt).
Proof. destruct b; [apply zlifts_fill_bits|]. intros a r a' l e H. zl_done H. Qed.

Lemma zlifts_zreceive asserts n : zlifts (stbi__zreceive asserts n).
Proof.
  intros a r a' l e H. unfold stbi__zreceive in *.
  zl_get H. zl_bind H (zlifts_fill_if asserts _). zl_get H. zl_put H. zl_done H.
Qed.

Lemma zlifts_zreceive_if asserts (b : bool) n :
  zlifts (if b then stbi__zreceive asserts n else ret 0).
Proof. destruct b; [apply zlifts_zreceive|]. intros a r a' l e H. zl_done H. Qed.

Lemma zlifts_zhuffman_decode asserts z : zlifts (stbi__zhuffman_decode asserts z).
Proof.
  intros a r a' l e H. unfold stbi__zhuffman_decode in *.
  zl_get H. zl_bind H (zlifts_fill_if asserts _). zl_get H.
  destruct (negb _).
  - zl_put H. zl_done H.
  - unfold stbi__zhuffman_decode_slowpath in *. zl_get H.
    destruct (zslow_find _ _ _ _) as [sz|]; [|discriminate].
    destruct (sz =? 16); [zl_done H|].
    destruct (_ || _); [discriminate|].
    zl_assert H. zl_put H. zl_done H.
Qed.

Lemma zlifts_zcodelength_sizes asserts : forall order sizes,
  zlifts (zcodelength_sizes asserts order sizes).
Proof.
  induction order as [|d order IH]; intros sizes a r a' l e H; cbn [zcodelength_sizes] in *.
  - zl_done H.
  - zl_bind H (zlifts_zreceive asserts _). apply IH. exact H.
Qed.

Lemma zlifts_zcodelengths asserts total zc : forall fuel lencodes,
  zlifts (zcodelengths asserts fuel total zc lencodes).
Proof.
  induction fuel as [|fuel IH]; intros lencodes a r a' l e H; cbn [zcodelengths] in *.
  - zl_done H.
  - destruct (negb _); [zl_done H|].
    zl_bind H (zlifts_zhuffman_decode asserts _).
    destruct (_ || _); [zl_done H|].
    destruct (_ <? 16); [apply IH; exact H|].
    destruct (_ =? 16).
    { zl_bind H (zlifts_zreceive asserts _).
      destruct (list.last _); [|discriminate].
      destruct (_ >? _); [discriminate|]. apply IH; exact H. }
    destruct (_ =? 17).
    { zl_bind H (zlifts_zreceive asserts _).
      destruct (_ >? _); [discriminate|]. apply IH; exact H. }
    zl_bind H (zlifts_zreceive asserts _).
    destruct (_ >? _); [discriminate|]. apply IH; exact H.
Qed.

Lemma zlifts_compute_huffman_codes asserts : zlifts (stbi__compute_huffman_codes asserts).
Proof.
  intros a r a' l e H. unfold stbi__compute_huffman_codes in *.
  zl_bind H (zlifts_zreceive asserts _). zl_bind H (zlifts_zreceive asserts _).
  zl_bind H (zlifts_zreceive asserts _). zl_bind H (zlifts_zcodelength_sizes asserts _ _).
  destruct (stbi__zbuild_huffman zhuffman_0 _); [|zl_done H].
  zl_bind H (zlifts_zcodelengths asserts _ _ _ _).
  match type of H with
  | match ?o with _ => _ end _ = _ => destruct o as [lencodes|]; [|zl_done H]
  end.
  destruct (negb _); [zl_done H|].
  zl_get H.
  destruct (stbi__zbuild_huffman _ _); [|zl_done H].
  zl_put H. zl_get H.
  destruct (stbi__zbuild_huffman _ _); [|zl_done H].
  zl_put H. zl_done H.
Qed.

Lemma zlifts_zfill_header : forall n header, zlifts (zfill_header n header).
Proof.
  induction n as [|n IH]; intros header a r a' l e H; cbn [zfill_header] in *.
  - zl_done H.
  - zl_bind H zlifts_zget8. apply IH. exact H.
Qed.

Lemma zlifts_parse_zlib_header : zlifts stbi__parse_zlib_header.
Proof.
  intros a r a' l e H. unfold stbi__parse_zlib_header in *.
  zl_bind H zlifts_zget8. zl_bind H zlifts_zget8.
  destruct (negb _); [zl_done H|].
  destruct (negb _); [zl_done H|].
  destruct (negb _); zl_done H.
Qed.

Lemma zfixed_same a a' : zfixed a -> same_zout a a' -> zfixed a'.
Proof. unfold zfixed, same_zout. intros [Hx Hl] (_ & -> & ->). auto. Qed.

Lemma zfixed_set_zout a o : zfixed a -> zfixed (set_zout a o).
Proof. unfold zfixed, set_zout. cbn [z_expandable zout_limit]. auto. Qed.

Lemma zfixed_set_bits a n c : zfixed a -> zfixed (set_bits a n c).
Proof. unfold zfixed, set_bits. cbn [z_expandable zout_limit]. auto. Qed.

Lemma zfixed_set_zbuffer a b : zfixed a -> zfixed (set_zbuffer a b).
Proof. unfold zfixed, set_zbuffer. cbn [z_expandable zout_limit]. auto. Qed.

Lemma zgrown_ret {A} (r : A) a l :
  zfixed a -> 1 <= l <= INT_MAX -> zgrown (ret r) a r a l.
Proof. intros Hf Hl. split; [exact Hf|]. exists l. auto. Qed.

Lemma zgrown_lift {A} (m : M stbi__zbuf A) a r a' l :
  zlifts m -> zfixed a' -> 1 <= l <= INT_MAX -> m a = Ret (r, a') -> zgrown m a r a' l.
Proof.
  intros Hm Hf Hl H. split; [exact Hf|]. exists l. split; [exact Hl|]. apply Hm. exact H.
Qed.

Lemma zgrown_bind {A B} (m : M stbi__zbuf A) (k : A -> M stbi__zbuf B) a x s r a' l :
  zgrown m a x s l ->
  (forall l1, 1 <= l1 <= INT_MAX -> zgrown (k x) s r a' l1) ->
  zgrown (bind m k) a r a' l.
Proof.
  intros (_ & l1 & Hl1 & E) Hk. destruct (Hk l1 Hl1) as (Hf & l2 & Hl2 & E2).
  split; [exact Hf|].
  exists l2. split; [exact Hl2|]. rewrite (bind_eq_Ret _ _ _ _ _ E). exact E2.
Qed.

Lemma zgrown_bind_lift {A B} (m : M stbi__zbuf A) (k : A -> M stbi__zbuf B) a x s r a' l :
  zlifts m -> m a = Ret (x, s) -> zgrown (k x) s r a' l -> zgrown (bind m k) a r a' l.
Proof.
  intros Hm E (Hf & l2 & Hl2 & E2). split; [exact Hf|]. exists l2. split; [exact Hl2|].
  rewrite (bind_eq_Ret _ _ _ _ _ (Hm _ _ _ l true E)). exact E2.
Qed.

Lemma zgrown_get {A} (k : stbi__zbuf -> M stbi__zbuf A) a r a' l :
  zgrown (k (zwith a l true)) a r a' l -> zgrown (bind get k) a r a' l.
Proof. intros H. exact H. Qed.

Lemma zgrown_put {A} (k : unit -> M stbi__zbuf A) x a r a' l :
  zgrown (k tt) x r a' l -> zgrown (bind (put (zwith x l true)) k) a r a' l.
Proof. intros H. exact H. Qed.

Lemma zgrown_c_assert {A} asserts e (k : unit -> M stbi__zbuf A) (s : stbi__zbuf) u t
    a r a' l :
  c_assert asserts e s = Ret (u, t) ->
  zgrown (k tt) a r a' l -> zgrown (bind (c_assert asserts e) k) a r a' l.
Proof.
  intros E (Hf & l2 & Hl2 & E2). split; [exact Hf|]. exists l2. split; [exact Hl2|].
  rewrite (bind_c_assert _ _ _ _ _ _ _ E). exact E2.
Qed.

Lemma zexpand_limit_S fuel cur n limit :
  zexpand_limit (S fuel) cur n limit =
  if cur + n >? limit
  then (if 2 * limit >? INT_MAX then None else zexpand_limit fuel cur n (2 * limit))
  else Some limit.
Proof. reflexivity. Qed.

Lemma zexpand_limit_ok cur n : forall f l,
  1 <= l <= INT_MAX -> cur + n <= 2^30 -> 2^30 < l * 2 ^ Z.of_nat f ->
  exists l', zexpand_limit (S f) cur n l = Some l' /\ 1 <= l' <= INT_MAX.
Proof.
  induction f as [|f IH]; intros l Hl Hn Hf; rewrite zexpand_limit_S.
  - change (2 ^ Z.of_nat 0) with 1 in Hf.
    destruct (cur + n >? l) eqn:E; [rewrite Z.gtb_ltb in E; apply Z.ltb_lt in E; lia|].
    eauto.
  - destruct (cur + n >? l) eqn:E; [|eauto].
    rewrite Z.gtb_ltb in E. apply Z.ltb_lt in E.
    unfold INT_MAX in *.
    destruct (2 * l >? 2 ^ 31 - 1) eqn:E2;
      [rewrite Z.gtb_ltb in E2; apply Z.ltb_lt in E2; lia|].
    rewrite Z.gtb_ltb in E2. apply Z.ltb_ge in E2.
    apply IH; [lia|exact Hn|].
    rewrite Nat2Z.inj_succ, Z.pow_succ_r in Hf by lia. lia.
Qed.

(** With a buffer that may grow and has a size from 1 on, [stbi__zexpand]
    finds room for an output of up to [2^30] bytes. *)
Lemma stbi__zexpand_grows n a l :
  zfixed a -> 1 <= l <= INT_MAX -> Z.of_nat (length (zout a)) + n <= 2^30 ->
  zgrown (stbi__zexpand n) a 1 a l.
Proof.
  intros Hf Hl Hn. split; [exact Hf|]. unfold stbi__zexpand. rewrite bind_get.
  cbn [zwith z_expandable negb zout zout_limit].
  replace (l <=? 0) with false by (symmetry; apply Z.leb_gt; lia).
  rewrite andb_false_r.
  destruct (zexpand_limit_ok (Z.of_nat (length (zout a))) n 31 l Hl Hn) as (l' & E & Hl').
  { change (2 ^ Z.of_nat 31) with (2 * 2^30). lia. }
  change 32%nat with (S 31). rewrite E. exists l'. split; [exact Hl'|]. reflexivity.
Qed.

Lemma zroom_grows (c : bool) n a l :
  zfixed a -> 1 <= l <= INT_MAX -> Z.of_nat (length (zout a)) + n <= 2^30 ->
  zgrown (if c then stbi__zexpand n else ret 1) a 1 a l.
Proof.
  intros Hf Hl Hn. destruct c; [apply stbi__zexpand_grows; assumption|].
  apply zgrown_ret; assumption.
Qed.

Ltac zg_get H :=
  inv_get H; apply zgrown_get;
  cbn [zwith zbuffer num_bits code_buffer zout zout_limit z_length z_distance].

Tactic Notation "zg_bind" hyp(H) hyp(Hf) uconstr(L) uconstr(S) :=
  let x := fresh "x" in let s := fresh "s" in let Hm := fresh "Hm" in
  apply bind_Ret in H as (x & s & Hm & H);
  apply (zgrown_bind_lift _ _ _ _ _ _ _ _ L Hm);
  apply S in Hm; apply (zfixed_same _ _ Hf) in Hm; clear Hf; rename Hm into Hf.

Ltac zg_put H :=
  let x := fresh "x" in let s := fresh "s" in let Hm := fresh "Hm" in
  apply bind_Ret in H as (x & s & Hm & H);
  apply put_Ret in Hm as ->;
  match type of H with
  | _ ?X = _ => apply (zgrown_put _ X)
  end.

Ltac zg_assert H :=
  let x := fresh "x" in let s := fresh "s" in let Hm := fresh "Hm" in
  apply bind_Ret in H as (x & s & Hm & H);
  apply (zgrown_c_assert _ _ _ _ _ _ _ _ _ _ Hm);
  apply c_assert_Ret in Hm as [[= -> ->] _].

(** The room check of a run that went on: there was room in the fixed
    buffer, and the growable one makes it. *)
Tactic Notation "zg_room" hyp(H) hyp(Hf) hyp(Hr) ident(E) ident(l1) ident(Hl1) :=
  let x := fresh "x" in let s := fresh "s" in let Hm := fresh "Hm" in
  apply bind_Ret in H as (x & s & Hm & H);
  match type of Hm with
  | (if ?c then _ else _) _ = _ => destruct c eqn:E
  end;
  [apply stbi__zexpand_fixed in Hm as [-> ->]; [|apply Hf];
   cbn [Z.eqb] in H; inv_ret H; exfalso; apply Hr; reflexivity
  |inv_ret Hm; cbn [Z.eqb] in H;
   eapply zgrown_bind;
   [apply zroom_grows; [exact Hf|eassumption|]
   |intros l1 Hl1; cbn [Z.eqb]]].

Lemma stbi__parse_huffman_block_grows asserts : forall fuel a r a' l,
  zfixed a -> 1 <= l <= INT_MAX ->
  stbi__parse_huffman_block asserts fuel a = Ret (r, a') -> r <> 0 ->
  zgrown (stbi__parse_huffman_block asserts fuel) a r a' l.
Proof.
  induction fuel as [|fuel IH]; intros a r a' l Hf Hl H Hr;
    cbn [stbi__parse_huffman_block] in *; [discriminate|].
  zg_get H.
  zg_bind H Hf (zlifts_zhuffman_decode asserts _) stbi__zhuffman_decode_same.
  destruct (_ <? 256).
  { destruct (_ <? 0); [inv_ret H; exfalso; apply Hr; reflexivity|].
    zg_get H. zg_room H Hf Hr Efull l1 Hl1.
    { rewrite Z.geb_leb in Efull. apply Z.leb_gt in Efull. destruct Hf as [_ Hf]. lia. }
    zg_get H. zg_put H.
    apply IH; [apply zfixed_set_zout; exact Hf|exact Hl1|exact H|exact Hr]. }
  destruct (_ =? 256); [inv_ret H; apply zgrown_ret; [exact Hf|exact Hl]|].
  zg_bind H Hf (zlifts_zreceive_if asserts _ _) zreceive_if_same.
  zg_get H.
  zg_bind H Hf (zlifts_zhuffman_decode asserts _) stbi__zhuffman_decode_same.
  destruct (_ <? 0); [inv_ret H; exfalso; apply Hr; reflexivity|].
  zg_bind H Hf (zlifts_zreceive_if asserts _ _) zreceive_if_same.
  zg_get H.
  destruct (_ <? _); [inv_ret H; exfalso; apply Hr; reflexivity|].
  zg_room H Hf Hr Eroom l1 Hl1.
  { rewrite Z.gtb_ltb in Eroom. apply Z.ltb_ge in Eroom. destruct Hf as [_ Hf]. lia. }
  zg_get H.
  destruct (_ =? 1).
  - destruct (list.last _) as [v|]; [|discriminate].
    zg_put H.
    apply IH; [apply zfixed_set_zout; exact Hf|exact Hl1|exact H|exact Hr].
  - destruct (zcopy_back _ _ _) as [out|]; [|discriminate].
    zg_put H.
    apply IH; [apply zfixed_set_zout; exact Hf|exact Hl1|exact H|exact Hr].
Qed.

Lemma stbi__parse_uncompressed_block_grows asserts a r a' l :
  zfixed a -> 1 <= l <= INT_MAX ->
  stbi__parse_uncompressed_block asserts a = Ret (r, a') -> r <> 0 ->
  zgrown (stbi__parse_uncompressed_block asserts) a r a' l.
Proof.
  intros Hf Hl H Hr. unfold stbi__parse_uncompressed_block in *.
  zg_get H.
  apply bind_Ret in H as (u & s & Hm & H).
  assert (Hf1 : zfixed s).
  { apply (zfixed_same _ _ Hf). destruct (negb _).
    - inv_bind Hm. apply stbi__zreceive_same in Hm0. inv_ret Hm. exact Hm0.
    - inv_ret Hm. apply same_zout_refl. }
  eapply zgrown_bind; [apply zgrown_lift; [|exact Hf1|exact Hl|exact Hm]|].
  { destruct (negb _); [|intros ? ? ? ? ? H0; zl_done H0].
    intros ? ? ? ? ? H0. zl_bind H0 (zlifts_zreceive asserts _). zl_done H0. }
  clear Hm Hf Hl l. intros l Hl.
  zg_get H.
  destruct (zdrain_header _ _ _ _) as [[[nb cb] header]|]; [|discriminate].
  zg_put H. zg_assert H.
  apply (zfixed_set_bits _ nb cb) in Hf1.
  zg_bind H Hf1 (zlifts_zfill_header _ _) zfill_header_same.
  destruct (negb _); [inv_ret H; exfalso; apply Hr; reflexivity|].
  zg_get H.
  destruct (_ >? Z.of_nat _); [inv_ret H; exfalso; apply Hr; reflexivity|].
  zg_room H Hf1 Hr Eroom l1 Hl1.
  { rewrite Z.gtb_ltb in Eroom. apply Z.ltb_ge in Eroom. destruct Hf1 as [_ Hf1]. lia. }
  zg_get H. zg_put H. inv_ret H. apply zgrown_ret; [|exact Hl1].
  apply zfixed_set_zbuffer, zfixed_set_zout. exact Hf1.
Qed.

Lemma zlifts_fixed_codes : zlifts (
  a <- get ;;
  match stbi__zbuild_huffman (z_length a) stbi__zdefault_length with
  | None => ret 0
  | Some zl =>
      put (set_z_length a zl) ;;
      a <- get ;;
      match stbi__zbuild_huffman (z_distance a) stbi__zdefault_distance with
      | None => ret 0
      | Some zd => put (set_z_distance a zd) ;; ret 1
      end
  end).
Proof.
  intros a r a' l e H. zl_get H.
  destruct (stbi__zbuild_huffman _ _); [|zl_done H].
  zl_put H. zl_get H.
  destruct (stbi__zbuild_huffman _ _); [|zl_done H].
  zl_put H. zl_done H.
Qed.

Lemma fixed_codes_same r a a' :
  (a <- get ;;
   match stbi__zbuild_huffman (z_length a) stbi__zdefault_length with
   | None => ret 0
   | Some zl =>
       put (set_z_length a zl) ;;
       a <- get ;;
       match stbi__zbuild_huffman (z_distance a) stbi__zdefault_distance with
       | None => ret 0
       | Some zd => put (set_z_distance a zd) ;; ret 1
       end
   end) a = Ret (r, a') -> same_zout a a'.
Proof.
  intros H. inv_get H.
  destruct (stbi__zbuild_huffman _ _); [|inv_ret H; apply same_zout_refl].
  inv_bind H. apply put_Ret in Hm as ->. inv_get H.
  eapply same_zout_trans; [apply same_zout_set_z_length|].
  destruct (stbi__zbuild_huffman _ _); [|inv_ret H; apply same_zout_refl].
  inv_bind H. apply put_Ret in Hm as ->. inv_ret H. apply same_zout_set_z_distance.
Qed.

Lemma stbi__parse_zlib_blocks_grows asserts : forall fuel a r a' l,
  zfixed a -> 1 <= l <= INT_MAX ->
  stbi__parse_zlib_blocks asserts fuel a = Ret (r, a') -> r <> 0 ->
  zgrown (stbi__parse_zlib_blocks asserts fuel) a r a' l.
Proof.
  induction fuel as [|fuel IH]; intros a r a' l Hf Hl H Hr;
    cbn [stbi__parse_zlib_blocks] in *; [discriminate|].
  zg_bind H Hf (zlifts_zreceive asserts _) stbi__zreceive_same.
  zg_bind H Hf (zlifts_zreceive asserts _) stbi__zreceive_same.
  apply bind_Ret in H as (rb & sb & Hb & H).
  destruct (rb =? 0) eqn:E0; [inv_ret H; exfalso; apply Hr; reflexivity|].
  match goal with
  | |- zgrown (bind ?m _) _ _ _ _ => assert (Hblock : zgrown m s0 rb sb l)
  end.
  { apply Z.eqb_neq in E0.
    destruct (x0 =? 0).
    { apply stbi__parse_uncompressed_block_grows; assumption. }
    destruct (x0 =? 3); [inv_ret Hb; exfalso; apply E0; reflexivity|].
    apply bind_Ret in Hb as (rc & sc & Hc & Hb).
    destruct (rc =? 0) eqn:Ec; [inv_ret Hb; exfalso; apply E0; reflexivity|].
    assert (Hf1 : zfixed sc).
    { apply (zfixed_same _ _ Hf). destruct (x0 =? 1).
      - apply fixed_codes_same in Hc. exact Hc.
      - apply stbi__compute_huffman_codes_same in Hc. exact Hc. }
    eapply zgrown_bind; [apply zgrown_lift; [|exact Hf1|exact Hl|exact Hc]|].
    { destruct (x0 =? 1); [apply zlifts_fixed_codes|apply zlifts_compute_huffman_codes]. }
    intros l1 Hl1. rewrite Ec.
    apply stbi__parse_huffman_block_grows; assumption. }
  pose proof Hblock as [Hf1 _].
  eapply zgrown_bind; [exact Hblock|].
  intros l1 Hl1. rewrite E0.
  destruct (x =? 0).
  - apply IH; [exact Hf1|exact Hl1|exact H|exact Hr].
  - inv_ret H. apply zgrown_ret; [exact Hf1|exact Hl1].
Qed.

Lemma stbi__parse_zlib_grows asserts fuel parse_header a r a' l :
  zfixed a -> 1 <= l <= INT_MAX ->
  stbi__parse_zlib asserts fuel parse_header a = Ret (r, a') -> r <> 0 ->
  zgrown (stbi__parse_zlib asserts fuel parse_header) a r a' l.
Proof.
  intros Hf Hl H Hr. unfold stbi__parse_zlib in *.
  apply bind_Ret in H as (rh & sh & Hh & H).
  assert (Hf1 : zfixed sh).
  { apply (zfixed_same _ _ Hf). destruct parse_header.
    - inv_bind Hh. apply stbi__zget8_same in Hm. inv_bind Hh.
      apply stbi__zget8_same in Hm0. eapply same_zout_trans; [exact Hm|].
      eapply same_zout_trans; [exact Hm0|].
      repeat (case_if Hh; [inv_ret Hh; apply same_zout_refl|]).
      inv_ret Hh. apply same_zout_refl.
    - inv_ret Hh. apply same_zout_refl. }
  eapply zgrown_bind; [apply zgrown_lift; [|exact Hf1|exact Hl|exact Hh]|].
  { destruct parse_header; [apply zlifts_parse_zlib_header|].
    intros ? ? ? ? ? H0. zl_done H0. }
  intros l1 Hl1.
  destruct (rh =? 0); [inv_ret H; exfalso; apply Hr; reflexivity|].
  zg_get H. zg_put H.
  apply stbi__parse_zlib_blocks_grows; [|exact Hl1|exact H|exact Hr].
  apply zfixed_set_bits. exact Hf1.
Qed.

Lemma stbi__do_zlib_grows asserts fuel ibuffer olen l parse_header r a :
  olen <= 2^30 -> 1 <= l <= INT_MAX ->
  stbi__do_zlib asserts fuel ibuffer olen false parse_header = Ret (r, a) -> r <> 0 ->
  exists a', stbi__do_zlib asserts fuel ibuffer l true parse_header = Ret (r, a') /\
             zout a' = zout a.
Proof.
  intros Ho Hl H Hr. unfold stbi__do_zlib in *.
  apply (stbi__parse_zlib_grows _ _ _ _ _ _ l) in H as (_ & l' & _ & E);
    [|split; [reflexivity|exact Ho]|exact Hl|exact Hr].
  exists (zwith a l' true). split; [exact E|reflexivity].
Qed.

(** X10. What [stbi_zlib_decode_buffer] inflates into a buffer of [olen <=
    2^30] bytes, [stbi_zlib_decode_malloc_guesssize] returns in a buffer of
    its own whatever [initial_size] from 1 to [INT_MAX] it starts with, and
    so does [stbi_zlib_decode_malloc_guesssize_headerflag] told to parse the
    header. *)
Theorem stbi_zlib_decode_malloc_guesssize_as_buffer asserts fuel olen ibuffer n out
    initial_size parse_header :
  olen <= 2^30 -> 1 <= initial_size <= INT_MAX -> parse_header <> 0 ->
  stbi_zlib_decode_buffer asserts fuel olen ibuffer = Ret (n, out) -> n <> -1 ->
  stbi_zlib_decode_malloc_guesssize asserts fuel ibuffer initial_size = Ret (Some out) /\
  stbi_zlib_decode_malloc_guesssize_headerflag asserts fuel ibuffer initial_size
    parse_header = Ret (Some out).
Proof.
  intros Ho Hi Hp H Hn. unfold stbi_zlib_decode_buffer in H.
  destruct (stbi__do_zlib asserts fuel ibuffer olen false true) as [[r a]| | |] eqn:E;
    try discriminate.
  destruct (r =? 0) eqn:Er; cbn [negb] in H; injection H as <- <-;
    [exfalso; apply Hn; reflexivity|].
  apply Z.eqb_neq in Er.
  destruct (stbi__do_zlib_grows _ _ _ _ initial_size _ _ _ Ho Hi E Er) as (a' & E' & Ha).
  unfold stbi_zlib_decode_malloc_guesssize, stbi_zlib_decode_malloc_guesssize_headerflag.
  replace (initial_size <? 0) with false by (symmetry; apply Z.ltb_ge; lia).
  apply Z.eqb_neq in Hp. rewrite Hp. cbn [negb]. rewrite E'.
  apply Z.eqb_neq in Er. rewrite Er. cbn [negb]. rewrite Ha. auto.
Qed.

(** X10 on [C5_stream]: a buffer that starts with 8 bytes grows to hold the
    65 that 128 bytes had room for. *)
Lemma stbi_zlib_decode_malloc_guesssize_as_buffer_witness :
  stbi_zlib_decode_malloc_guesssize true 80 C5_stream 8 = Ret (Some C5_data) /\
  stbi_zlib_decode_malloc_guesssize_headerflag true 80 C5_stream 8 1 = Ret (Some C5_data).
Proof.
  apply (stbi_zlib_decode_malloc_guesssize_as_buffer true 80 128 C5_stream 65 C5_data 8 1).
  - vm_compute. discriminate.
  - split; vm_compute; discriminate.
  - discriminate.
  - vm_compute. reflexivity.
  - discriminate.
Defined.

(** X11. For a stream without the zlib header,
    [stbi_zlib_decode_noheader_malloc], which starts with 16384 bytes, and
    [stbi_zlib_decode_malloc_guesssize_headerflag] told not to parse a
    header return what [stbi_zlib_decode_noheader_buffer] inflates into a
    buffer of [olen <= 2^30] bytes. *)
Theorem stbi_zlib_decode_noheader_malloc_as_buffer asserts fuel olen ibuffer n out
    initial_size :
  olen <= 2^30 -> 1 <= initial_size <= INT_MAX ->
  stbi_zlib_decode_noheader_buffer asserts fuel olen ibuffer = Ret (n, out) -> n <> -1 ->
  stbi_zlib_decode_noheader_malloc asserts fuel ibuffer = Ret (Some out) /\
  stbi_zlib_decode_malloc_guesssize_headerflag asserts fuel ibuffer initial_size 0
    = Ret (Some out).
Proof.
  intros Ho Hi H Hn. unfold stbi_zlib_decode_noheader_buffer in H.
  destruct (stbi__do_zlib asserts fuel ibuffer olen false false) as [[r a]| | |] eqn:E;
    try discriminate.
  destruct (r =? 0) eqn:Er; cbn [negb] in H; injection H as <- <-;
    [exfalso; apply Hn; reflexivity|].
  apply Z.eqb_neq in Er.
  destruct (stbi__do_zlib_grows _ _ _ _ initial_size _ _ _ Ho Hi E Er) as (a' & E' & Ha).
  assert (H16 : 1 <= 16384 <= INT_MAX) by (unfold INT_MAX; lia).
  destruct (stbi__do_zlib_grows _ _ _ _ 16384 _ _ _ Ho H16 E Er) as (a2 & E2 & Ha2).
  unfold stbi_zlib_decode_noheader_malloc, stbi_zlib_decode_malloc_guesssize_headerflag.
  replace (initial_size <? 0) with false by (symmetry; apply Z.ltb_ge; lia).
  cbn [Z.eqb negb]. rewrite E', E2.
  apply Z.eqb_neq in Er. rewrite Er. cbn [negb]. rewrite Ha, Ha2. auto.
Qed.

(** X11 on the blocks of [C5_stream]. *)
Lemma stbi_zlib_decode_noheader_malloc_as_buffer_witness :
  stbi_zlib_decode_noheader_malloc true 80 (drop 2 C5_stream) = Ret (Some C5_data) /\
  stbi_zlib_decode_malloc_guesssize_headerflag true 80 (drop 2 C5_stream) 1 0
    = Ret (Some C5_data).
Proof.
  apply (stbi_zlib_decode_noheader_malloc_as_buffer true 80 65 (drop 2 C5_stream) 65
           C5_data 1).
  - vm_compute. discriminate.
  - split; vm_compute; discriminate.
  - vm_compute. reflexivity.
  - discriminate.
Defined.

(** X12. [stbi_zlib_decode_malloc] returns the data of every zlib stream
    that [zlib_inflate], the decoder written after RFC 1950 and RFC 1951,
    inflates to at most [2^30] bytes. *)
Theorem stbi_zlib_decode_malloc_inflates asserts fuel0 inp data fuel :
  zlib_inflate fuel0 inp = Some data ->
  Z.of_nat (length data) <= 2^30 ->
  (fuel0 <= fuel)%nat ->
  stbi_zlib_decode_malloc asserts fuel inp = Ret (Some data).
Proof.
  intros Hs Hd Hfuel.
  destruct (stbi__do_zlib_spec asserts fuel0 inp data (2^30) fuel Hs Hd Hfuel)
    as (a & E & Ha).
  assert (H16 : 1 <= 16384 <= INT_MAX) by (unfold INT_MAX; lia).
  destruct (stbi__do_zlib_grows _ _ _ _ 16384 _ _ _ (Z.le_refl _) H16 E ltac:(discriminate))
    as (a' & E' & Ha').
  unfold stbi_zlib_decode_malloc, stbi_zlib_decode_malloc_guesssize.
  cbn [Z.ltb Z.compare]. rewrite E'. cbn [Z.eqb negb]. rewrite Ha', Ha. reflexivity.
Qed.

(** X12 on [C5_stream]. *)
Lemma stbi_zlib_decode_malloc_inflates_witness :
  stbi_zlib_decode_malloc true 80 C5_stream = Ret (Some C5_data).
Proof.
  apply (stbi_zlib_decode_malloc_inflates true 80 C5_stream C5_data 80).
  - vm_compute. reflexivity.
  - vm_compute. discriminate.
  - lia.
Defined.

Lemma bind_ret {St A B} (x : A) (k : A -> M St B) s : bind (ret x) k s = k x s.
Proof. reflexivity. Qed.

Lemma same_zout_length a a' : same_zout a a' -> length (zout a') = length (zout a).
Proof. intros (-> & _). reflexivity. Qed.

Lemma zshrunk_ret {A} (r : A) a L : zshrunk (ret r) a r a L.
Proof. split; [lia|]. intros _. reflexivity. Qed.

Lemma zshrunk_lift {A} (m : M stbi__zbuf A) a r a' L :
  zlifts m -> same_zout a a' -> m a = Ret (r, a') -> zshrunk m a r a' L.
Proof.
  intros Hm Hs H. split; [rewrite (same_zout_length _ _ Hs); lia|].
  intros _. apply Hm. exact H.
Qed.

Lemma zshrunk_bind {A B} (m : M stbi__zbuf A) (k : A -> M stbi__zbuf B) a x s r a' L :
  zshrunk m a x s L -> zshrunk (k x) s r a' L -> zshrunk (bind m k) a r a' L.
Proof.
  intros [Hl1 E1] [Hl2 E2]. split; [lia|]. intros HL.
  rewrite (bind_eq_Ret _ _ _ _ _ (E1 ltac:(lia))). apply E2. exact HL.
Qed.

Lemma zshrunk_get {A} (k : stbi__zbuf -> M stbi__zbuf A) a r a' L :
  zshrunk (k (zwith a L false)) a r a' L -> zshrunk (bind get k) a r a' L.
Proof. intros H. exact H. Qed.

Lemma zshrunk_put {A} (k : unit -> M stbi__zbuf A) x a r a' L :
  (length (zout a) <= length (zout x))%nat ->
  zshrunk (k tt) x r a' L -> zshrunk (bind (put (zwith x L false)) k) a r a' L.
Proof. intros Hl [Hl2 E]. split; [lia|]. exact E. Qed.

Lemma zshrunk_c_assert {A} asserts e (k : unit -> M stbi__zbuf A) (s : stbi__zbuf) u t
    a r a' L :
  c_assert asserts e s = Ret (u, t) ->
  zshrunk (k tt) a r a' L -> zshrunk (bind (c_assert asserts e) k) a r a' L.
Proof.
  intros E [Hl E2]. split; [exact Hl|]. intros HL.
  rewrite (bind_c_assert _ _ _ _ _ _ _ E). apply E2. exact HL.
Qed.

(** What [stbi__zexpand] returns: 0, or 1 with another size of the
    buffer. *)
Lemma stbi__zexpand_Ret n r a a' :
  stbi__zexpand n a = Ret (r, a') ->
  r = 0 /\ a' = a \/ r = 1 /\ exists l, a' = set_zout_limit a l.
Proof.
  unfold stbi__zexpand. intros H. inv_get H.
  destruct (negb _); [inv_ret H; auto|].
  destruct (_ && _); [discriminate|].
  destruct (zexpand_limit _ _ _ _) as [l|]; [|discriminate].
  inv_bind H. apply put_Ret in Hm as ->. inv_ret H. right. eauto.
Qed.

Lemma zroom_Ret (c : bool) n r a a' :
  (if c then stbi__zexpand n else ret 1) a = Ret (r, a') ->
  r = 0 /\ a' = a \/ r = 1 /\ zwith a' = zwith a /\ zout a' = zout a.
Proof.
  destruct c.
  - intros H. apply stbi__zexpand_Ret in H as [[-> ->]|[-> [l ->]]]; auto.
  - intros H. inv_ret H. auto.
Qed.

(** A room check that went on, when the rest of the run is [zshrunk] to
    a buffer in which the check finds room. *)
Lemma zshrunk_room {A} (c : bool) n (k : Z -> M stbi__zbuf A) s s1 r a' L :
  zwith s1 = zwith s -> zout s1 = zout s ->
  (Z.of_nat (length (zout a')) <= L -> c = false) ->
  zshrunk (k 1) s1 r a' L ->
  zshrunk (bind (if c then stbi__zexpand n else ret 1) k) s r a' L.
Proof.
  intros Hw Ho Hc [Hl E]. split; [rewrite <- Ho; exact Hl|]. intros HL.
  rewrite (Hc HL), bind_ret, <- Hw. apply E. exact HL.
Qed.

Tactic Notation "zs_bind" hyp(H) uconstr(L) uconstr(S) :=
  let x := fresh "x" in let s := fresh "s" in let Hm := fresh "Hm" in
  apply bind_Ret in H as (x & s & Hm & H);
  eapply zshrunk_bind; [apply (zshrunk_lift _ _ _ _ _ L (S _ _ _ Hm) Hm)|]; clear Hm.

Ltac zs_get H :=
  inv_get H; apply zshrunk_get;
  cbn [zwith zbuffer num_bits code_buffer zout zout_limit z_length z_distance].

Ltac zs_assert H :=
  let x := fresh "x" in let s := fresh "s" in let Hm := fresh "Hm" in
  apply bind_Ret in H as (x & s & Hm & H);
  apply (zshrunk_c_assert _ _ _ _ _ _ _ _ _ _ Hm);
  apply c_assert_Ret in Hm as [[= -> ->] _].

Lemma stbi__parse_huffman_block_shrunk asserts L : forall fuel a r a',
  stbi__parse_huffman_block asserts fuel a = Ret (r, a') -> r <> 0 ->
  zshrunk (stbi__parse_huffman_block asserts fuel) a r a' L.
Proof.
  induction fuel as [|fuel IH]; intros a r a' H Hr;
    cbn [stbi__parse_huffman_block] in *; [discriminate|].
  zs_get H.
  zs_bind H (zlifts_zhuffman_decode asserts _) (stbi__zhuffman_decode_same asserts _).
  destruct (_ <? 256).
  { destruct (_ <? 0); [inv_ret H; exfalso; apply Hr; reflexivity|].
    zs_get H.
    apply bind_Ret in H as (xr & sr & Hm & H).
    apply zroom_Ret in Hm as [[-> ->]|(-> & Hw & Ho)];
      [cbn [Z.eqb] in H; inv_ret H; exfalso; apply Hr; reflexivity|].
    cbn [Z.eqb] in H. inv_get H. inv_bind H. apply put_Ret in Hm as ->.
    apply IH in H; [|exact Hr].
    apply (zshrunk_room _ _ _ _ sr); [exact Hw|exact Ho| |].
    - intros HL. destruct H as [Hlen _]. cbn [set_zout zout] in Hlen.
      rewrite length_app in Hlen. cbn [length] in Hlen. rewrite Ho in Hlen.
      rewrite Z.geb_leb. apply Z.leb_gt. lia.
    - cbn [Z.eqb]. apply zshrunk_get.
      cbn [zwith zbuffer num_bits code_buffer zout zout_limit z_length z_distance].
      match type of H with
      | zshrunk _ ?X _ _ _ => apply (zshrunk_put _ X); [|exact H]
      end.
      cbn [set_zout zout]. rewrite length_app. lia. }
  destruct (_ =? 256); [inv_ret H; apply zshrunk_ret|].
  zs_bind H (zlifts_zreceive_if asserts _ _) (zreceive_if_same asserts _ _).
  zs_get H.
  zs_bind H (zlifts_zhuffman_decode asserts _) (stbi__zhuffman_decode_same asserts _).
  destruct (_ <? 0); [inv_ret H; exfalso; apply Hr; reflexivity|].
  zs_bind H (zlifts_zreceive_if asserts _ _) (zreceive_if_same asserts _ _).
  zs_get H.
  destruct (_ <? _); [inv_ret H; exfalso; apply Hr; reflexivity|].
  apply bind_Ret in H as (xr & sr & Hm & H).
  apply zroom_Ret in Hm as [[-> ->]|(-> & Hw & Ho)];
    [cbn [Z.eqb] in H; inv_ret H; exfalso; apply Hr; reflexivity|].
  cbn [Z.eqb] in H. inv_get H.
  match goal with
  | |- zshrunk (bind (if _ + ?l >? _ then _ else _) _) _ _ _ _ => set (len := l) in *
  end.
  destruct (_ =? 1).
  - destruct (list.last _) as [v|] eqn:El; [|discriminate].
    inv_bind H. apply put_Ret in Hm as ->.
    apply IH in H; [|exact Hr].
    apply (zshrunk_room _ _ _ _ sr); [exact Hw|exact Ho| |].
    + intros HL. destruct H as [Hlen _]. cbn [set_zout zout] in Hlen.
      rewrite length_app, length_replicate, Ho in Hlen.
      rewrite Z.gtb_ltb. apply Z.ltb_ge. lia.
    + cbn [Z.eqb]. apply zshrunk_get.
      cbn [zwith zbuffer num_bits code_buffer zout zout_limit z_length z_distance].
      rewrite El.
      match type of H with
      | zshrunk _ ?X _ _ _ => apply (zshrunk_put _ X); [|exact H]
      end.
      cbn [set_zout zout]. rewrite length_app. lia.
  - destruct (zcopy_back _ _ _) as [out|] eqn:Ec; [|discriminate].
    pose proof (zcopy_back_length _ _ _ _ Ec) as Hout.
    inv_bind H. apply put_Ret in Hm as ->.
    apply IH in H; [|exact Hr].
    apply (zshrunk_room _ _ _ _ sr); [exact Hw|exact Ho| |].
    + intros HL. destruct H as [Hlen _]. cbn [set_zout zout] in Hlen.
      rewrite Ho in Hout. rewrite Z.gtb_ltb. apply Z.ltb_ge. lia.
    + cbn [Z.eqb]. apply zshrunk_get.
      cbn [zwith zbuffer num_bits code_buffer zout zout_limit z_length z_distance].
      rewrite Ec.
      match type of H with
      | zshrunk _ ?X _ _ _ => apply (zshrunk_put _ X); [|exact H]
      end.
      cbn [set_zout zout]. lia.
Qed.

Lemma stbi__parse_uncompressed_block_shrunk asserts L a r a' :
  stbi__parse_uncompressed_block asserts a = Ret (r, a') -> r <> 0 ->
  zshrunk (stbi__parse_uncompressed_block asserts) a r a' L.
Proof.
  intros H Hr. unfold stbi__parse_uncompressed_block in *.
  zs_get H.
  apply bind_Ret in H as (u & s & Hm & H).
  eapply zshrunk_bind; [apply zshrunk_lift; [| |exact Hm]|].
  { destruct (negb _); [|intros ? ? ? ? ? H0; zl_done H0].
    intros ? ? ? ? ? H0. zl_bind H0 (zlifts_zreceive asserts _). zl_done H0. }
  { destruct (negb _).
    - inv_bind Hm. apply stbi__zreceive_same in Hm0. inv_ret Hm. exact Hm0.
    - inv_ret Hm. apply same_zout_refl. }
  clear Hm. zs_get H.
  destruct (zdrain_header _ _ _ _) as [[[nb cb] header]|]; [|discriminate].
  apply bind_Ret in H as (u1 & sp & Hm & H). apply put_Ret in Hm as ->.
  match type of H with
  | _ ?X = _ => apply (zshrunk_put _ X); [cbn [set_bits zout]; lia|]
  end.
  zs_assert H.
  zs_bind H (zlifts_zfill_header _ _) (zfill_header_same _ _).
  destruct (negb _); [inv_ret H; exfalso; apply Hr; reflexivity|].
  zs_get H.
  destruct (_ >? Z.of_nat _) eqn:Elen; [inv_ret H; exfalso; apply Hr; reflexivity|].
  rewrite Z.gtb_ltb in Elen. apply Z.ltb_ge in Elen.
  apply bind_Ret in H as (xr & sr & Hm & H).
  apply zroom_Ret in Hm as [[-> ->]|(-> & Hw & Ho)];
    [cbn [Z.eqb] in H; inv_ret H; exfalso; apply Hr; reflexivity|].
  cbn [Z.eqb] in H. inv_get H. inv_bind H. apply put_Ret in Hm as ->. inv_ret H.
  match goal with
  | |- zshrunk (bind (if _ + ?l >? _ then _ else _) _) _ _ _ _ => set (len := l) in *
  end.
  assert (Hb : zbuffer sr = zbuffer s0)
    by (apply (f_equal (fun f => zbuffer (f 0 false))) in Hw; exact Hw).
  apply (zshrunk_room _ _ _ _ sr); [exact Hw|exact Ho| |].
  - intros HL. cbn [set_zbuffer set_zout zout] in HL.
    rewrite length_app, length_map, length_take, Ho in HL.
    rewrite Z.gtb_ltb. apply Z.ltb_ge. rewrite Hb in HL. lia.
  - cbn [Z.eqb]. apply zshrunk_get.
    cbn [zwith zbuffer num_bits code_buffer zout zout_limit z_length z_distance].
    match goal with
    | |- zshrunk _ _ _ ?X _ => apply (zshrunk_put _ X); [|apply zshrunk_ret]
    end.
    cbn [set_zbuffer set_zout zout]. rewrite length_app. lia.
Qed.

Lemma stbi__parse_zlib_blocks_shrunk asserts L : forall fuel a r a',
  stbi__parse_zlib_blocks asserts fuel a = Ret (r, a') -> r <> 0 ->
  zshrunk (stbi__parse_zlib_blocks asserts fuel) a r a' L.
Proof.
  induction fuel as [|fuel IH]; intros a r a' H Hr;
    cbn [stbi__parse_zlib_blocks] in *; [discriminate|].
  zs_bind H (zlifts_zreceive asserts _) (stbi__zreceive_same asserts _).
  zs_bind H (zlifts_zreceive asserts _) (stbi__zreceive_same asserts _).
  apply bind_Ret in H as (rb & sb & Hb & H).
  destruct (rb =? 0) eqn:E0; [inv_ret H; exfalso; apply Hr; reflexivity|].
  eapply zshrunk_bind.
  - instantiate (1 := sb). instantiate (1 := rb).
    apply Z.eqb_neq in E0.
    destruct (x0 =? 0).
    { apply stbi__parse_uncompressed_block_shrunk; assumption. }
    destruct (x0 =? 3); [inv_ret Hb; exfalso; apply E0; reflexivity|].
    apply bind_Ret in Hb as (rc & sc & Hc & Hb).
    destruct (rc =? 0) eqn:Ec; [inv_ret Hb; exfalso; apply E0; reflexivity|].
    eapply zshrunk_bind; [apply zshrunk_lift; [| |exact Hc]|].
    + destruct (x0 =? 1); [apply zlifts_fixed_codes|apply zlifts_compute_huffman_codes].
    + destruct (x0 =? 1).
      * apply fixed_codes_same in Hc. exact Hc.
      * apply stbi__compute_huffman_codes_same in Hc. exact Hc.
    + rewrite Ec. apply stbi__parse_huffman_block_shrunk; assumption.
  - rewrite E0. destruct (x =? 0).
    + apply IH; [exact H|exact Hr].
    + inv_ret H. apply zshrunk_ret.
Qed.

Lemma stbi__parse_zlib_shrunk asserts L fuel parse_header a r a' :
  stbi__parse_zlib asserts fuel parse_header a = Ret (r, a') -> r <> 0 ->
  zshrunk (stbi__parse_zlib asserts fuel parse_header) a r a' L.
Proof.
  intros H Hr. unfold stbi__parse_zlib in *.
  apply bind_Ret in H as (rh & sh & Hh & H).
  eapply zshrunk_bind; [apply zshrunk_lift; [| |exact Hh]|].
  { destruct parse_header; [apply zlifts_parse_zlib_header|].
    intros ? ? ? ? ? H0. zl_done H0. }
  { destruct parse_header.
    - inv_bind Hh. apply stbi__zget8_same in Hm. inv_bind Hh.
      apply stbi__zget8_same in Hm0. eapply same_zout_trans; [exact Hm|].
      eapply same_zout_trans; [exact Hm0|].
      repeat (case_if Hh; [inv_ret Hh; apply same_zout_refl|]).
      inv_ret Hh. apply same_zout_refl.
    - inv_ret Hh. apply same_zout_refl. }
  destruct (rh =? 0); [inv_ret H; exfalso; apply Hr; reflexivity|].
  zs_get H.
  apply bind_Ret in H as (u1 & sp & Hm & H). apply put_Ret in Hm as ->.
  match type of H with
  | _ ?X = _ => apply (zshrunk_put _ X); [cbn [set_bits zout]; lia|]
  end.
  apply stbi__parse_zlib_blocks_shrunk; [exact H|exact Hr].
Qed.

Lemma stbi__do_zlib_shrunk asserts fuel ibuffer l olen parse_header r a :
  stbi__do_zlib asserts fuel ibuffer l true parse_header = Ret (r, a) -> r <> 0 ->
  Z.of_nat (length (zout a)) <= olen ->
  exists a', stbi__do_zlib asserts fuel ibuffer olen false parse_header = Ret (r, a') /\
             zout a' = zout a.
Proof.
  intros H Hr Ho. unfold stbi__do_zlib in *.
  apply (stbi__parse_zlib_shrunk _ olen) in H as [_ E]; [|exact Hr].
  exists (zwith a olen false). split; [apply E; exact Ho|reflexivity].
Qed.

(** X13. What [stbi_zlib_decode_malloc_guesssize_headerflag] returns, with
    or without the header, [stbi_zlib_decode_buffer] and
    [stbi_zlib_decode_noheader_buffer] inflate into every buffer that has
    room for it: the growing of the buffer adds nothing to the streams that
    are accepted. *)
Theorem stbi_zlib_decode_malloc_fits_buffer asserts fuel ibuffer initial_size
    parse_header out olen :
  stbi_zlib_decode_malloc_guesssize_headerflag asserts fuel ibuffer initial_size
    parse_header = Ret (Some out) ->
  Z.of_nat (length out) <= olen ->
  (if parse_header =? 0
   then stbi_zlib_decode_noheader_buffer asserts fuel olen ibuffer
   else stbi_zlib_decode_buffer asserts fuel olen ibuffer)
  = Ret (Z.of_nat (length out), out).
Proof.
  unfold stbi_zlib_decode_malloc_guesssize_headerflag. intros H Ho.
  destruct (initial_size <? 0); [discriminate|].
  destruct (stbi__do_zlib _ _ _ _ _ _) as [[r a]| | |] eqn:E; try discriminate.
  destruct (r =? 0) eqn:Er; cbn [negb] in H; [discriminate|]. injection H as <-.
  apply Z.eqb_neq in Er.
  destruct (stbi__do_zlib_shrunk _ _ _ _ olen _ _ _ E Er Ho) as (a' & E' & Ha).
  unfold stbi_zlib_decode_noheader_buffer, stbi_zlib_decode_buffer.
  apply Z.eqb_neq in Er.
  destruct (parse_header =? 0); cbn [negb] in E'; rewrite E', Er; cbn [negb];
    rewrite Ha; reflexivity.
Qed.

(** X13 on [C5_stream], with a buffer of the 65 bytes it stands for. *)
Lemma stbi_zlib_decode_malloc_fits_buffer_witness :
  (if 1 =? 0
   then stbi_zlib_decode_noheader_buffer true 80 65 C5_stream
   else stbi_zlib_decode_buffer true 80 65 C5_stream)
  = Ret (Z.of_nat (length C5_data), C5_data).
Proof.
  apply (stbi_zlib_decode_malloc_fits_buffer true 80 C5_stream 8 1 C5_data 65).
  - vm_compute. reflexivity.
  - vm_compute. discriminate.
Defined.

(** ** What a decode leaves in the sprite *)

(** ** Well-formed sprites *)

(** * lemmas *)

Lemma ASE_Layer_parent_range old prev lvl d p :
  (forall i L, old !! i = Some L -> layer_ok i L) ->
  (forall q, prev = Some q -> (q < length old)%nat) ->
  ASE_Layer_parent (old ++ [zero_layer]) prev lvl d = Ret p ->
  -1 <= p < Z.of_nat (length old).
Proof.
  intros Hold Hprev. unfold ASE_Layer_parent.
  destruct (Z.eqb_spec 0 d). { intros [= <-]. lia. }
  assert (Hq : forall q PL, prev = Some q -> (old ++ [zero_layer]) !! q = Some PL ->
                 -1 <= parent PL < Z.of_nat q /\ (q < length old)%nat).
  { intros q PL Eq E. pose proof (Hprev q Eq) as Hlt.
    rewrite lookup_app_l in E by exact Hlt. split; [apply (Hold q PL E)|exact Hlt]. }
  destruct (Z.eqb_spec lvl d).
  { destruct prev as [q|]; [|discriminate].
    destruct (_ !! q) as [PL|] eqn:E; [|discriminate].
    intros [= <-]. destruct (Hq q PL eq_refl E). lia. }
  destruct (Z.gtb_spec d lvl).
  { intros [= <-]. rewrite length_app. cbn [length]. lia. }
  destruct (Z.ltb_spec d lvl); [|lia].
  destruct prev as [q|]; [|discriminate].
  destruct (_ !! q) as [PL|] eqn:E; [|discriminate].
  destruct (Hq q PL eq_refl E).
  destruct (parent PL >=? 0).
  - destruct (ASE_Layer_walk _ _ _); [|discriminate]. intros [= <-]. lia.
  - intros [= <-]. lia.
Qed.

Lemma ASE_Layer_decode_inv H S prev lvl o S' prev' lvl' :
  ASE_Layer_decode H S prev lvl = Ret (o, S', prev', lvl') ->
  (o = None /\ S' = S /\ prev' = prev /\ lvl' = lvl) \/
  (exists L,
     ASE_Layer_parent (layers S ++ [zero_layer]) prev lvl (lh_child_level H)
       = Ret (parent L) /\
     o = Some (length (layers S)) /\ S' = set_layers S (layers S ++ [L]) /\
     prev' = Some (length (layers S)) /\ lvl' = lh_child_level H /\
     layer_name L = lh_name H /\ layer_flags L = lh_flags H /\
     layer_type L = lh_type H /\ child_level L = lh_child_level H /\
     visible L = Z.land (lh_flags H) ASE_LAYER_VISIBLE).
Proof.
  unfold ASE_Layer_decode. destruct (_ || _).
  - cbn [ASE_DOC_AddLayer layers].
    destruct (_ && _);
      destruct (ASE_Layer_parent _ _ _ _) as [p| | |] eqn:Ep; try discriminate;
      intros [= <- <- <- <-]; right; eexists (mkLayer _ _ _ _ _ _ p _);
      cbn [parent layer_name layer_flags layer_type child_level visible];
      (split; [reflexivity|]); (split; [reflexivity|]);
      (split; [unfold set_layers; cbn [layers width height depth palette frames tags];
               rewrite insert_app_r_alt by lia; rewrite Nat.sub_diag; reflexivity|]);
      repeat split; reflexivity.
  - intros [= <- <- <- <-]. left. auto.
Qed.

Lemma ASE_DOC_read_string_Some {U} (F : ASE__ctx U) r F' :
  ASE_DOC_read_string F = Ret (r, F') -> r <> None.
Proof.
  unfold ASE_DOC_read_string. intros H. do 2 inv_bind H. inv_ret H. discriminate.
Qed.

Lemma ASE_LayerHeader_read_name {U} (F : ASE__ctx U) H F' :
  ASE_LayerHeader_read F = Ret (H, F') -> lh_name H <> None.
Proof.
  unfold ASE_LayerHeader_read. intros E. do 9 inv_bind E. inv_ret E. cbn [lh_name].
  eapply ASE_DOC_read_string_Some; eassumption.
Qed.

Lemma ASE_DOC_read_raw_image_layer {U} bpp Cel (F : ASE__ctx U) Cel' F' :
  ASE_DOC_read_raw_image bpp Cel F = Ret (Cel', F') -> cel_layer Cel' = cel_layer Cel.
Proof.
  unfold ASE_DOC_read_raw_image. destruct (_ || _); [discriminate|].
  destruct (_ <=? 0); intros H.
  - inv_ret H. reflexivity.
  - inv_bind H. inv_ret H. reflexivity.
Qed.

Lemma ASE_DOC_read_compressed_layer {U} asserts bpp fuel Cel EndPos (F : ASE__ctx U) Cel' F' :
  ASE_DOC_read_compressed asserts bpp fuel Cel EndPos F = Ret (Cel', F') ->
  cel_layer Cel' = cel_layer Cel.
Proof.
  unfold ASE_DOC_read_compressed. intros H. inv_bind H.
  destruct (_ || _); [discriminate|]. inv_bind H.
  destruct (_ <? 0); [discriminate|]. inv_bind H.
  destruct a1 as [Result obuffer]. destruct (-1 =? Result); inv_ret H; reflexivity.
Qed.

Lemma ASE_Cel_read_body_layer {U} asserts fuel S Cel type EndPos (F : ASE__ctx U) Cel' F' :
  ASE_Cel_read_body asserts fuel S Cel type EndPos F = Ret (Cel', F') ->
  cel_layer Cel' = cel_layer Cel.
Proof.
  unfold ASE_Cel_read_body. intros H.
  destruct (type =? ASE_FILE_RAW_CEL).
  { do 2 inv_bind H. destruct (_ && _); [|inv_ret H; reflexivity].
    unfold ASE_DOC_read_raw_image_rgba, ASE_DOC_read_raw_image_grayscale,
      ASE_DOC_read_raw_image_indexed in H.
    repeat match type of H with
           | (if ?b then _ else _) _ = _ => destruct b
           end;
      try (apply ASE_DOC_read_raw_image_layer in H; exact H).
    inv_ret H. reflexivity. }
  destruct (type =? ASE_FILE_LINK_CEL).
  { inv_bind H. inv_ret H. reflexivity. }
  destruct (type =? ASE_FILE_COMPRESSED_CEL); [|inv_ret H; reflexivity].
  do 2 inv_bind H. destruct (_ && _); [|inv_ret H; reflexivity].
  unfold ASE_DOC_read_compressed_rgba, ASE_DOC_read_compressed_grayscale,
    ASE_DOC_read_compressed_indexed in H.
  repeat match type of H with
         | (if ?b then _ else _) _ = _ => destruct b
         end;
    try (apply ASE_DOC_read_compressed_layer in H; exact H).
  inv_ret H. reflexivity.
Qed.

(** The cel that [ASE_DOC_AddCel] appends and the stores through [Cel]
    fill in. *)
Lemma set_last_cel_AddCel S Frame c :
  set_last_cel (ASE_DOC_AddCel S Frame) Frame c =
  set_frames S (alter (fun f => mkFrame (duration f) (cels f ++ [c])) Frame (frames S)).
Proof.
  unfold set_last_cel, ASE_DOC_AddCel, set_frames.
  cbn [frames width height depth palette layers tags]. f_equal.
  rewrite list_alter_alter_eq. apply list_alter_ext; [|reflexivity]. intros f _.
  unfold compose. cbn [duration cels]. f_equal.
  rewrite length_app. cbn [length]. rewrite Nat.add_1_r. cbn [pred].
  rewrite insert_app_r_alt by lia. rewrite Nat.sub_diag. reflexivity.
Qed.

Lemma ASE_Cel_read_inv {U} asserts fuel S i Frame EndPos (F : ASE__ctx U) o S' F' :
  ASE_Cel_read asserts fuel S i Frame EndPos F = Ret ((o, S'), F') ->
  (o = None /\ S' = S) \/
  (exists c,
     S' = set_frames S (alter (fun f => mkFrame (duration f) (cels f ++ [c]))
                              Frame (frames S)) /\
     cel_ok (layers S) c).
Proof.
  unfold ASE_Cel_read. intros H. inv_bind H.
  destruct a as [[[[layer x] y] opacity] type].
  destruct (Z.geb_spec layer 0); cbn [andb] in H; [|inv_ret H; left; auto].
  destruct (layer <? nlayers S); [|inv_ret H; left; auto].
  destruct (layers S !! Z.to_nat layer) as [L|] eqn:EL; [|inv_ret H; left; auto].
  destruct (Z.eqb_spec (layer_type L) ASE_FILE_LAYER_IMAGE); cbn [negb] in H;
    [|inv_ret H; left; auto].
  inv_bind H. inv_ret H. right. exists a. split.
  - apply set_last_cel_AddCel.
  - apply ASE_Cel_read_body_layer in Hm0. cbn [cel_layer] in Hm0.
    unfold cel_ok. rewrite Hm0. split; [lia|]. exists L. auto.
Qed.

Lemma s16_range x : - 2 ^ 15 <= s16 x < 2 ^ 15.
Proof. unfold s16. pose proof (Z.mod_pos_bound (x + 2 ^ 15) (2 ^ 16)). lia. Qed.

Lemma ASE_Tags_read_tag_inv {U} S (F : ASE__ctx U) S' F' :
  ASE_Tags_read_tag S F = Ret (S', F') ->
  exists t, S' = ASE_DOC_AddTag S t /\ tag_ok t.
Proof.
  unfold ASE_Tags_read_tag. intros H. do 7 inv_bind H.
  match type of H with
  | context [mkTag _ _ ?d _] =>
      assert (Hd : d = ASE_LOOP_FORWARD \/ d = ASE_LOOP_REVERSE \/ d = ASE_LOOP_PINGPONG)
        by (destruct (Z.eqb_spec ASE_LOOP_FORWARD a1), (Z.eqb_spec ASE_LOOP_REVERSE a1),
              (Z.eqb_spec ASE_LOOP_PINGPONG a1); cbn [negb andb]; subst; auto);
      set (dir := d) in *; clearbody dir
  end.
  inv_ret H. eexists. split; [reflexivity|].
  unfold tag_ok. cbn [tag_dir tag_from tag_to tag_name].
  split; [exact Hd|split; [apply s16_range|split; [apply s16_range|]]].
  eapply ASE_DOC_read_string_Some; eassumption.
Qed.

Lemma ASE_Tags_read_loop_inv {U} : forall n S (F : ASE__ctx U) S' F',
  ASE_Tags_read_loop n S F = Ret (S', F') ->
  exists ts, S' = mkSprite (width S) (height S) (depth S) (palette S) (layers S)
                           (frames S) (tags S ++ ts) /\
             length ts = n /\ Forall tag_ok ts.
Proof.
  induction n as [|n IH]; intros S F S' F' H; cbn [ASE_Tags_read_loop] in H.
  - inv_ret H. exists []. rewrite app_nil_r. destruct S'. auto.
  - inv_bind H. apply ASE_Tags_read_tag_inv in Hm as (t & -> & Ht).
    apply IH in H as (ts & -> & Hlen & Hts).
    exists (t :: ts). unfold ASE_DOC_AddTag.
    cbn [width height depth palette layers frames tags length].
    rewrite <- app_assoc. cbn [app]. auto.
Qed.

Lemma ASE_Tags_read_inv {U} S (F : ASE__ctx U) S' F' :
  ASE_Tags_read S F = Ret (S', F') ->
  exists ts, S' = mkSprite (width S) (height S) (depth S) (palette S) (layers S)
                           (frames S) (tags S ++ ts) /\ Forall tag_ok ts.
Proof.
  unfold ASE_Tags_read. intros H. do 3 inv_bind H.
  apply ASE_Tags_read_loop_inv in H as (ts & -> & _ & Hts). eauto.
Qed.

Lemma cel_ok_app ls L c : cel_ok ls c -> cel_ok (ls ++ [L]) c.
Proof.
  intros [H0 (L' & E & Ht)]. split; [exact H0|]. exists L'. split; [|exact Ht].
  apply lookup_app_l_Some. exact E.
Qed.

Lemma ASE__decode_switch_ok {U} asserts fuel i Frame start CH st (F : ASE__ctx U) st' F' :
  decode_ok st ->
  ASE__decode_switch asserts fuel i Frame start CH st F = Ret (st', F') ->
  decode_ok st'.
Proof.
  intros [(HL & HC & HT) Hprev] H. unfold ASE__decode_switch in H.
  destruct (_ =? ASE_FILE_CHUNK_PALETTE).
  { inv_bind H. inv_ret H. split; [|exact Hprev].
    unfold sprite_ok. cbn [ds_sprite layers frames tags]. auto. }
  destruct (_ =? ASE_FILE_CHUNK_LAYER).
  { inv_bind H. destruct a as [[[o S'] p] l]. inv_ret H.
    unfold ASE_Layer_read in Hm. inv_bind Hm.
    apply lift_outcome_Ret in Hm as [Hm _]. cbn [fst] in Hm.
    apply ASE_LayerHeader_read_name in Hm0.
    apply ASE_Layer_decode_inv in Hm as [(-> & -> & -> & ->)|(L & Hp & -> & -> & -> & -> & Hn & Hf & Ht & Hc & Hv)].
    { split; [|exact Hprev]. unfold sprite_ok. auto. }
    apply ASE_Layer_parent_range in Hp; [|exact HL|exact Hprev].
    split; cbn [ds_sprite ds_LastLayer set_layers layers frames tags].
    - split; [|split; [|exact HT]].
      + intros j L' E. apply lookup_app_Some in E as [E|[Hj E]]; [apply (HL j L' E)|].
        destruct (j - length (layers (ds_sprite st)))%nat as [|k] eqn:Ek; [|destruct k; discriminate].
        injection E as <-. unfold layer_ok. rewrite Hv, Hf, Hn.
        replace j with (length (layers (ds_sprite st))) by lia. auto.
      + intros f c Hf' Hc'. apply cel_ok_app. eapply HC; eassumption.
    - intros q [= <-]. rewrite length_app. cbn [length]. lia. }
  destruct (_ =? ASE_FILE_CHUNK_CEL).
  { inv_bind H. destruct a as [o S']. inv_ret H. cbn [snd].
    apply ASE_Cel_read_inv in Hm as [(-> & ->)|(c & -> & Hc)].
    { split; [|exact Hprev]. unfold sprite_ok. auto. }
    split; [|exact Hprev]. cbn [ds_sprite set_frames layers frames tags].
    split; [exact HL|split; [|exact HT]].
    intros f c' Hf Hc'.
    apply list_elem_of_lookup in Hf as [j Hj].
    unfold set_frames in Hj. cbn [frames] in Hj.
    rewrite list_lookup_alter in Hj. destruct (decide (Frame = j)) as [->|Hne].
    - destruct (frames (ds_sprite st) !! j) as [f0|] eqn:E0; [|discriminate].
      cbn [fmap option_fmap option_map] in Hj. injection Hj as <-. cbn [cels] in Hc'.
      apply elem_of_app in Hc' as [Hc'|Hc'].
      + eapply HC; [|exact Hc']. eapply list_elem_of_lookup_2; exact E0.
      + apply list_elem_of_singleton in Hc' as ->. exact Hc.
    - eapply HC; [|exact Hc']. eapply list_elem_of_lookup_2; exact Hj. }
  destruct (_ =? ASE_FILE_CHUNK_FRAME_TAGS).
  { inv_bind H. inv_ret H. apply ASE_Tags_read_inv in Hm as (ts & -> & Hts).
    split; [|exact Hprev]. cbn [ds_sprite layers frames tags].
    split; [exact HL|split; [exact HC|]]. apply Forall_app. auto. }
  inv_ret H. split; [|exact Hprev]. unfold sprite_ok. auto.
Qed.

(** The frame that the frame loop appends: [ASE_DOC_AddFrame] and the
    store of the duration. *)
Lemma ASE_DOC_AddFrame_duration S d :
  set_frames (ASE_DOC_AddFrame S)
    (alter (fun f => mkFrame d (cels f)) (length (frames S))
           (frames (ASE_DOC_AddFrame S)))
  = set_frames S (frames S ++ [mkFrame d []]).
Proof.
  unfold ASE_DOC_AddFrame, set_frames. cbn [frames width height depth palette layers tags].
  rewrite alter_app_r_alt by lia. rewrite Nat.sub_diag. reflexivity.
Qed.

Section DecodeInvariant.

Context {U : Type} (asserts : bool) (fuel : nat).

(** A property [P] of the decoder state that every chunk and every new
    frame keeps holds after any number of frames.  [Q] is what the chunks
    may rely on about the index of the frame they are read into. *)
Variable P : decode_state -> Prop.
Variable Q : nat -> Prop.

Hypothesis P_switch : forall i Frame start CH st (F : ASE__ctx U) st' F',
  Q Frame -> P st ->
  ASE__decode_switch asserts fuel i Frame start CH st F = Ret (st', F') -> P st'.

Hypothesis P_frame : forall st d,
  P st ->
  Q (length (frames (ds_sprite st))) /\
  P (mkDecode (set_frames (ds_sprite st) (frames (ds_sprite st) ++ [mkFrame d []]))
              (ds_LastLayer st) (ds_CurrentLevel st) (ds_IgnoreOldColorChunks st)).

Lemma ASE__decode_chunks_keeps i Frame n : forall st (F : ASE__ctx U) r F',
  Q Frame -> P st ->
  ASE__decode_chunks asserts fuel i Frame n st F = Ret (r, F') -> P (fst r).
Proof.
  induction n as [|n IH]; intros st F r F' HQ HP H; cbn [ASE__decode_chunks] in H.
  - inv_ret H. exact HP.
  - do 2 inv_bind H. inv_ret H. cbn [fst].
    eapply IH; [exact HQ| |eassumption].
    unfold ASE__decode_chunk in Hm. do 4 inv_bind Hm. inv_ret Hm. cbn [fst].
    eapply P_switch; eassumption.
Qed.

Lemma ASE__decode_frame_keeps i st (F : ASE__ctx U) r F' :
  P st -> ASE__decode_frame asserts fuel i st F = Ret (r, F') -> P (fst r).
Proof.
  unfold ASE__decode_frame. intros HP H. do 5 inv_bind H. inv_ret H. cbn [fst].
  rewrite ASE_DOC_AddFrame_duration in Hm2.
  destruct (P_frame st (fh_duration a0) HP) as [HQ HP'].
  eapply ASE__decode_chunks_keeps; [exact HQ|exact HP'|eassumption].
Qed.

Lemma ASE__decode_frames_keeps n : forall i st (F : ASE__ctx U) r F',
  P st -> ASE__decode_frames asserts fuel i n st F = Ret (r, F') -> P (fst r).
Proof.
  induction n as [|n IH]; intros i st F r F' HP H; cbn [ASE__decode_frames] in H.
  - inv_ret H. exact HP.
  - do 2 inv_bind H. inv_ret H. cbn [fst].
    eapply IH; [|eassumption].
    eapply ASE__decode_frame_keeps; eassumption.
Qed.

End DecodeInvariant.

Lemma decode_ok_new_frame st d :
  decode_ok st ->
  decode_ok (mkDecode (set_frames (ds_sprite st) (frames (ds_sprite st) ++ [mkFrame d []]))
                      (ds_LastLayer st) (ds_CurrentLevel st) (ds_IgnoreOldColorChunks st)).
Proof.
  intros [(HL & HC & HT) Hprev]. split; [|exact Hprev].
  unfold sprite_ok. cbn [ds_sprite set_frames layers frames tags].
  split; [exact HL|split; [|exact HT]].
  intros f c Hf Hc. apply elem_of_app in Hf as [Hf|Hf]; [eapply HC; eassumption|].
  apply list_elem_of_singleton in Hf as ->. cbn [cels] in Hc.
  apply elem_of_nil in Hc. destruct Hc.
Qed.

(** A decode into a well-formed sprite leaves a well-formed sprite,
    whatever the document holds. *)
Lemma ASE__decode_main_ok {U} asserts fuel S (F : ASE__ctx U) R S' log F' :
  sprite_ok S ->
  ASE__decode_main asserts fuel S F = Ret ((R, S', log), F') ->
  sprite_ok S'.
Proof.
  intros Hok H. unfold ASE__decode_main in H. inv_bind H. destruct a as [Ok_ Header].
  do 2 inv_bind H. inv_ret H.
  eapply (ASE__decode_frames_keeps asserts fuel decode_ok (fun _ => True)) in Hm1.
  - exact (proj1 Hm1).
  - intros. eapply ASE__decode_switch_ok; eassumption.
  - intros st d Hst. split; [exact I|]. apply decode_ok_new_frame. exact Hst.
  - split; [|discriminate]. destruct Hok as (HL & HC & HT).
    unfold sprite_ok. cbn [ds_sprite layers frames tags]. auto.
Qed.

Lemma prefix_of_app_r {A} (l k m : list A) : l `prefix_of` k -> l `prefix_of` k ++ m.
Proof. intros [x ->]. exists (x ++ m). rewrite app_assoc. reflexivity. Qed.

Lemma ASE__decode_switch_extends {U} asserts fuel S0 i Frame start CH st (F : ASE__ctx U)
    st' F' :
  (length (frames S0) <= Frame)%nat ->
  sprite_extends S0 (ds_sprite st) ->
  ASE__decode_switch asserts fuel i Frame start CH st F = Ret (st', F') ->
  sprite_extends S0 (ds_sprite st').
Proof.
  intros HF (HL & HFr & HT) H. unfold ASE__decode_switch in H.
  case_if H.
  { inv_bind H. inv_ret H. unfold sprite_extends. cbn [ds_sprite layers frames tags]. auto. }
  case_if H.
  { inv_bind H. destruct a as [[[o S'] p] l]. inv_ret H.
    unfold ASE_Layer_read in Hm. inv_bind Hm.
    apply lift_outcome_Ret in Hm as [Hm _]. cbn [fst] in Hm.
    apply ASE_Layer_decode_inv in Hm as [(-> & -> & -> & ->)|(L & _ & -> & -> & _)].
    - unfold sprite_extends. auto.
    - unfold sprite_extends. cbn [ds_sprite set_layers layers frames tags].
      split; [apply prefix_of_app_r; exact HL|auto]. }
  case_if H.
  { inv_bind H. destruct a as [o S']. inv_ret H. cbn [snd].
    apply ASE_Cel_read_inv in Hm as [(-> & ->)|(c & -> & _)].
    - unfold sprite_extends. auto.
    - unfold sprite_extends. cbn [ds_sprite set_frames layers frames tags].
      split; [exact HL|split; [|exact HT]].
      destruct HFr as [k Ek]. rewrite Ek. rewrite alter_app_r_alt by exact HF.
      eexists. reflexivity. }
  case_if H.
  { inv_bind H. inv_ret H. apply ASE_Tags_read_inv in Hm as (ts & -> & _).
    unfold sprite_extends. cbn [ds_sprite layers frames tags].
    split; [exact HL|split; [exact HFr|]]. apply prefix_of_app_r. exact HT. }
  inv_ret H. unfold sprite_extends. auto.
Qed.

Lemma ASE__decode_switch_durations {U} asserts fuel i Frame start CH st (F : ASE__ctx U)
    st' F' :
  ASE__decode_switch asserts fuel i Frame start CH st F = Ret (st', F') ->
  map duration (frames (ds_sprite st')) = map duration (frames (ds_sprite st)).
Proof.
  intros H. unfold ASE__decode_switch in H.
  case_if H.
  { inv_bind H. inv_ret H. reflexivity. }
  case_if H.
  { inv_bind H. destruct a as [[[o S'] p] l]. inv_ret H.
    unfold ASE_Layer_read in Hm. inv_bind Hm.
    apply lift_outcome_Ret in Hm as [Hm _]. cbn [fst] in Hm.
    apply ASE_Layer_decode_inv in Hm as [(-> & -> & -> & ->)|(L & _ & -> & -> & _)];
      reflexivity. }
  case_if H.
  { inv_bind H. destruct a as [o S']. inv_ret H. cbn [snd].
    apply ASE_Cel_read_inv in Hm as [(-> & ->)|(c & -> & _)]; [reflexivity|].
    cbn [ds_sprite set_frames frames].
    apply list_eq. intros j. rewrite !list_lookup_fmap, list_lookup_alter.
    destruct (decide (Frame = j)) as [->|]; [|reflexivity].
    destruct (frames (ds_sprite st) !! j); reflexivity. }
  case_if H.
  { inv_bind H. inv_ret H. apply ASE_Tags_read_inv in Hm as (ts & -> & _). reflexivity. }
  inv_ret H. reflexivity.
Qed.

Lemma ASE__decode_frames_durations {U} asserts fuel n : forall i st (F : ASE__ctx U) r F',
  ASE__decode_frames asserts fuel i n st F = Ret (r, F') ->
  map duration (frames (ds_sprite (fst r))) =
    map duration (frames (ds_sprite st)) ++ map log_duration (snd r).
Proof.
  induction n as [|n IH]; intros i st F r F' H; cbn [ASE__decode_frames] in H.
  - inv_ret H. cbn [fst snd map]. rewrite app_nil_r. reflexivity.
  - do 2 inv_bind H. inv_ret H. cbn [fst snd map].
    apply IH in Hm0. rewrite Hm0. clear Hm0 IH.
    unfold ASE__decode_frame in Hm. do 5 inv_bind Hm. inv_ret Hm. cbn [fst snd].
    rewrite ASE_DOC_AddFrame_duration in Hm3.
    match type of Hm3 with
    | context [mkFrame ?d []] =>
        eapply (ASE__decode_chunks_keeps asserts fuel
                  (fun st' => map duration (frames (ds_sprite st')) =
                              map duration (frames (ds_sprite st)) ++ [d])
                  (fun _ => True)) in Hm3
    end.
    + rewrite Hm3, <- app_assoc. reflexivity.
    + intros i' Frame start CH st1 F1 st1' F1' _ HP Hsw.
      apply ASE__decode_switch_durations in Hsw. rewrite Hsw. exact HP.
    + exact I.
    + cbn [ds_sprite set_frames frames]. rewrite map_app. reflexivity.
Qed.

(** X14. A decode only appends: the layers, frames and tags that the sprite
    held before are still there, unchanged and in their places, and every
    frame header read has added one frame, in order, with the duration it
    announces. *)
Theorem ASE__decode_main_appends {U} asserts fuel S (F : ASE__ctx U) R S' log :
  run (ASE__decode_main asserts fuel S) F = Ret (R, S', log) ->
  sprite_extends S S' /\
  map duration (frames S') = map duration (frames S) ++ map log_duration log.
Proof.
  intros H. apply run_Ret in H as [F' H].
  unfold ASE__decode_main in H. inv_bind H. destruct a as [Ok_ Header].
  do 2 inv_bind H. inv_ret H. split.
  - eapply (ASE__decode_frames_keeps asserts fuel
              (fun st => sprite_extends S (ds_sprite st))
              (fun Frame => (length (frames S) <= Frame)%nat)) in Hm1.
    + exact Hm1.
    + intros. eapply ASE__decode_switch_extends; eassumption.
    + intros st d (HL & HFr & HT). split.
      * apply prefix_length. exact HFr.
      * unfold sprite_extends. cbn [ds_sprite set_frames layers frames tags].
        split; [exact HL|split; [apply prefix_of_app_r; exact HFr|exact HT]].
    + unfold sprite_extends. cbn [ds_sprite layers frames tags]. auto.
  - apply ASE__decode_frames_durations in Hm1. exact Hm1.
Qed.

Lemma sample_decode :
  run (ASE__decode_main true 0 zero_sprite) (ASE__start_mem sample_document)
    = Ret (true, sample_sprite, sample_log).
Proof. vm_compute. reflexivity. Qed.

(** X14 on [sample_document], decoded a second time into the sprite that its
    first decode gave. *)
Lemma ASE__decode_main_appends_witness :
  exists S',
    run (ASE__decode_main true 0 sample_sprite) (ASE__start_mem sample_document)
      = Ret (true, S', sample_log) /\
    sprite_extends sample_sprite S' /\
    map duration (frames S') = [100; 100].
Proof.
  eexists. split; [vm_compute; reflexivity|].
  match goal with
  | |- sprite_extends _ ?S' /\ _ =>
      exact (ASE__decode_main_appends true 0%nat sample_sprite
               (ASE__start_mem sample_document) true S' sample_log
               ltac:(vm_compute; reflexivity))
  end.
Defined.

Lemma sprite_ok_zero : sprite_ok zero_sprite.
Proof.
  split; [|split].
  - intros i L E. discriminate E.
  - intros f c Hf. apply elem_of_nil in Hf. destruct Hf.
  - constructor.
Qed.

(** X15. A decode into a well-formed sprite (a fresh one is) leaves a
    well-formed sprite, whatever the document holds: every layer has a name,
    its [visible] is bit 0 of its flags and its parent is [-1] or the index
    of an earlier layer; every cel names an Image layer of the sprite; every
    tag has a name, a direction 0, 1 or 2 and bounds in the [int16_t] range. *)
Theorem ASE__decode_main_well_formed {U} asserts fuel S (F : ASE__ctx U) R S' log :
  sprite_ok S ->
  run (ASE__decode_main asserts fuel S) F = Ret (R, S', log) ->
  sprite_ok S'.
Proof.
  intros Hok H. apply run_Ret in H as [F' H].
  eapply ASE__decode_main_ok; eassumption.
Qed.

(** X15 on [sample_document], decoded into a fresh sprite. *)
Lemma ASE__decode_main_well_formed_witness : sprite_ok sample_sprite.
Proof.
  exact (ASE__decode_main_well_formed true 0%nat zero_sprite
           (ASE__start_mem sample_document) true sample_sprite sample_log
           sprite_ok_zero sample_decode).
Defined.

Lemma sample_sprite_ok : sprite_ok sample_sprite.
Proof.
  pose proof sample_decode as H. apply run_Ret in H as [F' H].
  eapply ASE__decode_main_ok; [exact sprite_ok_zero|exact H].
Qed.

Lemma ASE__decode_switch_whd {U} asserts fuel i Frame start CH st (F : ASE__ctx U)
    st' F' :
  ASE__decode_switch asserts fuel i Frame start CH st F = Ret (st', F') ->
  width (ds_sprite st') = width (ds_sprite st) /\
  height (ds_sprite st') = height (ds_sprite st) /\
  depth (ds_sprite st') = depth (ds_sprite st).
Proof.
  intros H. unfold ASE__decode_switch in H.
  case_if H.
  { inv_bind H. inv_ret H. auto. }
  case_if H.
  { inv_bind H. destruct a as [[[o S'] p] l]. inv_ret H.
    unfold ASE_Layer_read in Hm. inv_bind Hm.
    apply lift_outcome_Ret in Hm as [Hm _]. cbn [fst] in Hm.
    apply ASE_Layer_decode_inv in Hm as [(-> & -> & -> & ->)|(L & _ & -> & -> & _)];
      auto. }
  case_if H.
  { inv_bind H. destruct a as [o S']. inv_ret H. cbn [snd].
    apply ASE_Cel_read_inv in Hm as [(-> & ->)|(c & -> & _)]; auto. }
  case_if H.
  { inv_bind H. inv_ret H. apply ASE_Tags_read_inv in Hm as (ts & -> & _). auto. }
  inv_ret H. auto.
Qed.

Lemma ASE__decode_frames_magic {U} fuel n : forall i st (F : ASE__ctx U) r F',
  ASE__decode_frames true fuel i n st F = Ret (r, F') ->
  Forall (fun e => fh_magic (snd (fst e)) = ASE_FILE_FRAME_MAGIC) (snd r).
Proof.
  induction n as [|n IH]; intros i st F r F' H; cbn [ASE__decode_frames] in H.
  - inv_ret H. constructor.
  - do 2 inv_bind H. inv_ret H. cbn [snd]. constructor; [|eapply IH; eassumption].
    unfold ASE__decode_frame in Hm. do 5 inv_bind Hm. inv_ret Hm. cbn [fst snd].
    match goal with
    | Hc : c_assert _ _ _ = Ret _ |- _ => apply c_assert_Ret in Hc as [_ Hmagic]
    end.
    apply Z.eqb_eq. apply Hmagic. reflexivity.
Qed.

(** X16. With assertions compiled in, a decode that returns has read a
    header with the file magic and a supported depth, which is the depth of
    the sprite, and every frame header it has read has the frame magic. *)
Theorem ASE__decode_main_asserted {U} fuel S (F : ASE__ctx U) R S' log :
  run (ASE__decode_main true fuel S) F = Ret (R, S', log) ->
  (exists H, run ASE_DOC_Header_read F = Ret (true, H) /\
             hdr_magic H = ASE_FILE_MAGIC /\
             width S' = hdr_width H /\ height S' = hdr_height H /\
             depth S' = hdr_depth H) /\
  (depth S' = ASE_DEPTH_RGBA \/ depth S' = ASE_DEPTH_GRAYSCALE \/
   depth S' = ASE_DEPTH_INDEXED) /\
  Forall (fun e => fh_magic (snd (fst e)) = ASE_FILE_FRAME_MAGIC) log.
Proof.
  intros H. apply run_Ret in H as [F' H].
  unfold ASE__decode_main in H. inv_bind H. destruct a as [Ok_ Header].
  rename Hm into Hhdr.
  inv_bind H. apply c_assert_Ret in Hm as [[= -> ->] Hok]. specialize (Hok eq_refl).
  subst Ok_. inv_bind H. inv_ret H. rename Hm into Hfr.
  match type of Hfr with
  | _ = Ret (?r, _) => set (st' := fst r) in *
  end.
  assert (Hsame : width (ds_sprite st') = hdr_width Header /\
                  height (ds_sprite st') = hdr_height Header /\
                  depth (ds_sprite st') = hdr_depth Header).
  { eapply (ASE__decode_frames_keeps true fuel
              (fun st => width (ds_sprite st) = hdr_width Header /\
                         height (ds_sprite st) = hdr_height Header /\
                         depth (ds_sprite st) = hdr_depth Header)
              (fun _ => True)) in Hfr.
    - exact Hfr.
    - intros i Frame start CH st F1 st1 F1' _ HP Hsw.
      pose proof (ASE__decode_switch_whd _ _ _ _ _ _ _ _ _ _ Hsw) as (-> & -> & ->).
      exact HP.
    - intros st d HP. split; [exact I|exact HP].
    - cbn [ds_sprite width height depth]. auto. }
  destruct Hsame as (Hw & Hh & Hd).
  assert (Hc : hdr_magic Header = ASE_FILE_MAGIC /\
               (hdr_depth Header = ASE_DEPTH_RGBA \/ hdr_depth Header = ASE_DEPTH_GRAYSCALE \/
                hdr_depth Header = ASE_DEPTH_INDEXED)).
  { pose proof Hhdr as Hh'.
    unfold ASE_DOC_Header_read in Hh'. do 2 inv_bind Hh'.
    match type of Hh' with
    | context [ASE_DOC_Header_check ?O] =>
        destruct (ASE_DOC_Header_check O) as [ok O'] eqn:Ec; cbn [fst] in Hh';
        assert (ok = true /\ O' = Header) as [-> ->]
          by (destruct ok; [inv_bind Hh'|]; inv_ret Hh'; auto);
        clear Hh';
        unfold ASE_DOC_Header_check in Ec;
        destruct (Z.eqb_spec (hdr_magic O) ASE_FILE_MAGIC) as [Em|]; cbn [negb] in Ec;
          [|discriminate];
        destruct (Z.eqb_spec (hdr_depth O) ASE_DEPTH_RGBA) as [E32|],
                 (Z.eqb_spec (hdr_depth O) ASE_DEPTH_GRAYSCALE) as [E16|],
                 (Z.eqb_spec (hdr_depth O) ASE_DEPTH_INDEXED) as [E8|];
          cbn [negb andb] in Ec; try discriminate;
          (destruct (0 =? hdr_ncolors O); destruct (_ || _);
           injection Ec as <-; cbn [hdr_magic hdr_depth]; auto)
    end. }
  destruct Hc as [Hmag Hdep].
  split; [|split].
  - exists Header. split; [eapply run_eq_Ret; exact Hhdr|]. auto.
  - rewrite Hd. exact Hdep.
  - eapply ASE__decode_frames_magic. exact Hfr.
Qed.

(** X16 on [sample_document]. *)
Lemma ASE__decode_main_asserted_witness :
  (depth sample_sprite = ASE_DEPTH_RGBA \/ depth sample_sprite = ASE_DEPTH_GRAYSCALE \/
   depth sample_sprite = ASE_DEPTH_INDEXED) /\
  Forall (fun e => fh_magic (snd (fst e)) = ASE_FILE_FRAME_MAGIC) sample_log.
Proof.
  exact (proj2 (ASE__decode_main_asserted 0%nat zero_sprite
                  (ASE__start_mem sample_document) true sample_sprite sample_log
                  sample_decode)).
Defined.

(** ** The convenience functions *)

Lemma ASE_streq_bytes_spec : forall a b,
  ASE_streq_bytes (a ++ [0]) (b ++ [0]) =
    Ret (if decide (c_string a = c_string b) then 1 else 0).
Proof.
  induction a as [|x a IH]; intros [|y b]; cbn [app ASE_streq_bytes c_string].
  - reflexivity.
  - cbn [Z.eqb negb andb]. destruct (Z.eqb_spec y 0); cbn [negb andb].
    + reflexivity.
    + destruct (decide _) as [E|E]; [discriminate E|reflexivity].
  - cbn [Z.eqb negb andb]. destruct (Z.eqb_spec x 0); cbn [negb andb].
    + reflexivity.
    + destruct (decide _) as [E|E]; [discriminate E|reflexivity].
  - destruct (Z.eqb_spec x 0), (Z.eqb_spec y 0); cbn [negb andb].
    + reflexivity.
    + destruct (decide _) as [E|E]; [discriminate E|reflexivity].
    + destruct (decide _) as [E|E]; [discriminate E|reflexivity].
    + destruct (Z.eqb_spec x y) as [->|Hne]; cbn [negb].
      * rewrite IH. destruct (decide (c_string a = c_string b)) as [E|E],
          (decide (y :: c_string a = y :: c_string b)) as [E'|E']; try reflexivity.
        -- destruct E'. f_equal. exact E.
        -- destruct E. injection E' as E'. exact E'.
      * destruct (decide _) as [E|E]; [injection E as E _; contradiction|reflexivity].
Qed.

(** X17. [ASE_streq] on two strings returns 1 when they are equal as C
    strings (up to their first zero byte) and 0 when they are not; it reads
    neither string past its terminator. *)
Theorem ASE_streq_decides_c_strings a b :
  exists r, ASE_streq (Some a) (Some b) = Ret r /\
            (r = 1 <-> c_string a = c_string b) /\
            (r = 0 <-> c_string a <> c_string b).
Proof.
  unfold ASE_streq. rewrite ASE_streq_bytes_spec.
  destruct (decide (c_string a = c_string b)) as [E|E]; eexists; (split; [reflexivity|]).
  - split; split; intros H; try reflexivity; try exact E; [discriminate H|contradiction].
  - split; split; intros H; try reflexivity; try exact E; [discriminate H|contradiction].
Qed.

Lemma ASE_get_layer_by_name_from_spec name : forall ls i,
  Forall (fun L => layer_name L <> None) ls ->
  exists r, ASE_get_layer_by_name_from ls i (Some name) = Ret ((fun k => (i + k)%nat) <$> r) /\
            first_named (map layer_name ls) name r.
Proof.
  induction ls as [|A ls IH]; intros i Hn; cbn [ASE_get_layer_by_name_from].
  - exists None. split; [reflexivity|]. intros j s E. discriminate E.
  - apply Forall_cons_1 in Hn as [HA Hn].
    destruct (layer_name A) as [s|] eqn:Es; [|contradiction].
    unfold ASE_streq. rewrite ASE_streq_bytes_spec.
    destruct (decide (c_string name = c_string s)) as [E|E]; cbn [Z.eqb negb].
    + exists (Some 0%nat). cbn [fmap option_fmap option_map]. rewrite Nat.add_0_r.
      split; [reflexivity|]. cbn [first_named map]. rewrite Es. split.
      * exists s. split; [reflexivity|]. symmetry. exact E.
      * intros j s' Hj. lia.
    + destruct (IH (S i) Hn) as (r & Er & Hr). rewrite Er.
      exists (S <$> r). split.
      * destruct r; cbn [fmap option_fmap option_map]; f_equal; f_equal; lia.
      * destruct r as [k|]; cbn [fmap option_fmap option_map first_named map] in *.
        -- destruct Hr as [(s' & E1 & E2) Hlt]. split.
           ++ exists s'. split; [exact E1|exact E2].
           ++ intros [|j] s'' Hj Ej.
              ** cbn in Ej. rewrite Es in Ej. injection Ej as <-. congruence.
              ** eapply Hlt; [|exact Ej]. lia.
        -- intros [|j] s'' Ej.
           ++ cbn in Ej. rewrite Es in Ej. injection Ej as <-. congruence.
           ++ eapply Hr. exact Ej.
Qed.

Lemma ASE_get_tag_by_name_from_spec name : forall ts i,
  Forall (fun t => tag_name t <> None) ts ->
  exists r, ASE_get_tag_by_name_from ts i (Some name) = Ret ((fun k => (i + k)%nat) <$> r) /\
            first_named (map tag_name ts) name r.
Proof.
  induction ts as [|A ts IH]; intros i Hn; cbn [ASE_get_tag_by_name_from].
  - exists None. split; [reflexivity|]. intros j s E. discriminate E.
  - apply Forall_cons_1 in Hn as [HA Hn].
    destruct (tag_name A) as [s|] eqn:Es; [|contradiction].
    unfold ASE_streq. rewrite ASE_streq_bytes_spec.
    destruct (decide (c_string name = c_string s)) as [E|E]; cbn [Z.eqb negb].
    + exists (Some 0%nat). cbn [fmap option_fmap option_map]. rewrite Nat.add_0_r.
      split; [reflexivity|]. cbn [first_named map]. rewrite Es. split.
      * exists s. split; [reflexivity|]. symmetry. exact E.
      * intros j s' Hj. lia.
    + destruct (IH (S i) Hn) as (r & Er & Hr). rewrite Er.
      exists (S <$> r). split.
      * destruct r; cbn [fmap option_fmap option_map]; f_equal; f_equal; lia.
      * destruct r as [k|]; cbn [fmap option_fmap option_map first_named map] in *.
        -- destruct Hr as [(s' & E1 & E2) Hlt]. split.
           ++ exists s'. split; [exact E1|exact E2].
           ++ intros [|j] s'' Hj Ej.
              ** cbn in Ej. rewrite Es in Ej. injection Ej as <-. congruence.
              ** eapply Hlt; [|exact Ej]. lia.
        -- intros [|j] s'' Ej.
           ++ cbn in Ej. rewrite Es in Ej. injection Ej as <-. congruence.
           ++ eapply Hr. exact Ej.
Qed.

Lemma sprite_ok_layer_names S :
  sprite_ok S -> Forall (fun L => layer_name L <> None) (layers S).
Proof.
  intros (HL & _ & _). apply Forall_lookup. intros i L E. apply (HL i L E).
Qed.

Lemma sprite_ok_tag_names S :
  sprite_ok S -> Forall (fun t => tag_name t <> None) (tags S).
Proof.
  intros (_ & _ & HT). eapply List.Forall_impl; [|exact HT]. intros t Ht. apply Ht.
Qed.

(** X18. On a well-formed sprite, [ASE_get_layer_by_name] and
    [ASE_get_tag_by_name] return the first layer (tag) whose name is [name]
    as a C string, and null when there is none. *)
Theorem ASE_get_by_name_first_match (S : ASE_Sprite) (name : list Z) :
  sprite_ok S ->
  (exists r, ASE_get_layer_by_name S (Some name) = Ret r /\
             first_named (map layer_name (layers S)) name r) /\
  (exists r, ASE_get_tag_by_name S (Some name) = Ret r /\
             first_named (map tag_name (tags S)) name r).
Proof.
  intros Hok. split.
  - destruct (ASE_get_layer_by_name_from_spec name (layers S) 0
                (sprite_ok_layer_names S Hok)) as (r & E & Hr).
    exists r. split; [|exact Hr]. unfold ASE_get_layer_by_name. rewrite E.
    destruct r; reflexivity.
  - destruct (ASE_get_tag_by_name_from_spec name (tags S) 0
                (sprite_ok_tag_names S Hok)) as (r & E & Hr).
    exists r. split; [|exact Hr]. unfold ASE_get_tag_by_name. rewrite E.
    destruct r; reflexivity.
Qed.

(** X18 on [sample_sprite]: the layer A is found at index 0, and there is no
    tag A. *)
Lemma ASE_get_by_name_first_match_witness :
  (exists r, ASE_get_layer_by_name sample_sprite (Some [65]) = Ret r /\
             first_named (map layer_name (layers sample_sprite)) [65] r) /\
  (exists r, ASE_get_tag_by_name sample_sprite (Some [65]) = Ret r /\
             first_named (map tag_name (tags sample_sprite)) [65] r).
Proof. exact (ASE_get_by_name_first_match sample_sprite [65] sample_sprite_ok). Defined.

Lemma land_1_range x : 0 <= Z.land x 1 <= 1.
Proof.
  change (Z.land x 1) with (Z.land x (Z.ones 1)). rewrite Z.land_ones by lia.
  pose proof (Z.mod_pos_bound x (2 ^ 1)). lia.
Qed.

(** X19. On a well-formed sprite, [ASE_check_cel_visible] of a cel of any
    frame stays inside the layer array: it returns the visibility bit, 0 or
    1, of the cel's layer, which is an Image layer. *)
Theorem ASE_check_cel_visible_in_bounds (S : ASE_Sprite) (f : ASE_Frame) (c : ASE_Cel) :
  sprite_ok S -> f ∈ frames S -> c ∈ cels f ->
  exists L, layers S !! Z.to_nat (cel_layer c) = Some L /\
            layer_type L = ASE_FILE_LAYER_IMAGE /\
            ASE_check_cel_visible S c = Ret (Z.land (layer_flags L) ASE_LAYER_VISIBLE) /\
            0 <= Z.land (layer_flags L) ASE_LAYER_VISIBLE <= 1.
Proof.
  intros (HL & HC & _) Hf Hc.
  destruct (HC f c Hf Hc) as [H0 (L & E & Ht)].
  exists L. split; [exact E|split; [exact Ht|]].
  destruct (HL _ _ E) as (_ & Hv & _).
  split.
  - unfold ASE_check_cel_visible.
    replace (cel_layer c <? 0) with false by (symmetry; apply Z.ltb_ge; lia).
    rewrite E, Hv. reflexivity.
  - unfold ASE_LAYER_VISIBLE. apply land_1_range.
Qed.

(** X19 on the cel of [sample_sprite]. *)
Lemma ASE_check_cel_visible_in_bounds_witness :
  exists L, layers sample_sprite !! Z.to_nat 0 = Some L /\
            layer_type L = ASE_FILE_LAYER_IMAGE /\
            ASE_check_cel_visible sample_sprite
              (mkCel 0 3 4 1 1 255 (Some [9; 8; 7; 6]) 0 0)
              = Ret (Z.land (layer_flags L) ASE_LAYER_VISIBLE) /\
            0 <= Z.land (layer_flags L) ASE_LAYER_VISIBLE <= 1.
Proof.
  apply (ASE_check_cel_visible_in_bounds sample_sprite
           (mkFrame 100 [mkCel 0 3 4 1 1 255 (Some [9; 8; 7; 6]) 0 0])
           (mkCel 0 3 4 1 1 255 (Some [9; 8; 7; 6]) 0 0) sample_sprite_ok).
  - apply list_elem_of_singleton. reflexivity.
  - apply list_elem_of_singleton. reflexivity.
Defined.

Lemma ASE_get_linked_cel_from_spec layer : forall cs ic,
  match ASE_get_linked_cel_from cs ic layer with
  | Some k => exists c2, (ic <= k)%nat /\ cs !! (k - ic)%nat = Some c2 /\
                         cel_layer c2 = layer /\
                         forall j c', (j < k - ic)%nat -> cs !! j = Some c' ->
                                      cel_layer c' <> layer
  | None => forall c', c' ∈ cs -> cel_layer c' <> layer
  end.
Proof.
  induction cs as [|c cs IH]; intros ic; cbn [ASE_get_linked_cel_from].
  - intros c' H. apply elem_of_nil in H. destruct H.
  - destruct (Z.eqb_spec (cel_layer c) layer) as [E|E].
    + exists c. rewrite Nat.sub_diag. repeat split; auto. intros j c' Hj. lia.
    + specialize (IH (S ic)). destruct (ASE_get_linked_cel_from cs (S ic) layer) as [k|].
      * destruct IH as (c2 & Hk & E2 & El & Hfirst). exists c2.
        replace (k - ic)%nat with (S (k - S ic)) by lia.
        repeat split; [lia|exact E2|exact El|].
        intros [|j] c' Hj Ej; [injection Ej as <-; exact E|].
        eapply Hfirst; [|exact Ej]. lia.
      * intros c' Hc'. apply elem_of_cons in Hc' as [->|Hc']; [exact E|]. apply IH, Hc'.
Qed.

(** X20. When [cel->frame] is the index of a frame of the sprite,
    [ASE_get_linked_cel] returns the first cel of that frame that has the
    layer of [cel], and null when the frame has no such cel. *)
Theorem ASE_get_linked_cel_first_in_frame (S : ASE_Sprite) (cel : ASE_Cel) (lf : ASE_Frame) :
  0 <= cel_frame cel ->
  frames S !! Z.to_nat (cel_frame cel) = Some lf ->
  exists r, ASE_get_linked_cel S cel = Ret r /\
    match r with
    | Some k => exists c2, cels lf !! k = Some c2 /\ cel_layer c2 = cel_layer cel /\
                           forall j c', (j < k)%nat -> cels lf !! j = Some c' ->
                                        cel_layer c' <> cel_layer cel
    | None => forall c', c' ∈ cels lf -> cel_layer c' <> cel_layer cel
    end.
Proof.
  intros H0 E. unfold ASE_get_linked_cel.
  replace (cel_frame cel <? 0) with false by (symmetry; apply Z.ltb_ge; lia).
  rewrite E. eexists. split; [reflexivity|].
  pose proof (ASE_get_linked_cel_from_spec (cel_layer cel) (cels lf) 0) as H.
  destruct (ASE_get_linked_cel_from _ _ _) as [k|]; [|exact H].
  destruct H as (c2 & _ & E2 & El & Hfirst). rewrite Nat.sub_0_r in *.
  exists c2. auto.
Qed.

(** X20 on [sample_sprite], for a cel linked to frame 0 on layer 0. *)
Lemma ASE_get_linked_cel_first_in_frame_witness :
  exists r, ASE_get_linked_cel sample_sprite (mkCel 0 0 0 0 0 255 None 1 0) = Ret r /\
    match r with
    | Some k => exists c2, [mkCel 0 3 4 1 1 255 (Some [9; 8; 7; 6]) 0 0] !! k = Some c2 /\
                           cel_layer c2 = 0 /\
                           forall j c', (j < k)%nat ->
                             [mkCel 0 3 4 1 1 255 (Some [9; 8; 7; 6]) 0 0] !! j = Some c' ->
                             cel_layer c' <> 0
    | None => forall c', c' ∈ [mkCel 0 3 4 1 1 255 (Some [9; 8; 7; 6]) 0 0] ->
                         cel_layer c' <> 0
    end.
Proof.
  apply (ASE_get_linked_cel_first_in_frame sample_sprite (mkCel 0 0 0 0 0 255 None 1 0)
           (mkFrame 100 [mkCel 0 3 4 1 1 255 (Some [9; 8; 7; 6]) 0 0])).
  - vm_compute. discriminate.
  - reflexivity.
Defined.

Lemma mod_succ k n :
  0 <= k -> 0 < n ->
  (k + 1) mod n = if k mod n + 1 =? n then 0 else k mod n + 1.
Proof.
  intros Hk Hn. pose proof (Z.mod_pos_bound k n Hn) as Hm.
  pose proof (Z.div_mod k n ltac:(lia)) as Hd.
  destruct (Z.eqb_spec (k mod n + 1) n) as [E|E].
  - symmetry. apply (Z.mod_unique_pos _ _ (k / n + 1)); lia.
  - symmetry. apply (Z.mod_unique_pos _ _ (k / n)); lia.
Qed.

(** X21. Stepping a Forward tag from its first frame visits the frames
    [from], [from+1], ..., [to] and starts over; stepping a Reverse tag from
    its last frame visits [to], [to-1], ..., [from] and starts over. *)
Theorem ASE_get_next_frame_cycles tag (k : nat) :
  INT_MIN < tag_from tag -> tag_from tag <= tag_to tag -> tag_to tag < INT_MAX ->
  let n := tag_to tag - tag_from tag + 1 in
  (tag_dir tag = ASE_LOOP_FORWARD ->
   Nat.iter k (ASE_get_next_frame tag) (tag_from tag) = tag_from tag + Z.of_nat k mod n) /\
  (tag_dir tag = ASE_LOOP_REVERSE ->
   Nat.iter k (ASE_get_next_frame tag) (tag_to tag) = tag_to tag - Z.of_nat k mod n).
Proof.
  intros Hlo Hle Hhi n. unfold INT_MIN, INT_MAX in *.
  assert (Hn : 0 < n) by (subst n; lia).
  split; intros Hd; induction k as [|k IH].
  - cbn [Nat.iter nat_rect]. change (Z.of_nat 0) with 0. rewrite Z.mod_0_l by lia. lia.
  - rewrite Nat.iter_succ, IH. replace (Z.of_nat (S k)) with (Z.of_nat k + 1) by lia.
    rewrite mod_succ by lia.
    pose proof (Z.mod_pos_bound (Z.of_nat k) n Hn) as Hm.
    unfold ASE_get_next_frame. rewrite Hd. cbn [Z.eqb ASE_LOOP_FORWARD].
    rewrite s32_id by (unfold INT_MIN, INT_MAX; subst n; lia).
    destruct (Z.gtb_spec (tag_from tag + Z.of_nat k mod n + 1) (tag_to tag)),
      (Z.eqb_spec (Z.of_nat k mod n + 1) n); subst n; lia.
  - cbn [Nat.iter nat_rect]. change (Z.of_nat 0) with 0. rewrite Z.mod_0_l by lia. lia.
  - rewrite Nat.iter_succ, IH. replace (Z.of_nat (S k)) with (Z.of_nat k + 1) by lia.
    rewrite mod_succ by lia.
    pose proof (Z.mod_pos_bound (Z.of_nat k) n Hn) as Hm.
    unfold ASE_get_next_frame. rewrite Hd. cbn [Z.eqb Pos.eqb ASE_LOOP_FORWARD ASE_LOOP_REVERSE].
    rewrite s32_id by (unfold INT_MIN, INT_MAX; subst n; lia).
    destruct (Z.ltb_spec (tag_to tag - Z.of_nat k mod n - 1) (tag_from tag)),
      (Z.eqb_spec (Z.of_nat k mod n + 1) n); subst n; lia.
Qed.

(** X21 for a Forward tag over the frames 2..4, after seven steps. *)
Lemma ASE_get_next_frame_cycles_witness :
  Nat.iter 7 (ASE_get_next_frame (mkTag 2 4 ASE_LOOP_FORWARD None)) 2 = 2 + 7 mod (4 - 2 + 1).
Proof.
  apply (proj1 (ASE_get_next_frame_cycles (mkTag 2 4 ASE_LOOP_FORWARD None) 7
                  ltac:(vm_compute; reflexivity) ltac:(vm_compute; discriminate)
                  ltac:(vm_compute; reflexivity))).
  reflexivity.
Defined.

(** ** The header and the pixels of a cel *)

Lemma same_io_Header_fields {U} : same_io (@ASE_DOC_Header_fields U).
Proof. unfold ASE_DOC_Header_fields. same_io. Qed.

(** X22. A header that [ASE_DOC_Header_read] accepts has the file magic, a
    depth of 32, 16 or 8, a colour count and a pixel ratio without zeros,
    and the stream is left 128 bytes after the place the header started at. *)
Theorem ASE_DOC_Header_read_accepted {U} (F : ASE__ctx U) H pos :
  seek_tell_law (io F) ->
  run (then_tell ASE_DOC_Header_read) F = Ret ((true, H), pos) ->
  pos = s32 (tell_of F + 128) /\
  hdr_magic H = ASE_FILE_MAGIC /\
  (hdr_depth H = ASE_DEPTH_RGBA \/ hdr_depth H = ASE_DEPTH_GRAYSCALE \/
   hdr_depth H = ASE_DEPTH_INDEXED) /\
  hdr_ncolors H <> 0 /\ hdr_pixel_w H <> 0 /\ hdr_pixel_h H <> 0.
Proof.
  intros Hlaw E. apply run_Ret in E as [F' E]. unfold then_tell in E.
  inv_bind E. inv_bind E. unfold io_tell in Hm0. injection Hm0 as <- <-. inv_ret E.
  rename Hm into E.
  unfold ASE_DOC_Header_read in E.
  inv_bind E. inv_bind E.
  unfold io_tell in Hm. injection Hm as <- <-.
  pose proof (same_io_Ret _ _ _ _ same_io_Header_fields Hm0) as Hio.
  match type of E with
  | context [ASE_DOC_Header_check ?O] =>
      destruct (ASE_DOC_Header_check O) as [ok O'] eqn:Ec; cbn [fst] in E;
      rename O into O0
  end.
  destruct ok; [|inv_ret E; discriminate].
  inv_bind E. inv_ret E. unfold io_seek in Hm. injection Hm as _ <-.
  split.
  - unfold tell_of. cbn [io udata]. rewrite Hio. apply Hlaw. apply s32_range.
  - unfold ASE_DOC_Header_check in Ec.
    destruct (Z.eqb_spec (hdr_magic O0) ASE_FILE_MAGIC) as [Em|]; cbn [negb] in Ec;
      [|discriminate].
    destruct (Z.eqb_spec (hdr_depth O0) ASE_DEPTH_RGBA) as [E32|],
             (Z.eqb_spec (hdr_depth O0) ASE_DEPTH_GRAYSCALE) as [E16|],
             (Z.eqb_spec (hdr_depth O0) ASE_DEPTH_INDEXED) as [E8|];
      cbn [negb andb] in Ec; try discriminate;
      (destruct (Z.eqb_spec 0 (hdr_ncolors O0));
       destruct (Z.eqb_spec (hdr_pixel_w O0) 0), (Z.eqb_spec (hdr_pixel_h O0) 0);
       cbn [orb] in Ec; injection Ec as <-;
       cbn [hdr_magic hdr_depth hdr_ncolors hdr_pixel_w hdr_pixel_h];
       repeat split; auto; lia).
Qed.

(** X22 on the header of [sample_document], which announces no colours and
    no pixel ratio. *)
Lemma ASE_DOC_Header_read_accepted_witness :
  run (then_tell ASE_DOC_Header_read) (ASE__start_mem sample_document)
    = Ret ((true, mkHeader 235 ASE_FILE_MAGIC 1 1 1 32 0 0 0 0 0 256 1 1), 128) /\
  128 = s32 (tell_of (ASE__start_mem sample_document) + 128).
Proof.
  assert (E : run (then_tell ASE_DOC_Header_read) (ASE__start_mem sample_document)
              = Ret ((true, mkHeader 235 ASE_FILE_MAGIC 1 1 1 32 0 0 0 0 0 256 1 1), 128))
    by (vm_compute; reflexivity).
  split; [exact E|].
  exact (proj1 (ASE_DOC_Header_read_accepted (ASE__start_mem sample_document) _ 128
                  mem_seek_tell_law E)).
Defined.

Lemma ASE__read8s_length {U} : forall n (F : ASE__ctx U) l F',
  ASE__read8s n F = Ret (l, F') -> length l = n.
Proof.
  induction n as [|n IH]; intros F l F' H; cbn [ASE__read8s] in H.
  - inv_ret H. reflexivity.
  - do 2 inv_bind H. inv_ret H. cbn [length]. f_equal. eapply IH; eassumption.
Qed.

Lemma ASE_DOC_read_raw_image_data {U} bpp Cel (F : ASE__ctx U) Cel' F' d :
  0 < bpp ->
  ASE_DOC_read_raw_image bpp Cel F = Ret (Cel', F') ->
  cel_data Cel' = Some d ->
  cel_w Cel' = cel_w Cel /\ cel_h Cel' = cel_h Cel /\
  Z.of_nat (length d) = cel_w Cel * cel_h Cel * bpp.
Proof.
  intros Hbpp. unfold ASE_DOC_read_raw_image.
  destruct (_ || _); [discriminate|].
  destruct (Z.leb_spec (cel_w Cel * cel_h Cel) 0) as [Hn|Hn]; intros H Hd.
  - inv_ret H. discriminate Hd.
  - inv_bind H. inv_ret H. cbn [set_cel_data cel_data cel_w cel_h] in *.
    injection Hd as <-. apply ASE__read8s_length in Hm. rewrite Hm. split; [|split]; nia.
Qed.

Lemma ASE_DOC_read_compressed_data {U} asserts bpp fuel Cel EndPos (F : ASE__ctx U) Cel' F' d :
  cel_data Cel = None ->
  ASE_DOC_read_compressed asserts bpp fuel Cel EndPos F = Ret (Cel', F') ->
  cel_data Cel' = Some d ->
  cel_w Cel' = cel_w Cel /\ cel_h Cel' = cel_h Cel /\
  Z.of_nat (length d) <= s32 (cel_w Cel * cel_h Cel * bpp).
Proof.
  intros Hnone. unfold ASE_DOC_read_compressed. intros H Hd. inv_bind H.
  destruct (_ || _); [discriminate|]. inv_bind H.
  destruct (Z.ltb_spec (s32 (cel_w Cel * cel_h Cel * bpp)) 0); [discriminate|].
  inv_bind H. destruct a1 as [Result obuffer].
  apply lift_outcome_Ret in Hm1 as [Hm1 _]. cbn [fst] in Hm1.
  apply stbi_zlib_decode_buffer_within_olen in Hm1 as [Hlen _].
  case_if H; inv_ret H; [congruence|].
  cbn [set_cel_data cel_data cel_w cel_h] in *.
  injection Hd as <-. split; [|split]; try reflexivity. lia.
Qed.

(** X23. The pixel buffer that [ASE_Cel_read] leaves in a cel: only a raw or
    a compressed cel gets one; it holds no more than [w*h] pixels of the
    sprite's depth (when that byte count is an [int]), and a raw cel's holds
    exactly that many bytes. *)
Theorem ASE_Cel_read_body_pixel_buffer {U} asserts fuel S Cel type EndPos
    (F : ASE__ctx U) Cel' d :
  cel_data Cel = None ->
  run (ASE_Cel_read_body asserts fuel S Cel type EndPos) F = Ret Cel' ->
  cel_data Cel' = Some d ->
  let size := cel_w Cel' * cel_h Cel' * bytes_per_pixel (depth S) in
  INT_MIN <= size <= INT_MAX ->
  (type = ASE_FILE_RAW_CEL \/ type = ASE_FILE_COMPRESSED_CEL) /\
  Z.of_nat (length d) <= size /\
  (type = ASE_FILE_RAW_CEL -> Z.of_nat (length d) = size).
Proof.
  intros Hnone H Hd size Hsize. subst size. apply run_Ret in H as [F' H].
  unfold ASE_Cel_read_body in H.
  destruct (Z.eqb_spec type ASE_FILE_RAW_CEL) as [Hraw|Hraw].
  { do 2 inv_bind H. split; [auto|].
    assert (E : Z.of_nat (length d) = cel_w Cel' * cel_h Cel' * bytes_per_pixel (depth S));
      [|split; [lia|intros _; exact E]].
    case_if H; [|inv_ret H; cbn [cel_data] in Hd; congruence].
    unfold bytes_per_pixel.
    unfold ASE_DOC_read_raw_image_rgba, ASE_DOC_read_raw_image_grayscale,
      ASE_DOC_read_raw_image_indexed in H.
    destruct (depth S =? ASE_DEPTH_RGBA).
    { eapply ASE_DOC_read_raw_image_data in H as (-> & -> & ->); [reflexivity|lia|exact Hd]. }
    destruct (depth S =? ASE_DEPTH_GRAYSCALE).
    { eapply ASE_DOC_read_raw_image_data in H as (-> & -> & ->); [reflexivity|lia|exact Hd]. }
    destruct (depth S =? ASE_DEPTH_INDEXED).
    { eapply ASE_DOC_read_raw_image_data in H as (-> & -> & ->); [reflexivity|lia|exact Hd]. }
    inv_ret H. cbn [cel_data] in Hd. congruence. }
  destruct (Z.eqb_spec type ASE_FILE_LINK_CEL).
  { inv_bind H. inv_ret H. cbn [cel_data] in Hd. congruence. }
  destruct (Z.eqb_spec type ASE_FILE_COMPRESSED_CEL) as [Hc|Hc];
    [|inv_ret H; congruence].
  do 2 inv_bind H. split; [auto|]. split; [|intros E; congruence].
  case_if H; [|inv_ret H; cbn [cel_data] in Hd; congruence].
  unfold bytes_per_pixel in *.
  unfold ASE_DOC_read_compressed_rgba, ASE_DOC_read_compressed_grayscale,
    ASE_DOC_read_compressed_indexed in H.
  destruct (depth S =? ASE_DEPTH_RGBA).
  { eapply ASE_DOC_read_compressed_data in H as (Ew & Eh & Hle); [|exact Hnone|exact Hd].
    rewrite Ew, Eh in *. rewrite s32_id in Hle by exact Hsize. exact Hle. }
  destruct (depth S =? ASE_DEPTH_GRAYSCALE).
  { eapply ASE_DOC_read_compressed_data in H as (Ew & Eh & Hle); [|exact Hnone|exact Hd].
    rewrite Ew, Eh in *. rewrite s32_id in Hle by exact Hsize. exact Hle. }
  destruct (depth S =? ASE_DEPTH_INDEXED).
  { eapply ASE_DOC_read_compressed_data in H as (Ew & Eh & Hle); [|exact Hnone|exact Hd].
    rewrite Ew, Eh in *. rewrite s32_id in Hle by exact Hsize. exact Hle. }
  inv_ret H. cbn [cel_data] in Hd. congruence.
Qed.

(** X23 for a raw cel of 2x1 RGBA pixels of which the stream holds six
    bytes. *)
Lemma ASE_Cel_read_body_pixel_buffer_witness :
  run (ASE_Cel_read_body true 0 sample_sprite (mkCel 0 3 4 0 0 255 None 0 0)
         ASE_FILE_RAW_CEL 0) (ASE__start_mem [2; 0; 1; 0; 9; 8; 7; 6; 5; 4])
    = Ret (mkCel 0 3 4 2 1 255 (Some [9; 8; 7; 6; 5; 4; 0; 0]) 0 0) /\
  Z.of_nat (length [9; 8; 7; 6; 5; 4; 0; 0]) = 2 * 1 * bytes_per_pixel 32.
Proof.
  assert (E : run (ASE_Cel_read_body true 0 sample_sprite (mkCel 0 3 4 0 0 255 None 0 0)
                     ASE_FILE_RAW_CEL 0) (ASE__start_mem [2; 0; 1; 0; 9; 8; 7; 6; 5; 4])
              = Ret (mkCel 0 3 4 2 1 255 (Some [9; 8; 7; 6; 5; 4; 0; 0]) 0 0))
    by (vm_compute; reflexivity).
  split; [exact E|].
  refine (proj2 (proj2 (ASE_Cel_read_body_pixel_buffer true 0%nat sample_sprite
                          (mkCel 0 3 4 0 0 255 None 0 0) ASE_FILE_RAW_CEL 0
                          (ASE__start_mem [2; 0; 1; 0; 9; 8; 7; 6; 5; 4]) _ _
                          eq_refl E eq_refl _)) eq_refl).
  vm_compute. split; discriminate.
Defined.

Lemma bind_Undefined {St A B} (m : M St A) (k : A -> M St B) s :
  m s = Undefined -> bind m k s = Undefined.
Proof. unfold bind. intros ->. reflexivity. Qed.

(** The input buffer of a payload that ends more than 16 bytes before
    the stream position is the null pointer. *)
Lemma ASE_DOC_read_compressed_null_ibuffer {U} asserts bpp fuel Cel EndPos
    (F : ASE__ctx U) :
  s32 (EndPos - tell_of F) < -16 ->
  ASE_DOC_read_compressed asserts bpp fuel Cel EndPos F = Undefined.
Proof.
  intros Hi. unfold ASE_DOC_read_compressed.
  unfold bind at 1. unfold io_tell. fold (tell_of F).
  replace (s32 (EndPos - tell_of F) + 16 <? 0) with true
    by (symmetry; apply Z.ltb_lt; lia).
  reflexivity.
Qed.



(** ** The palette, entry by entry *)

Lemma returns_ret {U A} (a : A) : returns (@ret (ASE__ctx U) A a).
Proof. intros F. eexists _, _. reflexivity. Qed.

Lemma returns_bind {U A B} (m : M (ASE__ctx U) A) (k : A -> M (ASE__ctx U) B) :
  returns m -> (forall a, returns (k a)) -> returns (bind m k).
Proof.
  intros Hm Hk F. destruct (Hm F) as (a & F1 & E). unfold bind. rewrite E. apply Hk.
Qed.

Lemma returns_read {U} n : returns (@io_read U n).
Proof. intros F. unfold io_read. destruct (cb_read _ _ _). eexists _, _. reflexivity. Qed.

Lemma returns_read8 {U} : returns (@ASE__read8 U).
Proof.
  apply returns_bind; [apply returns_read|]. intros [|? [|]]; apply returns_ret.
Qed.

Lemma returns_read16 {U} : returns (@ASE__read16 U).
Proof.
  apply returns_bind; [apply returns_read|]. intros [|? [|? [|]]]; apply returns_ret.
Qed.

Lemma returns_read32 {U} : returns (@ASE__read32 U).
Proof.
  apply returns_bind; [apply returns_read|].
  intros [|? [|? [|? [|? [|]]]]]; apply returns_ret.
Qed.

Lemma returns_read8s {U} n : returns (@ASE__read8s U n).
Proof.
  induction n as [|n IH]; cbn [ASE__read8s]; [apply returns_ret|].
  apply returns_bind; [apply returns_read8|]. intros b.
  apply returns_bind; [exact IH|]. intros bs. apply returns_ret.
Qed.

Lemma returns_read_string {U} : returns (@ASE_DOC_read_string U).
Proof.
  apply returns_bind; [apply returns_read16|]. intros n.
  apply returns_bind; [apply returns_read8s|]. intros s. apply returns_ret.
Qed.

(** One palette entry below the last: the colour lands at the live count,
    with red and blue exchanged, and the count grows by one. *)
Lemma ASE_Palette_read_entry_appends {U} R (F : ASE__ctx U) R' F' :
  0 <= ncolors R < 255 ->
  ASE_Palette_read_entry R F = Ret (R', F') ->
  ncolors R' = ncolors R + 1 /\
  exists c, colors R' = <[Z.to_nat (ncolors R) := c]> (colors R).
Proof.
  intros Hn H. unfold ASE_Palette_read_entry in H. do 2 inv_bind H.
  assert (E : u8 (ncolors R + 1) = ncolors R + 1) by (unfold u8; apply Z.mod_small; lia).
  rewrite E in H. replace (ncolors R + 1 - 1) with (ncolors R) in H by lia.
  replace (ncolors R <? 0) with false in H by (symmetry; apply Z.ltb_ge; lia).
  inv_bind H. inv_ret H. cbn [ncolors colors]. split; [reflexivity|].
  eexists. apply list_insert_insert_eq.
Qed.

(** The entry that would bring the count to 256: the counter wraps to 0
    and the exchange of red and blue addresses [colors[-1]]. *)
Lemma ASE_Palette_read_entry_last {U} R (F : ASE__ctx U) :
  ncolors R = 255 -> ASE_Palette_read_entry R F = Undefined.
Proof.
  intros Hn. unfold ASE_Palette_read_entry.
  destruct (returns_read16 F) as (Flags & F1 & E1). rewrite (bind_eq_Ret _ _ _ _ _ E1).
  destruct (returns_read32 F1) as (rgba & F2 & E2). rewrite (bind_eq_Ret _ _ _ _ _ E2).
  rewrite Hn. reflexivity.
Qed.

Lemma ASE_Palette_read_entry_returns {U} R (F : ASE__ctx U) :
  0 <= ncolors R < 255 -> exists R' F', ASE_Palette_read_entry R F = Ret (R', F').
Proof.
  intros Hn. unfold ASE_Palette_read_entry.
  destruct (returns_read16 F) as (Flags & F1 & E1). rewrite (bind_eq_Ret _ _ _ _ _ E1).
  destruct (returns_read32 F1) as (rgba & F2 & E2). rewrite (bind_eq_Ret _ _ _ _ _ E2).
  assert (E : u8 (ncolors R + 1) = ncolors R + 1) by (unfold u8; apply Z.mod_small; lia).
  rewrite E. replace (ncolors R + 1 - 1 <? 0) with false by (symmetry; apply Z.ltb_ge; lia).
  destruct (negb _).
  - destruct (returns_read_string F2) as (s & F3 & E3).
    unfold bind at 1. unfold bind at 1. rewrite E3. eexists _, _. reflexivity.
  - eexists _, _. reflexivity.
Qed.

Lemma ASE_Palette_read_loop_overflow {U} : forall n R (F : ASE__ctx U),
  0 <= ncolors R <= 255 ->
  256 - ncolors R <= Z.of_nat n ->
  ASE_Palette_read_loop n R F = Undefined.
Proof.
  induction n as [|n IH]; intros R F Hr Hn; [lia|].
  cbn [ASE_Palette_read_loop].
  destruct (Z.eq_dec (ncolors R) 255) as [E|E].
  - unfold bind. rewrite (ASE_Palette_read_entry_last R F E). reflexivity.
  - destruct (ASE_Palette_read_entry_returns R F ltac:(lia)) as (R' & F' & E').
    rewrite (bind_eq_Ret _ _ _ _ _ E').
    apply ASE_Palette_read_entry_appends in E' as [Hc _]; [|lia].
    apply IH; lia.
Qed.

Lemma ASE_Palette_read_loop_appends {U} : forall n R (F : ASE__ctx U) R' F',
  0 <= ncolors R -> ncolors R + Z.of_nat n <= 255 ->
  ASE_Palette_read_loop n R F = Ret (R', F') ->
  ncolors R' = ncolors R + Z.of_nat n /\
  length (colors R') = length (colors R) /\
  forall i, (Z.of_nat i < ncolors R \/ ncolors R + Z.of_nat n <= Z.of_nat i) ->
            colors R' !! i = colors R !! i.
Proof.
  induction n as [|n IH]; intros R F R' F' H0 Hn H; cbn [ASE_Palette_read_loop] in H.
  - inv_ret H. split; [lia|]. auto.
  - inv_bind H. apply ASE_Palette_read_entry_appends in Hm as [Hc [c Ec]]; [|lia].
    apply IH in H as (Hc' & Hl & Hi); [|lia|lia].
    split; [lia|]. split; [rewrite Hl, Ec; apply length_insert|].
    intros i Hi'. rewrite Hi by lia. rewrite Ec.
    apply list_lookup_insert_ne. lia.
Qed.

Lemma ASE_Palette_read_range {U} Prev (F : ASE__ctx U) From To :
  run palette_chunk_range F = Ret (From, To) ->
  exists F1,
    ASE_Palette_read Prev F =
      (if To =? INT_MAX then (ASE_Palette_read_loop 256 Prev ;; fail_undefined)
       else ASE_Palette_read_loop (Z.to_nat (To - From + 1)) Prev) F1.
Proof.
  intros H. apply run_Ret in H as [F1 H]. exists F1.
  unfold palette_chunk_range, ASE_Palette_read in *.
  inv_bind H. rewrite (bind_eq_Ret _ _ _ _ _ Hm).
  inv_bind H. rewrite (bind_eq_Ret _ _ _ _ _ Hm0).
  inv_bind H. rewrite (bind_eq_Ret _ _ _ _ _ Hm1).
  inv_bind H. rewrite (bind_eq_Ret _ _ _ _ _ Hm2).
  inv_ret H. reflexivity.
Qed.

(** X24. A palette chunk with enough entries to bring the colour count to
    256 or beyond cannot be read without an access outside the colour array:
    the [uint8_t] count wraps to 0 when entry 255 is stored, and the
    exchange of red and blue then addresses [colors[-1]]. *)
Theorem ASE_Palette_read_full_palette_undefined {U} Prev (F : ASE__ctx U) From To :
  run palette_chunk_range F = Ret (From, To) ->
  0 <= ncolors Prev <= 255 ->
  256 - ncolors Prev <= To - From + 1 ->
  run (ASE_Palette_read Prev) F = Undefined.
Proof.
  intros Hr Hc Hn. destruct (ASE_Palette_read_range Prev F From To Hr) as [F1 E].
  unfold run. rewrite E.
  destruct (To =? INT_MAX).
  - unfold bind. rewrite ASE_Palette_read_loop_overflow; [reflexivity|exact Hc|lia].
  - rewrite ASE_Palette_read_loop_overflow; [reflexivity|exact Hc|lia].
Qed.

(** X24 on a chunk for the entries 0..255, read into the palette of a fresh
    sprite. *)
Lemma ASE_Palette_read_full_palette_undefined_witness :
  run (ASE_Palette_read zero_palette)
      (ASE__start_mem ([0;1;0;0; 0;0;0;0; 255;0;0;0] ++ replicate 8 0)) = Undefined.
Proof.
  apply (ASE_Palette_read_full_palette_undefined zero_palette
           (ASE__start_mem ([0;1;0;0; 0;0;0;0; 255;0;0;0] ++ replicate 8 0)) 0 255).
  - vm_compute. reflexivity.
  - vm_compute. split; discriminate.
  - vm_compute. discriminate.
Defined.

(** X25. A palette chunk for the entries [From..To] that keeps the colour
    count below 256 appends its [To - From + 1] colours at the live count,
    wherever [From] is: the count grows by that number, and the entries
    below the old count and from the new count on are unchanged. *)
Theorem ASE_Palette_read_appends_at_count {U} Prev (F : ASE__ctx U) From To R :
  run palette_chunk_range F = Ret (From, To) ->
  0 <= ncolors Prev -> From <= To -> ncolors Prev + (To - From + 1) <= 255 ->
  run (ASE_Palette_read Prev) F = Ret R ->
  ncolors R = ncolors Prev + (To - From + 1) /\
  length (colors R) = length (colors Prev) /\
  forall i, (Z.of_nat i < ncolors Prev \/ ncolors R <= Z.of_nat i) ->
            colors R !! i = colors Prev !! i.
Proof.
  intros Hr H0 Hle Hn H. destruct (ASE_Palette_read_range Prev F From To Hr) as [F1 E].
  unfold run in H. rewrite E in H.
  destruct (Z.eqb_spec To INT_MAX) as [E'|E'].
  - unfold bind in H. destruct (ASE_Palette_read_loop 256 Prev F1) as [[? ?]| | |];
      discriminate H.
  - destruct (ASE_Palette_read_loop _ Prev F1) as [[R0 F']| | |] eqn:El; try discriminate H.
    injection H as ->.
    apply ASE_Palette_read_loop_appends in El as (Hc & Hl & Hi); [|lia|lia].
    rewrite Z2Nat.id in Hc, Hi by lia.
    split; [exact Hc|split; [exact Hl|]]. intros i Hi'. apply Hi. lia.
Qed.

(** X25 on [C2_palette_chunk], for the entries 5..7, read into the palette
    of a fresh sprite: the count becomes 3. *)
Lemma ASE_Palette_read_appends_at_count_witness :
  exists R,
    run (ASE_Palette_read zero_palette) (ASE__start_mem C2_palette_chunk) = Ret R /\
    ncolors R = ncolors zero_palette + (7 - 5 + 1).
Proof.
  eexists. split; [vm_compute; reflexivity|].
  match goal with
  | |- ncolors ?R = _ =>
      apply (ASE_Palette_read_appends_at_count zero_palette
               (ASE__start_mem C2_palette_chunk) 5 7 R)
  end.
  - vm_compute. reflexivity.
  - vm_compute. discriminate.
  - vm_compute. discriminate.
  - vm_compute. discriminate.
  - vm_compute. reflexivity.
Defined.
